(* ===== verification/_CoqProject ===== *)
-Q . S2P
Prelude.v
CLayout.v
CLayoutFacts.v
VmlinuxBase.v
VmlinuxSock.v
VmlinuxNet.v
VmlinuxTask.v
LayoutThms.v
BpfEnv.v
LruKernel.v
RingBuffer.v
Helper.v
NetworkProbe.v
NetpolicyDrop.v
SyscallProbe.v
Fixtures.v
HelperThms.v
NetworkProbeFacts.v
NetworkProbeSpec.v
NetworkProbeThms.v
NetworkProbeWitness.v
Concurrency.v
NetpolicySpec.v
NetpolicyThms.v
FullMaps.v
ProbeReads.v
RustStd.v
Controller.v
System.v
ControllerThms.v
SystemFacts.v
SystemSpec.v
SystemThms.v
SystemWitness.v
Traffic.v
TrafficFacts.v
TrafficThms.v
TrafficWitness.v
EndToEnd.v
SyscallRecorder.v
SyscallRecorderFacts.v
SyscallRecorderThms.v
Broker.v
BrokerFacts.v
Delivery.v
DeliveryFacts.v
DeliveryThms.v
DeliveryWitness.v
SyscallDelivery.v
SyscallDeliveryThms.v
PodDetails.v
Reconciler.v
ReconcilerThms.v
RustText.v
PodWatcher.v
PodWatcherThms.v
Node.v
Auth.v
GoStd.v
KubePolicy.v
Matcher.v
MatcherThms.v
StandardPolicy.v
StandardPolicyFacts.v
StandardPolicyThms.v
CiliumPolicy.v
BrokerQueries.v
PolicyService.v
PolicyStore.v
Aggregator.v
FlowAudit.v
Retention.v
ServiceWatcher.v
WatcherWitness.v
WatchedPod.v
PolicyWitness.v
AuditWitness.v
AggregatorThms.v
Pipeline.v
Seccomp.v
