(* ===== verification/Prelude.v ===== *)
(** * A model of kguardian, from the kernel to the policies

    kguardian watches the traffic and the system calls of Kubernetes pods.  Its core is the C code
    under [controller/src/bpf/]: three eBPF objects that run in the kernel.  On each node a controller
    ([controller/src/*.rs]) loads them, reads their ring buffers and posts what they report to a broker
    ([broker/src/*.rs]), which stores it.  From the tables of the broker an advisor ([advisor/]) generates
    network policies and seccomp profiles, and an evaluator ([evaluator/]) tells which of the flows a
    policy would deny.  This library models that path, from the hooks to the policies and back to the
    verdicts on the same flows, and proves what it does.

    ** The program

    - [helper.h]: the maps [inode_num] (namespaces of the pods of the node), [ignore_ips] and
      [allowed_syscalls], of which every object has its own copy, the address filter and the namespace
      test.
    - [network_probe.bpf.c]: four hooks (UDP send, TCP state change, the entry and the return of
      accept).  A flow is announced once: [is_new_connection] records it in the LRU map [connections],
      and its first sight is sent through the ring buffer [network_events].
    - [netpolicy_drop.bpf.c]: four hooks (TCP retransmission, connect, state change, UDP send) that
      count the SYNs of each connection attempt in [connection_tracking] and report, through
      [policy_drop_events], the attempts that four SYNs leave unanswered.
    - [syscall.bpf.c]: one tracepoint that sends the number of each system call of a tracked pod,
      filtered by the allowlist, through [syscall_events].
    - [bpf.rs]: loads the allowlist, decodes the records of the three ring buffers and sends them on
      three channels, registers the namespaces of new pods in the three objects and the addresses to
      ignore in one of them; it stops when a receiver is gone or when [poll] keeps failing.
    - [network.rs]: two tasks that turn the events into entries for the broker, drop those that the
      traffic cache has seen, and post the others in batches, which are kept when a post fails.
    - [syscall.rs]: a task that remembers the system calls of each pod, and one that posts, every ten
      seconds, the sets that have changed.
    - [add.rs]: the broker inserts the entries that it does not find in [pod_traffic], writes one row
      for each pod in [pod_syscalls] and in [pod_details], and one for each address in [svc_details].
    - [pod_watcher.rs], [container.rs]: the controller of a node posts the pods that it finds, and
      registers the network namespaces of those that are to be watched; [pod_reconciler.rs] marks dead,
      pass after pass, the rows of the pods that are gone; [service_watcher.rs] posts the services.
    - [get.rs], [auth.rs], [retention.rs]: the broker answers queries on its tables, to those who send
      its token, and prunes old verdicts and dead pods.
    - [audit.rs]: each new row is queued and sent to the evaluator, and the verdicts are stored.
    - [advisor/pkg/network], [advisor/pkg/api]: a NetworkPolicy or a CiliumNetworkPolicy that allows the
      traffic of a pod, whose peers are named by the labels of the pods and services that the broker
      knows; [advisor/pkg/k8s/seccomp.go]: a profile that allows the system calls of a pod.
    - [evaluator/pkg]: [store] follows the audit policies of the cluster, [matcher] evaluates a flow
      against them, [server] answers the broker, [status] writes the counts into the policies.

    ** The model

    Data.  Integers are [Z] with their wrap-around written out (this file).  Addresses and ports stay
    in the byte order the code keeps them in.  Memory that crosses a boundary (the socket read from
    the kernel, the record of a tracepoint, the records of the ring buffers) is a list of bytes;
    members are loaded and stored at the offsets of the C ABI for x86-64, which [CLayout.v] computes
    from the declarations and [CLayoutFacts.v] proves sound.  [VmlinuxBase.v], [VmlinuxSock.v],
    [VmlinuxNet.v] and [VmlinuxTask.v] hold the declarations of [vmlinux.h] that the structures read
    by the probes are made of; [LayoutThms.v] states the facts about them.

    Environment.  What the C code calls outside the repository is the interface of [BpfEnv.v]: the
    class [BpfKernel] lists the operations of maps and ring buffers and the byte swap, the class
    [BpfKernelLaws] their documented behaviour (an update below capacity is faithful, a lookup changes
    nothing but the order of an LRU list, a reservation hands out as many bytes as asked, of any value, a
    new per-CPU element is zero on the other CPUs).  The record [kctx] is what one invocation reads
    from the kernel: time, thread, CPU, and [core_read], the bytes that a [BPF_CORE_READ] fetches.
    Theorems are proved for any environment that has the laws; [LruKernel.v] is an executable one
    with real capacities, on which every theorem is also applied to a concrete run ([Fixtures.v] and
    the files named [..Witness.v], or the end of the file of the theorems).  [RingBuffer.v] has the reserve, fill and submit sequence.
    The caches of the controller (moka) are the classes [TrafficCache] and [SyscallCache], with laws
    that let them forget when they are full; the names of the system calls (libseccomp) are a function.

    Probes.  Each C function is a definition of the same name in the state monad [Bpf S], where [S]
    is the record of the maps of the object: [Helper.v] ([should_filter_traffic],
    [get_and_validate_inum]), [NetworkProbe.v], [NetpolicyDrop.v], [SyscallProbe.v].  A function whose
    name two sources share is told apart by its file.  A write through a pointer into a map is
    [bpf_map_modify]; a null pointer is [None] (or 0 for a kernel address).  A history of an object is
    a list of invocations.

    User space.  [RustStd.v] has what the Rust code uses of the standard library.  [Controller.v]:
    [populate_syscall_allowlist], [classify_poll_error], the three callbacks, and the poll loop, one
    turn at a time.  [System.v]: the three objects, the loop and its channels as one state, and the
    events that change it: a hook fires, the loop takes a turn, a receiver goes away.  [Traffic.v]: the
    two tasks of network.rs, one wake-up at a time, with the pods that the watcher finds.
    [SyscallRecorder.v]: the two tasks of syscall.rs; a pass is cut at its post, between which system
    calls are received.  [Broker.v]: the handlers of the broker as functions on its tables, with the
    NULLs of SQL and the primary keys.  [Delivery.v] and [SyscallDelivery.v]: the tasks with the broker;
    a post may not arrive, an answer may be lost, other controllers post too.  [PodDetails.v]: the
    tables [pod_details] and [svc_details], with the manifests as JSON values.  [Reconciler.v]: the pods
    of the cluster, the posts of the watchers, the passes of the reconcilers of all nodes, cut between
    their requests, and the table, as one state with its events.
    [RustText.v] has the splitting, joining and trimming of text, with its laws.  [PodWatcher.v]: what
    is read of a Kubernetes object, and one definition for each function of pod_watcher.rs and
    container.rs; the API server, containerd and [/proc] are records of what they answer while a pod is
    processed.  [Node.v]: the watcher and the tasks of network.rs, which share the map of the containers.
    [ServiceWatcher.v]: the services, and their rows.  [Auth.v]: the URL of a post, the settings.

    The broker, continued.  [BrokerQueries.v]: one definition for each query, a function of the rows of
    the table; the collation of the database is the class [Collation].  [Auth.v]: which requests reach a
    handler.  [Retention.v]: the batches of a pass, between which other statements change the table.
    [FlowAudit.v]: the queue, the permits and the workers as one state with its events.

    Policies.  [GoStd.v] has what the Go code uses of its standard library, the addresses of package net
    of both families included.  [KubePolicy.v]: the API objects; what apimachinery makes of a label
    selector is the class [Selectors], its meaning for [matchLabels] the class [SelectorLaws].
    [Matcher.v], [StandardPolicy.v], [CiliumPolicy.v], [Seccomp.v]: one definition for each Go function
    of matcher.go, standard_policy.go, cilium_policy.go and seccomp.go.  [PolicyService.v]: the reads of
    the broker, on its tables, and the service that runs a generator.  [PolicyStore.v]: the watch events
    and [handleEvaluate].  [Aggregator.v]: the counters and the flush, cut at its patches; the merge of
    the API server is the class [ApiServer].

    The broker and the evaluator together.  [Pipeline.v]: one state with the table [pod_traffic], the audit
    of [FlowAudit.v], the requests under way, the watch, the informers and the aggregator; its events are
    the posts of the controllers, the turns of the dispatcher and of the workers, the turns of the
    handlers of the evaluator, the watch, the flushes and the restarts of the evaluator.

    ** The theorems

    - [NetworkProbeThms.v]: the connection probe refines an observer that knows the flows seen, the
      accepts in progress and the events sent ([NetworkProbeSpec.v]; [NetworkProbeFacts.v] reduces
      every hook to the flow it observes).  From the refinement: exact reporting, no duplicates,
      completeness, soundness of the events, the meaning of the records of [connections], and what
      happens when the ring buffer is full and when an accept changes CPU.
    - [FullMaps.v]: the same two probes when their LRU maps are full, without any bound on what is
      tracked: they refine an observer, and a machine per connection, that may forget.  The connection
      probe still misses no datagram and no state change and invents nothing, and the policy-drop probe
      raises no alarm that three retransmissions have not earned.
    - [Concurrency.v]: [is_new_connection] cut into its accesses to the map, with any number of threads
      in any interleaving; it refines the sequential definition, never loses a flow, and can report one
      twice.
    - [NetpolicyThms.v]: the policy-drop probe refines one small machine per connection
      ([NetpolicySpec.v]).  From it: exactly one report per blocked connection, at the third
      retransmission, retried when refused; none for an answered one; soundness; and the connections
      that the connect hook misses.
    - [ProbeReads.v]: the footprint of each hook, that is the helpers and the members of kernel structures
      that it reads; they are declared in vmlinux.h with the widths that the code takes, and a hook depends
      on the kernel through them alone.
    - [ControllerThms.v]: exact reporting of system calls, with the allowlist of the controller and
      without one.
    - [HelperThms.v], [ControllerThms.v], [LayoutThms.v]: the checks, the user-space side, the layouts.
    - [SystemThms.v]: the whole of [System.v] refines a specification in which the registered
      namespaces grow with the turns of the loop ([SystemSpec.v]; [SystemFacts.v] has the invariants);
      each record is sent, waiting, or met a closed channel, and then the loop ends.
    - [TrafficThms.v] (with [TrafficFacts.v]): the entries of the two tasks are conserved, made once per
      flow, posted in time; the tasks do not disturb each other; an entry dropped during an outage is
      never made again.
    - [SyscallRecorderThms.v] (with [SyscallRecorderFacts.v]): the broker is told the names that were
      observed, all of them, and the tasks come to rest.
    - [EndToEnd.v]: from the first datagram of a pod that is registered on the fly to its entry; and an
      accept that changes CPU, whose event no pod claims.
    - [DeliveryThms.v] (with [BrokerFacts.v] and [DeliveryFacts.v]): what is acknowledged has a row, what
      is posted again is stored once, no batch is refused; and the flows that the search of the broker
      takes for others.
    - [SyscallDeliveryThms.v]: a pass that is answered is stored; and the pod whose row keeps every
      batch of a node from being stored.
    - [PodWatcherThms.v]: what is done with a pod on every path; the periodic
      list fills the gaps of the watch; which pods count as ready; the two searches for the workload
      agree; settings and container identifiers are parsed exactly.
    - [Node.v]: only pods that are to be watched appear in the entries, except that the network namespace
      of a pod that is gone may be given to another; the poll loop is told only of known namespaces.
    - [WatchedPod.v]: from a pod that the watcher sees to the entry of its first datagram; every event
      that is sent is of a known pod, but for the accepts that change CPU.
    - [ServiceWatcher.v]: the rows of the services follow the watch.
    - [ReconcilerThms.v]: in any interleaving, the row of a live pod is not dead, as long as no pod comes
      back under its name and its address; a pass that nothing disturbs marks exactly the rows of the
      pods that are gone; and the pod that does come back, marked dead while it lives.
    - [MatcherThms.v]: the matcher implements the semantics of network policies, stated with quantifiers
      over rules, peers and ports, and judges a flow whose peer is unknown by its address and ports; a cluster policy agrees with the namespaced one it generalises.
    - [StandardPolicyThms.v] (with [StandardPolicyFacts.v]): a generated policy allows exactly the flows
      that the rows show, and does not depend on the order of the rows; [CiliumPolicy.v]: the same for
      the Cilium policies, as far as they tell peers apart.
    - [PolicyService.v]: from an event of the probe, through the controller, the broker and the
      advisor, to the verdict of the evaluator that the flow is allowed; so it is for a flow that the
      drop probe has seen blocked; and which pods an address or a name can stand for.
    - [BrokerQueries.v], [Auth.v]: limits, orders and filters of the queries; the token guards all
      requests but those for two open paths and those whose method is OPTIONS, and the advisor has none.
    - [PolicyStore.v]: the store holds each policy as the last event about it that could be converted
      left it, tombstones included, and the evaluation of a flow leaves no policy out.
    - [FlowAudit.v]: no flow is lost but those shed, the audit comes to rest, the stored rows are the
      answers; and a generated policy with peers named by labels denies the flow it was learnt from.
    - [Pipeline.v]: each stored verdict is that of a policy that the watch showed at a moment of the run;
      the aggregator was told of each, so that after a flush the status of the policy covers the stored
      rows; and no new flow is left unjudged while no answer is lost.
    - [AggregatorThms.v]: a status is an account of the verdicts, complete
      after a flush; what a restart and a policy created again do to it.
    - [Retention.v]: the passes over both tables are bounded, exact when nothing disturbs them, and spare what is alive.
    - [Seccomp.v]: what the broker has acknowledged for a pod, its profile allows, and nothing else.

    ** Bounds

    Runs are lists, and no definition needs fuel but the passes of [Retention.v], which the code bounds by
    200 batches.  The theorems about whole runs of the probes assume
    that what is tracked fits the maps ([fits], [run_fits], [run_room]: fewer flows, accepts or
    connections than [max_entries]), since an LRU map that is full forgets; those of [FullMaps.v] do not.
    Those that say so also assume room in the ring buffer ([ring_accepts]), or take the refusals as given
    ([refusals]).  In
    user space [has_room] and [in_room] say the same of the caches.  The concrete runs discharge them.

    ** What is not modelled

    Invocations of a hook are atomic, but for [Concurrency.v]; so are the handlers of the broker.  The hooks
    of [netpolicy_drop.bpf.c] about one TCP connection are not interleaved, as the kernel calls them
    with the socket locked.  The evaluator reads its policies and its informers at one moment for each
    request.  The
    channels are unbounded: a full one only delays the loop.  The padding bytes of map keys are taken to
    be equal (the C code leaves them to the compiler; [conn_attempt_padding] counts them).  IPv6 sockets
    reach the hooks that do not test the family, and are modelled as the code reads them: through the
    IPv4 members.  A pass over the system calls reads the sets at one moment; a pod is processed in one
    step, although the watch and the periodic list may take turns at its requests.  Text is ASCII: the
    blanks that [trim] knows beyond it are left aside.  Loading and attaching the objects, HTTP, JSON and
    SQL are taken for what their libraries document.  The advisor decodes
    whole pods and services; only the labels and the selector that it reads are modelled, and that another
    field does not decode is left out.  A query without an order returns the rows as the
    table holds them, in any order.  The Kubernetes and containerd clients, the start-up and the version
    check of the broker, the command line of the advisor, the user interface and the LLM bridge are
    not modelled. *)

From coqutil Require Export Byte LittleEndianList.
From stdpp Require Export base numbers option gmap strings tactics list.
#[global] Open Scope Z_scope.

(** ** Notation scope and hint databases of the development *)

Declare Scope kg_scope.
Delimit Scope kg_scope with kg.
#[global] Open Scope kg_scope.

Create HintDb kg discriminated.
Create Rewrite HintDb kg_rw.

(** ** Machine-width unsigned integers

    A w-bit C unsigned integer is a [Z] in [0, 2^w); every arithmetic operation that the C code
    performs on it is followed by the reduction modulo [2^w]. *)

Definition wrap (w z : Z) : Z := z `mod` 2 ^ w.
Definition u8_of (z : Z) : Z := wrap 8 z.
Definition u16_of (z : Z) : Z := wrap 16 z.
Definition u32_of (z : Z) : Z := wrap 32 z.
Definition u64_of (z : Z) : Z := wrap 64 z.

(** [x++] on a [__u32]. *)
Definition u32_succ (z : Z) : Z := u32_of (z + 1).

Lemma wrap_small (w z : Z) : 0 ≤ z < 2 ^ w → wrap w z = z.
Proof. intros ?. by apply Z.mod_small. Qed.

Lemma wrap_range (w z : Z) : 0 ≤ w → 0 ≤ wrap w z < 2 ^ w.
Proof. intros ?. apply Z.mod_pos_bound. by apply Z.pow_pos_nonneg. Qed.

Lemma wrap_wrap (w z : Z) : wrap w (wrap w z) = wrap w z.
Proof. unfold wrap. by rewrite Zmod_mod. Qed.

Lemma u32_succ_small (z : Z) : 0 ≤ z < 2 ^ 32 - 1 → u32_succ z = z + 1.
Proof. intros ?. apply wrap_small. lia. Qed.

Lemma u32_succ_range (z : Z) : 0 ≤ u32_succ z < 2 ^ 32.
Proof. by apply wrap_range. Qed.

Lemma u32_succ_le (z : Z) : 0 ≤ z → u32_succ z ≤ z + 1.
Proof. intros Hz. unfold u32_succ, u32_of, wrap. apply Z.mod_le; lia. Qed.

(** ** Bytes in memory: reading and writing a slice of a byte array *)

Abbreviation byte := Init.Byte.byte.

Definition read_bytes (off n : nat) (bs : list byte) : list byte := take n (drop off bs).

Definition write_bytes (off : nat) (data bs : list byte) : list byte :=
  take off bs ++ data ++ drop (off + length data) bs.

(** Little-endian loads and stores of an [n]-byte integer at byte offset [off]. *)
Definition load_le (off n : nat) (bs : list byte) : Z := le_combine (read_bytes off n bs).
Definition store_le (off n : nat) (v : Z) (bs : list byte) : list byte :=
  write_bytes off (le_split n v) bs.

Lemma length_read_bytes (off n : nat) (bs : list byte) :
  (off + n ≤ length bs)%nat → length (read_bytes off n bs) = n.
Proof. intros ?. unfold read_bytes. rewrite length_take, length_drop. lia. Qed.

Lemma length_write_bytes (off : nat) (data bs : list byte) :
  (off + length data ≤ length bs)%nat → length (write_bytes off data bs) = length bs.
Proof.
  intros ?. unfold write_bytes. rewrite !length_app, length_take, length_drop. lia.
Qed.

Lemma read_write_same (off : nat) (data bs : list byte) :
  (off + length data ≤ length bs)%nat →
  read_bytes off (length data) (write_bytes off data bs) = data.
Proof.
  intros ?. unfold read_bytes, write_bytes.
  rewrite drop_app_length' by (rewrite length_take; lia).
  by rewrite take_app_length.
Qed.

Lemma read_write_disjoint (off n off' : nat) (data bs : list byte) :
  (off' + length data ≤ length bs)%nat →
  (off + n ≤ off' ∨ off' + length data ≤ off)%nat →
  read_bytes off n (write_bytes off' data bs) = read_bytes off n bs.
Proof.
  intros Hlen Hd. unfold read_bytes, write_bytes. apply list_eq; intros i.
  destruct (decide (i < n)%nat) as [Hi|Hi].
  2:{ by rewrite !lookup_take_ge by lia. }
  rewrite !lookup_take_lt by lia. rewrite !lookup_drop.
  destruct Hd as [Hd|Hd].
  - rewrite lookup_app_l by (rewrite length_take; lia). by rewrite lookup_take_lt by lia.
  - rewrite lookup_app_r by (rewrite length_take; lia). rewrite length_take.
    rewrite lookup_app_r by lia. rewrite lookup_drop. f_equal. lia.
Qed.

Lemma length_store_le (off n : nat) (v : Z) (bs : list byte) :
  (off + n ≤ length bs)%nat → length (store_le off n v bs) = length bs.
Proof. intros ?. apply length_write_bytes. rewrite length_le_split. lia. Qed.

Lemma load_store_same (off n : nat) (v : Z) (bs : list byte) :
  (off + n ≤ length bs)%nat → load_le off n (store_le off n v bs) = wrap (8 * Z.of_nat n) v.
Proof.
  intros ?. unfold load_le, store_le. rewrite <- (length_le_split n v) at 1.
  rewrite read_write_same by (rewrite length_le_split; lia).
  rewrite le_combine_split. unfold wrap. by rewrite (Z.mul_comm 8).
Qed.

Lemma load_store_disjoint (off n off' n' : nat) (v : Z) (bs : list byte) :
  (off' + n' ≤ length bs)%nat →
  (off + n ≤ off' ∨ off' + n' ≤ off)%nat →
  load_le off n (store_le off' n' v bs) = load_le off n bs.
Proof.
  intros ??. unfold load_le, store_le.
  by rewrite read_write_disjoint by (rewrite length_le_split; lia).
Qed.

Lemma load_le_range (off n : nat) (bs : list byte) :
  0 ≤ load_le off n bs < 2 ^ (8 * Z.of_nat n).
Proof.
  unfold load_le. pose proof (le_combine_bound (read_bytes off n bs)) as Hb.
  split; [lia|]. eapply Z.lt_le_trans; [apply Hb|].
  apply Z.pow_le_mono_r; [lia|]. unfold read_bytes. rewrite length_take. lia.
Qed.

(** ** Rounding up to an alignment *)

Definition align_up (z a : Z) : Z := (z + a - 1) / a * a.

Lemma align_up_ge (z a : Z) : 0 < a → z ≤ align_up z a.
Proof.
  intros ?. unfold align_up.
  pose proof (Z.div_mod (z + a - 1) a ltac:(lia)).
  pose proof (Z.mod_pos_bound (z + a - 1) a ltac:(lia)). lia.
Qed.

Lemma align_up_lt (z a : Z) : 0 < a → align_up z a < z + a.
Proof.
  intros ?. unfold align_up.
  pose proof (Z.div_mod (z + a - 1) a ltac:(lia)).
  pose proof (Z.mod_pos_bound (z + a - 1) a ltac:(lia)). lia.
Qed.

Lemma align_up_divide (z a : Z) : (a | align_up z a).
Proof. unfold align_up. apply Z.divide_factor_r. Qed.

#[export] Hint Resolve align_up_ge align_up_divide u32_succ_range : kg.
#[export] Hint Rewrite length_write_bytes length_store_le using (simpl in *; lia) : kg_rw.

(** ** Filters *)

Lemma filter_keep {A} (P : A → Prop) `{!∀ x, Decision (P x)} (l : list A) :
  (∀ x, x ∈ l → P x) → filter P l = l.
Proof.
  intros Hl. induction l as [|x l IH]; [done|]. rewrite filter_cons_True by (apply Hl; by left).
  f_equal. apply IH. intros y Hy. apply Hl. by right.
Qed.

Lemma filter_none {A} (P : A → Prop) `{!∀ x, Decision (P x)} (l : list A) :
  (∀ x, x ∈ l → ¬ P x) → filter P l = [].
Proof.
  intros Hl. induction l as [|x l IH]; [done|]. rewrite filter_cons_False by (apply Hl; by left).
  apply IH. intros y Hy. apply Hl. by right.
Qed.

(** ** Lists with an element taken out, and counts *)

Lemma bind_delete {A B} (f : A → list B) (l : list A) (i : nat) (x : A) :
  l !! i = Some x → l ≫= f ≡ₚ f x ++ (delete i l ≫= f).
Proof. intros Hi. by rewrite (delete_Permutation _ _ _ Hi) at 1. Qed.

Lemma omap_delete {A B} (f : A → option B) (l : list A) (i : nat) (x : A) :
  l !! i = Some x → omap f l ≡ₚ omap f [x] ++ omap f (delete i l).
Proof.
  intros Hi. rewrite <- (take_drop_middle l i x Hi) at 1. rewrite delete_take_drop, !omap_app.
  change (x :: drop (S i) l) with ([x] ++ drop (S i) l). rewrite omap_app, Permutation_app_swap_app. done.
Qed.

Lemma submseteq_count {A} (P : A → Prop) `{!∀ x, Decision (P x)} (l l' : list A) :
  l ⊆+ l' → (length (filter P l) ≤ length (filter P l'))%nat.
Proof. induction 1; repeat (rewrite !filter_cons; repeat case_decide; simpl); lia. Qed.

Lemma count_fmap {A B} (f : A → B) (P : B → Prop) `{!∀ x, Decision (P x)} (l : list A) :
  length (filter P (f <$> l)) = length (filter (λ x, P (f x)) l).
Proof. induction l as [|x l IH]; [done|]. rewrite fmap_cons, !filter_cons. case_decide; simpl; by rewrite IH. Qed.

(** ** Tactics *)

(** Case analysis on the scrutinee of every [match] or [if] of the goal. *)
Ltac case_all :=
  repeat match goal with
  | |- context [match ?x with _ => _ end] => let E := fresh "E" in destruct x eqn:E
  end.

(** Split conjunctions and close each part. *)
Ltac split_by tac := repeat split; tac.
