(* ===== verification/CLayoutFacts.v ===== *)
(** * The layout rules are sound

    For every well-formed type: alignments are powers of two that divide sizes, members are aligned
    and inside their object, the direct members of a struct do not overlap, a bit-field does not
    cross its storage unit; a member that is stored is read back and the others are untouched. *)

From S2P Require Import Prelude CLayout.

Scheme ctype_mut_ind := Induction for ctype Sort Prop
  with members_mut_ind := Induction for members Sort Prop.
Combined Scheme ctype_members_ind from ctype_mut_ind, members_mut_ind.

(** ** Alignments *)

Lemma is_pow2_size_cases (z : Z) : is_pow2_size z = true → z = 1 ∨ z = 2 ∨ z = 4 ∨ z = 8.
Proof. unfold is_pow2_size. rewrite !orb_true_iff, !Z.eqb_eq. tauto. Qed.

Lemma is_pow2_size_pos (z : Z) : is_pow2_size z = true → 0 < z.
Proof. intros [->|[->|[->| ->]]]%is_pow2_size_cases; lia. Qed.

Lemma is_pow2_size_max (a b : Z) :
  is_pow2_size a = true → is_pow2_size b = true → is_pow2_size (a `max` b) = true.
Proof.
  intros [->|[->|[->| ->]]]%is_pow2_size_cases [->|[->|[->| ->]]]%is_pow2_size_cases; done.
Qed.

Lemma divide_max_l (a b : Z) :
  is_pow2_size a = true → is_pow2_size b = true → (a | a `max` b).
Proof.
  intros [->|[->|[->| ->]]]%is_pow2_size_cases [->|[->|[->| ->]]]%is_pow2_size_cases;
    apply Z.mod_divide; done.
Qed.

Lemma divide_max_r (a b : Z) :
  is_pow2_size a = true → is_pow2_size b = true → (b | a `max` b).
Proof. intros ??. rewrite Z.max_comm. by apply divide_max_l. Qed.

#[export] Hint Resolve is_pow2_size_pos is_pow2_size_max divide_max_l divide_max_r : kg.

(** What well-formedness gives for the head of a member list. *)
Lemma wf_bits_inv (t : ctype) (n : string) (w : Z) (r : members) :
  wf_members (MBits t n w r) = true →
  wf_type t = true ∧ 0 ≤ w ≤ 8 * sizeof t ∧ alignof t = sizeof t ∧
  (0 < w ∨ n = "") ∧ wf_members r = true.
Proof.
  destruct t; simpl; try done;
    rewrite !andb_true_iff, orb_true_iff, !Z.leb_le, Z.ltb_lt, String.eqb_eq; intuition lia.
Qed.

Lemma wf_field_inv (t : ctype) (n : string) (r : members) :
  wf_members (MField t n r) = true → wf_type t = true ∧ wf_members r = true.
Proof. simpl. by rewrite andb_true_iff. Qed.

Lemma alignof_pow2_both :
  (∀ t, wf_type t = true → is_pow2_size (alignof t) = true) ∧
  (∀ ms, wf_members ms = true → is_pow2_size (members_align ms) = true).
Proof.
  apply ctype_members_ind; try done.
  - intros e IH n. simpl. rewrite andb_true_iff. tauto.
  - intros t IHt n r IHr [??]%wf_field_inv. simpl. auto with kg.
  - intros t IHt n w r IHr (?&?&?&?&?)%wf_bits_inv. simpl. case_match; auto with kg.
Qed.

Lemma alignof_pow2 (t : ctype) : wf_type t = true → is_pow2_size (alignof t) = true.
Proof. apply alignof_pow2_both. Qed.

Lemma members_align_pow2 (ms : members) :
  wf_members ms = true → is_pow2_size (members_align ms) = true.
Proof. apply alignof_pow2_both. Qed.

Lemma alignof_pos (t : ctype) : wf_type t = true → 0 < alignof t.
Proof. intros. by apply is_pow2_size_pos, alignof_pow2. Qed.

Lemma members_align_pos (ms : members) : wf_members ms = true → 0 < members_align ms.
Proof. intros. by apply is_pow2_size_pos, members_align_pow2. Qed.

#[export] Hint Resolve alignof_pow2 members_align_pow2 alignof_pos members_align_pos : kg.

(** The size of an object is a multiple of its alignment, so that the elements of an array are
    aligned. *)
Lemma alignof_divides_sizeof (t : ctype) : (alignof t | sizeof t).
Proof.
  induction t; simpl; auto using Z.divide_refl, align_up_divide.
  by apply Z.divide_mul_r.
Qed.

(** ** Positions only grow *)

Lemma bytes_of_bits_spec (bit : Z) : bit ≤ 8 * bytes_of_bits bit < bit + 8.
Proof.
  unfold bytes_of_bits. destruct (align_up_divide bit 8) as [q Hq]. rewrite Hq.
  rewrite Z.div_mul by lia.
  pose proof (align_up_ge bit 8 ltac:(lia)). pose proof (align_up_lt bit 8 ltac:(lia)). lia.
Qed.

Lemma bytes_of_bits_bytes (n : Z) : bytes_of_bits (8 * n) = n.
Proof. pose proof (bytes_of_bits_spec (8 * n)). lia. Qed.

Lemma field_pos_ge (t : ctype) (bit : Z) : wf_type t = true → bit ≤ 8 * field_pos t bit.
Proof.
  intros Hw. unfold field_pos. pose proof (bytes_of_bits_spec bit).
  pose proof (align_up_ge (bytes_of_bits bit) (alignof t) (alignof_pos t Hw)). lia.
Qed.

Lemma field_pos_aligned (t : ctype) (bit : Z) : (alignof t | field_pos t bit).
Proof. apply align_up_divide. Qed.

Lemma bitfield_pos_ge (t : ctype) (bit w : Z) :
  wf_type t = true → bit ≤ bitfield_pos (sizeof t) (alignof t) bit w.
Proof.
  intros Hw. unfold bitfield_pos. case_match; [lia|]. apply align_up_ge.
  pose proof (alignof_pos t Hw). lia.
Qed.

Lemma sizes_nonneg :
  (∀ t, wf_type t = true → 0 ≤ sizeof t) ∧
  (∀ ms, wf_members ms = true →
     (∀ bit, bit ≤ struct_end ms bit) ∧ 0 ≤ union_end ms).
Proof.
  apply ctype_members_ind; simpl; try done.
  - intros _ size Hs. apply is_pow2_size_pos in Hs. lia.
  - intros e IH n. rewrite andb_true_iff, Z.leb_le. intros [??]. apply Z.mul_nonneg_nonneg; auto.
  - intros tag ms IH Hw. specialize (IH Hw) as [IH _]. specialize (IH 0).
    pose proof (bytes_of_bits_spec (struct_end ms 0)).
    pose proof (align_up_ge (bytes_of_bits (struct_end ms 0)) _ (members_align_pos ms Hw)). lia.
  - intros tag ms IH Hw. specialize (IH Hw) as [_ IH].
    pose proof (align_up_ge (union_end ms) _ (members_align_pos ms Hw)). lia.
  - intros t IHt n r IHr [Ht Hr]%andb_true_iff. specialize (IHt Ht).
    destruct (IHr Hr) as [He Hu]. split; [|lia]. intros bit.
    pose proof (field_pos_ge t bit Ht) as Hp. unfold field_pos in Hp.
    etrans; [|apply He]. lia.
  - intros t IHt n w r IHr Hw. apply (wf_bits_inv t n w r) in Hw as (Ht&Hb&_&_&Hr).
    destruct (IHr Hr) as [He Hu]. split; [|pose proof (bytes_of_bits_spec w); lia]. intros bit.
    pose proof (bitfield_pos_ge t bit w Ht). etrans; [|apply He]. lia.
Qed.

Lemma sizeof_nonneg (t : ctype) : wf_type t = true → 0 ≤ sizeof t.
Proof. apply sizes_nonneg. Qed.

Lemma struct_end_ge (ms : members) (bit : Z) : wf_members ms = true → bit ≤ struct_end ms bit.
Proof. intros Hw. by apply sizes_nonneg. Qed.

#[export] Hint Resolve sizeof_nonneg struct_end_ge field_pos_aligned : kg.

(** ** Members are aligned and inside their object *)

(** The member of type [ft] at byte [o] fits in the bytes [lo, hi). *)
Definition member_ok (lo hi al o : Z) (ft : ctype) : Prop :=
  lo ≤ o ∧ o + sizeof ft ≤ hi ∧ (alignof ft | o) ∧ (alignof ft | al) ∧ wf_type ft = true.

Lemma member_ok_shift (lo hi al al' p o : Z) (ft : ctype) :
  member_ok 0 hi al o ft → (al | p) → (al | al') → lo ≤ p →
  member_ok lo (p + hi) al' (p + o) ft.
Proof.
  unfold member_ok. intros (?&?&?&?&?) ???.
  split_by ltac:(eauto using Z.divide_trans, Z.divide_add_r with lia).
Qed.

Lemma member_ok_weaken (lo hi al lo' hi' al' o : Z) (ft : ctype) :
  member_ok lo hi al o ft → lo' ≤ lo → hi ≤ hi' → (al | al') → member_ok lo' hi' al' o ft.
Proof. unfold member_ok. intuition eauto using Z.divide_trans with lia. Qed.

Lemma member_ok_self (t : ctype) :
  wf_type t = true → member_ok 0 (sizeof t) (alignof t) 0 t.
Proof. unfold member_ok. intuition auto using Z.divide_refl, Z.divide_0_r with lia. Qed.

(** The lookup of a name in the head of a member list finds a member of the head. *)
Definition find_head (t : ctype) (n f : string) : option (Z * ctype) :=
  if String.eqb n "" then find_member t f
  else if String.eqb n f then Some (0, t) else None.

Lemma find_head_ok (t : ctype) (n f : string) (o : Z) (ft : ctype) :
  wf_type t = true →
  (∀ f o ft, find_member t f = Some (o, ft) → member_ok 0 (sizeof t) (alignof t) o ft) →
  find_head t n f = Some (o, ft) → member_ok 0 (sizeof t) (alignof t) o ft.
Proof.
  unfold find_head. intros Hw IH. case_match; [by apply IH|].
  case_match; [|done]. intros [= <- <-]. by apply member_ok_self.
Qed.

Lemma find_member_ok_both :
  (∀ t, wf_type t = true → ∀ f o ft, find_member t f = Some (o, ft) →
     member_ok 0 (sizeof t) (alignof t) o ft) ∧
  (∀ ms, wf_members ms = true → ∀ f o ft,
     (∀ bit, 0 ≤ bit → find_in_struct ms f bit = Some (o, ft) →
        bit ≤ 8 * o ∧
        member_ok 0 (bytes_of_bits (struct_end ms bit)) (members_align ms) o ft) ∧
     (find_in_union ms f = Some (o, ft) →
        member_ok 0 (union_end ms) (members_align ms) o ft)).
Proof.
  apply ctype_members_ind; try done.
  - (* struct *)
    intros tag ms IH Hw f o ft Hf. simpl in *.
    apply (IH Hw f o ft) in Hf as [_ Hok]; [|lia].
    eapply member_ok_weaken; eauto using Z.divide_refl with lia.
    apply align_up_ge. auto with kg.
  - (* union *)
    intros tag ms IH Hw f o ft Hf. simpl in *. apply (IH Hw f o ft) in Hf.
    eapply member_ok_weaken; eauto using Z.divide_refl with lia.
    apply align_up_ge. auto with kg.
  - (* ordinary member *)
    intros t IHt n r IHr [Ht Hr]%wf_field_inv f o ft.
    specialize (IHt Ht). specialize (IHr Hr f).
    pose proof (sizeof_nonneg t Ht) as Hs. split.
    + intros bit Hbit. simpl. fold (find_head t n f) (field_pos t bit).
      pose proof (field_pos_ge t bit Ht) as Hp.
      set (e := 8 * (field_pos t bit + sizeof t)) in *.
      pose proof (struct_end_ge r e Hr) as He.
      pose proof (bytes_of_bits_spec (struct_end r e)) as Hb.
      destruct (find_head t n f) as [[o' ft']|] eqn:Hh.
      * intros [= <- <-]. apply find_head_ok in Hh; [|done..]. split; [destruct Hh; lia|].
        eapply member_ok_weaken; [|reflexivity| |apply Z.divide_refl].
        { eapply member_ok_shift; [done|apply field_pos_aligned|auto with kg|lia]. }
        lia.
      * intros Hf. apply IHr in Hf as [Hge Hok]; [|lia]. split; [lia|].
        eapply member_ok_weaken; [done|lia|lia|auto with kg].
    + simpl. fold (find_head t n f). destruct (find_head t n f) as [[o' ft']|] eqn:Hh.
      * intros [= <- <-]. apply find_head_ok in Hh; [|done..].
        eapply member_ok_weaken; [done|lia|lia|auto with kg].
      * intros Hf. apply IHr in Hf. eapply member_ok_weaken; [done|lia|lia|auto with kg].
  - (* bit-field *)
    intros t IHt n w r IHr Hw f o ft.
    apply wf_bits_inv in Hw as (Ht&Hw&_&_&Hr). specialize (IHr Hr f o ft).
    assert (members_align r | members_align (MBits t n w r)) as Hal.
    { simpl. case_match; auto using Z.divide_refl with kg. }
    split.
    + intros bit Hbit Hf. simpl in Hf. pose proof (bitfield_pos_ge t bit w Ht).
      apply IHr in Hf as [Hge Hok]; [|lia]. split; [lia|].
      eapply member_ok_weaken; [done|lia|simpl; lia|done].
    + intros Hf. simpl in Hf. apply IHr in Hf.
      eapply member_ok_weaken; [done|lia|simpl; lia|done].
Qed.

Lemma find_member_ok (t : ctype) (f : string) (o : Z) (ft : ctype) :
  wf_type t = true → find_member t f = Some (o, ft) →
  member_ok 0 (sizeof t) (alignof t) o ft.
Proof. intros Hw. by apply find_member_ok_both. Qed.

Lemma offsetof_ok (t : ctype) (path : list string) (o : Z) (ft : ctype) :
  wf_type t = true → offsetof t path = Some (o, ft) →
  member_ok 0 (sizeof t) (alignof t) o ft.
Proof.
  revert t o ft. induction path as [|f path IH]; intros t o ft Hw; simpl.
  { intros [= <- <-]. by apply member_ok_self. }
  destruct (find_member t f) as [[o1 t1]|] eqn:H1; [|done].
  destruct (offsetof t1 path) as [[o2 t2]|] eqn:H2; [|done]. intros [= <- <-].
  apply find_member_ok in H1 as (?&?&?&?&Hw1); [|done]. apply IH in H2; [|done].
  eapply member_ok_weaken; [eapply (member_ok_shift 0); eauto; lia|lia|lia|apply Z.divide_refl].
Qed.

(** ** Direct members of a struct do not overlap *)

(** Slots laid out from left to right between the bits [lo] and [hi]. *)
Fixpoint slots_from (lo : Z) (slots : list (Z * Z)) (hi : Z) : Prop :=
  match slots with
  | [] => lo ≤ hi
  | (p, l) :: rest => lo ≤ p ∧ 0 ≤ l ∧ slots_from (p + l) rest hi
  end.

Lemma slots_from_weaken (lo lo' : Z) (slots : list (Z * Z)) (hi : Z) :
  lo' ≤ lo → slots_from lo slots hi → slots_from lo' slots hi.
Proof. destruct slots as [|[p l] slots]; simpl; intuition lia. Qed.

Lemma member_slots_from (ms : members) (bit : Z) :
  wf_members ms = true → slots_from bit (member_slots ms bit) (struct_end ms bit).
Proof.
  revert bit. induction ms as [|t n r IH|t n w r IH]; intros bit Hw; simpl; [lia|..].
  - apply wf_field_inv in Hw as [Ht Hr]. split_and!.
    + by apply field_pos_ge.
    + pose proof (sizeof_nonneg t Ht). lia.
    + rewrite <- Z.mul_add_distr_l. by apply IH.
  - apply wf_bits_inv in Hw as (Ht&Hb&_&_&Hr). split_and!; [by apply bitfield_pos_ge|lia|].
    by apply IH.
Qed.

Lemma slots_from_end (lo : Z) (slots : list (Z * Z)) (hi : Z) :
  slots_from lo slots hi → lo ≤ hi.
Proof.
  revert lo. induction slots as [|[p l] slots IH]; intros lo; simpl; [done|].
  intros (?&?&?%IH). lia.
Qed.

Lemma slots_from_lookup (lo hi : Z) (slots : list (Z * Z)) (i : nat) (p l : Z) :
  slots_from lo slots hi → slots !! i = Some (p, l) → lo ≤ p ∧ 0 ≤ l ∧ p + l ≤ hi.
Proof.
  revert lo i. induction slots as [|[p' l'] slots IH]; intros lo [|i]; simpl; try done.
  - intros (?&?&?%slots_from_end) [= -> ->]. lia.
  - intros (?&?&Hs) Hi. destruct (IH _ _ Hs Hi). lia.
Qed.

Lemma slots_from_disjoint (lo hi : Z) (slots : list (Z * Z)) (i j : nat) (p l p' l' : Z) :
  slots_from lo slots hi → slots !! i = Some (p, l) → slots !! j = Some (p', l') →
  (i < j)%nat → p + l ≤ p'.
Proof.
  revert lo i j. induction slots as [|[p0 l0] slots IH]; intros lo [|i] [|j]; simpl; try done.
  - lia.
  - intros (?&?&Hs) [= -> ->] Hj _. by destruct (slots_from_lookup _ _ _ _ _ _ Hs Hj).
  - intros _ _ _ ?. lia.
  - intros (?&?&Hs) ???. eapply IH; eauto. lia.
Qed.

(** ** Bit-fields stay inside one storage unit *)

Lemma bitfield_pos_unit (sz bit w : Z) :
  0 < sz → 0 < w ≤ 8 * sz →
  let p := bitfield_pos sz sz bit w in p / (8 * sz) = (p + w - 1) / (8 * sz).
Proof.
  intros Hsz Hw. unfold bitfield_pos. rewrite (proj2 (Z.ltb_lt 0 w)) by lia. simpl.
  destruct (Z.eqb_spec (bit / (8 * sz)) ((bit + w - 1) / (8 * sz))) as [He|_]; [done|].
  destruct (align_up_divide bit (8 * sz)) as [q ->].
  rewrite Z.div_mul by lia.
  replace (q * (8 * sz) + w - 1) with ((w - 1) + q * (8 * sz)) by lia.
  rewrite Z.div_add by lia. rewrite (Z.div_small (w - 1)) by lia. lia.
Qed.

(** ** Stores and loads of members *)

(** The bytes of one object of type [t]. *)
Definition is_object (t : ctype) (obj : list byte) : Prop := Z.of_nat (length obj) = sizeof t.

Lemma member_slice (t : ctype) (path : list string) (o : Z) (ft : ctype) (obj : list byte) :
  wf_type t = true → offsetof t path = Some (o, ft) → is_object t obj →
  (Z.to_nat o + Z.to_nat (sizeof ft) ≤ length obj)%nat.
Proof.
  unfold is_object. intros Hw Ho Hl.
  pose proof (offsetof_ok t path o ft Hw Ho) as (?&?&_&_&Hft).
  pose proof (sizeof_nonneg ft Hft). lia.
Qed.

Lemma length_store_member (t : ctype) (path : list string) (v : Z) (obj : list byte) :
  wf_type t = true → is_object t obj →
  length (store_member t path v obj) = length obj.
Proof.
  intros Hw Hl. unfold store_member. destruct (offsetof t path) as [[o ft]|] eqn:Ho; [|done].
  apply length_store_le. by eapply member_slice.
Qed.

Lemma store_member_object (t : ctype) (path : list string) (v : Z) (obj : list byte) :
  wf_type t = true → is_object t obj → is_object t (store_member t path v obj).
Proof. intros Hw Hl. unfold is_object. by rewrite length_store_member. Qed.

Lemma load_store_member (t : ctype) (path : list string) (o : Z) (ft : ctype) (v : Z)
    (obj : list byte) :
  wf_type t = true → offsetof t path = Some (o, ft) → is_object t obj →
  load_member t path (store_member t path v obj) = wrap (8 * sizeof ft) v.
Proof.
  intros Hw Ho Hl. unfold load_member, store_member. rewrite Ho.
  rewrite load_store_same by (by eapply member_slice).
  pose proof (offsetof_ok t path o ft Hw Ho) as (?&?&_&_&Hft).
  by rewrite Z2Nat.id by (by apply sizeof_nonneg).
Qed.

(** Two members whose bytes do not meet. *)
Definition members_apart (t : ctype) (p q : list string) : bool :=
  match offsetof t p, offsetof t q with
  | Some (o, ft), Some (o', ft') => (o + sizeof ft <=? o') || (o' + sizeof ft' <=? o)
  | _, _ => false
  end.

Lemma load_store_member_apart (t : ctype) (p q : list string) (v : Z) (obj : list byte) :
  wf_type t = true → members_apart t p q = true → is_object t obj →
  load_member t p (store_member t q v obj) = load_member t p obj.
Proof.
  unfold members_apart, load_member, store_member. intros Hw Ha Hl.
  destruct (offsetof t p) as [[o ft]|] eqn:Ho; [|done].
  destruct (offsetof t q) as [[o' ft']|] eqn:Ho'; [|done].
  pose proof (offsetof_ok t p o ft Hw Ho) as (?&?&_&_&Hft%sizeof_nonneg).
  pose proof (offsetof_ok t q o' ft' Hw Ho') as (?&?&_&_&Hft'%sizeof_nonneg).
  apply load_store_disjoint; [by eapply member_slice|].
  apply orb_true_iff in Ha. rewrite !Z.leb_le in Ha. lia.
Qed.

Lemma load_member_range (t : ctype) (path : list string) (o : Z) (ft : ctype) (obj : list byte) :
  wf_type t = true → offsetof t path = Some (o, ft) →
  0 ≤ load_member t path obj < 2 ^ (8 * sizeof ft).
Proof.
  intros Hw Ho. unfold load_member. rewrite Ho.
  pose proof (load_le_range (Z.to_nat o) (Z.to_nat (sizeof ft)) obj) as Hr.
  pose proof (offsetof_ok t path o ft Hw Ho) as (?&?&_&_&Hft).
  by rewrite Z2Nat.id in Hr by (by apply sizeof_nonneg).
Qed.

(** Closes [is_object t obj] when [obj] is a series of stores into an object of the context, and
    reduces the load of a member of such an [obj] to the value stored or to the original load. *)
Ltac solve_object := repeat (apply store_member_object; [reflexivity|]); assumption.

Ltac load_members :=
  repeat first
    [ erewrite load_store_member; [|reflexivity|reflexivity|solve_object]
    | rewrite load_store_member_apart; [|reflexivity|reflexivity|solve_object] ].

Arguments sizeof : simpl never.
Arguments alignof : simpl never.
Arguments offsetof : simpl never.
Arguments load_member : simpl never.
Arguments store_member : simpl never.
