(* ===== verification/VmlinuxBase.v ===== *)
(** * vmlinux.h, the shared part: base typedefs, counters, locks, lists, work queues

    Each definition is one declaration of [controller/src/bpf/vmlinux.h] (the x86 branch), member
    by member and in order: the types that more than one of the kernel objects below embeds.
    A struct embedded by value is the Rocq definition of its declaration; the target of a pointer
    is kept as a name, since it does not take part in the layout. *)

From S2P Require Import Prelude CLayout.

Definition __u8 : ctype :=
  c_uchar.

Definition __u16 : ctype :=
  c_ushort.

Definition __s32 : ctype :=
  c_int.

Definition __u32 : ctype :=
  c_uint.

Definition __s64 : ctype :=
  c_longlong.

Definition __u64 : ctype :=
  c_ulonglong.

Definition u8 : ctype :=
  __u8.

Definition u16 : ctype :=
  __u16.

Definition u32 : ctype :=
  __u32.

Definition s64 : ctype :=
  __s64.

Definition u64 : ctype :=
  __u64.

Definition __kernel_ulong_t : ctype :=
  c_ulong.

Definition __kernel_uid32_t : ctype :=
  c_uint.

Definition __kernel_gid32_t : ctype :=
  c_uint.

Definition __kernel_size_t : ctype :=
  __kernel_ulong_t.

Definition __kernel_loff_t : ctype :=
  c_longlong.

Definition __kernel_dev_t : ctype :=
  u32.

Definition dev_t : ctype :=
  __kernel_dev_t.

Definition umode_t : ctype :=
  c_ushort.

Definition bool_t : ctype :=
  c_bool.

Definition uid_t : ctype :=
  __kernel_uid32_t.

Definition gid_t : ctype :=
  __kernel_gid32_t.

Definition loff_t : ctype :=
  __kernel_loff_t.

Definition size_t : ctype :=
  __kernel_size_t.

Definition gfp_t : ctype :=
  c_uint.

Definition atomic_t : ctype :=
  CStruct "" {{
    MField c_int "counter" }}.

Definition atomic64_t : ctype :=
  CStruct "" {{
    MField s64 "counter" }}.

Definition struct_list_head : ctype :=
  CStruct "list_head" {{
    MField (CPtr "struct list_head") "next";
    MField (CPtr "struct list_head") "prev" }}.

Definition struct_hlist_head : ctype :=
  CStruct "hlist_head" {{
    MField (CPtr "struct hlist_node") "first" }}.

Definition struct_hlist_node : ctype :=
  CStruct "hlist_node" {{
    MField (CPtr "struct hlist_node") "next";
    MField (CPtr "struct hlist_node *") "pprev" }}.

Definition struct_callback_head : ctype :=
  CStruct "callback_head" {{
    MField (CPtr "struct callback_head") "next";
    MField (CPtr "void (*)(...)") "func" }}.

Definition struct_qspinlock : ctype :=
  CStruct "qspinlock" {{
    MField (CUnion "" {{
      MField atomic_t "val";
      MField (CStruct "" {{
        MField u8 "locked";
        MField u8 "pending" }}) "";
      MField (CStruct "" {{
        MField u16 "locked_pending";
        MField u16 "tail" }}) "" }}) "" }}.

Definition arch_spinlock_t : ctype :=
  struct_qspinlock.

Definition struct_lockdep_map : ctype :=
  CStruct "lockdep_map" {{
    MField (CPtr "struct lock_class_key") "key";
    MField (CArray (CPtr "struct lock_class") 2) "class_cache";
    MField (CPtr "char") "name";
    MField c_short "wait_type_outer";
    MField c_short "wait_type_inner" }}.

Definition struct_raw_spinlock : ctype :=
  CStruct "raw_spinlock" {{
    MField arch_spinlock_t "raw_lock";
    MField c_uint "magic";
    MField c_uint "owner_cpu";
    MField (CPtr "void") "owner";
    MField struct_lockdep_map "dep_map" }}.

Definition struct_spinlock : ctype :=
  CStruct "spinlock" {{
    MField (CUnion "" {{
      MField struct_raw_spinlock "rlock";
      MField (CStruct "" {{
        MField (CArray u8 24) "__padding";
        MField struct_lockdep_map "dep_map" }}) "" }}) "" }}.

Definition spinlock_t : ctype :=
  struct_spinlock.

Definition atomic_long_t : ctype :=
  atomic64_t.

Definition time64_t : ctype :=
  __s64.

Definition struct_timespec64 : ctype :=
  CStruct "timespec64" {{
    MField time64_t "tv_sec";
    MField c_long "tv_nsec" }}.

Definition struct_refcount_struct : ctype :=
  CStruct "refcount_struct" {{
    MField atomic_t "refs" }}.

Definition refcount_t : ctype :=
  struct_refcount_struct.

Definition struct_llist_node : ctype :=
  CStruct "llist_node" {{
    MField (CPtr "struct llist_node") "next" }}.

Definition struct_rb_node : ctype :=
  CStruct "rb_node" {{
    MField c_ulong "__rb_parent_color";
    MField (CPtr "struct rb_node") "rb_right";
    MField (CPtr "struct rb_node") "rb_left" }}.

Definition ktime_t : ctype :=
  s64.

Definition raw_spinlock_t : ctype :=
  struct_raw_spinlock.

Definition struct_seqcount : ctype :=
  CStruct "seqcount" {{
    MField c_uint "sequence";
    MField struct_lockdep_map "dep_map" }}.

Definition seqcount_t : ctype :=
  struct_seqcount.

Definition struct_rb_root : ctype :=
  CStruct "rb_root" {{
    MField (CPtr "struct rb_node") "rb_node" }}.

Definition kuid_t : ctype :=
  CStruct "" {{
    MField uid_t "val" }}.

Definition struct_optimistic_spin_queue : ctype :=
  CStruct "optimistic_spin_queue" {{
    MField atomic_t "tail" }}.

Definition struct_mutex : ctype :=
  CStruct "mutex" {{
    MField atomic_long_t "owner";
    MField spinlock_t "wait_lock";
    MField struct_optimistic_spin_queue "osq";
    MField struct_list_head "wait_list";
    MField (CPtr "void") "magic";
    MField struct_lockdep_map "dep_map" }}.

Definition struct_page_frag : ctype :=
  CStruct "page_frag" {{
    MField (CPtr "struct page") "page";
    MField __u32 "offset";
    MField __u32 "size" }}.

Definition struct_rw_semaphore : ctype :=
  CStruct "rw_semaphore" {{
    MField atomic_long_t "count";
    MField atomic_long_t "owner";
    MField struct_optimistic_spin_queue "osq";
    MField raw_spinlock_t "wait_lock";
    MField struct_list_head "wait_list";
    MField (CPtr "void") "magic";
    MField struct_lockdep_map "dep_map" }}.

Definition work_func_t : ctype :=
  CPtr "void (*)(...)".

Definition struct_work_struct : ctype :=
  CStruct "work_struct" {{
    MField atomic_long_t "data";
    MField struct_list_head "entry";
    MField work_func_t "func";
    MField struct_lockdep_map "lockdep_map" }}.

Definition struct_qrwlock : ctype :=
  CStruct "qrwlock" {{
    MField (CUnion "" {{
      MField atomic_t "cnts";
      MField (CStruct "" {{
        MField u8 "wlocked";
        MField (CArray u8 3) "__lstate" }}) "" }}) "";
    MField arch_spinlock_t "wait_lock" }}.

Definition arch_rwlock_t : ctype :=
  struct_qrwlock.

Definition rwlock_t : ctype :=
  CStruct "" {{
    MField arch_rwlock_t "raw_lock";
    MField c_uint "magic";
    MField c_uint "owner_cpu";
    MField (CPtr "void") "owner";
    MField struct_lockdep_map "dep_map" }}.

Definition struct_kref : ctype :=
  CStruct "kref" {{
    MField refcount_t "refcount" }}.

Definition struct_kobject : ctype :=
  CStruct "kobject" {{
    MField (CPtr "char") "name";
    MField struct_list_head "entry";
    MField (CPtr "struct kobject") "parent";
    MField (CPtr "struct kset") "kset";
    MField (CPtr "struct kobj_type") "ktype";
    MField (CPtr "struct kernfs_node") "sd";
    MField struct_kref "kref";
    MBits c_uint "state_initialized" 1;
    MBits c_uint "state_in_sysfs" 1;
    MBits c_uint "state_add_uevent_sent" 1;
    MBits c_uint "state_remove_uevent_sent" 1;
    MBits c_uint "uevent_suppress" 1 }}.

Definition struct_wait_queue_head : ctype :=
  CStruct "wait_queue_head" {{
    MField spinlock_t "lock";
    MField struct_list_head "head" }}.

Definition wait_queue_head_t : ctype :=
  struct_wait_queue_head.

Definition seqlock_t : ctype :=
  CStruct "" {{
    MField struct_seqcount "seqcount";
    MField spinlock_t "lock" }}.

Definition struct_xarray : ctype :=
  CStruct "xarray" {{
    MField spinlock_t "xa_lock";
    MField gfp_t "xa_flags";
    MField (CPtr "void") "xa_head" }}.

Definition struct_percpu_ref : ctype :=
  CStruct "percpu_ref" {{
    MField atomic_long_t "count";
    MField c_ulong "percpu_count_ptr";
    MField (CPtr "percpu_ref_func_t") "release";
    MField (CPtr "percpu_ref_func_t") "confirm_switch";
    MBits bool_t "force_atomic" 1;
    MBits bool_t "allow_reinit" 1;
    MField struct_callback_head "rcu" }}.

Definition struct_upid : ctype :=
  CStruct "upid" {{
    MField c_int "nr";
    MField (CPtr "struct pid_namespace") "ns" }}.

Definition struct_pid : ctype :=
  CStruct "pid" {{
    MField refcount_t "count";
    MField c_uint "level";
    MField spinlock_t "lock";
    MField (CArray struct_hlist_head 4) "tasks";
    MField struct_hlist_head "inodes";
    MField wait_queue_head_t "wait_pidfd";
    MField struct_callback_head "rcu";
    MField (CArray struct_upid 1) "numbers" }}.

Definition kgid_t : ctype :=
  CStruct "" {{
    MField gid_t "val" }}.

Definition struct_kernel_cap_struct : ctype :=
  CStruct "kernel_cap_struct" {{
    MField (CArray __u32 2) "cap" }}.

Definition kernel_cap_t : ctype :=
  struct_kernel_cap_struct.

Definition struct_cred : ctype :=
  CStruct "cred" {{
    MField atomic_t "usage";
    MField kuid_t "uid";
    MField kgid_t "gid";
    MField kuid_t "suid";
    MField kgid_t "sgid";
    MField kuid_t "euid";
    MField kgid_t "egid";
    MField kuid_t "fsuid";
    MField kgid_t "fsgid";
    MField c_uint "securebits";
    MField kernel_cap_t "cap_inheritable";
    MField kernel_cap_t "cap_permitted";
    MField kernel_cap_t "cap_effective";
    MField kernel_cap_t "cap_bset";
    MField kernel_cap_t "cap_ambient";
    MField (CPtr "void") "security";
    MField (CPtr "struct user_struct") "user";
    MField (CPtr "struct user_namespace") "user_ns";
    MField (CPtr "struct group_info") "group_info";
    MField (CUnion "" {{
      MField c_int "non_rcu";
      MField struct_callback_head "rcu" }}) "" }}.

Definition struct_percpu_counter : ctype :=
  CStruct "percpu_counter" {{
    MField raw_spinlock_t "lock";
    MField s64 "count";
    MField struct_list_head "list";
    MField (CPtr "s32") "counters" }}.

Definition struct_timer_list : ctype :=
  CStruct "timer_list" {{
    MField struct_hlist_node "entry";
    MField c_ulong "expires";
    MField (CPtr "void (*)(...)") "function";
    MField u32 "flags";
    MField struct_lockdep_map "lockdep_map" }}.

Definition struct_delayed_work : ctype :=
  CStruct "delayed_work" {{
    MField struct_work_struct "work";
    MField struct_timer_list "timer";
    MField (CPtr "struct workqueue_struct") "wq";
    MField c_int "cpu" }}.

Definition struct_rcu_work : ctype :=
  CStruct "rcu_work" {{
    MField struct_work_struct "work";
    MField struct_callback_head "rcu";
    MField (CPtr "struct workqueue_struct") "wq" }}.

Definition struct_cgroup_subsys_state : ctype :=
  CStruct "cgroup_subsys_state" {{
    MField (CPtr "struct cgroup") "cgroup";
    MField (CPtr "struct cgroup_subsys") "ss";
    MField struct_percpu_ref "refcnt";
    MField struct_list_head "sibling";
    MField struct_list_head "children";
    MField struct_list_head "rstat_css_node";
    MField c_int "id";
    MField c_uint "flags";
    MField u64 "serial_nr";
    MField atomic_t "online_cnt";
    MField struct_work_struct "destroy_work";
    MField struct_rcu_work "destroy_rwork";
    MField (CPtr "struct cgroup_subsys_state") "parent" }}.

Definition struct_mem_cgroup_id : ctype :=
  CStruct "mem_cgroup_id" {{
    MField c_int "id";
    MField refcount_t "ref" }}.

Definition struct_page_counter : ctype :=
  CStruct "page_counter" {{
    MField atomic_long_t "usage";
    MField c_ulong "min";
    MField c_ulong "low";
    MField c_ulong "high";
    MField c_ulong "max";
    MField (CPtr "struct page_counter") "parent";
    MField c_ulong "emin";
    MField atomic_long_t "min_usage";
    MField atomic_long_t "children_min_usage";
    MField c_ulong "elow";
    MField atomic_long_t "low_usage";
    MField atomic_long_t "children_low_usage";
    MField c_ulong "watermark";
    MField c_ulong "failcnt" }}.

Definition struct_vmpressure : ctype :=
  CStruct "vmpressure" {{
    MField c_ulong "scanned";
    MField c_ulong "reclaimed";
    MField c_ulong "tree_scanned";
    MField c_ulong "tree_reclaimed";
    MField spinlock_t "sr_lock";
    MField struct_list_head "events";
    MField struct_mutex "events_lock";
    MField struct_work_struct "work" }}.

Definition struct_cgroup_file : ctype :=
  CStruct "cgroup_file" {{
    MField (CPtr "struct kernfs_node") "kn";
    MField c_ulong "notified_at";
    MField struct_timer_list "notify_timer" }}.

Definition struct_mem_cgroup_thresholds : ctype :=
  CStruct "mem_cgroup_thresholds" {{
    MField (CPtr "struct mem_cgroup_threshold_ary") "primary";
    MField (CPtr "struct mem_cgroup_threshold_ary") "spare" }}.

Definition struct_memcg_padding : ctype :=
  CStruct "memcg_padding" {{
    MField (CArray c_char 0) "x" }}.

Definition enum_memcg_kmem_state : ctype :=
  CEnum "memcg_kmem_state" [("KMEM_NONE", 0);
    ("KMEM_ALLOCATED", 1);
    ("KMEM_ONLINE", 2)].

Definition struct_fprop_global : ctype :=
  CStruct "fprop_global" {{
    MField struct_percpu_counter "events";
    MField c_uint "period";
    MField seqcount_t "sequence" }}.

Definition struct_wb_domain : ctype :=
  CStruct "wb_domain" {{
    MField spinlock_t "lock";
    MField struct_fprop_global "completions";
    MField struct_timer_list "period_timer";
    MField c_ulong "period_time";
    MField c_ulong "dirty_limit_tstamp";
    MField c_ulong "dirty_limit" }}.

Definition struct_wb_completion : ctype :=
  CStruct "wb_completion" {{
    MField atomic_t "cnt";
    MField (CPtr "wait_queue_head_t") "waitq" }}.

Definition struct_memcg_cgwb_frn : ctype :=
  CStruct "memcg_cgwb_frn" {{
    MField u64 "bdi_id";
    MField c_int "memcg_id";
    MField u64 "at";
    MField struct_wb_completion "done" }}.

Definition struct_mem_cgroup : ctype :=
  CStruct "mem_cgroup" {{
    MField struct_cgroup_subsys_state "css";
    MField struct_mem_cgroup_id "id";
    MField struct_page_counter "memory";
    MField struct_page_counter "swap";
    MField struct_page_counter "memsw";
    MField struct_page_counter "kmem";
    MField struct_page_counter "tcpmem";
    MField struct_work_struct "high_work";
    MField c_ulong "soft_limit";
    MField struct_vmpressure "vmpressure";
    MField bool_t "use_hierarchy";
    MField bool_t "oom_group";
    MField bool_t "oom_lock";
    MField c_int "under_oom";
    MField c_int "swappiness";
    MField c_int "oom_kill_disable";
    MField struct_cgroup_file "events_file";
    MField struct_cgroup_file "events_local_file";
    MField struct_cgroup_file "swap_events_file";
    MField struct_mutex "thresholds_lock";
    MField struct_mem_cgroup_thresholds "thresholds";
    MField struct_mem_cgroup_thresholds "memsw_thresholds";
    MField struct_list_head "oom_notify";
    MField c_ulong "move_charge_at_immigrate";
    MField spinlock_t "move_lock";
    MField c_ulong "move_lock_flags";
    MBits c_long "" 64;
    MBits c_long "" 64;
    MBits c_long "" 64;
    MBits c_long "" 64;
    MBits c_long "" 64;
    MBits c_long "" 64;
    MField struct_memcg_padding "_pad1_";
    MField atomic_t "moving_account";
    MField (CPtr "struct task_struct") "move_lock_task";
    MField (CPtr "struct memcg_vmstats_percpu") "vmstats_local";
    MField (CPtr "struct memcg_vmstats_percpu") "vmstats_percpu";
    MBits c_long "" 64;
    MBits c_long "" 64;
    MBits c_long "" 64;
    MBits c_long "" 64;
    MField struct_memcg_padding "_pad2_";
    MField (CArray atomic_long_t 36) "vmstats";
    MField (CArray atomic_long_t 65) "vmevents";
    MField (CArray atomic_long_t 8) "memory_events";
    MField (CArray atomic_long_t 8) "memory_events_local";
    MField c_ulong "socket_pressure";
    MField bool_t "tcpmem_active";
    MField c_int "tcpmem_pressure";
    MField c_int "kmemcg_id";
    MField enum_memcg_kmem_state "kmem_state";
    MField struct_list_head "kmem_caches";
    MField struct_list_head "cgwb_list";
    MField struct_wb_domain "cgwb_domain";
    MField (CArray struct_memcg_cgwb_frn 4) "cgwb_frn";
    MField struct_list_head "event_list";
    MField spinlock_t "event_list_lock";
    MField (CArray (CPtr "struct mem_cgroup_per_node") 0) "nodeinfo";
    MBits c_long "" 64;
    MBits c_long "" 64;
    MBits c_long "" 64;
    MBits c_long "" 64;
    MBits c_long "" 64;
    MBits c_long "" 64 }}.

Definition struct_nsproxy : ctype :=
  CStruct "nsproxy" {{
    MField atomic_t "count";
    MField (CPtr "struct uts_namespace") "uts_ns";
    MField (CPtr "struct ipc_namespace") "ipc_ns";
    MField (CPtr "struct mnt_namespace") "mnt_ns";
    MField (CPtr "struct pid_namespace") "pid_ns_for_children";
    MField (CPtr "struct net") "net_ns";
    MField (CPtr "struct time_namespace") "time_ns";
    MField (CPtr "struct time_namespace") "time_ns_for_children";
    MField (CPtr "struct cgroup_namespace") "cgroup_ns" }}.

Definition __be16 : ctype :=
  __u16.

Definition __be32 : ctype :=
  __u32.

Definition __addrpair : ctype :=
  __u64.

Definition __portpair : ctype :=
  __u32.

Definition possible_net_t : ctype :=
  CStruct "" {{
    MField (CPtr "struct net") "net" }}.

Definition struct_in6_addr : ctype :=
  CStruct "in6_addr" {{
    MField (CUnion "" {{
      MField (CArray __u8 16) "u6_addr8";
      MField (CArray __be16 8) "u6_addr16";
      MField (CArray __be32 4) "u6_addr32" }}) "in6_u" }}.

Definition struct_hlist_nulls_node : ctype :=
  CStruct "hlist_nulls_node" {{
    MField (CPtr "struct hlist_nulls_node") "next";
    MField (CPtr "struct hlist_nulls_node *") "pprev" }}.

Definition struct_sock_common : ctype :=
  CStruct "sock_common" {{
    MField (CUnion "" {{
      MField __addrpair "skc_addrpair";
      MField (CStruct "" {{
        MField __be32 "skc_daddr";
        MField __be32 "skc_rcv_saddr" }}) "" }}) "";
    MField (CUnion "" {{
      MField c_uint "skc_hash";
      MField (CArray __u16 2) "skc_u16hashes" }}) "";
    MField (CUnion "" {{
      MField __portpair "skc_portpair";
      MField (CStruct "" {{
        MField __be16 "skc_dport";
        MField __u16 "skc_num" }}) "" }}) "";
    MField c_ushort "skc_family";
    MField c_uchar "skc_state";
    MBits c_uchar "skc_reuse" 4;
    MBits c_uchar "skc_reuseport" 1;
    MBits c_uchar "skc_ipv6only" 1;
    MBits c_uchar "skc_net_refcnt" 1;
    MField c_int "skc_bound_dev_if";
    MField (CUnion "" {{
      MField struct_hlist_node "skc_bind_node";
      MField struct_hlist_node "skc_portaddr_node" }}) "";
    MField (CPtr "struct proto") "skc_prot";
    MField possible_net_t "skc_net";
    MField struct_in6_addr "skc_v6_daddr";
    MField struct_in6_addr "skc_v6_rcv_saddr";
    MField atomic64_t "skc_cookie";
    MField (CUnion "" {{
      MField c_ulong "skc_flags";
      MField (CPtr "struct sock") "skc_listener";
      MField (CPtr "struct inet_timewait_death_row") "skc_tw_dr" }}) "";
    MField (CArray c_int 0) "skc_dontcopy_begin";
    MField (CUnion "" {{
      MField struct_hlist_node "skc_node";
      MField struct_hlist_nulls_node "skc_nulls_node" }}) "";
    MField c_ushort "skc_tx_queue_mapping";
    MField c_ushort "skc_rx_queue_mapping";
    MField (CUnion "" {{
      MField c_int "skc_incoming_cpu";
      MField u32 "skc_rcv_wnd";
      MField u32 "skc_tw_rcv_nxt" }}) "";
    MField refcount_t "skc_refcnt";
    MField (CArray c_int 0) "skc_dontcopy_end";
    MField (CUnion "" {{
      MField u32 "skc_rxhash";
      MField u32 "skc_window_clamp";
      MField u32 "skc_tw_snd_nxt" }}) "" }}.

Definition socket_lock_t : ctype :=
  CStruct "" {{
    MField spinlock_t "slock";
    MField c_int "owned";
    MField wait_queue_head_t "wq";
    MField struct_lockdep_map "dep_map" }}.

Definition struct_sk_buff_head : ctype :=
  CStruct "sk_buff_head" {{
    MField (CPtr "struct sk_buff") "next";
    MField (CPtr "struct sk_buff") "prev";
    MField __u32 "qlen";
    MField spinlock_t "lock" }}.

Definition netdev_features_t : ctype :=
  u64.

Definition struct_sock_cgroup_data : ctype :=
  CStruct "sock_cgroup_data" {{
    MField (CUnion "" {{
      MField (CStruct "" {{
        MField u8 "is_data";
        MField u8 "padding";
        MField u16 "prioidx";
        MField u32 "classid" }}) "";
      MField u64 "val" }}) "" }}.

Definition struct_sock : ctype :=
  CStruct "sock" {{
    MField struct_sock_common "__sk_common";
    MField socket_lock_t "sk_lock";
    MField atomic_t "sk_drops";
    MField c_int "sk_rcvlowat";
    MField struct_sk_buff_head "sk_error_queue";
    MField (CPtr "struct sk_buff") "sk_rx_skb_cache";
    MField struct_sk_buff_head "sk_receive_queue";
    MField (CStruct "" {{
      MField atomic_t "rmem_alloc";
      MField c_int "len";
      MField (CPtr "struct sk_buff") "head";
      MField (CPtr "struct sk_buff") "tail" }}) "sk_backlog";
    MField c_int "sk_forward_alloc";
    MField c_uint "sk_ll_usec";
    MField c_uint "sk_napi_id";
    MField c_int "sk_rcvbuf";
    MField (CPtr "struct sk_filter") "sk_filter";
    MField (CUnion "" {{
      MField (CPtr "struct socket_wq") "sk_wq";
      MField (CPtr "struct socket_wq") "sk_wq_raw" }}) "";
    MField (CArray (CPtr "struct xfrm_policy") 2) "sk_policy";
    MField (CPtr "struct dst_entry") "sk_rx_dst";
    MField (CPtr "struct dst_entry") "sk_dst_cache";
    MField atomic_t "sk_omem_alloc";
    MField c_int "sk_sndbuf";
    MField c_int "sk_wmem_queued";
    MField refcount_t "sk_wmem_alloc";
    MField c_ulong "sk_tsq_flags";
    MField (CUnion "" {{
      MField (CPtr "struct sk_buff") "sk_send_head";
      MField struct_rb_root "tcp_rtx_queue" }}) "";
    MField (CPtr "struct sk_buff") "sk_tx_skb_cache";
    MField struct_sk_buff_head "sk_write_queue";
    MField __s32 "sk_peek_off";
    MField c_int "sk_write_pending";
    MField __u32 "sk_dst_pending_confirm";
    MField u32 "sk_pacing_status";
    MField c_long "sk_sndtimeo";
    MField struct_timer_list "sk_timer";
    MField __u32 "sk_priority";
    MField __u32 "sk_mark";
    MField c_ulong "sk_pacing_rate";
    MField c_ulong "sk_max_pacing_rate";
    MField struct_page_frag "sk_frag";
    MField netdev_features_t "sk_route_caps";
    MField netdev_features_t "sk_route_nocaps";
    MField netdev_features_t "sk_route_forced_caps";
    MField c_int "sk_gso_type";
    MField c_uint "sk_gso_max_size";
    MField gfp_t "sk_allocation";
    MField __u32 "sk_txhash";
    MBits u8 "sk_padding" 1;
    MBits u8 "sk_kern_sock" 1;
    MBits u8 "sk_no_check_tx" 1;
    MBits u8 "sk_no_check_rx" 1;
    MBits u8 "sk_userlocks" 4;
    MField u8 "sk_pacing_shift";
    MField u16 "sk_type";
    MField u16 "sk_protocol";
    MField u16 "sk_gso_max_segs";
    MField c_ulong "sk_lingertime";
    MField (CPtr "struct proto") "sk_prot_creator";
    MField rwlock_t "sk_callback_lock";
    MField c_int "sk_err";
    MField c_int "sk_err_soft";
    MField u32 "sk_ack_backlog";
    MField u32 "sk_max_ack_backlog";
    MField kuid_t "sk_uid";
    MField (CPtr "struct pid") "sk_peer_pid";
    MField (CPtr "struct cred") "sk_peer_cred";
    MField c_long "sk_rcvtimeo";
    MField ktime_t "sk_stamp";
    MField u16 "sk_tsflags";
    MField u8 "sk_shutdown";
    MField u32 "sk_tskey";
    MField atomic_t "sk_zckey";
    MField u8 "sk_clockid";
    MBits u8 "sk_txtime_deadline_mode" 1;
    MBits u8 "sk_txtime_report_errors" 1;
    MBits u8 "sk_txtime_unused" 6;
    MField (CPtr "struct socket") "sk_socket";
    MField (CPtr "void") "sk_user_data";
    MField (CPtr "void") "sk_security";
    MField struct_sock_cgroup_data "sk_cgrp_data";
    MField (CPtr "struct mem_cgroup") "sk_memcg";
    MField (CPtr "void (*)(...)") "sk_state_change";
    MField (CPtr "void (*)(...)") "sk_data_ready";
    MField (CPtr "void (*)(...)") "sk_write_space";
    MField (CPtr "void (*)(...)") "sk_error_report";
    MField (CPtr "int (*)(...)") "sk_backlog_rcv";
    MField (CPtr "void (*)(...)") "sk_destruct";
    MField (CPtr "struct sock_reuseport") "sk_reuseport_cb";
    MField (CPtr "struct bpf_sk_storage") "sk_bpf_storage";
    MField struct_callback_head "sk_rcu" }}.

Definition struct_inet_timewait_death_row : ctype :=
  CStruct "inet_timewait_death_row" {{
    MField atomic_t "tw_count";
    MBits c_long "" 32;
    MBits c_long "" 64;
    MBits c_long "" 64;
    MBits c_long "" 64;
    MBits c_long "" 64;
    MBits c_long "" 64;
    MBits c_long "" 64;
    MBits c_long "" 64;
    MField (CPtr "struct inet_hashinfo") "hashinfo";
    MField c_int "sysctl_max_tw_buckets";
    MBits c_long "" 32;
    MBits c_long "" 64;
    MBits c_long "" 64;
    MBits c_long "" 64;
    MBits c_long "" 64;
    MBits c_long "" 64;
    MBits c_long "" 64 }}.

(** All the declarations of this file. *)
Definition base_types : list ctype :=
  [__u8;
   __u16;
   __s32;
   __u32;
   __s64;
   __u64;
   u8;
   u16;
   u32;
   s64;
   u64;
   __kernel_ulong_t;
   __kernel_uid32_t;
   __kernel_gid32_t;
   __kernel_size_t;
   __kernel_loff_t;
   __kernel_dev_t;
   dev_t;
   umode_t;
   bool_t;
   uid_t;
   gid_t;
   loff_t;
   size_t;
   gfp_t;
   atomic_t;
   atomic64_t;
   struct_list_head;
   struct_hlist_head;
   struct_hlist_node;
   struct_callback_head;
   struct_qspinlock;
   arch_spinlock_t;
   struct_lockdep_map;
   struct_raw_spinlock;
   struct_spinlock;
   spinlock_t;
   atomic_long_t;
   time64_t;
   struct_timespec64;
   struct_refcount_struct;
   refcount_t;
   struct_llist_node;
   struct_rb_node;
   ktime_t;
   raw_spinlock_t;
   struct_seqcount;
   seqcount_t;
   struct_rb_root;
   kuid_t;
   struct_optimistic_spin_queue;
   struct_mutex;
   struct_page_frag;
   struct_rw_semaphore;
   work_func_t;
   struct_work_struct;
   struct_qrwlock;
   arch_rwlock_t;
   rwlock_t;
   struct_kref;
   struct_kobject;
   struct_wait_queue_head;
   wait_queue_head_t;
   seqlock_t;
   struct_xarray;
   struct_percpu_ref;
   struct_upid;
   struct_pid;
   kgid_t;
   struct_kernel_cap_struct;
   kernel_cap_t;
   struct_cred;
   struct_percpu_counter;
   struct_timer_list;
   struct_delayed_work;
   struct_rcu_work;
   struct_cgroup_subsys_state;
   struct_mem_cgroup_id;
   struct_page_counter;
   struct_vmpressure;
   struct_cgroup_file;
   struct_mem_cgroup_thresholds;
   struct_memcg_padding;
   enum_memcg_kmem_state;
   struct_fprop_global;
   struct_wb_domain;
   struct_wb_completion;
   struct_memcg_cgwb_frn;
   struct_mem_cgroup;
   struct_nsproxy;
   __be16;
   __be32;
   __addrpair;
   __portpair;
   possible_net_t;
   struct_in6_addr;
   struct_hlist_nulls_node;
   struct_sock_common;
   socket_lock_t;
   struct_sk_buff_head;
   netdev_features_t;
   struct_sock_cgroup_data;
   struct_sock;
   struct_inet_timewait_death_row].
