(* ===== verification/VmlinuxSock.v ===== *)
(** * vmlinux.h, sockets: [struct sock], [struct sock_common], [struct sk_buff] and what they point to

    The objects the socket hooks receive, what they embed by value, and the types one pointer away
    from them. *)

From S2P Require Import Prelude CLayout VmlinuxBase.

Definition struct_kiocb : ctype :=
  CStruct "kiocb" {{
    MField (CPtr "struct file") "ki_filp";
    MField loff_t "ki_pos";
    MField (CPtr "void (*)(...)") "ki_complete";
    MField (CPtr "void") "private";
    MField c_int "ki_flags";
    MField u16 "ki_hint";
    MField u16 "ki_ioprio";
    MField c_uint "ki_cookie" }}.

Definition __wsum : ctype :=
  __u32.

Definition slab_flags_t : ctype :=
  c_uint.

Definition struct_iov_iter : ctype :=
  CStruct "iov_iter" {{
    MField u8 "iter_type";
    MField bool_t "nofault";
    MField bool_t "data_source";
    MField bool_t "user_backed";
    MField (CUnion "" {{
      MField size_t "iov_offset";
      MField c_int "last_offset" }}) "";
    MField size_t "count";
    MField (CUnion "" {{
      MField (CPtr "struct iovec") "iov";
      MField (CPtr "struct kvec") "kvec";
      MField (CPtr "struct bio_vec") "bvec";
      MField (CPtr "struct xarray") "xarray";
      MField (CPtr "struct pipe_inode_info") "pipe";
      MField (CPtr "void") "ubuf" }}) "";
    MField (CUnion "" {{
      MField c_ulong "nr_segs";
      MField (CStruct "" {{
        MField c_uint "head";
        MField c_uint "start_head" }}) "";
      MField loff_t "xarray_start" }}) "" }}.

Definition sk_buff_data_t : ctype :=
  c_uint.

Definition struct_sk_buff : ctype :=
  CStruct "sk_buff" {{
    MField (CUnion "" {{
      MField (CStruct "" {{
        MField (CPtr "struct sk_buff") "next";
        MField (CPtr "struct sk_buff") "prev";
        MField (CUnion "" {{
          MField (CPtr "struct net_device") "dev";
          MField c_ulong "dev_scratch" }}) "" }}) "";
      MField struct_rb_node "rbnode";
      MField struct_list_head "list" }}) "";
    MField (CUnion "" {{
      MField (CPtr "struct sock") "sk";
      MField c_int "ip_defrag_offset" }}) "";
    MField (CUnion "" {{
      MField ktime_t "tstamp";
      MField u64 "skb_mstamp_ns" }}) "";
    MField (CArray c_char 48) "cb";
    MField (CUnion "" {{
      MField (CStruct "" {{
        MField c_ulong "_skb_refdst";
        MField (CPtr "void (*)(...)") "destructor" }}) "";
      MField struct_list_head "tcp_tsorted_anchor" }}) "";
    MField c_ulong "_nfct";
    MField c_uint "len";
    MField c_uint "data_len";
    MField __u16 "mac_len";
    MField __u16 "hdr_len";
    MField __u16 "queue_mapping";
    MField (CArray __u8 0) "__cloned_offset";
    MBits __u8 "cloned" 1;
    MBits __u8 "nohdr" 1;
    MBits __u8 "fclone" 2;
    MBits __u8 "peeked" 1;
    MBits __u8 "head_frag" 1;
    MBits __u8 "pfmemalloc" 1;
    MField __u8 "active_extensions";
    MField (CArray __u32 0) "headers_start";
    MField (CArray __u8 0) "__pkt_type_offset";
    MBits __u8 "pkt_type" 3;
    MBits __u8 "ignore_df" 1;
    MBits __u8 "nf_trace" 1;
    MBits __u8 "ip_summed" 2;
    MBits __u8 "ooo_okay" 1;
    MBits __u8 "l4_hash" 1;
    MBits __u8 "sw_hash" 1;
    MBits __u8 "wifi_acked_valid" 1;
    MBits __u8 "wifi_acked" 1;
    MBits __u8 "no_fcs" 1;
    MBits __u8 "encapsulation" 1;
    MBits __u8 "encap_hdr_csum" 1;
    MBits __u8 "csum_valid" 1;
    MField (CArray __u8 0) "__pkt_vlan_present_offset";
    MBits __u8 "vlan_present" 1;
    MBits __u8 "csum_complete_sw" 1;
    MBits __u8 "csum_level" 2;
    MBits __u8 "csum_not_inet" 1;
    MBits __u8 "dst_pending_confirm" 1;
    MBits __u8 "ndisc_nodetype" 2;
    MBits __u8 "ipvs_property" 1;
    MBits __u8 "inner_protocol_type" 1;
    MBits __u8 "remcsum_offload" 1;
    MBits __u8 "offload_fwd_mark" 1;
    MBits __u8 "offload_l3_fwd_mark" 1;
    MField __u16 "tc_index";
    MField (CUnion "" {{
      MField __wsum "csum";
      MField (CStruct "" {{
        MField __u16 "csum_start";
        MField __u16 "csum_offset" }}) "" }}) "";
    MField __u32 "priority";
    MField c_int "skb_iif";
    MField __u32 "hash";
    MField __be16 "vlan_proto";
    MField __u16 "vlan_tci";
    MField (CUnion "" {{
      MField c_uint "napi_id";
      MField c_uint "sender_cpu" }}) "";
    MField (CUnion "" {{
      MField __u32 "mark";
      MField __u32 "reserved_tailroom" }}) "";
    MField (CUnion "" {{
      MField __be16 "inner_protocol";
      MField __u8 "inner_ipproto" }}) "";
    MField __u16 "inner_transport_header";
    MField __u16 "inner_network_header";
    MField __u16 "inner_mac_header";
    MField __be16 "protocol";
    MField __u16 "transport_header";
    MField __u16 "network_header";
    MField __u16 "mac_header";
    MField (CArray __u32 0) "headers_end";
    MField sk_buff_data_t "tail";
    MField sk_buff_data_t "end";
    MField (CPtr "unsigned char") "head";
    MField (CPtr "unsigned char") "data";
    MField c_uint "truesize";
    MField refcount_t "users";
    MField (CPtr "struct skb_ext") "extensions" }}.

Definition __kernel_sa_family_t : ctype :=
  c_ushort.

Definition sa_family_t : ctype :=
  __kernel_sa_family_t.

Definition struct_sockaddr : ctype :=
  CStruct "sockaddr" {{
    MField sa_family_t "sa_family";
    MField (CArray c_char 14) "sa_data" }}.

Definition struct_msghdr : ctype :=
  CStruct "msghdr" {{
    MField (CPtr "void") "msg_name";
    MField c_int "msg_namelen";
    MField struct_iov_iter "msg_iter";
    MField (CUnion "" {{
      MField (CPtr "void") "msg_control";
      MField (CPtr "void") "msg_control_user" }}) "";
    MBits bool_t "msg_control_is_user" 1;
    MField __kernel_size_t "msg_controllen";
    MField c_uint "msg_flags";
    MField (CPtr "struct kiocb") "msg_iocb" }}.

Definition struct_dst_entry : ctype :=
  CStruct "dst_entry" {{
    MField (CPtr "struct net_device") "dev";
    MField (CPtr "struct dst_ops") "ops";
    MField c_ulong "_metrics";
    MField c_ulong "expires";
    MField (CPtr "struct xfrm_state") "xfrm";
    MField (CPtr "int (*)(...)") "input";
    MField (CPtr "int (*)(...)") "output";
    MField c_ushort "flags";
    MField c_short "obsolete";
    MField c_ushort "header_len";
    MField c_ushort "trailer_len";
    MField atomic_t "__refcnt";
    MField c_int "__use";
    MField c_ulong "lastuse";
    MField (CPtr "struct lwtunnel_state") "lwtstate";
    MField struct_callback_head "callback_head";
    MField c_short "error";
    MField c_short "__pad";
    MField __u32 "tclassid" }}.

Definition socket_state : ctype :=
  CEnum "" [("SS_FREE", 0);
    ("SS_UNCONNECTED", 1);
    ("SS_CONNECTING", 2);
    ("SS_CONNECTED", 3);
    ("SS_DISCONNECTING", 4)].

Definition struct_socket_wq : ctype :=
  CStruct "socket_wq" {{
    MField wait_queue_head_t "wait";
    MField (CPtr "struct fasync_struct") "fasync_list";
    MField c_ulong "flags";
    MField struct_callback_head "rcu";
    MBits c_long "" 64;
    MBits c_long "" 64 }}.

Definition struct_socket : ctype :=
  CStruct "socket" {{
    MField socket_state "state";
    MField c_short "type";
    MField c_ulong "flags";
    MField (CPtr "struct file") "file";
    MField (CPtr "struct sock") "sk";
    MField (CPtr "struct proto_ops") "ops";
    MBits c_long "" 64;
    MBits c_long "" 64;
    MBits c_long "" 64;
    MField struct_socket_wq "wq" }}.

Definition struct_skb_ext : ctype :=
  CStruct "skb_ext" {{
    MField refcount_t "refcnt";
    MField (CArray u8 4) "offset";
    MField u8 "chunks";
    MBits c_short "" 16;
    MField (CArray c_char 0) "data" }}.

Definition struct_sk_filter : ctype :=
  CStruct "sk_filter" {{
    MField refcount_t "refcnt";
    MField struct_callback_head "rcu";
    MField (CPtr "struct bpf_prog") "prog" }}.

Definition struct_proto : ctype :=
  CStruct "proto" {{
    MField (CPtr "void (*)(...)") "close";
    MField (CPtr "int (*)(...)") "pre_connect";
    MField (CPtr "int (*)(...)") "connect";
    MField (CPtr "int (*)(...)") "disconnect";
    MField (CPtr "struct sock * (*)(...)") "accept";
    MField (CPtr "int (*)(...)") "ioctl";
    MField (CPtr "int (*)(...)") "init";
    MField (CPtr "void (*)(...)") "destroy";
    MField (CPtr "void (*)(...)") "shutdown";
    MField (CPtr "int (*)(...)") "setsockopt";
    MField (CPtr "int (*)(...)") "getsockopt";
    MField (CPtr "void (*)(...)") "keepalive";
    MField (CPtr "int (*)(...)") "sendmsg";
    MField (CPtr "int (*)(...)") "recvmsg";
    MField (CPtr "int (*)(...)") "sendpage";
    MField (CPtr "int (*)(...)") "bind";
    MField (CPtr "int (*)(...)") "bind_add";
    MField (CPtr "int (*)(...)") "backlog_rcv";
    MField (CPtr "void (*)(...)") "release_cb";
    MField (CPtr "int (*)(...)") "hash";
    MField (CPtr "void (*)(...)") "unhash";
    MField (CPtr "void (*)(...)") "rehash";
    MField (CPtr "int (*)(...)") "get_port";
    MField c_uint "inuse_idx";
    MField (CPtr "bool (*)(...)") "stream_memory_free";
    MField (CPtr "bool (*)(...)") "stream_memory_read";
    MField (CPtr "void (*)(...)") "enter_memory_pressure";
    MField (CPtr "void (*)(...)") "leave_memory_pressure";
    MField (CPtr "atomic_long_t") "memory_allocated";
    MField (CPtr "struct percpu_counter") "sockets_allocated";
    MField (CPtr "long unsigned int") "memory_pressure";
    MField (CPtr "long int") "sysctl_mem";
    MField (CPtr "int") "sysctl_wmem";
    MField (CPtr "int") "sysctl_rmem";
    MField u32 "sysctl_wmem_offset";
    MField u32 "sysctl_rmem_offset";
    MField c_int "max_header";
    MField bool_t "no_autobind";
    MField (CPtr "struct kmem_cache") "slab";
    MField c_uint "obj_size";
    MField slab_flags_t "slab_flags";
    MField c_uint "useroffset";
    MField c_uint "usersize";
    MField (CPtr "struct percpu_counter") "orphan_count";
    MField (CPtr "struct request_sock_ops") "rsk_prot";
    MField (CPtr "struct timewait_sock_ops") "twsk_prot";
    MField (CUnion "" {{
      MField (CPtr "struct inet_hashinfo") "hashinfo";
      MField (CPtr "struct udp_table") "udp_table";
      MField (CPtr "struct raw_hashinfo") "raw_hash";
      MField (CPtr "struct smc_hashinfo") "smc_hash" }}) "h";
    MField (CPtr "struct module") "owner";
    MField (CArray c_char 32) "name";
    MField struct_list_head "node";
    MField (CPtr "int (*)(...)") "diag_destroy" }}.

Definition struct_sock_reuseport : ctype :=
  CStruct "sock_reuseport" {{
    MField struct_callback_head "rcu";
    MField u16 "max_socks";
    MField u16 "num_socks";
    MField c_uint "synq_overflow_ts";
    MField c_uint "reuseport_id";
    MBits c_uint "bind_inany" 1;
    MBits c_uint "has_conns" 1;
    MField (CPtr "struct bpf_prog") "prog";
    MField (CArray (CPtr "struct sock") 0) "socks" }}.

Definition xfrm_address_t : ctype :=
  CUnion "" {{
    MField __be32 "a4";
    MField (CArray __be32 4) "a6";
    MField struct_in6_addr "in6" }}.

Definition struct_xfrm_id : ctype :=
  CStruct "xfrm_id" {{
    MField xfrm_address_t "daddr";
    MField __be32 "spi";
    MField __u8 "proto" }}.

Definition struct_xfrm_selector : ctype :=
  CStruct "xfrm_selector" {{
    MField xfrm_address_t "daddr";
    MField xfrm_address_t "saddr";
    MField __be16 "dport";
    MField __be16 "dport_mask";
    MField __be16 "sport";
    MField __be16 "sport_mask";
    MField __u16 "family";
    MField __u8 "prefixlen_d";
    MField __u8 "prefixlen_s";
    MField __u8 "proto";
    MField c_int "ifindex";
    MField __kernel_uid32_t "user" }}.

Definition struct_xfrm_lifetime_cfg : ctype :=
  CStruct "xfrm_lifetime_cfg" {{
    MField __u64 "soft_byte_limit";
    MField __u64 "hard_byte_limit";
    MField __u64 "soft_packet_limit";
    MField __u64 "hard_packet_limit";
    MField __u64 "soft_add_expires_seconds";
    MField __u64 "hard_add_expires_seconds";
    MField __u64 "soft_use_expires_seconds";
    MField __u64 "hard_use_expires_seconds" }}.

Definition struct_xfrm_lifetime_cur : ctype :=
  CStruct "xfrm_lifetime_cur" {{
    MField __u64 "bytes";
    MField __u64 "packets";
    MField __u64 "add_time";
    MField __u64 "use_time" }}.

Definition struct_xfrm_mark : ctype :=
  CStruct "xfrm_mark" {{
    MField __u32 "v";
    MField __u32 "m" }}.

Definition struct_xfrm_policy_walk_entry : ctype :=
  CStruct "xfrm_policy_walk_entry" {{
    MField struct_list_head "all";
    MField u8 "dead" }}.

Definition struct_xfrm_policy_queue : ctype :=
  CStruct "xfrm_policy_queue" {{
    MField struct_sk_buff_head "hold_queue";
    MField struct_timer_list "hold_timer";
    MField c_ulong "timeout" }}.

Definition struct_xfrm_tmpl : ctype :=
  CStruct "xfrm_tmpl" {{
    MField struct_xfrm_id "id";
    MField xfrm_address_t "saddr";
    MField c_ushort "encap_family";
    MField u32 "reqid";
    MField u8 "mode";
    MField u8 "share";
    MField u8 "optional";
    MField u8 "allalgs";
    MField u32 "aalgos";
    MField u32 "ealgos";
    MField u32 "calgos" }}.

Definition struct_xfrm_policy : ctype :=
  CStruct "xfrm_policy" {{
    MField possible_net_t "xp_net";
    MField struct_hlist_node "bydst";
    MField struct_hlist_node "byidx";
    MField rwlock_t "lock";
    MField refcount_t "refcnt";
    MField u32 "pos";
    MField struct_timer_list "timer";
    MField atomic_t "genid";
    MField u32 "priority";
    MField u32 "index";
    MField u32 "if_id";
    MField struct_xfrm_mark "mark";
    MField struct_xfrm_selector "selector";
    MField struct_xfrm_lifetime_cfg "lft";
    MField struct_xfrm_lifetime_cur "curlft";
    MField struct_xfrm_policy_walk_entry "walk";
    MField struct_xfrm_policy_queue "polq";
    MField bool_t "bydst_reinsert";
    MField u8 "type";
    MField u8 "action";
    MField u8 "flags";
    MField u8 "xfrm_nr";
    MField u16 "family";
    MField (CPtr "struct xfrm_sec_ctx") "security";
    MField (CArray struct_xfrm_tmpl 6) "xfrm_vec";
    MField struct_hlist_node "bydst_inexact_list";
    MField struct_callback_head "rcu" }}.

Definition struct_bpf_sk_storage : ctype :=
  CStruct "bpf_sk_storage" {{
    MField (CArray (CPtr "struct bpf_sk_storage_data") 16) "cache";
    MField struct_hlist_head "list";
    MField (CPtr "struct sock") "sk";
    MField struct_callback_head "rcu";
    MField raw_spinlock_t "lock" }}.

(** All the declarations of this file. *)
Definition sock_types : list ctype :=
  [struct_kiocb;
   __wsum;
   slab_flags_t;
   struct_iov_iter;
   sk_buff_data_t;
   struct_sk_buff;
   __kernel_sa_family_t;
   sa_family_t;
   struct_sockaddr;
   struct_msghdr;
   struct_dst_entry;
   socket_state;
   struct_socket_wq;
   struct_socket;
   struct_skb_ext;
   struct_sk_filter;
   struct_proto;
   struct_sock_reuseport;
   xfrm_address_t;
   struct_xfrm_id;
   struct_xfrm_selector;
   struct_xfrm_lifetime_cfg;
   struct_xfrm_lifetime_cur;
   struct_xfrm_mark;
   struct_xfrm_policy_walk_entry;
   struct_xfrm_policy_queue;
   struct_xfrm_tmpl;
   struct_xfrm_policy;
   struct_bpf_sk_storage].
