(* ===== verification/VmlinuxNet.v ===== *)
(** * vmlinux.h, namespaces: [struct net], [struct nsproxy] and what they point to

    The network namespace, whose [ns.inum] identifies a pod, what it embeds by value, and the types
    one pointer away from it and from [struct nsproxy]. *)

From S2P Require Import Prelude CLayout VmlinuxBase.

Definition struct_atomic_notifier_head : ctype :=
  CStruct "atomic_notifier_head" {{
    MField spinlock_t "lock";
    MField (CPtr "struct notifier_block") "head" }}.

Definition enum_dl_dev_state : ctype :=
  CEnum "dl_dev_state" [("DL_DEV_NO_DRIVER", 0);
    ("DL_DEV_PROBING", 1);
    ("DL_DEV_DRIVER_BOUND", 2);
    ("DL_DEV_UNBINDING", 3)].

Definition struct_dev_links_info : ctype :=
  CStruct "dev_links_info" {{
    MField struct_list_head "suppliers";
    MField struct_list_head "consumers";
    MField struct_list_head "needs_suppliers";
    MField struct_list_head "defer_sync";
    MField bool_t "need_for_probe";
    MField enum_dl_dev_state "status" }}.

Definition struct_pm_message : ctype :=
  CStruct "pm_message" {{
    MField c_int "event" }}.

Definition pm_message_t : ctype :=
  struct_pm_message.

Definition struct_dev_pm_info : ctype :=
  CStruct "dev_pm_info" {{
    MField pm_message_t "power_state";
    MBits c_uint "can_wakeup" 1;
    MBits c_uint "async_suspend" 1;
    MBits bool_t "in_dpm_list" 1;
    MBits bool_t "is_prepared" 1;
    MBits bool_t "is_suspended" 1;
    MBits bool_t "is_noirq_suspended" 1;
    MBits bool_t "is_late_suspended" 1;
    MBits bool_t "no_pm" 1;
    MBits bool_t "early_init" 1;
    MBits bool_t "direct_complete" 1;
    MField u32 "driver_flags";
    MField spinlock_t "lock";
    MBits c_uint "should_wakeup" 1;
    MField (CPtr "struct pm_subsys_data") "subsys_data";
    MField (CPtr "void (*)(...)") "set_latency_tolerance";
    MField (CPtr "struct dev_pm_qos") "qos" }}.

Definition struct_dev_archdata : ctype :=
  CStruct "dev_archdata" MNil.

Definition struct_device : ctype :=
  CStruct "device" {{
    MField struct_kobject "kobj";
    MField (CPtr "struct device") "parent";
    MField (CPtr "struct device_private") "p";
    MField (CPtr "char") "init_name";
    MField (CPtr "struct device_type") "type";
    MField (CPtr "struct bus_type") "bus";
    MField (CPtr "struct device_driver") "driver";
    MField (CPtr "void") "platform_data";
    MField (CPtr "void") "driver_data";
    MField struct_mutex "lockdep_mutex";
    MField struct_mutex "mutex";
    MField struct_dev_links_info "links";
    MField struct_dev_pm_info "power";
    MField (CPtr "struct dev_pm_domain") "pm_domain";
    MField (CPtr "struct irq_domain") "msi_domain";
    MField struct_list_head "msi_list";
    MField (CPtr "struct dma_map_ops") "dma_ops";
    MField (CPtr "u64") "dma_mask";
    MField u64 "coherent_dma_mask";
    MField u64 "bus_dma_limit";
    MField c_ulong "dma_pfn_offset";
    MField (CPtr "struct device_dma_parameters") "dma_parms";
    MField struct_list_head "dma_pools";
    MField struct_dev_archdata "archdata";
    MField (CPtr "struct device_node") "of_node";
    MField (CPtr "struct fwnode_handle") "fwnode";
    MField dev_t "devt";
    MField u32 "id";
    MField spinlock_t "devres_lock";
    MField struct_list_head "devres_head";
    MField (CPtr "struct class") "class";
    MField (CPtr "struct attribute_group *") "groups";
    MField (CPtr "void (*)(...)") "release";
    MField (CPtr "struct iommu_group") "iommu_group";
    MField (CPtr "struct dev_iommu") "iommu";
    MBits bool_t "offline_disabled" 1;
    MBits bool_t "offline" 1;
    MBits bool_t "of_node_reused" 1;
    MBits bool_t "state_synced" 1 }}.

Definition notifier_fn_t : ctype :=
  CPtr "int (*)(...)".

Definition struct_notifier_block : ctype :=
  CStruct "notifier_block" {{
    MField notifier_fn_t "notifier_call";
    MField (CPtr "struct notifier_block") "next";
    MField c_int "priority" }}.

Definition struct_idr : ctype :=
  CStruct "idr" {{
    MField struct_xarray "idr_rt";
    MField c_uint "idr_base";
    MField c_uint "idr_next" }}.

Definition __s16 : ctype :=
  c_short.

Definition s16 : ctype :=
  __s16.

Definition struct_uid_gid_extent : ctype :=
  CStruct "uid_gid_extent" {{
    MField u32 "first";
    MField u32 "lower_first";
    MField u32 "count" }}.

Definition struct_uid_gid_map : ctype :=
  CStruct "uid_gid_map" {{
    MField u32 "nr_extents";
    MField (CUnion "" {{
      MField (CArray struct_uid_gid_extent 5) "extent";
      MField (CStruct "" {{
        MField (CPtr "struct uid_gid_extent") "forward";
        MField (CPtr "struct uid_gid_extent") "reverse" }}) "" }}) "" }}.

Definition struct_ns_common : ctype :=
  CStruct "ns_common" {{
    MField atomic_long_t "stashed";
    MField (CPtr "struct proc_ns_operations") "ops";
    MField c_uint "inum" }}.

Definition struct_ctl_table_header : ctype :=
  CStruct "ctl_table_header" {{
    MField (CUnion "" {{
      MField (CStruct "" {{
        MField (CPtr "struct ctl_table") "ctl_table";
        MField c_int "used";
        MField c_int "count";
        MField c_int "nreg" }}) "";
      MField struct_callback_head "rcu" }}) "";
    MField (CPtr "struct completion") "unregistering";
    MField (CPtr "struct ctl_table") "ctl_table_arg";
    MField (CPtr "struct ctl_table_root") "root";
    MField (CPtr "struct ctl_table_set") "set";
    MField (CPtr "struct ctl_dir") "parent";
    MField (CPtr "struct ctl_node") "node";
    MField struct_hlist_head "inodes" }}.

Definition struct_ctl_dir : ctype :=
  CStruct "ctl_dir" {{
    MField struct_ctl_table_header "header";
    MField struct_rb_root "root" }}.

Definition struct_ctl_table_set : ctype :=
  CStruct "ctl_table_set" {{
    MField (CPtr "int (*)(...)") "is_seen";
    MField struct_ctl_dir "dir" }}.

Definition struct_user_namespace : ctype :=
  CStruct "user_namespace" {{
    MField struct_uid_gid_map "uid_map";
    MField struct_uid_gid_map "gid_map";
    MField struct_uid_gid_map "projid_map";
    MField atomic_t "count";
    MField (CPtr "struct user_namespace") "parent";
    MField c_int "level";
    MField kuid_t "owner";
    MField kgid_t "group";
    MField struct_ns_common "ns";
    MField c_ulong "flags";
    MField struct_work_struct "work";
    MField struct_ctl_table_set "set";
    MField (CPtr "struct ctl_table_header") "sysctls";
    MField (CPtr "struct ucounts") "ucounts";
    MField (CArray c_int 10) "ucount_max" }}.

Definition struct_pid_namespace : ctype :=
  CStruct "pid_namespace" {{
    MField struct_kref "kref";
    MField struct_idr "idr";
    MField struct_callback_head "rcu";
    MField c_uint "pid_allocated";
    MField (CPtr "struct task_struct") "child_reaper";
    MField (CPtr "struct kmem_cache") "pid_cachep";
    MField c_uint "level";
    MField (CPtr "struct pid_namespace") "parent";
    MField (CPtr "struct user_namespace") "user_ns";
    MField (CPtr "struct ucounts") "ucounts";
    MField c_int "reboot";
    MField struct_ns_common "ns" }}.

Definition struct_new_utsname : ctype :=
  CStruct "new_utsname" {{
    MField (CArray c_char 65) "sysname";
    MField (CArray c_char 65) "nodename";
    MField (CArray c_char 65) "release";
    MField (CArray c_char 65) "version";
    MField (CArray c_char 65) "machine";
    MField (CArray c_char 65) "domainname" }}.

Definition struct_uts_namespace : ctype :=
  CStruct "uts_namespace" {{
    MField struct_kref "kref";
    MField struct_new_utsname "name";
    MField (CPtr "struct user_namespace") "user_ns";
    MField (CPtr "struct ucounts") "ucounts";
    MField struct_ns_common "ns" }}.

Definition struct_cgroup_namespace : ctype :=
  CStruct "cgroup_namespace" {{
    MField refcount_t "count";
    MField struct_ns_common "ns";
    MField (CPtr "struct user_namespace") "user_ns";
    MField (CPtr "struct ucounts") "ucounts";
    MField (CPtr "struct css_set") "root_cset" }}.

Definition struct_ucounts : ctype :=
  CStruct "ucounts" {{
    MField struct_hlist_node "node";
    MField (CPtr "struct user_namespace") "ns";
    MField kuid_t "uid";
    MField c_int "count";
    MField (CArray atomic_t 10) "ucount" }}.

Definition struct_raw_notifier_head : ctype :=
  CStruct "raw_notifier_head" {{
    MField (CPtr "struct notifier_block") "head" }}.

Definition rht_hashfn_t : ctype :=
  CPtr "u32 (*)(...)".

Definition rht_obj_hashfn_t : ctype :=
  CPtr "u32 (*)(...)".

Definition rht_obj_cmpfn_t : ctype :=
  CPtr "int (*)(...)".

Definition struct_rhashtable_params : ctype :=
  CStruct "rhashtable_params" {{
    MField u16 "nelem_hint";
    MField u16 "key_len";
    MField u16 "key_offset";
    MField u16 "head_offset";
    MField c_uint "max_size";
    MField u16 "min_size";
    MField bool_t "automatic_shrinking";
    MField rht_hashfn_t "hashfn";
    MField rht_obj_hashfn_t "obj_hashfn";
    MField rht_obj_cmpfn_t "obj_cmpfn" }}.

Definition struct_rhashtable : ctype :=
  CStruct "rhashtable" {{
    MField (CPtr "struct bucket_table") "tbl";
    MField c_uint "key_len";
    MField c_uint "max_elems";
    MField struct_rhashtable_params "p";
    MField bool_t "rhlist";
    MField struct_work_struct "run_work";
    MField struct_mutex "mutex";
    MField spinlock_t "lock";
    MField atomic_t "nelems" }}.

Definition struct_netns_core : ctype :=
  CStruct "netns_core" {{
    MField (CPtr "struct ctl_table_header") "sysctl_hdr";
    MField c_int "sysctl_somaxconn";
    MField (CPtr "int") "sock_inuse";
    MField (CPtr "struct prot_inuse") "prot_inuse" }}.

Definition struct_netns_mib : ctype :=
  CStruct "netns_mib" {{
    MField (CPtr "struct tcp_mib") "tcp_statistics";
    MField (CPtr "struct ipstats_mib") "ip_statistics";
    MField (CPtr "struct linux_mib") "net_statistics";
    MField (CPtr "struct udp_mib") "udp_statistics";
    MField (CPtr "struct udp_mib") "udplite_statistics";
    MField (CPtr "struct icmp_mib") "icmp_statistics";
    MField (CPtr "struct icmpmsg_mib") "icmpmsg_statistics";
    MField (CPtr "struct proc_dir_entry") "proc_net_devsnmp6";
    MField (CPtr "struct udp_mib") "udp_stats_in6";
    MField (CPtr "struct udp_mib") "udplite_stats_in6";
    MField (CPtr "struct ipstats_mib") "ipv6_statistics";
    MField (CPtr "struct icmpv6_mib") "icmpv6_statistics";
    MField (CPtr "struct icmpv6msg_mib") "icmpv6msg_statistics";
    MField (CPtr "struct linux_tls_mib") "tls_statistics" }}.

Definition struct_netns_packet : ctype :=
  CStruct "netns_packet" {{
    MField struct_mutex "sklist_lock";
    MField struct_hlist_head "sklist" }}.

Definition struct_netns_unix : ctype :=
  CStruct "netns_unix" {{
    MField c_int "sysctl_max_dgram_qlen";
    MField (CPtr "struct ctl_table_header") "ctl" }}.

Definition struct_netns_nexthop : ctype :=
  CStruct "netns_nexthop" {{
    MField struct_rb_root "rb_root";
    MField (CPtr "struct hlist_head") "devhash";
    MField c_uint "seq";
    MField u32 "last_id_allocated";
    MField struct_atomic_notifier_head "notifier_chain" }}.

Definition struct_local_ports : ctype :=
  CStruct "local_ports" {{
    MField seqlock_t "lock";
    MField (CArray c_int 2) "range";
    MField bool_t "warned" }}.

Definition struct_ping_group_range : ctype :=
  CStruct "ping_group_range" {{
    MField seqlock_t "lock";
    MField (CArray kgid_t 2) "range" }}.

Definition siphash_key_t : ctype :=
  CStruct "" {{
    MField (CArray u64 2) "key" }}.

Definition struct_netns_ipv4 : ctype :=
  CStruct "netns_ipv4" {{
    MField (CPtr "struct ctl_table_header") "forw_hdr";
    MField (CPtr "struct ctl_table_header") "frags_hdr";
    MField (CPtr "struct ctl_table_header") "ipv4_hdr";
    MField (CPtr "struct ctl_table_header") "route_hdr";
    MField (CPtr "struct ctl_table_header") "xfrm4_hdr";
    MField (CPtr "struct ipv4_devconf") "devconf_all";
    MField (CPtr "struct ipv4_devconf") "devconf_dflt";
    MField (CPtr "struct ip_ra_chain") "ra_chain";
    MField struct_mutex "ra_mutex";
    MField bool_t "fib_has_custom_local_routes";
    MField c_int "fib_num_tclassid_users";
    MField (CPtr "struct hlist_head") "fib_table_hash";
    MField bool_t "fib_offload_disabled";
    MField (CPtr "struct sock") "fibnl";
    MField (CPtr "struct sock *") "icmp_sk";
    MField (CPtr "struct sock") "mc_autojoin_sk";
    MField (CPtr "struct inet_peer_base") "peers";
    MField (CPtr "struct sock *") "tcp_sk";
    MField (CPtr "struct fqdir") "fqdir";
    MField (CPtr "struct xt_table") "iptable_filter";
    MField (CPtr "struct xt_table") "iptable_mangle";
    MField (CPtr "struct xt_table") "iptable_raw";
    MField (CPtr "struct xt_table") "arptable_filter";
    MField (CPtr "struct xt_table") "iptable_security";
    MField (CPtr "struct xt_table") "nat_table";
    MField c_int "sysctl_icmp_echo_ignore_all";
    MField c_int "sysctl_icmp_echo_ignore_broadcasts";
    MField c_int "sysctl_icmp_ignore_bogus_error_responses";
    MField c_int "sysctl_icmp_ratelimit";
    MField c_int "sysctl_icmp_ratemask";
    MField c_int "sysctl_icmp_errors_use_inbound_ifaddr";
    MField struct_local_ports "ip_local_ports";
    MField c_int "sysctl_tcp_ecn";
    MField c_int "sysctl_tcp_ecn_fallback";
    MField c_int "sysctl_ip_default_ttl";
    MField c_int "sysctl_ip_no_pmtu_disc";
    MField c_int "sysctl_ip_fwd_use_pmtu";
    MField c_int "sysctl_ip_fwd_update_priority";
    MField c_int "sysctl_ip_nonlocal_bind";
    MField c_int "sysctl_ip_autobind_reuse";
    MField c_int "sysctl_ip_dynaddr";
    MField c_int "sysctl_ip_early_demux";
    MField c_int "sysctl_tcp_early_demux";
    MField c_int "sysctl_udp_early_demux";
    MField c_int "sysctl_nexthop_compat_mode";
    MField c_int "sysctl_fwmark_reflect";
    MField c_int "sysctl_tcp_fwmark_accept";
    MField c_int "sysctl_tcp_mtu_probing";
    MField c_int "sysctl_tcp_mtu_probe_floor";
    MField c_int "sysctl_tcp_base_mss";
    MField c_int "sysctl_tcp_min_snd_mss";
    MField c_int "sysctl_tcp_probe_threshold";
    MField u32 "sysctl_tcp_probe_interval";
    MField c_int "sysctl_tcp_keepalive_time";
    MField c_int "sysctl_tcp_keepalive_probes";
    MField c_int "sysctl_tcp_keepalive_intvl";
    MField c_int "sysctl_tcp_syn_retries";
    MField c_int "sysctl_tcp_synack_retries";
    MField c_int "sysctl_tcp_syncookies";
    MField c_int "sysctl_tcp_reordering";
    MField c_int "sysctl_tcp_retries1";
    MField c_int "sysctl_tcp_retries2";
    MField c_int "sysctl_tcp_orphan_retries";
    MField c_int "sysctl_tcp_fin_timeout";
    MField c_uint "sysctl_tcp_notsent_lowat";
    MField c_int "sysctl_tcp_tw_reuse";
    MField c_int "sysctl_tcp_sack";
    MField c_int "sysctl_tcp_window_scaling";
    MField c_int "sysctl_tcp_timestamps";
    MField c_int "sysctl_tcp_early_retrans";
    MField c_int "sysctl_tcp_recovery";
    MField c_int "sysctl_tcp_thin_linear_timeouts";
    MField c_int "sysctl_tcp_slow_start_after_idle";
    MField c_int "sysctl_tcp_retrans_collapse";
    MField c_int "sysctl_tcp_stdurg";
    MField c_int "sysctl_tcp_rfc1337";
    MField c_int "sysctl_tcp_abort_on_overflow";
    MField c_int "sysctl_tcp_fack";
    MField c_int "sysctl_tcp_max_reordering";
    MField c_int "sysctl_tcp_dsack";
    MField c_int "sysctl_tcp_app_win";
    MField c_int "sysctl_tcp_adv_win_scale";
    MField c_int "sysctl_tcp_frto";
    MField c_int "sysctl_tcp_nometrics_save";
    MField c_int "sysctl_tcp_no_ssthresh_metrics_save";
    MField c_int "sysctl_tcp_moderate_rcvbuf";
    MField c_int "sysctl_tcp_tso_win_divisor";
    MField c_int "sysctl_tcp_workaround_signed_windows";
    MField c_int "sysctl_tcp_limit_output_bytes";
    MField c_int "sysctl_tcp_challenge_ack_limit";
    MField c_int "sysctl_tcp_min_tso_segs";
    MField c_int "sysctl_tcp_min_rtt_wlen";
    MField c_int "sysctl_tcp_autocorking";
    MField c_int "sysctl_tcp_invalid_ratelimit";
    MField c_int "sysctl_tcp_pacing_ss_ratio";
    MField c_int "sysctl_tcp_pacing_ca_ratio";
    MField (CArray c_int 3) "sysctl_tcp_wmem";
    MField (CArray c_int 3) "sysctl_tcp_rmem";
    MField c_int "sysctl_tcp_comp_sack_nr";
    MField c_ulong "sysctl_tcp_comp_sack_delay_ns";
    MField c_ulong "sysctl_tcp_comp_sack_slack_ns";
    MBits c_long "" 64;
    MBits c_long "" 64;
    MBits c_long "" 64;
    MBits c_long "" 64;
    MBits c_long "" 64;
    MBits c_long "" 64;
    MField struct_inet_timewait_death_row "tcp_death_row";
    MField c_int "sysctl_max_syn_backlog";
    MField c_int "sysctl_tcp_fastopen";
    MField (CPtr "struct tcp_congestion_ops") "tcp_congestion_control";
    MField (CPtr "struct tcp_fastopen_context") "tcp_fastopen_ctx";
    MField spinlock_t "tcp_fastopen_ctx_lock";
    MField c_uint "sysctl_tcp_fastopen_blackhole_timeout";
    MField atomic_t "tfo_active_disable_times";
    MField c_ulong "tfo_active_disable_stamp";
    MField c_int "sysctl_udp_wmem_min";
    MField c_int "sysctl_udp_rmem_min";
    MField c_int "sysctl_igmp_max_memberships";
    MField c_int "sysctl_igmp_max_msf";
    MField c_int "sysctl_igmp_llm_reports";
    MField c_int "sysctl_igmp_qrv";
    MField struct_ping_group_range "ping_group_range";
    MField atomic_t "dev_addr_genid";
    MField (CPtr "long unsigned int") "sysctl_local_reserved_ports";
    MField c_int "sysctl_ip_prot_sock";
    MField (CPtr "struct fib_notifier_ops") "notifier_ops";
    MField c_uint "fib_seq";
    MField (CPtr "struct fib_notifier_ops") "ipmr_notifier_ops";
    MField c_uint "ipmr_seq";
    MField atomic_t "rt_genid";
    MField siphash_key_t "ip_id_key" }}.

Definition struct_netns_sysctl_ipv6 : ctype :=
  CStruct "netns_sysctl_ipv6" {{
    MField (CPtr "struct ctl_table_header") "hdr";
    MField (CPtr "struct ctl_table_header") "route_hdr";
    MField (CPtr "struct ctl_table_header") "icmp_hdr";
    MField (CPtr "struct ctl_table_header") "frags_hdr";
    MField (CPtr "struct ctl_table_header") "xfrm6_hdr";
    MField c_int "bindv6only";
    MField c_int "flush_delay";
    MField c_int "ip6_rt_max_size";
    MField c_int "ip6_rt_gc_min_interval";
    MField c_int "ip6_rt_gc_timeout";
    MField c_int "ip6_rt_gc_interval";
    MField c_int "ip6_rt_gc_elasticity";
    MField c_int "ip6_rt_mtu_expires";
    MField c_int "ip6_rt_min_advmss";
    MField c_int "multipath_hash_policy";
    MField c_int "flowlabel_consistency";
    MField c_int "auto_flowlabels";
    MField c_int "icmpv6_time";
    MField c_int "icmpv6_echo_ignore_all";
    MField c_int "icmpv6_echo_ignore_multicast";
    MField c_int "icmpv6_echo_ignore_anycast";
    MField (CArray c_ulong 4) "icmpv6_ratemask";
    MField (CPtr "long unsigned int") "icmpv6_ratemask_ptr";
    MField c_int "anycast_src_echo_reply";
    MField c_int "ip_nonlocal_bind";
    MField c_int "fwmark_reflect";
    MField c_int "idgen_retries";
    MField c_int "idgen_delay";
    MField c_int "flowlabel_state_ranges";
    MField c_int "flowlabel_reflect";
    MField c_int "max_dst_opts_cnt";
    MField c_int "max_hbh_opts_cnt";
    MField c_int "max_dst_opts_len";
    MField c_int "max_hbh_opts_len";
    MField c_int "seg6_flowlabel";
    MField bool_t "skip_notify_on_dev_down" }}.

Definition struct_dst_ops : ctype :=
  CStruct "dst_ops" {{
    MField c_ushort "family";
    MField c_uint "gc_thresh";
    MField (CPtr "int (*)(...)") "gc";
    MField (CPtr "struct dst_entry * (*)(...)") "check";
    MField (CPtr "unsigned int (*)(...)") "default_advmss";
    MField (CPtr "unsigned int (*)(...)") "mtu";
    MField (CPtr "u32 * (*)(...)") "cow_metrics";
    MField (CPtr "void (*)(...)") "destroy";
    MField (CPtr "void (*)(...)") "ifdown";
    MField (CPtr "struct dst_entry * (*)(...)") "negative_advice";
    MField (CPtr "void (*)(...)") "link_failure";
    MField (CPtr "void (*)(...)") "update_pmtu";
    MField (CPtr "void (*)(...)") "redirect";
    MField (CPtr "int (*)(...)") "local_out";
    MField (CPtr "struct neighbour * (*)(...)") "neigh_lookup";
    MField (CPtr "void (*)(...)") "confirm_neigh";
    MField (CPtr "struct kmem_cache") "kmem_cachep";
    MField struct_percpu_counter "pcpuc_entries";
    MBits c_long "" 64;
    MBits c_long "" 64;
    MBits c_long "" 64;
    MBits c_long "" 64 }}.

Definition struct_netns_ipv6 : ctype :=
  CStruct "netns_ipv6" {{
    MField struct_netns_sysctl_ipv6 "sysctl";
    MField (CPtr "struct ipv6_devconf") "devconf_all";
    MField (CPtr "struct ipv6_devconf") "devconf_dflt";
    MField (CPtr "struct inet_peer_base") "peers";
    MField (CPtr "struct fqdir") "fqdir";
    MField (CPtr "struct xt_table") "ip6table_filter";
    MField (CPtr "struct xt_table") "ip6table_mangle";
    MField (CPtr "struct xt_table") "ip6table_raw";
    MField (CPtr "struct xt_table") "ip6table_security";
    MField (CPtr "struct xt_table") "ip6table_nat";
    MField (CPtr "struct fib6_info") "fib6_null_entry";
    MField (CPtr "struct rt6_info") "ip6_null_entry";
    MField (CPtr "struct rt6_statistics") "rt6_stats";
    MField struct_timer_list "ip6_fib_timer";
    MField (CPtr "struct hlist_head") "fib_table_hash";
    MField (CPtr "struct fib6_table") "fib6_main_tbl";
    MField struct_list_head "fib6_walkers";
    MBits c_long "" 64;
    MBits c_long "" 64;
    MBits c_long "" 64;
    MBits c_long "" 64;
    MBits c_long "" 64;
    MField struct_dst_ops "ip6_dst_ops";
    MField rwlock_t "fib6_walker_lock";
    MField spinlock_t "fib6_gc_lock";
    MField c_uint "ip6_rt_gc_expire";
    MField c_ulong "ip6_rt_last_gc";
    MField (CPtr "struct sock *") "icmp_sk";
    MField (CPtr "struct sock") "ndisc_sk";
    MField (CPtr "struct sock") "tcp_sk";
    MField (CPtr "struct sock") "igmp_sk";
    MField (CPtr "struct sock") "mc_autojoin_sk";
    MField atomic_t "dev_addr_genid";
    MField atomic_t "fib6_sernum";
    MField (CPtr "struct seg6_pernet_data") "seg6_data";
    MField (CPtr "struct fib_notifier_ops") "notifier_ops";
    MField (CPtr "struct fib_notifier_ops") "ip6mr_notifier_ops";
    MField c_uint "ipmr_seq";
    MField (CStruct "" {{
      MField struct_hlist_head "head";
      MField spinlock_t "lock";
      MField u32 "seq" }}) "ip6addrlbl_table";
    MBits c_long "" 64;
    MBits c_long "" 64 }}.

Definition struct_netns_nf : ctype :=
  CStruct "netns_nf" {{
    MField (CPtr "struct proc_dir_entry") "proc_netfilter";
    MField (CPtr "struct nf_queue_handler") "queue_handler";
    MField (CArray (CPtr "struct nf_logger") 13) "nf_loggers";
    MField (CPtr "struct ctl_table_header") "nf_log_dir_header";
    MField (CArray (CPtr "struct nf_hook_entries") 5) "hooks_ipv4";
    MField (CArray (CPtr "struct nf_hook_entries") 5) "hooks_ipv6";
    MField (CArray (CPtr "struct nf_hook_entries") 3) "hooks_arp";
    MField bool_t "defrag_ipv4";
    MField bool_t "defrag_ipv6" }}.

Definition struct_netns_xt : ctype :=
  CStruct "netns_xt" {{
    MField (CArray struct_list_head 13) "tables";
    MField bool_t "notrack_deprecated_warning";
    MField bool_t "clusterip_deprecated_warning" }}.

Definition struct_nf_generic_net : ctype :=
  CStruct "nf_generic_net" {{
    MField c_uint "timeout" }}.

Definition struct_nf_tcp_net : ctype :=
  CStruct "nf_tcp_net" {{
    MField (CArray c_uint 14) "timeouts";
    MField c_int "tcp_loose";
    MField c_int "tcp_be_liberal";
    MField c_int "tcp_max_retrans" }}.

Definition struct_nf_udp_net : ctype :=
  CStruct "nf_udp_net" {{
    MField (CArray c_uint 2) "timeouts" }}.

Definition struct_nf_icmp_net : ctype :=
  CStruct "nf_icmp_net" {{
    MField c_uint "timeout" }}.

Definition struct_nf_dccp_net : ctype :=
  CStruct "nf_dccp_net" {{
    MField c_int "dccp_loose";
    MField (CArray c_uint 10) "dccp_timeout" }}.

Definition struct_nf_sctp_net : ctype :=
  CStruct "nf_sctp_net" {{
    MField (CArray c_uint 10) "timeouts" }}.

Definition struct_nf_gre_net : ctype :=
  CStruct "nf_gre_net" {{
    MField struct_list_head "keymap_list";
    MField (CArray c_uint 2) "timeouts" }}.

Definition struct_nf_ip_net : ctype :=
  CStruct "nf_ip_net" {{
    MField struct_nf_generic_net "generic";
    MField struct_nf_tcp_net "tcp";
    MField struct_nf_udp_net "udp";
    MField struct_nf_icmp_net "icmp";
    MField struct_nf_icmp_net "icmpv6";
    MField struct_nf_dccp_net "dccp";
    MField struct_nf_sctp_net "sctp";
    MField struct_nf_gre_net "gre" }}.

Definition struct_netns_ct : ctype :=
  CStruct "netns_ct" {{
    MField atomic_t "count";
    MField c_uint "expect_count";
    MField struct_delayed_work "ecache_dwork";
    MField bool_t "ecache_dwork_pending";
    MField bool_t "auto_assign_helper_warned";
    MField (CPtr "struct ctl_table_header") "sysctl_header";
    MField c_uint "sysctl_log_invalid";
    MField c_int "sysctl_events";
    MField c_int "sysctl_acct";
    MField c_int "sysctl_auto_assign_helper";
    MField c_int "sysctl_tstamp";
    MField c_int "sysctl_checksum";
    MField (CPtr "struct ct_pcpu") "pcpu_lists";
    MField (CPtr "struct ip_conntrack_stat") "stat";
    MField (CPtr "struct nf_ct_event_notifier") "nf_conntrack_event_cb";
    MField (CPtr "struct nf_exp_event_notifier") "nf_expect_event_cb";
    MField struct_nf_ip_net "nf_ct_proto";
    MField c_uint "labels_used" }}.

Definition struct_netns_nf_frag : ctype :=
  CStruct "netns_nf_frag" {{
    MField (CPtr "struct fqdir") "fqdir" }}.

Definition struct_netns_bpf : ctype :=
  CStruct "netns_bpf" {{
    MField (CArray (CPtr "struct bpf_prog") 1) "progs";
    MField (CArray (CPtr "struct bpf_link") 1) "links" }}.

Definition struct_xfrm_policy_hash : ctype :=
  CStruct "xfrm_policy_hash" {{
    MField (CPtr "struct hlist_head") "table";
    MField c_uint "hmask";
    MField u8 "dbits4";
    MField u8 "sbits4";
    MField u8 "dbits6";
    MField u8 "sbits6" }}.

Definition struct_xfrm_policy_hthresh : ctype :=
  CStruct "xfrm_policy_hthresh" {{
    MField struct_work_struct "work";
    MField seqlock_t "lock";
    MField u8 "lbits4";
    MField u8 "rbits4";
    MField u8 "lbits6";
    MField u8 "rbits6" }}.

Definition struct_netns_xfrm : ctype :=
  CStruct "netns_xfrm" {{
    MField struct_list_head "state_all";
    MField (CPtr "struct hlist_head") "state_bydst";
    MField (CPtr "struct hlist_head") "state_bysrc";
    MField (CPtr "struct hlist_head") "state_byspi";
    MField c_uint "state_hmask";
    MField c_uint "state_num";
    MField struct_work_struct "state_hash_work";
    MField struct_list_head "policy_all";
    MField (CPtr "struct hlist_head") "policy_byidx";
    MField c_uint "policy_idx_hmask";
    MField (CArray struct_hlist_head 3) "policy_inexact";
    MField (CArray struct_xfrm_policy_hash 3) "policy_bydst";
    MField (CArray c_uint 6) "policy_count";
    MField struct_work_struct "policy_hash_work";
    MField struct_xfrm_policy_hthresh "policy_hthresh";
    MField struct_list_head "inexact_bins";
    MField (CPtr "struct sock") "nlsk";
    MField (CPtr "struct sock") "nlsk_stash";
    MField u32 "sysctl_aevent_etime";
    MField u32 "sysctl_aevent_rseqth";
    MField c_int "sysctl_larval_drop";
    MField u32 "sysctl_acq_expires";
    MField (CPtr "struct ctl_table_header") "sysctl_hdr";
    MBits c_long "" 64;
    MField struct_dst_ops "xfrm4_dst_ops";
    MField struct_dst_ops "xfrm6_dst_ops";
    MField spinlock_t "xfrm_state_lock";
    MField spinlock_t "xfrm_policy_lock";
    MField struct_mutex "xfrm_cfg_mutex";
    MBits c_long "" 64;
    MBits c_long "" 64;
    MBits c_long "" 64;
    MBits c_long "" 64;
    MBits c_long "" 64;
    MBits c_long "" 64 }}.

Definition struct_netns_xdp : ctype :=
  CStruct "netns_xdp" {{
    MField struct_mutex "lock";
    MField struct_hlist_head "list" }}.

Definition struct_net : ctype :=
  CStruct "net" {{
    MField refcount_t "passive";
    MField refcount_t "count";
    MField spinlock_t "rules_mod_lock";
    MField c_uint "dev_unreg_count";
    MField c_uint "dev_base_seq";
    MField c_int "ifindex";
    MField spinlock_t "nsid_lock";
    MField atomic_t "fnhe_genid";
    MField struct_list_head "list";
    MField struct_list_head "exit_list";
    MField struct_llist_node "cleanup_list";
    MField (CPtr "struct user_namespace") "user_ns";
    MField (CPtr "struct ucounts") "ucounts";
    MField struct_idr "netns_ids";
    MField struct_ns_common "ns";
    MField struct_list_head "dev_base_head";
    MField (CPtr "struct proc_dir_entry") "proc_net";
    MField (CPtr "struct proc_dir_entry") "proc_net_stat";
    MField struct_ctl_table_set "sysctls";
    MField (CPtr "struct sock") "rtnl";
    MField (CPtr "struct sock") "genl_sock";
    MField (CPtr "struct uevent_sock") "uevent_sock";
    MField (CPtr "struct hlist_head") "dev_name_head";
    MField (CPtr "struct hlist_head") "dev_index_head";
    MField struct_raw_notifier_head "netdev_chain";
    MField u32 "hash_mix";
    MField (CPtr "struct net_device") "loopback_dev";
    MField struct_list_head "rules_ops";
    MField struct_netns_core "core";
    MField struct_netns_mib "mib";
    MField struct_netns_packet "packet";
    MField struct_netns_unix "unx";
    MField struct_netns_nexthop "nexthop";
    MBits c_long "" 64;
    MBits c_long "" 64;
    MField struct_netns_ipv4 "ipv4";
    MField struct_netns_ipv6 "ipv6";
    MField struct_netns_nf "nf";
    MField struct_netns_xt "xt";
    MField struct_netns_ct "ct";
    MField struct_netns_nf_frag "nf_frag";
    MField (CPtr "struct ctl_table_header") "nf_frag_frags_hdr";
    MField (CPtr "struct sock") "nfnl";
    MField (CPtr "struct sock") "nfnl_stash";
    MField struct_list_head "nfnl_acct_list";
    MField struct_list_head "nfct_timeout_list";
    MField (CPtr "struct net_generic") "gen";
    MField struct_netns_bpf "bpf";
    MBits c_long "" 64;
    MBits c_long "" 64;
    MBits c_long "" 64;
    MField struct_netns_xfrm "xfrm";
    MField atomic64_t "net_cookie";
    MField (CPtr "struct netns_ipvs") "ipvs";
    MField struct_netns_xdp "xdp";
    MField (CPtr "struct sock") "diag_nlsk";
    MBits c_long "" 64;
    MBits c_long "" 64 }}.

Definition struct_net_device_stats : ctype :=
  CStruct "net_device_stats" {{
    MField c_ulong "rx_packets";
    MField c_ulong "tx_packets";
    MField c_ulong "rx_bytes";
    MField c_ulong "tx_bytes";
    MField c_ulong "rx_errors";
    MField c_ulong "tx_errors";
    MField c_ulong "rx_dropped";
    MField c_ulong "tx_dropped";
    MField c_ulong "multicast";
    MField c_ulong "collisions";
    MField c_ulong "rx_length_errors";
    MField c_ulong "rx_over_errors";
    MField c_ulong "rx_crc_errors";
    MField c_ulong "rx_frame_errors";
    MField c_ulong "rx_fifo_errors";
    MField c_ulong "rx_missed_errors";
    MField c_ulong "tx_aborted_errors";
    MField c_ulong "tx_carrier_errors";
    MField c_ulong "tx_fifo_errors";
    MField c_ulong "tx_heartbeat_errors";
    MField c_ulong "tx_window_errors";
    MField c_ulong "rx_compressed";
    MField c_ulong "tx_compressed" }}.

Definition struct_netdev_hw_addr_list : ctype :=
  CStruct "netdev_hw_addr_list" {{
    MField struct_list_head "list";
    MField c_int "count" }}.

Definition struct_netdev_tc_txq : ctype :=
  CStruct "netdev_tc_txq" {{
    MField u16 "count";
    MField u16 "offset" }}.

Definition struct_net_device : ctype :=
  CStruct "net_device" {{
    MField (CArray c_char 16) "name";
    MField (CPtr "struct netdev_name_node") "name_node";
    MField (CPtr "struct dev_ifalias") "ifalias";
    MField c_ulong "mem_end";
    MField c_ulong "mem_start";
    MField c_ulong "base_addr";
    MField c_int "irq";
    MField c_ulong "state";
    MField struct_list_head "dev_list";
    MField struct_list_head "napi_list";
    MField struct_list_head "unreg_list";
    MField struct_list_head "close_list";
    MField struct_list_head "ptype_all";
    MField struct_list_head "ptype_specific";
    MField (CStruct "" {{
      MField struct_list_head "upper";
      MField struct_list_head "lower" }}) "adj_list";
    MField netdev_features_t "features";
    MField netdev_features_t "hw_features";
    MField netdev_features_t "wanted_features";
    MField netdev_features_t "vlan_features";
    MField netdev_features_t "hw_enc_features";
    MField netdev_features_t "mpls_features";
    MField netdev_features_t "gso_partial_features";
    MField c_int "ifindex";
    MField c_int "group";
    MField struct_net_device_stats "stats";
    MField atomic_long_t "rx_dropped";
    MField atomic_long_t "tx_dropped";
    MField atomic_long_t "rx_nohandler";
    MField atomic_t "carrier_up_count";
    MField atomic_t "carrier_down_count";
    MField (CPtr "struct net_device_ops") "netdev_ops";
    MField (CPtr "struct ethtool_ops") "ethtool_ops";
    MField (CPtr "struct ndisc_ops") "ndisc_ops";
    MField (CPtr "struct header_ops") "header_ops";
    MField c_uint "flags";
    MField c_uint "priv_flags";
    MField c_ushort "gflags";
    MField c_ushort "padded";
    MField c_uchar "operstate";
    MField c_uchar "link_mode";
    MField c_uchar "if_port";
    MField c_uchar "dma";
    MField c_uint "mtu";
    MField c_uint "min_mtu";
    MField c_uint "max_mtu";
    MField c_ushort "type";
    MField c_ushort "hard_header_len";
    MField c_uchar "min_header_len";
    MField c_ushort "needed_headroom";
    MField c_ushort "needed_tailroom";
    MField (CArray c_uchar 32) "perm_addr";
    MField c_uchar "addr_assign_type";
    MField c_uchar "addr_len";
    MField c_uchar "upper_level";
    MField c_uchar "lower_level";
    MField c_ushort "neigh_priv_len";
    MField c_ushort "dev_id";
    MField c_ushort "dev_port";
    MField spinlock_t "addr_list_lock";
    MField c_uchar "name_assign_type";
    MField bool_t "uc_promisc";
    MField struct_netdev_hw_addr_list "uc";
    MField struct_netdev_hw_addr_list "mc";
    MField struct_netdev_hw_addr_list "dev_addrs";
    MField (CPtr "struct kset") "queues_kset";
    MField c_uint "promiscuity";
    MField c_uint "allmulti";
    MField (CPtr "struct in_device") "ip_ptr";
    MField (CPtr "struct inet6_dev") "ip6_ptr";
    MField (CPtr "struct wireless_dev") "ieee80211_ptr";
    MField (CPtr "struct wpan_dev") "ieee802154_ptr";
    MField (CPtr "unsigned char") "dev_addr";
    MField (CPtr "struct netdev_rx_queue") "_rx";
    MField c_uint "num_rx_queues";
    MField c_uint "real_num_rx_queues";
    MField (CPtr "struct bpf_prog") "xdp_prog";
    MField c_ulong "gro_flush_timeout";
    MField c_int "napi_defer_hard_irqs";
    MField (CPtr "rx_handler_func_t") "rx_handler";
    MField (CPtr "void") "rx_handler_data";
    MField (CPtr "struct netdev_queue") "ingress_queue";
    MField (CPtr "struct nf_hook_entries") "nf_hooks_ingress";
    MField (CArray c_uchar 32) "broadcast";
    MField (CPtr "struct cpu_rmap") "rx_cpu_rmap";
    MField struct_hlist_node "index_hlist";
    MBits c_long "" 64;
    MBits c_long "" 64;
    MBits c_long "" 64;
    MBits c_long "" 64;
    MBits c_long "" 64;
    MField (CPtr "struct netdev_queue") "_tx";
    MField c_uint "num_tx_queues";
    MField c_uint "real_num_tx_queues";
    MField (CPtr "struct Qdisc") "qdisc";
    MField c_uint "tx_queue_len";
    MField spinlock_t "tx_global_lock";
    MField (CPtr "struct xdp_dev_bulk_queue") "xdp_bulkq";
    MField (CPtr "struct xps_dev_maps") "xps_cpus_map";
    MField (CPtr "struct xps_dev_maps") "xps_rxqs_map";
    MField (CArray struct_hlist_head 16) "qdisc_hash";
    MField struct_timer_list "watchdog_timer";
    MField c_int "watchdog_timeo";
    MField struct_list_head "todo_list";
    MField (CPtr "int") "pcpu_refcnt";
    MField struct_list_head "link_watch_list";
    MBits (CEnum "" [("NETREG_UNINITIALIZED", 0);
      ("NETREG_REGISTERED", 1);
      ("NETREG_UNREGISTERING", 2);
      ("NETREG_UNREGISTERED", 3);
      ("NETREG_RELEASED", 4);
      ("NETREG_DUMMY", 5)]) "reg_state" 8;
    MField bool_t "dismantle";
    MBits (CEnum "" [("RTNL_LINK_INITIALIZED", 0);
      ("RTNL_LINK_INITIALIZING", 1)]) "rtnl_link_state" 16;
    MField bool_t "needs_free_netdev";
    MField (CPtr "void (*)(...)") "priv_destructor";
    MField possible_net_t "nd_net";
    MField (CUnion "" {{
      MField (CPtr "void") "ml_priv";
      MField (CPtr "struct pcpu_lstats") "lstats";
      MField (CPtr "struct pcpu_sw_netstats") "tstats";
      MField (CPtr "struct pcpu_dstats") "dstats" }}) "";
    MField struct_device "dev";
    MField (CArray (CPtr "struct attribute_group") 4) "sysfs_groups";
    MField (CPtr "struct attribute_group") "sysfs_rx_queue_group";
    MField (CPtr "struct rtnl_link_ops") "rtnl_link_ops";
    MField c_uint "gso_max_size";
    MField u16 "gso_max_segs";
    MField s16 "num_tc";
    MField (CArray struct_netdev_tc_txq 16) "tc_to_txq";
    MField (CArray u8 16) "prio_tc_map";
    MField (CPtr "struct netprio_map") "priomap";
    MField (CPtr "struct phy_device") "phydev";
    MField (CPtr "struct sfp_bus") "sfp_bus";
    MField (CPtr "struct lock_class_key") "qdisc_tx_busylock";
    MField (CPtr "struct lock_class_key") "qdisc_running_key";
    MField bool_t "proto_down";
    MBits c_uint "wol_enabled" 1;
    MField struct_list_head "net_notifier_list";
    MBits c_long "" 64;
    MBits c_long "" 64 }}.

Definition struct_timens_offsets : ctype :=
  CStruct "timens_offsets" {{
    MField struct_timespec64 "monotonic";
    MField struct_timespec64 "boottime" }}.

Definition struct_time_namespace : ctype :=
  CStruct "time_namespace" {{
    MField struct_kref "kref";
    MField (CPtr "struct user_namespace") "user_ns";
    MField (CPtr "struct ucounts") "ucounts";
    MField struct_ns_common "ns";
    MField struct_timens_offsets "offsets";
    MField (CPtr "struct page") "vvar_page";
    MField bool_t "frozen_offsets" }}.

Definition struct_ipc_ids : ctype :=
  CStruct "ipc_ids" {{
    MField c_int "in_use";
    MField c_ushort "seq";
    MField struct_rw_semaphore "rwsem";
    MField struct_idr "ipcs_idr";
    MField c_int "max_idx";
    MField c_int "last_idx";
    MField struct_rhashtable "key_ht" }}.

Definition struct_ipc_namespace : ctype :=
  CStruct "ipc_namespace" {{
    MField refcount_t "count";
    MField (CArray struct_ipc_ids 3) "ids";
    MField (CArray c_int 4) "sem_ctls";
    MField c_int "used_sems";
    MField c_uint "msg_ctlmax";
    MField c_uint "msg_ctlmnb";
    MField c_uint "msg_ctlmni";
    MField atomic_t "msg_bytes";
    MField atomic_t "msg_hdrs";
    MField size_t "shm_ctlmax";
    MField size_t "shm_ctlall";
    MField c_ulong "shm_tot";
    MField c_int "shm_ctlmni";
    MField c_int "shm_rmid_forced";
    MField struct_notifier_block "ipcns_nb";
    MField (CPtr "struct vfsmount") "mq_mnt";
    MField c_uint "mq_queues_count";
    MField c_uint "mq_queues_max";
    MField c_uint "mq_msg_max";
    MField c_uint "mq_msgsize_max";
    MField c_uint "mq_msg_default";
    MField c_uint "mq_msgsize_default";
    MField (CPtr "struct user_namespace") "user_ns";
    MField (CPtr "struct ucounts") "ucounts";
    MField struct_llist_node "mnt_llist";
    MField struct_ns_common "ns" }}.

Definition struct_net_generic : ctype :=
  CStruct "net_generic" {{
    MField (CUnion "" {{
      MField (CStruct "" {{
        MField c_uint "len";
        MField struct_callback_head "rcu" }}) "s";
      MField (CArray (CPtr "void") 0) "ptr" }}) "" }}.

Definition struct_in_addr : ctype :=
  CStruct "in_addr" {{
    MField __be32 "s_addr" }}.

Definition struct_mnt_namespace : ctype :=
  CStruct "mnt_namespace" {{
    MField atomic_t "count";
    MField struct_ns_common "ns";
    MField (CPtr "struct mount") "root";
    MField struct_list_head "list";
    MField spinlock_t "ns_lock";
    MField (CPtr "struct user_namespace") "user_ns";
    MField (CPtr "struct ucounts") "ucounts";
    MField u64 "seq";
    MField wait_queue_head_t "poll";
    MField u64 "event";
    MField c_uint "mounts";
    MField c_uint "pending_mounts" }}.

Definition nlink_t : ctype :=
  u32.

Definition proc_write_t : ctype :=
  CPtr "int (*)(...)".

Definition struct_proc_dir_entry : ctype :=
  CStruct "proc_dir_entry" {{
    MField atomic_t "in_use";
    MField refcount_t "refcnt";
    MField struct_list_head "pde_openers";
    MField spinlock_t "pde_unload_lock";
    MField (CPtr "struct completion") "pde_unload_completion";
    MField (CPtr "struct inode_operations") "proc_iops";
    MField (CUnion "" {{
      MField (CPtr "struct proc_ops") "proc_ops";
      MField (CPtr "struct file_operations") "proc_dir_ops" }}) "";
    MField (CPtr "struct dentry_operations") "proc_dops";
    MField (CUnion "" {{
      MField (CPtr "struct seq_operations") "seq_ops";
      MField (CPtr "int (*)(...)") "single_show" }}) "";
    MField proc_write_t "write";
    MField (CPtr "void") "data";
    MField c_uint "state_size";
    MField c_uint "low_ino";
    MField nlink_t "nlink";
    MField kuid_t "uid";
    MField kgid_t "gid";
    MField loff_t "size";
    MField (CPtr "struct proc_dir_entry") "parent";
    MField struct_rb_root "subdir";
    MField struct_rb_node "subdir_node";
    MField (CPtr "char") "name";
    MField umode_t "mode";
    MField u8 "flags";
    MField u8 "namelen";
    MField (CArray c_char 0) "inline_name" }}.

Definition struct_uevent_sock : ctype :=
  CStruct "uevent_sock" {{
    MField struct_list_head "list";
    MField (CPtr "struct sock") "sk" }}.

Definition union_nf_inet_addr : ctype :=
  CUnion "nf_inet_addr" {{
    MField (CArray __u32 4) "all";
    MField __be32 "ip";
    MField (CArray __be32 4) "ip6";
    MField struct_in_addr "in";
    MField struct_in6_addr "in6" }}.

Definition struct_ip_vs_kstats : ctype :=
  CStruct "ip_vs_kstats" {{
    MField u64 "conns";
    MField u64 "inpkts";
    MField u64 "outpkts";
    MField u64 "inbytes";
    MField u64 "outbytes";
    MField u64 "cps";
    MField u64 "inpps";
    MField u64 "outpps";
    MField u64 "inbps";
    MField u64 "outbps" }}.

Definition struct_ip_vs_estimator : ctype :=
  CStruct "ip_vs_estimator" {{
    MField struct_list_head "list";
    MField u64 "last_inbytes";
    MField u64 "last_outbytes";
    MField u64 "last_conns";
    MField u64 "last_inpkts";
    MField u64 "last_outpkts";
    MField u64 "cps";
    MField u64 "inpps";
    MField u64 "outpps";
    MField u64 "inbps";
    MField u64 "outbps" }}.

Definition struct_ip_vs_stats : ctype :=
  CStruct "ip_vs_stats" {{
    MField struct_ip_vs_kstats "kstats";
    MField struct_ip_vs_estimator "est";
    MField (CPtr "struct ip_vs_cpu_stats") "cpustats";
    MField spinlock_t "lock";
    MField struct_ip_vs_kstats "kstats0" }}.

Definition struct_ipvs_sync_daemon_cfg : ctype :=
  CStruct "ipvs_sync_daemon_cfg" {{
    MField union_nf_inet_addr "mcast_group";
    MField c_int "syncid";
    MField u16 "sync_maxlen";
    MField u16 "mcast_port";
    MField u8 "mcast_af";
    MField u8 "mcast_ttl";
    MField (CArray c_char 16) "mcast_ifn" }}.

Definition struct_netns_ipvs : ctype :=
  CStruct "netns_ipvs" {{
    MField c_int "gen";
    MField c_int "enable";
    MField (CArray struct_hlist_head 16) "rs_table";
    MField struct_list_head "app_list";
    MField (CArray (CPtr "struct ip_vs_proto_data") 32) "proto_data_table";
    MField (CArray struct_list_head 16) "tcp_apps";
    MField (CArray struct_list_head 16) "udp_apps";
    MField (CArray struct_list_head 16) "sctp_apps";
    MField atomic_t "conn_count";
    MField struct_ip_vs_stats "tot_stats";
    MField c_int "num_services";
    MField struct_list_head "dest_trash";
    MField spinlock_t "dest_trash_lock";
    MField struct_timer_list "dest_trash_timer";
    MField atomic_t "ftpsvc_counter";
    MField atomic_t "nullsvc_counter";
    MField atomic_t "conn_out_counter";
    MField struct_delayed_work "defense_work";
    MField c_int "drop_rate";
    MField c_int "drop_counter";
    MField c_int "old_secure_tcp";
    MField atomic_t "dropentry";
    MField spinlock_t "dropentry_lock";
    MField spinlock_t "droppacket_lock";
    MField spinlock_t "securetcp_lock";
    MField (CPtr "struct ctl_table_header") "sysctl_hdr";
    MField (CPtr "struct ctl_table") "sysctl_tbl";
    MField c_int "sysctl_amemthresh";
    MField c_int "sysctl_am_droprate";
    MField c_int "sysctl_drop_entry";
    MField c_int "sysctl_drop_packet";
    MField c_int "sysctl_secure_tcp";
    MField c_int "sysctl_conntrack";
    MField c_int "sysctl_snat_reroute";
    MField c_int "sysctl_sync_ver";
    MField c_int "sysctl_sync_ports";
    MField c_int "sysctl_sync_persist_mode";
    MField c_ulong "sysctl_sync_qlen_max";
    MField c_int "sysctl_sync_sock_size";
    MField c_int "sysctl_cache_bypass";
    MField c_int "sysctl_expire_nodest_conn";
    MField c_int "sysctl_sloppy_tcp";
    MField c_int "sysctl_sloppy_sctp";
    MField c_int "sysctl_expire_quiescent_template";
    MField (CArray c_int 2) "sysctl_sync_threshold";
    MField c_uint "sysctl_sync_refresh_period";
    MField c_int "sysctl_sync_retries";
    MField c_int "sysctl_nat_icmp_send";
    MField c_int "sysctl_pmtu_disc";
    MField c_int "sysctl_backup_only";
    MField c_int "sysctl_conn_reuse_mode";
    MField c_int "sysctl_schedule_icmp";
    MField c_int "sysctl_ignore_tunneled";
    MField c_int "sysctl_lblc_expiration";
    MField (CPtr "struct ctl_table_header") "lblc_ctl_header";
    MField (CPtr "struct ctl_table") "lblc_ctl_table";
    MField c_int "sysctl_lblcr_expiration";
    MField (CPtr "struct ctl_table_header") "lblcr_ctl_header";
    MField (CPtr "struct ctl_table") "lblcr_ctl_table";
    MField struct_list_head "est_list";
    MField spinlock_t "est_lock";
    MField struct_timer_list "est_timer";
    MField spinlock_t "sync_lock";
    MField (CPtr "struct ipvs_master_sync_state") "ms";
    MField spinlock_t "sync_buff_lock";
    MField (CPtr "struct ip_vs_sync_thread_data") "master_tinfo";
    MField (CPtr "struct ip_vs_sync_thread_data") "backup_tinfo";
    MField c_int "threads_mask";
    MField c_int "sync_state";
    MField struct_mutex "sync_mutex";
    MField struct_ipvs_sync_daemon_cfg "mcfg";
    MField struct_ipvs_sync_daemon_cfg "bcfg";
    MField (CPtr "struct net") "net";
    MField c_uint "mixed_address_family_dests" }}.

(** All the declarations of this file. *)
Definition net_types : list ctype :=
  [struct_atomic_notifier_head;
   enum_dl_dev_state;
   struct_dev_links_info;
   struct_pm_message;
   pm_message_t;
   struct_dev_pm_info;
   struct_dev_archdata;
   struct_device;
   notifier_fn_t;
   struct_notifier_block;
   struct_idr;
   __s16;
   s16;
   struct_uid_gid_extent;
   struct_uid_gid_map;
   struct_ns_common;
   struct_ctl_table_header;
   struct_ctl_dir;
   struct_ctl_table_set;
   struct_user_namespace;
   struct_pid_namespace;
   struct_new_utsname;
   struct_uts_namespace;
   struct_cgroup_namespace;
   struct_ucounts;
   struct_raw_notifier_head;
   rht_hashfn_t;
   rht_obj_hashfn_t;
   rht_obj_cmpfn_t;
   struct_rhashtable_params;
   struct_rhashtable;
   struct_netns_core;
   struct_netns_mib;
   struct_netns_packet;
   struct_netns_unix;
   struct_netns_nexthop;
   struct_local_ports;
   struct_ping_group_range;
   siphash_key_t;
   struct_netns_ipv4;
   struct_netns_sysctl_ipv6;
   struct_dst_ops;
   struct_netns_ipv6;
   struct_netns_nf;
   struct_netns_xt;
   struct_nf_generic_net;
   struct_nf_tcp_net;
   struct_nf_udp_net;
   struct_nf_icmp_net;
   struct_nf_dccp_net;
   struct_nf_sctp_net;
   struct_nf_gre_net;
   struct_nf_ip_net;
   struct_netns_ct;
   struct_netns_nf_frag;
   struct_netns_bpf;
   struct_xfrm_policy_hash;
   struct_xfrm_policy_hthresh;
   struct_netns_xfrm;
   struct_netns_xdp;
   struct_net;
   struct_net_device_stats;
   struct_netdev_hw_addr_list;
   struct_netdev_tc_txq;
   struct_net_device;
   struct_timens_offsets;
   struct_time_namespace;
   struct_ipc_ids;
   struct_ipc_namespace;
   struct_net_generic;
   struct_in_addr;
   struct_mnt_namespace;
   nlink_t;
   proc_write_t;
   struct_proc_dir_entry;
   struct_uevent_sock;
   union_nf_inet_addr;
   struct_ip_vs_kstats;
   struct_ip_vs_estimator;
   struct_ip_vs_stats;
   struct_ipvs_sync_daemon_cfg;
   struct_netns_ipvs].
