(* ===== verification/VmlinuxTask.v ===== *)
(** * vmlinux.h, tasks and tracing: [struct task_struct], the tracepoint records, the bpf enums

    The current task, whose [nsproxy] leads the syscall probe to its network namespace, what it
    embeds by value, the types one pointer away from it, the context records of the tracepoint and
    of the kprobes, and the enums that number bpf map types and helper functions. *)

From S2P Require Import Prelude CLayout VmlinuxBase.

Definition __kernel_long_t : ctype :=
  c_long.

Definition __kernel_pid_t : ctype :=
  c_int.

Definition __kernel_clock_t : ctype :=
  __kernel_long_t.

Definition __kernel_timer_t : ctype :=
  c_int.

Definition __kernel_clockid_t : ctype :=
  c_int.

Definition pid_t : ctype :=
  __kernel_pid_t.

Definition clockid_t : ctype :=
  __kernel_clockid_t.

Definition phys_addr_t : ctype :=
  u64.

Definition enum_timespec_type : ctype :=
  CEnum "timespec_type" [("TT_NONE", 0);
    ("TT_NATIVE", 1);
    ("TT_COMPAT", 2)].

Definition struct_restart_block : ctype :=
  CStruct "restart_block" {{
    MField (CPtr "long int (*)(...)") "fn";
    MField (CUnion "" {{
      MField (CStruct "" {{
        MField (CPtr "u32") "uaddr";
        MField u32 "val";
        MField u32 "flags";
        MField u32 "bitset";
        MField u64 "time";
        MField (CPtr "u32") "uaddr2" }}) "futex";
      MField (CStruct "" {{
        MField clockid_t "clockid";
        MField enum_timespec_type "type";
        MField (CUnion "" {{
          MField (CPtr "struct __kernel_timespec") "rmtp";
          MField (CPtr "struct old_timespec32") "compat_rmtp" }}) "";
        MField u64 "expires" }}) "nanosleep";
      MField (CStruct "" {{
        MField (CPtr "struct pollfd") "ufds";
        MField c_int "nfds";
        MField c_int "has_timeout";
        MField c_ulong "tv_sec";
        MField c_ulong "tv_nsec" }}) "poll" }}) "" }}.

Definition struct_thread_info : ctype :=
  CStruct "thread_info" {{
    MField c_ulong "flags";
    MField u32 "status" }}.

Definition struct_load_weight : ctype :=
  CStruct "load_weight" {{
    MField c_ulong "weight";
    MField u32 "inv_weight" }}.

Definition struct_sched_statistics : ctype :=
  CStruct "sched_statistics" MNil.

Definition struct_util_est : ctype :=
  CStruct "util_est" {{
    MField c_uint "enqueued";
    MField c_uint "ewma" }}.

Definition struct_sched_avg : ctype :=
  CStruct "sched_avg" {{
    MField u64 "last_update_time";
    MField u64 "load_sum";
    MField u64 "runnable_sum";
    MField u32 "util_sum";
    MField u32 "period_contrib";
    MField c_ulong "load_avg";
    MField c_ulong "runnable_avg";
    MField c_ulong "util_avg";
    MField struct_util_est "util_est" }}.

Definition struct_sched_entity : ctype :=
  CStruct "sched_entity" {{
    MField struct_load_weight "load";
    MField struct_rb_node "run_node";
    MField struct_list_head "group_node";
    MField c_uint "on_rq";
    MField u64 "exec_start";
    MField u64 "sum_exec_runtime";
    MField u64 "vruntime";
    MField u64 "prev_sum_exec_runtime";
    MField u64 "nr_migrations";
    MField struct_sched_statistics "statistics";
    MField c_int "depth";
    MField (CPtr "struct sched_entity") "parent";
    MField (CPtr "struct cfs_rq") "cfs_rq";
    MField (CPtr "struct cfs_rq") "my_q";
    MField c_ulong "runnable_weight";
    MBits c_long "" 64;
    MBits c_long "" 64;
    MBits c_long "" 64;
    MBits c_long "" 64;
    MBits c_long "" 64;
    MBits c_long "" 64;
    MField struct_sched_avg "avg" }}.

Definition struct_sched_rt_entity : ctype :=
  CStruct "sched_rt_entity" {{
    MField struct_list_head "run_list";
    MField c_ulong "timeout";
    MField c_ulong "watchdog_stamp";
    MField c_uint "time_slice";
    MField c_ushort "on_rq";
    MField c_ushort "on_list";
    MField (CPtr "struct sched_rt_entity") "back" }}.

Definition struct_timerqueue_node : ctype :=
  CStruct "timerqueue_node" {{
    MField struct_rb_node "node";
    MField ktime_t "expires" }}.

Definition struct_hrtimer : ctype :=
  CStruct "hrtimer" {{
    MField struct_timerqueue_node "node";
    MField ktime_t "_softexpires";
    MField (CPtr "enum hrtimer_restart (*)(...)") "function";
    MField (CPtr "struct hrtimer_clock_base") "base";
    MField u8 "state";
    MField u8 "is_rel";
    MField u8 "is_soft";
    MField u8 "is_hard" }}.

Definition struct_sched_dl_entity : ctype :=
  CStruct "sched_dl_entity" {{
    MField struct_rb_node "rb_node";
    MField u64 "dl_runtime";
    MField u64 "dl_deadline";
    MField u64 "dl_period";
    MField u64 "dl_bw";
    MField u64 "dl_density";
    MField s64 "runtime";
    MField u64 "deadline";
    MField c_uint "flags";
    MBits c_uint "dl_throttled" 1;
    MBits c_uint "dl_boosted" 1;
    MBits c_uint "dl_yielded" 1;
    MBits c_uint "dl_non_contending" 1;
    MBits c_uint "dl_overrun" 1;
    MField struct_hrtimer "dl_timer";
    MField struct_hrtimer "inactive_timer" }}.

Definition struct_cpumask : ctype :=
  CStruct "cpumask" {{
    MField (CArray c_ulong 4) "bits" }}.

Definition cpumask_t : ctype :=
  struct_cpumask.

Definition struct_sched_info : ctype :=
  CStruct "sched_info" MNil.

Definition struct_plist_node : ctype :=
  CStruct "plist_node" {{
    MField c_int "prio";
    MField struct_list_head "prio_list";
    MField struct_list_head "node_list" }}.

Definition struct_vmacache : ctype :=
  CStruct "vmacache" {{
    MField u64 "seqnum";
    MField (CArray (CPtr "struct vm_area_struct") 4) "vmas" }}.

Definition struct_task_rss_stat : ctype :=
  CStruct "task_rss_stat" {{
    MField c_int "events";
    MField (CArray c_int 4) "count" }}.

Definition struct_prev_cputime : ctype :=
  CStruct "prev_cputime" {{
    MField u64 "utime";
    MField u64 "stime";
    MField raw_spinlock_t "lock" }}.

Definition enum_vtime_state : ctype :=
  CEnum "vtime_state" [("VTIME_INACTIVE", 0);
    ("VTIME_IDLE", 1);
    ("VTIME_SYS", 2);
    ("VTIME_USER", 3);
    ("VTIME_GUEST", 4)].

Definition struct_vtime : ctype :=
  CStruct "vtime" {{
    MField seqcount_t "seqcount";
    MField c_ulonglong "starttime";
    MField enum_vtime_state "state";
    MField c_uint "cpu";
    MField u64 "utime";
    MField u64 "stime";
    MField u64 "gtime" }}.

Definition struct_rb_root_cached : ctype :=
  CStruct "rb_root_cached" {{
    MField struct_rb_root "rb_root";
    MField (CPtr "struct rb_node") "rb_leftmost" }}.

Definition struct_timerqueue_head : ctype :=
  CStruct "timerqueue_head" {{
    MField struct_rb_root_cached "rb_root" }}.

Definition struct_posix_cputimer_base : ctype :=
  CStruct "posix_cputimer_base" {{
    MField u64 "nextevt";
    MField struct_timerqueue_head "tqhead" }}.

Definition struct_posix_cputimers : ctype :=
  CStruct "posix_cputimers" {{
    MField (CArray struct_posix_cputimer_base 3) "bases";
    MField c_uint "timers_active";
    MField c_uint "expiry_active" }}.

Definition struct_sysv_sem : ctype :=
  CStruct "sysv_sem" {{
    MField (CPtr "struct sem_undo_list") "undo_list" }}.

Definition struct_sysv_shm : ctype :=
  CStruct "sysv_shm" {{
    MField struct_list_head "shm_clist" }}.

Definition sigset_t : ctype :=
  CStruct "" {{
    MField (CArray c_ulong 1) "sig" }}.

Definition struct_sigpending : ctype :=
  CStruct "sigpending" {{
    MField struct_list_head "list";
    MField sigset_t "signal" }}.

Definition struct_seccomp : ctype :=
  CStruct "seccomp" {{
    MField c_int "mode";
    MField (CPtr "struct seccomp_filter") "filter" }}.

Definition struct_wake_q_node : ctype :=
  CStruct "wake_q_node" {{
    MField (CPtr "struct wake_q_node") "next" }}.

Definition struct_held_lock : ctype :=
  CStruct "held_lock" {{
    MField u64 "prev_chain_key";
    MField c_ulong "acquire_ip";
    MField (CPtr "struct lockdep_map") "instance";
    MField (CPtr "struct lockdep_map") "nest_lock";
    MBits c_uint "class_idx" 13;
    MBits c_uint "irq_context" 2;
    MBits c_uint "trylock" 1;
    MBits c_uint "read" 2;
    MBits c_uint "check" 1;
    MBits c_uint "hardirqs_off" 1;
    MBits c_uint "references" 12;
    MField c_uint "pin_count" }}.

Definition struct_task_io_accounting : ctype :=
  CStruct "task_io_accounting" MNil.

Definition nodemask_t : ctype :=
  CStruct "" {{
    MField (CArray c_ulong 1) "bits" }}.

Definition struct_arch_tlbflush_unmap_batch : ctype :=
  CStruct "arch_tlbflush_unmap_batch" {{
    MField struct_cpumask "cpumask" }}.

Definition struct_tlbflush_unmap_batch : ctype :=
  CStruct "tlbflush_unmap_batch" {{
    MField struct_arch_tlbflush_unmap_batch "arch";
    MField bool_t "flush_required";
    MField bool_t "writable" }}.

Definition struct_desc_struct : ctype :=
  CStruct "desc_struct" {{
    MField u16 "limit0";
    MField u16 "base0";
    MBits u16 "base1" 8;
    MBits u16 "type" 4;
    MBits u16 "s" 1;
    MBits u16 "dpl" 2;
    MBits u16 "p" 1;
    MBits u16 "limit1" 4;
    MBits u16 "avl" 1;
    MBits u16 "l" 1;
    MBits u16 "d" 1;
    MBits u16 "g" 1;
    MBits u16 "base2" 8 }}.

Definition mm_segment_t : ctype :=
  CStruct "" {{
    MField c_ulong "seg" }}.

Definition struct_fregs_state : ctype :=
  CStruct "fregs_state" {{
    MField u32 "cwd";
    MField u32 "swd";
    MField u32 "twd";
    MField u32 "fip";
    MField u32 "fcs";
    MField u32 "foo";
    MField u32 "fos";
    MField (CArray u32 20) "st_space";
    MField u32 "status" }}.

Definition struct_fxregs_state : ctype :=
  CStruct "fxregs_state" {{
    MField u16 "cwd";
    MField u16 "swd";
    MField u16 "twd";
    MField u16 "fop";
    MField (CUnion "" {{
      MField (CStruct "" {{
        MField u64 "rip";
        MField u64 "rdp" }}) "";
      MField (CStruct "" {{
        MField u32 "fip";
        MField u32 "fcs";
        MField u32 "foo";
        MField u32 "fos" }}) "" }}) "";
    MField u32 "mxcsr";
    MField u32 "mxcsr_mask";
    MField (CArray u32 32) "st_space";
    MField (CArray u32 64) "xmm_space";
    MField (CArray u32 12) "padding";
    MField (CUnion "" {{
      MField (CArray u32 12) "padding1";
      MField (CArray u32 12) "sw_reserved" }}) "" }}.

Definition struct_swregs_state : ctype :=
  CStruct "swregs_state" {{
    MField u32 "cwd";
    MField u32 "swd";
    MField u32 "twd";
    MField u32 "fip";
    MField u32 "fcs";
    MField u32 "foo";
    MField u32 "fos";
    MField (CArray u32 20) "st_space";
    MField u8 "ftop";
    MField u8 "changed";
    MField u8 "lookahead";
    MField u8 "no_update";
    MField u8 "rm";
    MField u8 "alimit";
    MField (CPtr "struct math_emu_info") "info";
    MField u32 "entry_eip" }}.

Definition struct_xstate_header : ctype :=
  CStruct "xstate_header" {{
    MField u64 "xfeatures";
    MField u64 "xcomp_bv";
    MField (CArray u64 6) "reserved" }}.

Definition struct_xregs_state : ctype :=
  CStruct "xregs_state" {{
    MField struct_fxregs_state "i387";
    MField struct_xstate_header "header";
    MField (CArray u8 0) "extended_state_area" }}.

Definition union_fpregs_state : ctype :=
  CUnion "fpregs_state" {{
    MField struct_fregs_state "fsave";
    MField struct_fxregs_state "fxsave";
    MField struct_swregs_state "soft";
    MField struct_xregs_state "xsave";
    MField (CArray u8 4096) "__padding" }}.

Definition struct_fpu : ctype :=
  CStruct "fpu" {{
    MField c_uint "last_cpu";
    MField c_ulong "avx512_timestamp";
    MBits c_long "" 64;
    MBits c_long "" 64;
    MBits c_long "" 64;
    MBits c_long "" 64;
    MBits c_long "" 64;
    MBits c_long "" 64;
    MField union_fpregs_state "state" }}.

Definition struct_thread_struct : ctype :=
  CStruct "thread_struct" {{
    MField (CArray struct_desc_struct 3) "tls_array";
    MField c_ulong "sp";
    MField c_ushort "es";
    MField c_ushort "ds";
    MField c_ushort "fsindex";
    MField c_ushort "gsindex";
    MField c_ulong "fsbase";
    MField c_ulong "gsbase";
    MField (CArray (CPtr "struct perf_event") 4) "ptrace_bps";
    MField c_ulong "debugreg6";
    MField c_ulong "ptrace_dr7";
    MField c_ulong "cr2";
    MField c_ulong "trap_nr";
    MField c_ulong "error_code";
    MField (CPtr "struct io_bitmap") "io_bitmap";
    MField c_ulong "iopl_emul";
    MField mm_segment_t "addr_limit";
    MBits c_uint "sig_on_uaccess_err" 1;
    MBits c_long "" 63;
    MBits c_long "" 64;
    MBits c_long "" 64;
    MBits c_long "" 64;
    MBits c_long "" 64;
    MField struct_fpu "fpu" }}.

Definition union_sigval : ctype :=
  CUnion "sigval" {{
    MField c_int "sival_int";
    MField (CPtr "void") "sival_ptr" }}.

Definition sigval_t : ctype :=
  union_sigval.

Definition union___sifields : ctype :=
  CUnion "__sifields" {{
    MField (CStruct "" {{
      MField __kernel_pid_t "_pid";
      MField __kernel_uid32_t "_uid" }}) "_kill";
    MField (CStruct "" {{
      MField __kernel_timer_t "_tid";
      MField c_int "_overrun";
      MField sigval_t "_sigval";
      MField c_int "_sys_private" }}) "_timer";
    MField (CStruct "" {{
      MField __kernel_pid_t "_pid";
      MField __kernel_uid32_t "_uid";
      MField sigval_t "_sigval" }}) "_rt";
    MField (CStruct "" {{
      MField __kernel_pid_t "_pid";
      MField __kernel_uid32_t "_uid";
      MField c_int "_status";
      MField __kernel_clock_t "_utime";
      MField __kernel_clock_t "_stime" }}) "_sigchld";
    MField (CStruct "" {{
      MField (CPtr "void") "_addr";
      MField (CUnion "" {{
        MField c_short "_addr_lsb";
        MField (CStruct "" {{
          MField (CArray c_char 8) "_dummy_bnd";
          MField (CPtr "void") "_lower";
          MField (CPtr "void") "_upper" }}) "_addr_bnd";
        MField (CStruct "" {{
          MField (CArray c_char 8) "_dummy_pkey";
          MField __u32 "_pkey" }}) "_addr_pkey" }}) "" }}) "_sigfault";
    MField (CStruct "" {{
      MField c_long "_band";
      MField c_int "_fd" }}) "_sigpoll";
    MField (CStruct "" {{
      MField (CPtr "void") "_call_addr";
      MField c_int "_syscall";
      MField c_uint "_arch" }}) "_sigsys" }}.

Definition struct_kernel_siginfo : ctype :=
  CStruct "kernel_siginfo" {{
    MField (CStruct "" {{
      MField c_int "si_signo";
      MField c_int "si_errno";
      MField c_int "si_code";
      MField union___sifields "_sifields" }}) "" }}.

Definition kernel_siginfo_t : ctype :=
  struct_kernel_siginfo.

Definition struct_audit_task_info : ctype :=
  CStruct "audit_task_info" {{
    MField kuid_t "loginuid" }}.

Definition struct_pid_link : ctype :=
  CStruct "pid_link" {{
    MField struct_hlist_node "node";
    MField (CPtr "struct pid") "pid" }}.

Definition struct_task_struct : ctype :=
  CStruct "task_struct" {{
    MField struct_thread_info "thread_info";
    MField c_long "state";
    MField (CPtr "void") "stack";
    MField refcount_t "usage";
    MField c_uint "flags";
    MField c_uint "ptrace";
    MField struct_llist_node "wake_entry";
    MField c_uint "wake_entry_type";
    MField c_int "on_cpu";
    MField c_uint "cpu";
    MField c_uint "wakee_flips";
    MField c_ulong "wakee_flip_decay_ts";
    MField (CPtr "struct task_struct") "last_wakee";
    MField c_int "recent_used_cpu";
    MField c_int "wake_cpu";
    MField c_int "on_rq";
    MField c_int "prio";
    MField c_int "static_prio";
    MField c_int "normal_prio";
    MField c_uint "rt_priority";
    MField (CPtr "struct sched_class") "sched_class";
    MField struct_sched_entity "se";
    MField struct_sched_rt_entity "rt";
    MField (CPtr "struct task_group") "sched_task_group";
    MField struct_sched_dl_entity "dl";
    MField c_uint "policy";
    MField c_int "nr_cpus_allowed";
    MField (CPtr "cpumask_t") "cpus_ptr";
    MField cpumask_t "cpus_mask";
    MField struct_sched_info "sched_info";
    MField struct_list_head "tasks";
    MField struct_plist_node "pushable_tasks";
    MField struct_rb_node "pushable_dl_tasks";
    MField (CPtr "struct mm_struct") "mm";
    MField (CPtr "struct mm_struct") "active_mm";
    MField struct_vmacache "vmacache";
    MField struct_task_rss_stat "rss_stat";
    MField c_int "exit_state";
    MField c_int "exit_code";
    MField c_int "exit_signal";
    MField c_int "pdeath_signal";
    MField c_ulong "jobctl";
    MField c_uint "personality";
    MBits c_uint "sched_reset_on_fork" 1;
    MBits c_uint "sched_contributes_to_load" 1;
    MBits c_uint "sched_migrated" 1;
    MBits c_uint "sched_remote_wakeup" 1;
    MBits c_int "" 28;
    MBits c_uint "in_execve" 1;
    MBits c_uint "in_iowait" 1;
    MBits c_uint "restore_sigmask" 1;
    MBits c_uint "in_user_fault" 1;
    MBits c_uint "no_cgroup_migration" 1;
    MBits c_uint "frozen" 1;
    MBits c_uint "use_memdelay" 1;
    MField c_ulong "atomic_flags";
    MField struct_restart_block "restart_block";
    MField pid_t "pid";
    MField pid_t "tgid";
    MField c_ulong "stack_canary";
    MField (CPtr "struct task_struct") "real_parent";
    MField (CPtr "struct task_struct") "parent";
    MField struct_list_head "children";
    MField struct_list_head "sibling";
    MField (CPtr "struct task_struct") "group_leader";
    MField struct_list_head "ptraced";
    MField struct_list_head "ptrace_entry";
    MField (CPtr "struct pid") "thread_pid";
    MField (CArray struct_pid_link 4) "pids";
    MField (CArray struct_hlist_node 4) "pid_links";
    MField struct_list_head "thread_group";
    MField struct_list_head "thread_node";
    MField (CPtr "struct completion") "vfork_done";
    MField (CPtr "int") "set_child_tid";
    MField (CPtr "int") "clear_child_tid";
    MField u64 "utime";
    MField u64 "stime";
    MField u64 "gtime";
    MField struct_prev_cputime "prev_cputime";
    MField struct_vtime "vtime";
    MField atomic_t "tick_dep_mask";
    MField c_ulong "nvcsw";
    MField c_ulong "nivcsw";
    MField u64 "start_time";
    MField u64 "start_boottime";
    MField c_ulong "min_flt";
    MField c_ulong "maj_flt";
    MField struct_posix_cputimers "posix_cputimers";
    MField (CPtr "struct cred") "ptracer_cred";
    MField (CPtr "struct cred") "real_cred";
    MField (CPtr "struct cred") "cred";
    MField (CArray c_char 16) "comm";
    MField (CPtr "struct nameidata") "nameidata";
    MField struct_sysv_sem "sysvsem";
    MField struct_sysv_shm "sysvshm";
    MField (CPtr "struct fs_struct") "fs";
    MField (CPtr "struct files_struct") "files";
    MField (CPtr "struct nsproxy") "nsproxy";
    MField (CPtr "struct signal_struct") "signal";
    MField (CPtr "struct sighand_struct") "sighand";
    MField sigset_t "blocked";
    MField sigset_t "real_blocked";
    MField sigset_t "saved_sigmask";
    MField struct_sigpending "pending";
    MField c_ulong "sas_ss_sp";
    MField size_t "sas_ss_size";
    MField c_uint "sas_ss_flags";
    MField (CPtr "struct callback_head") "task_works";
    MField (CPtr "struct audit_context") "audit_context";
    MField (CPtr "struct audit_task_info") "audit";
    MField kuid_t "loginuid";
    MField c_uint "sessionid";
    MField struct_seccomp "seccomp";
    MField u64 "parent_exec_id";
    MField u64 "self_exec_id";
    MField spinlock_t "alloc_lock";
    MField raw_spinlock_t "pi_lock";
    MField struct_wake_q_node "wake_q";
    MField struct_rb_root_cached "pi_waiters";
    MField (CPtr "struct task_struct") "pi_top_task";
    MField (CPtr "struct rt_mutex_waiter") "pi_blocked_on";
    MField (CPtr "struct mutex_waiter") "blocked_on";
    MField c_int "non_block_count";
    MField c_uint "irq_events";
    MField c_uint "hardirq_threaded";
    MField c_ulong "hardirq_enable_ip";
    MField c_ulong "hardirq_disable_ip";
    MField c_uint "hardirq_enable_event";
    MField c_uint "hardirq_disable_event";
    MField c_int "hardirqs_enabled";
    MField c_int "hardirq_context";
    MField u64 "hardirq_chain_key";
    MField c_ulong "softirq_disable_ip";
    MField c_ulong "softirq_enable_ip";
    MField c_uint "softirq_disable_event";
    MField c_uint "softirq_enable_event";
    MField c_int "softirqs_enabled";
    MField c_int "softirq_context";
    MField c_int "irq_config";
    MField u64 "curr_chain_key";
    MField c_int "lockdep_depth";
    MField c_uint "lockdep_recursion";
    MField (CArray struct_held_lock 48) "held_locks";
    MField (CPtr "void") "journal_info";
    MField (CPtr "struct bio_list") "bio_list";
    MField (CPtr "struct blk_plug") "plug";
    MField (CPtr "struct reclaim_state") "reclaim_state";
    MField (CPtr "struct backing_dev_info") "backing_dev_info";
    MField (CPtr "struct io_context") "io_context";
    MField (CPtr "struct capture_control") "capture_control";
    MField c_ulong "ptrace_message";
    MField (CPtr "kernel_siginfo_t") "last_siginfo";
    MField struct_task_io_accounting "ioac";
    MField nodemask_t "mems_allowed";
    MField seqcount_t "mems_allowed_seq";
    MField c_int "cpuset_mem_spread_rotor";
    MField c_int "cpuset_slab_spread_rotor";
    MField (CPtr "struct css_set") "cgroups";
    MField struct_list_head "cg_list";
    MField (CPtr "struct robust_list_head") "robust_list";
    MField struct_list_head "pi_state_list";
    MField (CPtr "struct futex_pi_state") "pi_state_cache";
    MField struct_mutex "futex_exit_mutex";
    MField c_uint "futex_state";
    MField (CArray (CPtr "struct perf_event_context") 2) "perf_event_ctxp";
    MField struct_mutex "perf_event_mutex";
    MField struct_list_head "perf_event_list";
    MField (CPtr "struct rseq") "rseq";
    MField u32 "rseq_sig";
    MField c_ulong "rseq_event_mask";
    MField struct_tlbflush_unmap_batch "tlb_ubc";
    MField (CUnion "" {{
      MField refcount_t "rcu_users";
      MField struct_callback_head "rcu" }}) "";
    MField (CPtr "struct pipe_inode_info") "splice_pipe";
    MField struct_page_frag "task_frag";
    MField c_int "nr_dirtied";
    MField c_int "nr_dirtied_pause";
    MField c_ulong "dirty_paused_when";
    MField u64 "timer_slack_ns";
    MField u64 "default_timer_slack_ns";
    MField c_ulong "trace";
    MField c_ulong "trace_recursion";
    MField (CPtr "struct mem_cgroup") "memcg_in_oom";
    MField gfp_t "memcg_oom_gfp_mask";
    MField c_int "memcg_oom_order";
    MField c_uint "memcg_nr_pages_over_high";
    MField (CPtr "struct mem_cgroup") "active_memcg";
    MField (CPtr "struct request_queue") "throttle_queue";
    MField (CPtr "struct uprobe_task") "utask";
    MField c_ulong "task_state_change";
    MField c_int "pagefault_disabled";
    MField (CPtr "struct task_struct") "oom_reaper_list";
    MField (CPtr "struct vm_struct") "stack_vm_area";
    MField refcount_t "stack_refcount";
    MField (CPtr "void") "security";
    MField struct_thread_struct "thread" }}.

Definition struct_pt_regs : ctype :=
  CStruct "pt_regs" {{
    MField c_ulong "r15";
    MField c_ulong "r14";
    MField c_ulong "r13";
    MField c_ulong "r12";
    MField c_ulong "bp";
    MField c_ulong "bx";
    MField c_ulong "r11";
    MField c_ulong "r10";
    MField c_ulong "r9";
    MField c_ulong "r8";
    MField c_ulong "ax";
    MField c_ulong "cx";
    MField c_ulong "dx";
    MField c_ulong "si";
    MField c_ulong "di";
    MField c_ulong "orig_ax";
    MField c_ulong "ip";
    MField c_ulong "cs";
    MField c_ulong "flags";
    MField c_ulong "sp";
    MField c_ulong "ss" }}.

Definition struct_mm_rss_stat : ctype :=
  CStruct "mm_rss_stat" {{
    MField (CArray atomic_long_t 4) "count" }}.

Definition mm_context_t : ctype :=
  CStruct "" {{
    MField u64 "ctx_id";
    MField atomic64_t "tlb_gen";
    MField struct_rw_semaphore "ldt_usr_sem";
    MField (CPtr "struct ldt_struct") "ldt";
    MField c_ushort "ia32_compat";
    MField struct_mutex "lock";
    MField (CPtr "void") "vdso";
    MField (CPtr "struct vdso_image") "vdso_image";
    MField atomic_t "perf_rdpmc_allowed" }}.

Definition struct_uprobes_state : ctype :=
  CStruct "uprobes_state" {{
    MField (CPtr "struct xol_area") "xol_area" }}.

Definition struct_mm_struct : ctype :=
  CStruct "mm_struct" {{
    MField (CStruct "" {{
      MField (CPtr "struct vm_area_struct") "mmap";
      MField struct_rb_root "mm_rb";
      MField u64 "vmacache_seqnum";
      MField (CPtr "long unsigned int (*)(...)") "get_unmapped_area";
      MField c_ulong "mmap_base";
      MField c_ulong "mmap_legacy_base";
      MField c_ulong "task_size";
      MField c_ulong "highest_vm_end";
      MField (CPtr "pgd_t") "pgd";
      MField atomic_t "membarrier_state";
      MField atomic_t "mm_users";
      MField atomic_t "mm_count";
      MField atomic_long_t "pgtables_bytes";
      MField c_int "map_count";
      MField spinlock_t "page_table_lock";
      MField struct_rw_semaphore "mmap_lock";
      MField struct_list_head "mmlist";
      MField c_ulong "hiwater_rss";
      MField c_ulong "hiwater_vm";
      MField c_ulong "total_vm";
      MField c_ulong "locked_vm";
      MField atomic64_t "pinned_vm";
      MField c_ulong "data_vm";
      MField c_ulong "exec_vm";
      MField c_ulong "stack_vm";
      MField c_ulong "def_flags";
      MField spinlock_t "arg_lock";
      MField c_ulong "start_code";
      MField c_ulong "end_code";
      MField c_ulong "start_data";
      MField c_ulong "end_data";
      MField c_ulong "start_brk";
      MField c_ulong "brk";
      MField c_ulong "start_stack";
      MField c_ulong "arg_start";
      MField c_ulong "arg_end";
      MField c_ulong "env_start";
      MField c_ulong "env_end";
      MField (CArray c_ulong 44) "saved_auxv";
      MField struct_mm_rss_stat "rss_stat";
      MField (CPtr "struct linux_binfmt") "binfmt";
      MField mm_context_t "context";
      MField c_ulong "flags";
      MField (CPtr "struct core_state") "core_state";
      MField spinlock_t "ioctx_lock";
      MField (CPtr "struct kioctx_table") "ioctx_table";
      MField (CPtr "struct task_struct") "owner";
      MField (CPtr "struct user_namespace") "user_ns";
      MField (CPtr "struct file") "exe_file";
      MField atomic_t "tlb_flush_pending";
      MField bool_t "tlb_flush_batched";
      MField struct_uprobes_state "uprobes_state";
      MField atomic_long_t "hugetlb_usage";
      MField struct_work_struct "async_put_work" }}) "";
    MField (CArray c_ulong 0) "cpu_bitmap" }}.

Definition struct_mutex_waiter : ctype :=
  CStruct "mutex_waiter" {{
    MField struct_list_head "list";
    MField (CPtr "struct task_struct") "task";
    MField (CPtr "struct ww_acquire_ctx") "ww_ctx";
    MField (CPtr "void") "magic" }}.

Definition struct_swait_queue_head : ctype :=
  CStruct "swait_queue_head" {{
    MField raw_spinlock_t "lock";
    MField struct_list_head "task_list" }}.

Definition struct_completion : ctype :=
  CStruct "completion" {{
    MField c_uint "done";
    MField struct_swait_queue_head "wait" }}.

Definition struct_arch_uprobe_task : ctype :=
  CStruct "arch_uprobe_task" {{
    MField c_ulong "saved_scratch_register";
    MField c_uint "saved_trap_nr";
    MField c_uint "saved_tf" }}.

Definition enum_uprobe_task_state : ctype :=
  CEnum "uprobe_task_state" [("UTASK_RUNNING", 0);
    ("UTASK_SSTEP", 1);
    ("UTASK_SSTEP_ACK", 2);
    ("UTASK_SSTEP_TRAPPED", 3)].

Definition struct_uprobe_task : ctype :=
  CStruct "uprobe_task" {{
    MField enum_uprobe_task_state "state";
    MField (CUnion "" {{
      MField (CStruct "" {{
        MField struct_arch_uprobe_task "autask";
        MField c_ulong "vaddr" }}) "";
      MField (CStruct "" {{
        MField struct_callback_head "dup_xol_work";
        MField c_ulong "dup_xol_addr" }}) "" }}) "";
    MField (CPtr "struct uprobe") "active_uprobe";
    MField c_ulong "xol_vaddr";
    MField (CPtr "struct return_instance") "return_instances";
    MField c_uint "depth" }}.

Definition struct_path : ctype :=
  CStruct "path" {{
    MField (CPtr "struct vfsmount") "mnt";
    MField (CPtr "struct dentry") "dentry" }}.

Definition struct_vm_struct : ctype :=
  CStruct "vm_struct" {{
    MField (CPtr "struct vm_struct") "next";
    MField (CPtr "void") "addr";
    MField c_ulong "size";
    MField c_ulong "flags";
    MField (CPtr "struct page *") "pages";
    MField c_uint "nr_pages";
    MField phys_addr_t "phys_addr";
    MField (CPtr "void") "caller" }}.

Definition struct_rlimit : ctype :=
  CStruct "rlimit" {{
    MField __kernel_ulong_t "rlim_cur";
    MField __kernel_ulong_t "rlim_max" }}.

Definition __sighandler_t : ctype :=
  CPtr "__signalfn_t".

Definition __sigrestore_t : ctype :=
  CPtr "__restorefn_t".

Definition struct_sigaction : ctype :=
  CStruct "sigaction" {{
    MField __sighandler_t "sa_handler";
    MField c_ulong "sa_flags";
    MField __sigrestore_t "sa_restorer";
    MField sigset_t "sa_mask" }}.

Definition struct_k_sigaction : ctype :=
  CStruct "k_sigaction" {{
    MField struct_sigaction "sa" }}.

Definition struct_cpu_itimer : ctype :=
  CStruct "cpu_itimer" {{
    MField u64 "expires";
    MField u64 "incr" }}.

Definition struct_task_cputime_atomic : ctype :=
  CStruct "task_cputime_atomic" {{
    MField atomic64_t "utime";
    MField atomic64_t "stime";
    MField atomic64_t "sum_exec_runtime" }}.

Definition struct_thread_group_cputimer : ctype :=
  CStruct "thread_group_cputimer" {{
    MField struct_task_cputime_atomic "cputime_atomic" }}.

Definition struct_signal_struct : ctype :=
  CStruct "signal_struct" {{
    MField refcount_t "sigcnt";
    MField atomic_t "live";
    MField c_int "nr_threads";
    MField struct_list_head "thread_head";
    MField wait_queue_head_t "wait_chldexit";
    MField (CPtr "struct task_struct") "curr_target";
    MField struct_sigpending "shared_pending";
    MField struct_hlist_head "multiprocess";
    MField c_int "group_exit_code";
    MField c_int "notify_count";
    MField (CPtr "struct task_struct") "group_exit_task";
    MField c_int "group_stop_count";
    MField c_uint "flags";
    MBits c_uint "is_child_subreaper" 1;
    MBits c_uint "has_child_subreaper" 1;
    MField c_int "posix_timer_id";
    MField struct_list_head "posix_timers";
    MField struct_hrtimer "real_timer";
    MField ktime_t "it_real_incr";
    MField (CArray struct_cpu_itimer 2) "it";
    MField struct_thread_group_cputimer "cputimer";
    MField struct_posix_cputimers "posix_cputimers";
    MField (CArray (CPtr "struct pid") 4) "pids";
    MField atomic_t "tick_dep_mask";
    MField (CPtr "struct pid") "tty_old_pgrp";
    MField c_int "leader";
    MField (CPtr "struct tty_struct") "tty";
    MField seqlock_t "stats_lock";
    MField u64 "utime";
    MField u64 "stime";
    MField u64 "cutime";
    MField u64 "cstime";
    MField u64 "gtime";
    MField u64 "cgtime";
    MField struct_prev_cputime "prev_cputime";
    MField c_ulong "nvcsw";
    MField c_ulong "nivcsw";
    MField c_ulong "cnvcsw";
    MField c_ulong "cnivcsw";
    MField c_ulong "min_flt";
    MField c_ulong "maj_flt";
    MField c_ulong "cmin_flt";
    MField c_ulong "cmaj_flt";
    MField c_ulong "inblock";
    MField c_ulong "oublock";
    MField c_ulong "cinblock";
    MField c_ulong "coublock";
    MField c_ulong "maxrss";
    MField c_ulong "cmaxrss";
    MField struct_task_io_accounting "ioac";
    MField c_ulonglong "sum_sched_runtime";
    MField (CArray struct_rlimit 16) "rlim";
    MField c_uint "audit_tty";
    MField (CPtr "struct tty_audit_buf") "tty_audit_buf";
    MField bool_t "oom_flag_origin";
    MField c_short "oom_score_adj";
    MField c_short "oom_score_adj_min";
    MField (CPtr "struct mm_struct") "oom_mm";
    MField struct_mutex "cred_guard_mutex";
    MField struct_mutex "exec_update_mutex" }}.

Definition struct_rseq : ctype :=
  CStruct "rseq" {{
    MField __u32 "cpu_id_start";
    MField __u32 "cpu_id";
    MField (CUnion "" {{
      MField __u64 "ptr64";
      MField __u64 "ptr" }}) "rseq_cs";
    MField __u32 "flags";
    MBits c_long "" 32;
    MBits c_long "" 64 }}.

Definition struct_sched_class : ctype :=
  CStruct "sched_class" {{
    MField (CPtr "struct sched_class") "next";
    MField (CPtr "void (*)(...)") "enqueue_task";
    MField (CPtr "void (*)(...)") "dequeue_task";
    MField (CPtr "void (*)(...)") "yield_task";
    MField (CPtr "bool (*)(...)") "yield_to_task";
    MField (CPtr "void (*)(...)") "check_preempt_curr";
    MField (CPtr "struct task_struct * (*)(...)") "pick_next_task";
    MField (CPtr "void (*)(...)") "put_prev_task";
    MField (CPtr "void (*)(...)") "set_next_task";
    MField (CPtr "int (*)(...)") "balance";
    MField (CPtr "int (*)(...)") "select_task_rq";
    MField (CPtr "void (*)(...)") "migrate_task_rq";
    MField (CPtr "void (*)(...)") "task_woken";
    MField (CPtr "void (*)(...)") "set_cpus_allowed";
    MField (CPtr "void (*)(...)") "rq_online";
    MField (CPtr "void (*)(...)") "rq_offline";
    MField (CPtr "void (*)(...)") "task_tick";
    MField (CPtr "void (*)(...)") "task_fork";
    MField (CPtr "void (*)(...)") "task_dead";
    MField (CPtr "void (*)(...)") "switched_from";
    MField (CPtr "void (*)(...)") "switched_to";
    MField (CPtr "void (*)(...)") "prio_changed";
    MField (CPtr "unsigned int (*)(...)") "get_rr_interval";
    MField (CPtr "void (*)(...)") "update_curr";
    MField (CPtr "void (*)(...)") "task_change_group" }}.

Definition struct_sighand_struct : ctype :=
  CStruct "sighand_struct" {{
    MField spinlock_t "siglock";
    MField refcount_t "count";
    MField wait_queue_head_t "signalfd_wqh";
    MField (CArray struct_k_sigaction 64) "action" }}.

Definition struct_io_context : ctype :=
  CStruct "io_context" {{
    MField atomic_long_t "refcount";
    MField atomic_t "active_ref";
    MField atomic_t "nr_tasks";
    MField spinlock_t "lock";
    MField c_ushort "ioprio";
    MField c_int "nr_batch_requests";
    MField c_ulong "last_waited";
    MField struct_xarray "icq_tree";
    MField (CPtr "struct io_cq") "icq_hint";
    MField struct_hlist_head "icq_list";
    MField struct_work_struct "release_work" }}.

Definition struct_qstr : ctype :=
  CStruct "qstr" {{
    MField (CUnion "" {{
      MField (CStruct "" {{
        MField u32 "hash";
        MField u32 "len" }}) "";
      MField u64 "hash_len" }}) "";
    MField (CPtr "unsigned char") "name" }}.

Definition struct_delayed_call : ctype :=
  CStruct "delayed_call" {{
    MField (CPtr "void (*)(...)") "fn";
    MField (CPtr "void") "arg" }}.

Definition struct_bio_list : ctype :=
  CStruct "bio_list" {{
    MField (CPtr "struct bio") "head";
    MField (CPtr "struct bio") "tail" }}.

Definition struct_blk_plug : ctype :=
  CStruct "blk_plug" {{
    MField struct_list_head "mq_list";
    MField struct_list_head "cb_list";
    MField c_ushort "rq_count";
    MField bool_t "multiple_queues" }}.

Definition struct_reclaim_state : ctype :=
  CStruct "reclaim_state" {{
    MField c_ulong "reclaimed_slab" }}.

Definition struct_fprop_local_percpu : ctype :=
  CStruct "fprop_local_percpu" {{
    MField struct_percpu_counter "events";
    MField c_uint "period";
    MField raw_spinlock_t "lock" }}.

Definition enum_wb_reason : ctype :=
  CEnum "wb_reason" [("WB_REASON_BACKGROUND", 0);
    ("WB_REASON_VMSCAN", 1);
    ("WB_REASON_SYNC", 2);
    ("WB_REASON_PERIODIC", 3);
    ("WB_REASON_LAPTOP_TIMER", 4);
    ("WB_REASON_FS_FREE_SPACE", 5);
    ("WB_REASON_FORKER_THREAD", 6);
    ("WB_REASON_FOREIGN_FLUSH", 7);
    ("WB_REASON_MAX", 8)].

Definition struct_bdi_writeback : ctype :=
  CStruct "bdi_writeback" {{
    MField (CPtr "struct backing_dev_info") "bdi";
    MField c_ulong "state";
    MField c_ulong "last_old_flush";
    MField struct_list_head "b_dirty";
    MField struct_list_head "b_io";
    MField struct_list_head "b_more_io";
    MField struct_list_head "b_dirty_time";
    MField spinlock_t "list_lock";
    MField (CArray struct_percpu_counter 4) "stat";
    MField (CPtr "struct bdi_writeback_congested") "congested";
    MField c_ulong "bw_time_stamp";
    MField c_ulong "dirtied_stamp";
    MField c_ulong "written_stamp";
    MField c_ulong "write_bandwidth";
    MField c_ulong "avg_write_bandwidth";
    MField c_ulong "dirty_ratelimit";
    MField c_ulong "balanced_dirty_ratelimit";
    MField struct_fprop_local_percpu "completions";
    MField c_int "dirty_exceeded";
    MField enum_wb_reason "start_all_reason";
    MField spinlock_t "work_lock";
    MField struct_list_head "work_list";
    MField struct_delayed_work "dwork";
    MField c_ulong "dirty_sleep";
    MField struct_list_head "bdi_node";
    MField struct_percpu_ref "refcnt";
    MField struct_fprop_local_percpu "memcg_completions";
    MField (CPtr "struct cgroup_subsys_state") "memcg_css";
    MField (CPtr "struct cgroup_subsys_state") "blkcg_css";
    MField struct_list_head "memcg_node";
    MField struct_list_head "blkcg_node";
    MField (CUnion "" {{
      MField struct_work_struct "release_work";
      MField struct_callback_head "rcu" }}) "" }}.

Definition struct_backing_dev_info : ctype :=
  CStruct "backing_dev_info" {{
    MField u64 "id";
    MField struct_rb_node "rb_node";
    MField struct_list_head "bdi_list";
    MField c_ulong "ra_pages";
    MField c_ulong "io_pages";
    MField (CPtr "congested_fn") "congested_fn";
    MField (CPtr "void") "congested_data";
    MField struct_kref "refcnt";
    MField c_uint "capabilities";
    MField c_uint "min_ratio";
    MField c_uint "max_ratio";
    MField c_uint "max_prop_frac";
    MField atomic_long_t "tot_write_bandwidth";
    MField struct_bdi_writeback "wb";
    MField struct_list_head "wb_list";
    MField struct_xarray "cgwb_tree";
    MField struct_rb_root "cgwb_congested_tree";
    MField struct_mutex "cgwb_release_mutex";
    MField struct_rw_semaphore "wb_switch_rwsem";
    MField wait_queue_head_t "wb_waitq";
    MField (CPtr "struct device") "dev";
    MField (CArray c_char 64) "dev_name";
    MField (CPtr "struct device") "owner";
    MField struct_timer_list "laptop_mode_wb_timer";
    MField (CPtr "struct dentry") "debug_dir" }}.

Definition struct_css_set : ctype :=
  CStruct "css_set" {{
    MField (CArray (CPtr "struct cgroup_subsys_state") 11) "subsys";
    MField refcount_t "refcount";
    MField (CPtr "struct css_set") "dom_cset";
    MField (CPtr "struct cgroup") "dfl_cgrp";
    MField c_int "nr_tasks";
    MField struct_list_head "tasks";
    MField struct_list_head "mg_tasks";
    MField struct_list_head "dying_tasks";
    MField struct_list_head "task_iters";
    MField (CArray struct_list_head 11) "e_cset_node";
    MField struct_list_head "threaded_csets";
    MField struct_list_head "threaded_csets_node";
    MField struct_hlist_node "hlist";
    MField struct_list_head "cgrp_links";
    MField struct_list_head "mg_preload_node";
    MField struct_list_head "mg_node";
    MField (CPtr "struct cgroup") "mg_src_cgrp";
    MField (CPtr "struct cgroup") "mg_dst_cgrp";
    MField (CPtr "struct css_set") "mg_dst_cset";
    MField bool_t "dead";
    MField struct_callback_head "callback_head" }}.

Definition struct_perf_event_groups : ctype :=
  CStruct "perf_event_groups" {{
    MField struct_rb_root "tree";
    MField u64 "index" }}.

Definition struct_perf_event_context : ctype :=
  CStruct "perf_event_context" {{
    MField (CPtr "struct pmu") "pmu";
    MField raw_spinlock_t "lock";
    MField struct_mutex "mutex";
    MField struct_list_head "active_ctx_list";
    MField struct_perf_event_groups "pinned_groups";
    MField struct_perf_event_groups "flexible_groups";
    MField struct_list_head "event_list";
    MField struct_list_head "pinned_active";
    MField struct_list_head "flexible_active";
    MField c_int "nr_events";
    MField c_int "nr_active";
    MField c_int "is_active";
    MField c_int "nr_stat";
    MField c_int "nr_freq";
    MField c_int "rotate_disable";
    MField c_int "rotate_necessary";
    MField refcount_t "refcount";
    MField (CPtr "struct task_struct") "task";
    MField u64 "time";
    MField u64 "timestamp";
    MField (CPtr "struct perf_event_context") "parent_ctx";
    MField u64 "parent_gen";
    MField u64 "generation";
    MField c_int "pin_count";
    MField c_int "nr_cgroups";
    MField (CPtr "void") "task_ctx_data";
    MField struct_callback_head "callback_head" }}.

Definition struct_blk_rq_stat : ctype :=
  CStruct "blk_rq_stat" {{
    MField u64 "mean";
    MField u64 "min";
    MField u64 "max";
    MField u32 "nr_samples";
    MField u64 "batch" }}.

Definition enum_blk_zoned_model : ctype :=
  CEnum "blk_zoned_model" [("BLK_ZONED_NONE", 0);
    ("BLK_ZONED_HA", 1);
    ("BLK_ZONED_HM", 2)].

Definition struct_queue_limits : ctype :=
  CStruct "queue_limits" {{
    MField c_ulong "bounce_pfn";
    MField c_ulong "seg_boundary_mask";
    MField c_ulong "virt_boundary_mask";
    MField c_uint "max_hw_sectors";
    MField c_uint "max_dev_sectors";
    MField c_uint "chunk_sectors";
    MField c_uint "max_sectors";
    MField c_uint "max_segment_size";
    MField c_uint "physical_block_size";
    MField c_uint "logical_block_size";
    MField c_uint "alignment_offset";
    MField c_uint "io_min";
    MField c_uint "io_opt";
    MField c_uint "max_discard_sectors";
    MField c_uint "max_hw_discard_sectors";
    MField c_uint "max_write_same_sectors";
    MField c_uint "max_write_zeroes_sectors";
    MField c_uint "max_zone_append_sectors";
    MField c_uint "discard_granularity";
    MField c_uint "discard_alignment";
    MField c_ushort "max_segments";
    MField c_ushort "max_integrity_segments";
    MField c_ushort "max_discard_segments";
    MField c_uchar "misaligned";
    MField c_uchar "discard_misaligned";
    MField c_uchar "raid_partial_stripes_expensive";
    MField enum_blk_zoned_model "zoned" }}.

Definition struct_bsg_class_device : ctype :=
  CStruct "bsg_class_device" {{
    MField (CPtr "struct device") "class_dev";
    MField c_int "minor";
    MField (CPtr "struct request_queue") "queue";
    MField (CPtr "struct bsg_ops") "ops" }}.

Definition struct_mempool_s : ctype :=
  CStruct "mempool_s" {{
    MField spinlock_t "lock";
    MField c_int "min_nr";
    MField c_int "curr_nr";
    MField (CPtr "void *") "elements";
    MField (CPtr "void") "pool_data";
    MField (CPtr "mempool_alloc_t") "alloc";
    MField (CPtr "mempool_free_t") "free";
    MField wait_queue_head_t "wait" }}.

Definition mempool_t : ctype :=
  struct_mempool_s.

Definition struct_bio_set : ctype :=
  CStruct "bio_set" {{
    MField (CPtr "struct kmem_cache") "bio_slab";
    MField c_uint "front_pad";
    MField mempool_t "bio_pool";
    MField mempool_t "bvec_pool";
    MField spinlock_t "rescue_lock";
    MField struct_bio_list "rescue_list";
    MField struct_work_struct "rescue_work";
    MField (CPtr "struct workqueue_struct") "rescue_workqueue" }}.

Definition struct_request_queue : ctype :=
  CStruct "request_queue" {{
    MField (CPtr "struct request") "last_merge";
    MField (CPtr "struct elevator_queue") "elevator";
    MField (CPtr "struct blk_queue_stats") "stats";
    MField (CPtr "struct rq_qos") "rq_qos";
    MField (CPtr "make_request_fn") "make_request_fn";
    MField (CPtr "struct blk_mq_ops") "mq_ops";
    MField (CPtr "struct blk_mq_ctx") "queue_ctx";
    MField c_uint "queue_depth";
    MField (CPtr "struct blk_mq_hw_ctx *") "queue_hw_ctx";
    MField c_uint "nr_hw_queues";
    MField (CPtr "struct backing_dev_info") "backing_dev_info";
    MField (CPtr "void") "queuedata";
    MField c_ulong "queue_flags";
    MField atomic_t "pm_only";
    MField c_int "id";
    MField gfp_t "bounce_gfp";
    MField spinlock_t "queue_lock";
    MField struct_kobject "kobj";
    MField (CPtr "struct kobject") "mq_kobj";
    MField c_ulong "nr_requests";
    MField c_uint "dma_pad_mask";
    MField c_uint "dma_alignment";
    MField c_uint "rq_timeout";
    MField c_int "poll_nsec";
    MField (CPtr "struct blk_stat_callback") "poll_cb";
    MField (CArray struct_blk_rq_stat 16) "poll_stat";
    MField struct_timer_list "timeout";
    MField struct_work_struct "timeout_work";
    MField struct_list_head "icq_list";
    MField (CArray c_ulong 1) "blkcg_pols";
    MField (CPtr "struct blkcg_gq") "root_blkg";
    MField struct_list_head "blkg_list";
    MField struct_queue_limits "limits";
    MField c_uint "required_elevator_features";
    MField c_uint "sg_timeout";
    MField c_uint "sg_reserved_size";
    MField c_int "node";
    MField (CPtr "struct blk_flush_queue") "fq";
    MField struct_list_head "requeue_list";
    MField spinlock_t "requeue_lock";
    MField struct_delayed_work "requeue_work";
    MField struct_mutex "sysfs_lock";
    MField struct_mutex "sysfs_dir_lock";
    MField struct_list_head "unused_hctx_list";
    MField spinlock_t "unused_hctx_lock";
    MField c_int "mq_freeze_depth";
    MField struct_bsg_class_device "bsg_dev";
    MField (CPtr "struct throtl_data") "td";
    MField struct_callback_head "callback_head";
    MField wait_queue_head_t "mq_freeze_wq";
    MField struct_mutex "mq_freeze_lock";
    MField struct_percpu_ref "q_usage_counter";
    MField (CPtr "struct blk_mq_tag_set") "tag_set";
    MField struct_list_head "tag_set_list";
    MField struct_bio_set "bio_split";
    MField (CPtr "struct dentry") "debugfs_dir";
    MField (CPtr "struct dentry") "sched_debugfs_dir";
    MField (CPtr "struct dentry") "rqos_debugfs_dir";
    MField bool_t "mq_sysfs_init_done";
    MField size_t "cmd_size";
    MField struct_work_struct "release_work";
    MField (CArray u64 5) "write_hints" }}.

Definition enum_bpf_map_type : ctype :=
  CEnum "bpf_map_type" [("BPF_MAP_TYPE_UNSPEC", 0);
    ("BPF_MAP_TYPE_HASH", 1);
    ("BPF_MAP_TYPE_ARRAY", 2);
    ("BPF_MAP_TYPE_PROG_ARRAY", 3);
    ("BPF_MAP_TYPE_PERF_EVENT_ARRAY", 4);
    ("BPF_MAP_TYPE_PERCPU_HASH", 5);
    ("BPF_MAP_TYPE_PERCPU_ARRAY", 6);
    ("BPF_MAP_TYPE_STACK_TRACE", 7);
    ("BPF_MAP_TYPE_CGROUP_ARRAY", 8);
    ("BPF_MAP_TYPE_LRU_HASH", 9);
    ("BPF_MAP_TYPE_LRU_PERCPU_HASH", 10);
    ("BPF_MAP_TYPE_LPM_TRIE", 11);
    ("BPF_MAP_TYPE_ARRAY_OF_MAPS", 12);
    ("BPF_MAP_TYPE_HASH_OF_MAPS", 13);
    ("BPF_MAP_TYPE_DEVMAP", 14);
    ("BPF_MAP_TYPE_SOCKMAP", 15);
    ("BPF_MAP_TYPE_CPUMAP", 16);
    ("BPF_MAP_TYPE_XSKMAP", 17);
    ("BPF_MAP_TYPE_SOCKHASH", 18);
    ("BPF_MAP_TYPE_CGROUP_STORAGE", 19);
    ("BPF_MAP_TYPE_REUSEPORT_SOCKARRAY", 20);
    ("BPF_MAP_TYPE_PERCPU_CGROUP_STORAGE", 21);
    ("BPF_MAP_TYPE_QUEUE", 22);
    ("BPF_MAP_TYPE_STACK", 23);
    ("BPF_MAP_TYPE_SK_STORAGE", 24);
    ("BPF_MAP_TYPE_DEVMAP_HASH", 25);
    ("BPF_MAP_TYPE_STRUCT_OPS", 26);
    ("BPF_MAP_TYPE_RINGBUF", 27)].

Definition enum_bpf_func_id : ctype :=
  CEnum "bpf_func_id" [("BPF_FUNC_unspec", 0);
    ("BPF_FUNC_map_lookup_elem", 1);
    ("BPF_FUNC_map_update_elem", 2);
    ("BPF_FUNC_map_delete_elem", 3);
    ("BPF_FUNC_probe_read", 4);
    ("BPF_FUNC_ktime_get_ns", 5);
    ("BPF_FUNC_trace_printk", 6);
    ("BPF_FUNC_get_prandom_u32", 7);
    ("BPF_FUNC_get_smp_processor_id", 8);
    ("BPF_FUNC_skb_store_bytes", 9);
    ("BPF_FUNC_l3_csum_replace", 10);
    ("BPF_FUNC_l4_csum_replace", 11);
    ("BPF_FUNC_tail_call", 12);
    ("BPF_FUNC_clone_redirect", 13);
    ("BPF_FUNC_get_current_pid_tgid", 14);
    ("BPF_FUNC_get_current_uid_gid", 15);
    ("BPF_FUNC_get_current_comm", 16);
    ("BPF_FUNC_get_cgroup_classid", 17);
    ("BPF_FUNC_skb_vlan_push", 18);
    ("BPF_FUNC_skb_vlan_pop", 19);
    ("BPF_FUNC_skb_get_tunnel_key", 20);
    ("BPF_FUNC_skb_set_tunnel_key", 21);
    ("BPF_FUNC_perf_event_read", 22);
    ("BPF_FUNC_redirect", 23);
    ("BPF_FUNC_get_route_realm", 24);
    ("BPF_FUNC_perf_event_output", 25);
    ("BPF_FUNC_skb_load_bytes", 26);
    ("BPF_FUNC_get_stackid", 27);
    ("BPF_FUNC_csum_diff", 28);
    ("BPF_FUNC_skb_get_tunnel_opt", 29);
    ("BPF_FUNC_skb_set_tunnel_opt", 30);
    ("BPF_FUNC_skb_change_proto", 31);
    ("BPF_FUNC_skb_change_type", 32);
    ("BPF_FUNC_skb_under_cgroup", 33);
    ("BPF_FUNC_get_hash_recalc", 34);
    ("BPF_FUNC_get_current_task", 35);
    ("BPF_FUNC_probe_write_user", 36);
    ("BPF_FUNC_current_task_under_cgroup", 37);
    ("BPF_FUNC_skb_change_tail", 38);
    ("BPF_FUNC_skb_pull_data", 39);
    ("BPF_FUNC_csum_update", 40);
    ("BPF_FUNC_set_hash_invalid", 41);
    ("BPF_FUNC_get_numa_node_id", 42);
    ("BPF_FUNC_skb_change_head", 43);
    ("BPF_FUNC_xdp_adjust_head", 44);
    ("BPF_FUNC_probe_read_str", 45);
    ("BPF_FUNC_get_socket_cookie", 46);
    ("BPF_FUNC_get_socket_uid", 47);
    ("BPF_FUNC_set_hash", 48);
    ("BPF_FUNC_setsockopt", 49);
    ("BPF_FUNC_skb_adjust_room", 50);
    ("BPF_FUNC_redirect_map", 51);
    ("BPF_FUNC_sk_redirect_map", 52);
    ("BPF_FUNC_sock_map_update", 53);
    ("BPF_FUNC_xdp_adjust_meta", 54);
    ("BPF_FUNC_perf_event_read_value", 55);
    ("BPF_FUNC_perf_prog_read_value", 56);
    ("BPF_FUNC_getsockopt", 57);
    ("BPF_FUNC_override_return", 58);
    ("BPF_FUNC_sock_ops_cb_flags_set", 59);
    ("BPF_FUNC_msg_redirect_map", 60);
    ("BPF_FUNC_msg_apply_bytes", 61);
    ("BPF_FUNC_msg_cork_bytes", 62);
    ("BPF_FUNC_msg_pull_data", 63);
    ("BPF_FUNC_bind", 64);
    ("BPF_FUNC_xdp_adjust_tail", 65);
    ("BPF_FUNC_skb_get_xfrm_state", 66);
    ("BPF_FUNC_get_stack", 67);
    ("BPF_FUNC_skb_load_bytes_relative", 68);
    ("BPF_FUNC_fib_lookup", 69);
    ("BPF_FUNC_sock_hash_update", 70);
    ("BPF_FUNC_msg_redirect_hash", 71);
    ("BPF_FUNC_sk_redirect_hash", 72);
    ("BPF_FUNC_lwt_push_encap", 73);
    ("BPF_FUNC_lwt_seg6_store_bytes", 74);
    ("BPF_FUNC_lwt_seg6_adjust_srh", 75);
    ("BPF_FUNC_lwt_seg6_action", 76);
    ("BPF_FUNC_rc_repeat", 77);
    ("BPF_FUNC_rc_keydown", 78);
    ("BPF_FUNC_skb_cgroup_id", 79);
    ("BPF_FUNC_get_current_cgroup_id", 80);
    ("BPF_FUNC_get_local_storage", 81);
    ("BPF_FUNC_sk_select_reuseport", 82);
    ("BPF_FUNC_skb_ancestor_cgroup_id", 83);
    ("BPF_FUNC_sk_lookup_tcp", 84);
    ("BPF_FUNC_sk_lookup_udp", 85);
    ("BPF_FUNC_sk_release", 86);
    ("BPF_FUNC_map_push_elem", 87);
    ("BPF_FUNC_map_pop_elem", 88);
    ("BPF_FUNC_map_peek_elem", 89);
    ("BPF_FUNC_msg_push_data", 90);
    ("BPF_FUNC_msg_pop_data", 91);
    ("BPF_FUNC_rc_pointer_rel", 92);
    ("BPF_FUNC_spin_lock", 93);
    ("BPF_FUNC_spin_unlock", 94);
    ("BPF_FUNC_sk_fullsock", 95);
    ("BPF_FUNC_tcp_sock", 96);
    ("BPF_FUNC_skb_ecn_set_ce", 97);
    ("BPF_FUNC_get_listener_sock", 98);
    ("BPF_FUNC_skc_lookup_tcp", 99);
    ("BPF_FUNC_tcp_check_syncookie", 100);
    ("BPF_FUNC_sysctl_get_name", 101);
    ("BPF_FUNC_sysctl_get_current_value", 102);
    ("BPF_FUNC_sysctl_get_new_value", 103);
    ("BPF_FUNC_sysctl_set_new_value", 104);
    ("BPF_FUNC_strtol", 105);
    ("BPF_FUNC_strtoul", 106);
    ("BPF_FUNC_sk_storage_get", 107);
    ("BPF_FUNC_sk_storage_delete", 108);
    ("BPF_FUNC_send_signal", 109);
    ("BPF_FUNC_tcp_gen_syncookie", 110);
    ("BPF_FUNC_skb_output", 111);
    ("BPF_FUNC_probe_read_user", 112);
    ("BPF_FUNC_probe_read_kernel", 113);
    ("BPF_FUNC_probe_read_user_str", 114);
    ("BPF_FUNC_probe_read_kernel_str", 115);
    ("BPF_FUNC_tcp_send_ack", 116);
    ("BPF_FUNC_send_signal_thread", 117);
    ("BPF_FUNC_jiffies64", 118);
    ("BPF_FUNC_read_branch_records", 119);
    ("BPF_FUNC_get_ns_current_pid_tgid", 120);
    ("BPF_FUNC_xdp_output", 121);
    ("BPF_FUNC_get_netns_cookie", 122);
    ("BPF_FUNC_get_current_ancestor_cgroup_id", 123);
    ("BPF_FUNC_sk_assign", 124);
    ("BPF_FUNC_ktime_get_boot_ns", 125);
    ("BPF_FUNC_seq_printf", 126);
    ("BPF_FUNC_seq_write", 127);
    ("BPF_FUNC_sk_cgroup_id", 128);
    ("BPF_FUNC_sk_ancestor_cgroup_id", 129);
    ("BPF_FUNC_ringbuf_output", 130);
    ("BPF_FUNC_ringbuf_reserve", 131);
    ("BPF_FUNC_ringbuf_submit", 132);
    ("BPF_FUNC_ringbuf_discard", 133);
    ("BPF_FUNC_ringbuf_query", 134);
    ("BPF_FUNC_csum_level", 135);
    ("BPF_FUNC_skc_to_tcp6_sock", 136);
    ("BPF_FUNC_skc_to_tcp_sock", 137);
    ("BPF_FUNC_skc_to_tcp_timewait_sock", 138);
    ("BPF_FUNC_skc_to_tcp_request_sock", 139);
    ("BPF_FUNC_skc_to_udp6_sock", 140);
    ("BPF_FUNC_get_task_stack", 141);
    ("BPF_FUNC_load_hdr_opt", 142);
    ("BPF_FUNC_store_hdr_opt", 143);
    ("BPF_FUNC_reserve_hdr_opt", 144);
    ("BPF_FUNC_inode_storage_get", 145);
    ("BPF_FUNC_inode_storage_delete", 146);
    ("BPF_FUNC_d_path", 147);
    ("BPF_FUNC_copy_from_user", 148);
    ("BPF_FUNC_snprintf_btf", 149);
    ("BPF_FUNC_seq_printf_btf", 150);
    ("BPF_FUNC_skb_cgroup_classid", 151);
    ("BPF_FUNC_redirect_neigh", 152);
    ("BPF_FUNC_per_cpu_ptr", 153);
    ("BPF_FUNC_this_cpu_ptr", 154);
    ("BPF_FUNC_redirect_peer", 155);
    ("BPF_FUNC_task_storage_get", 156);
    ("BPF_FUNC_task_storage_delete", 157);
    ("BPF_FUNC_get_current_task_btf", 158);
    ("BPF_FUNC_bprm_opts_set", 159);
    ("BPF_FUNC_ktime_get_coarse_ns", 160);
    ("BPF_FUNC_ima_inode_hash", 161);
    ("BPF_FUNC_sock_from_file", 162);
    ("BPF_FUNC_check_mtu", 163);
    ("BPF_FUNC_for_each_map_elem", 164);
    ("BPF_FUNC_snprintf", 165);
    ("BPF_FUNC_sys_bpf", 166);
    ("BPF_FUNC_btf_find_by_name_kind", 167);
    ("BPF_FUNC_sys_close", 168);
    ("BPF_FUNC_timer_init", 169);
    ("BPF_FUNC_timer_set_callback", 170);
    ("BPF_FUNC_timer_start", 171);
    ("BPF_FUNC_timer_cancel", 172);
    ("BPF_FUNC_get_func_ip", 173);
    ("BPF_FUNC_get_attach_cookie", 174);
    ("BPF_FUNC_task_pt_regs", 175);
    ("BPF_FUNC_get_branch_snapshot", 176);
    ("BPF_FUNC_trace_vprintk", 177);
    ("BPF_FUNC_skc_to_unix_sock", 178);
    ("BPF_FUNC_kallsyms_lookup_name", 179);
    ("BPF_FUNC_find_vma", 180);
    ("BPF_FUNC_loop", 181);
    ("BPF_FUNC_strncmp", 182);
    ("BPF_FUNC_get_func_arg", 183);
    ("BPF_FUNC_get_func_ret", 184);
    ("BPF_FUNC_get_func_arg_cnt", 185);
    ("BPF_FUNC_get_retval", 186);
    ("BPF_FUNC_set_retval", 187);
    ("BPF_FUNC_xdp_get_buff_len", 188);
    ("BPF_FUNC_xdp_load_bytes", 189);
    ("BPF_FUNC_xdp_store_bytes", 190);
    ("BPF_FUNC_copy_from_user_task", 191);
    ("BPF_FUNC_skb_set_tstamp", 192);
    ("BPF_FUNC_ima_file_hash", 193);
    ("BPF_FUNC_kptr_xchg", 194);
    ("BPF_FUNC_map_lookup_percpu_elem", 195);
    ("BPF_FUNC_skc_to_mptcp_sock", 196);
    ("BPF_FUNC_dynptr_from_mem", 197);
    ("BPF_FUNC_ringbuf_reserve_dynptr", 198);
    ("BPF_FUNC_ringbuf_submit_dynptr", 199);
    ("BPF_FUNC_ringbuf_discard_dynptr", 200);
    ("BPF_FUNC_dynptr_read", 201);
    ("BPF_FUNC_dynptr_write", 202);
    ("BPF_FUNC_dynptr_data", 203);
    ("BPF_FUNC_tcp_raw_gen_syncookie_ipv4", 204);
    ("BPF_FUNC_tcp_raw_gen_syncookie_ipv6", 205);
    ("BPF_FUNC_tcp_raw_check_syncookie_ipv4", 206);
    ("BPF_FUNC_tcp_raw_check_syncookie_ipv6", 207);
    ("BPF_FUNC_ktime_get_tai_ns", 208);
    ("BPF_FUNC_user_ringbuf_drain", 209);
    ("BPF_FUNC_cgrp_storage_get", 210);
    ("BPF_FUNC_cgrp_storage_delete", 211);
    ("__BPF_FUNC_MAX_ID", 212)].

Definition struct_trace_entry : ctype :=
  CStruct "trace_entry" {{
    MField c_ushort "type";
    MField c_uchar "flags";
    MField c_uchar "preempt_count";
    MField c_int "pid" }}.

Definition struct_fs_struct : ctype :=
  CStruct "fs_struct" {{
    MField c_int "users";
    MField spinlock_t "lock";
    MField seqcount_t "seq";
    MField c_int "umask";
    MField c_int "in_exec";
    MField struct_path "root";
    MField struct_path "pwd" }}.

Definition struct_pipe_inode_info : ctype :=
  CStruct "pipe_inode_info" {{
    MField struct_mutex "mutex";
    MField wait_queue_head_t "rd_wait";
    MField wait_queue_head_t "wr_wait";
    MField c_uint "head";
    MField c_uint "tail";
    MField c_uint "max_usage";
    MField c_uint "ring_size";
    MField c_uint "nr_accounted";
    MField c_uint "readers";
    MField c_uint "writers";
    MField c_uint "files";
    MField c_uint "r_counter";
    MField c_uint "w_counter";
    MField (CPtr "struct page") "tmp_page";
    MField (CPtr "struct fasync_struct") "fasync_readers";
    MField (CPtr "struct fasync_struct") "fasync_writers";
    MField (CPtr "struct pipe_buffer") "bufs";
    MField (CPtr "struct user_struct") "user" }}.

Definition struct_trace_event_raw_sys_enter : ctype :=
  CStruct "trace_event_raw_sys_enter" {{
    MField struct_trace_entry "ent";
    MField c_long "id";
    MField (CArray c_ulong 6) "args";
    MField (CArray c_char 0) "__data" }}.

Definition struct_fdtable : ctype :=
  CStruct "fdtable" {{
    MField c_uint "max_fds";
    MField (CPtr "struct file *") "fd";
    MField (CPtr "long unsigned int") "close_on_exec";
    MField (CPtr "long unsigned int") "open_fds";
    MField (CPtr "long unsigned int") "full_fds_bits";
    MField struct_callback_head "rcu" }}.

Definition struct_files_struct : ctype :=
  CStruct "files_struct" {{
    MField atomic_t "count";
    MField bool_t "resize_in_progress";
    MField wait_queue_head_t "resize_wait";
    MField (CPtr "struct fdtable") "fdt";
    MField struct_fdtable "fdtab";
    MBits c_long "" 64;
    MBits c_long "" 64;
    MBits c_long "" 64;
    MBits c_long "" 64;
    MBits c_long "" 64;
    MField spinlock_t "file_lock";
    MField c_uint "next_fd";
    MField (CArray c_ulong 1) "close_on_exec_init";
    MField (CArray c_ulong 1) "open_fds_init";
    MField (CArray c_ulong 1) "full_fds_bits_init";
    MField (CArray (CPtr "struct file") 64) "fd_array";
    MBits c_long "" 64;
    MBits c_long "" 64;
    MBits c_long "" 64;
    MBits c_long "" 64 }}.

Definition struct_robust_list : ctype :=
  CStruct "robust_list" {{
    MField (CPtr "struct robust_list") "next" }}.

Definition struct_robust_list_head : ctype :=
  CStruct "robust_list_head" {{
    MField struct_robust_list "list";
    MField c_long "futex_offset";
    MField (CPtr "struct robust_list") "list_op_pending" }}.

Definition struct_cfs_bandwidth : ctype :=
  CStruct "cfs_bandwidth" {{
    MField raw_spinlock_t "lock";
    MField ktime_t "period";
    MField u64 "quota";
    MField u64 "runtime";
    MField s64 "hierarchical_quota";
    MField u8 "idle";
    MField u8 "period_active";
    MField u8 "slack_started";
    MField struct_hrtimer "period_timer";
    MField struct_hrtimer "slack_timer";
    MField struct_list_head "throttled_cfs_rq";
    MField c_int "nr_periods";
    MField c_int "nr_throttled";
    MField u64 "throttled_time" }}.

Definition struct_task_group : ctype :=
  CStruct "task_group" {{
    MField struct_cgroup_subsys_state "css";
    MField (CPtr "struct sched_entity *") "se";
    MField (CPtr "struct cfs_rq *") "cfs_rq";
    MField c_ulong "shares";
    MBits c_long "" 64;
    MBits c_long "" 64;
    MBits c_long "" 64;
    MBits c_long "" 64;
    MBits c_long "" 64;
    MField atomic_long_t "load_avg";
    MField struct_callback_head "rcu";
    MField struct_list_head "list";
    MField (CPtr "struct task_group") "parent";
    MField struct_list_head "siblings";
    MField struct_list_head "children";
    MField struct_cfs_bandwidth "cfs_bandwidth";
    MBits c_long "" 64;
    MBits c_long "" 64;
    MBits c_long "" 64;
    MBits c_long "" 64;
    MBits c_long "" 64 }}.

Definition struct_rt_mutex_waiter : ctype :=
  CStruct "rt_mutex_waiter" {{
    MField struct_rb_node "tree_entry";
    MField struct_rb_node "pi_tree_entry";
    MField (CPtr "struct task_struct") "task";
    MField (CPtr "struct rt_mutex") "lock";
    MField c_ulong "ip";
    MField (CPtr "struct pid") "deadlock_task_pid";
    MField (CPtr "struct rt_mutex") "deadlock_lock";
    MField c_int "prio";
    MField u64 "deadline" }}.

Definition struct_rt_mutex : ctype :=
  CStruct "rt_mutex" {{
    MField raw_spinlock_t "wait_lock";
    MField struct_rb_root_cached "waiters";
    MField (CPtr "struct task_struct") "owner";
    MField c_int "save_state";
    MField (CPtr "char") "name";
    MField (CPtr "char") "file";
    MField c_int "line";
    MField (CPtr "void") "magic";
    MField struct_lockdep_map "dep_map" }}.

Definition union_futex_key : ctype :=
  CUnion "futex_key" {{
    MField (CStruct "" {{
      MField u64 "i_seq";
      MField c_ulong "pgoff";
      MField c_uint "offset" }}) "shared";
    MField (CStruct "" {{
      MField (CUnion "" {{
        MField (CPtr "struct mm_struct") "mm";
        MField u64 "__tmp" }}) "";
      MField c_ulong "address";
      MField c_uint "offset" }}) "private";
    MField (CStruct "" {{
      MField u64 "ptr";
      MField c_ulong "word";
      MField c_uint "offset" }}) "both" }}.

Definition struct_futex_pi_state : ctype :=
  CStruct "futex_pi_state" {{
    MField struct_list_head "list";
    MField struct_rt_mutex "pi_mutex";
    MField (CPtr "struct task_struct") "owner";
    MField refcount_t "refcount";
    MField union_futex_key "key" }}.

Definition __kernel_mqd_t : ctype :=
  c_int.

Definition mqd_t : ctype :=
  __kernel_mqd_t.

Definition enum_audit_state : ctype :=
  CEnum "audit_state" [("AUDIT_DISABLED", 0);
    ("AUDIT_BUILD_CONTEXT", 1);
    ("AUDIT_RECORD_CONTEXT", 2)].

Definition struct_audit_cap_data : ctype :=
  CStruct "audit_cap_data" {{
    MField kernel_cap_t "permitted";
    MField kernel_cap_t "inheritable";
    MField (CUnion "" {{
      MField c_uint "fE";
      MField kernel_cap_t "effective" }}) "";
    MField kernel_cap_t "ambient";
    MField kuid_t "rootid" }}.

Definition struct_audit_names : ctype :=
  CStruct "audit_names" {{
    MField struct_list_head "list";
    MField (CPtr "struct filename") "name";
    MField c_int "name_len";
    MField bool_t "hidden";
    MField c_ulong "ino";
    MField dev_t "dev";
    MField umode_t "mode";
    MField kuid_t "uid";
    MField kgid_t "gid";
    MField dev_t "rdev";
    MField u32 "osid";
    MField struct_audit_cap_data "fcap";
    MField c_uint "fcap_ver";
    MField c_uchar "type";
    MField bool_t "should_free" }}.

Definition struct_mq_attr : ctype :=
  CStruct "mq_attr" {{
    MField __kernel_long_t "mq_flags";
    MField __kernel_long_t "mq_maxmsg";
    MField __kernel_long_t "mq_msgsize";
    MField __kernel_long_t "mq_curmsgs";
    MField (CArray __kernel_long_t 4) "__reserved" }}.

Definition struct_audit_proctitle : ctype :=
  CStruct "audit_proctitle" {{
    MField c_int "len";
    MField (CPtr "char") "value" }}.

Definition struct_audit_context : ctype :=
  CStruct "audit_context" {{
    MField c_int "dummy";
    MField c_int "in_syscall";
    MField enum_audit_state "state";
    MField enum_audit_state "current_state";
    MField c_uint "serial";
    MField c_int "major";
    MField struct_timespec64 "ctime";
    MField (CArray c_ulong 4) "argv";
    MField c_long "return_code";
    MField u64 "prio";
    MField c_int "return_valid";
    MField (CArray struct_audit_names 5) "preallocated_names";
    MField c_int "name_count";
    MField struct_list_head "names_list";
    MField (CPtr "char") "filterkey";
    MField struct_path "pwd";
    MField (CPtr "struct audit_aux_data") "aux";
    MField (CPtr "struct audit_aux_data") "aux_pids";
    MField (CPtr "struct __kernel_sockaddr_storage") "sockaddr";
    MField size_t "sockaddr_len";
    MField pid_t "pid";
    MField pid_t "ppid";
    MField kuid_t "uid";
    MField kuid_t "euid";
    MField kuid_t "suid";
    MField kuid_t "fsuid";
    MField kgid_t "gid";
    MField kgid_t "egid";
    MField kgid_t "sgid";
    MField kgid_t "fsgid";
    MField c_ulong "personality";
    MField c_int "arch";
    MField pid_t "target_pid";
    MField kuid_t "target_auid";
    MField kuid_t "target_uid";
    MField c_uint "target_sessionid";
    MField u32 "target_sid";
    MField (CArray c_char 16) "target_comm";
    MField (CPtr "struct audit_tree_refs") "trees";
    MField (CPtr "struct audit_tree_refs") "first_trees";
    MField struct_list_head "killed_trees";
    MField c_int "tree_count";
    MField c_int "type";
    MField (CUnion "" {{
      MField (CStruct "" {{
        MField c_int "nargs";
        MField (CArray c_long 6) "args" }}) "socketcall";
      MField (CStruct "" {{
        MField kuid_t "uid";
        MField kgid_t "gid";
        MField umode_t "mode";
        MField u32 "osid";
        MField c_int "has_perm";
        MField uid_t "perm_uid";
        MField gid_t "perm_gid";
        MField umode_t "perm_mode";
        MField c_ulong "qbytes" }}) "ipc";
      MField (CStruct "" {{
        MField mqd_t "mqdes";
        MField struct_mq_attr "mqstat" }}) "mq_getsetattr";
      MField (CStruct "" {{
        MField mqd_t "mqdes";
        MField c_int "sigev_signo" }}) "mq_notify";
      MField (CStruct "" {{
        MField mqd_t "mqdes";
        MField size_t "msg_len";
        MField c_uint "msg_prio";
        MField struct_timespec64 "abs_timeout" }}) "mq_sendrecv";
      MField (CStruct "" {{
        MField c_int "oflag";
        MField umode_t "mode";
        MField struct_mq_attr "attr" }}) "mq_open";
      MField (CStruct "" {{
        MField pid_t "pid";
        MField struct_audit_cap_data "cap" }}) "capset";
      MField (CStruct "" {{
        MField c_int "fd";
        MField c_int "flags" }}) "mmap";
      MField (CStruct "" {{
        MField c_int "argc" }}) "execve";
      MField (CStruct "" {{
        MField (CPtr "char") "name" }}) "module" }}) "";
    MField (CArray c_int 2) "fds";
    MField struct_audit_proctitle "proctitle" }}.

Definition struct_capture_control : ctype :=
  CStruct "capture_control" {{
    MField (CPtr "struct compact_control") "cc";
    MField (CPtr "struct page") "page" }}.

Definition struct_saved : ctype :=
  CStruct "saved" {{
    MField struct_path "link";
    MField struct_delayed_call "done";
    MField (CPtr "char") "name";
    MField c_uint "seq" }}.

Definition struct_nameidata : ctype :=
  CStruct "nameidata" {{
    MField struct_path "path";
    MField struct_qstr "last";
    MField struct_path "root";
    MField (CPtr "struct inode") "inode";
    MField c_uint "flags";
    MField c_uint "seq";
    MField c_uint "m_seq";
    MField c_uint "r_seq";
    MField c_int "last_type";
    MField c_uint "depth";
    MField c_int "total_link_count";
    MField (CPtr "struct saved") "stack";
    MField (CArray struct_saved 2) "internal";
    MField (CPtr "struct filename") "name";
    MField (CPtr "struct nameidata") "saved";
    MField c_uint "root_seq";
    MField c_int "dfd";
    MField kuid_t "dir_uid";
    MField umode_t "dir_mode" }}.

(** All the declarations of this file. *)
Definition task_types : list ctype :=
  [__kernel_long_t;
   __kernel_pid_t;
   __kernel_clock_t;
   __kernel_timer_t;
   __kernel_clockid_t;
   pid_t;
   clockid_t;
   phys_addr_t;
   enum_timespec_type;
   struct_restart_block;
   struct_thread_info;
   struct_load_weight;
   struct_sched_statistics;
   struct_util_est;
   struct_sched_avg;
   struct_sched_entity;
   struct_sched_rt_entity;
   struct_timerqueue_node;
   struct_hrtimer;
   struct_sched_dl_entity;
   struct_cpumask;
   cpumask_t;
   struct_sched_info;
   struct_plist_node;
   struct_vmacache;
   struct_task_rss_stat;
   struct_prev_cputime;
   enum_vtime_state;
   struct_vtime;
   struct_rb_root_cached;
   struct_timerqueue_head;
   struct_posix_cputimer_base;
   struct_posix_cputimers;
   struct_sysv_sem;
   struct_sysv_shm;
   sigset_t;
   struct_sigpending;
   struct_seccomp;
   struct_wake_q_node;
   struct_held_lock;
   struct_task_io_accounting;
   nodemask_t;
   struct_arch_tlbflush_unmap_batch;
   struct_tlbflush_unmap_batch;
   struct_desc_struct;
   mm_segment_t;
   struct_fregs_state;
   struct_fxregs_state;
   struct_swregs_state;
   struct_xstate_header;
   struct_xregs_state;
   union_fpregs_state;
   struct_fpu;
   struct_thread_struct;
   union_sigval;
   sigval_t;
   union___sifields;
   struct_kernel_siginfo;
   kernel_siginfo_t;
   struct_audit_task_info;
   struct_pid_link;
   struct_task_struct;
   struct_pt_regs;
   struct_mm_rss_stat;
   mm_context_t;
   struct_uprobes_state;
   struct_mm_struct;
   struct_mutex_waiter;
   struct_swait_queue_head;
   struct_completion;
   struct_arch_uprobe_task;
   enum_uprobe_task_state;
   struct_uprobe_task;
   struct_path;
   struct_vm_struct;
   struct_rlimit;
   __sighandler_t;
   __sigrestore_t;
   struct_sigaction;
   struct_k_sigaction;
   struct_cpu_itimer;
   struct_task_cputime_atomic;
   struct_thread_group_cputimer;
   struct_signal_struct;
   struct_rseq;
   struct_sched_class;
   struct_sighand_struct;
   struct_io_context;
   struct_qstr;
   struct_delayed_call;
   struct_bio_list;
   struct_blk_plug;
   struct_reclaim_state;
   struct_fprop_local_percpu;
   enum_wb_reason;
   struct_bdi_writeback;
   struct_backing_dev_info;
   struct_css_set;
   struct_perf_event_groups;
   struct_perf_event_context;
   struct_blk_rq_stat;
   enum_blk_zoned_model;
   struct_queue_limits;
   struct_bsg_class_device;
   struct_mempool_s;
   mempool_t;
   struct_bio_set;
   struct_request_queue;
   enum_bpf_map_type;
   enum_bpf_func_id;
   struct_trace_entry;
   struct_fs_struct;
   struct_pipe_inode_info;
   struct_trace_event_raw_sys_enter;
   struct_fdtable;
   struct_files_struct;
   struct_robust_list;
   struct_robust_list_head;
   struct_cfs_bandwidth;
   struct_task_group;
   struct_rt_mutex_waiter;
   struct_rt_mutex;
   union_futex_key;
   struct_futex_pi_state;
   __kernel_mqd_t;
   mqd_t;
   enum_audit_state;
   struct_audit_cap_data;
   struct_audit_names;
   struct_mq_attr;
   struct_audit_proctitle;
   struct_audit_context;
   struct_capture_control;
   struct_saved;
   struct_nameidata].
