(* ===== verification/LayoutThms.v ===== *)
(** * Theorems about the kernel structures of vmlinux.h

    The general facts of [CLayoutFacts.v] at the declarations that the probes are compiled with, and
    the paths of pointers that the probes follow through them. *)

From S2P Require Import Prelude CLayout CLayoutFacts VmlinuxBase VmlinuxSock VmlinuxNet VmlinuxTask.

Definition kernel_types : list ctype := base_types ++ sock_types ++ net_types ++ task_types.

(** The declaration of [struct tag]. *)
Definition struct_named (tag : string) : option ctype :=
  List.find (λ t, match t with CStruct n _ => String.eqb ("struct " +:+ n) tag | _ => false end)
    kernel_types.

(** The type of what [BPF_CORE_READ(p, a1, .., an)] fetches for [p] a pointer to [t]: every accessor
    but the last designates a pointer, which is followed to the declaration of its structure. *)
Fixpoint resolve (t : ctype) (path : list (list string)) : option ctype :=
  match path with
  | [] => None
  | [a] => snd <$> offsetof t a
  | a :: path =>
      match offsetof t a with
      | Some (_, CPtr tag) => t' ← struct_named tag; resolve t' path
      | _ => None
      end
  end.

Lemma kernel_types_wf : forallb wf_type kernel_types = true.
Proof. by vm_compute. Qed.

Lemma kernel_type_wf (t : ctype) : t ∈ kernel_types → wf_type t = true.
Proof.
  intros Ht. pose proof kernel_types_wf as Hw. rewrite forallb_forall in Hw.
  by apply Hw, list_elem_of_In.
Qed.

(** The bytes of a map key that no member covers. *)
Definition padding_bytes (t : ctype) : Z :=
  match t with
  | CStruct _ ms => sizeof t - foldr (λ '(_, bits) n, bits / 8 + n) 0 (member_slots ms 0)
  | _ => 0
  end.

(** ** Theorems *)

(** addressing members of kernel structures is sound.  In every structure of [vmlinux.h] that the
    probes reach, a designated member lies inside its object, at an offset and in an object aligned
    for its type. *)
Theorem kernel_members_in_bounds (t ft : ctype) (path : list string) (o : Z) :
  t ∈ kernel_types → offsetof t path = Some (o, ft) →
  0 ≤ o ∧ o + sizeof ft ≤ sizeof t ∧ (alignof ft | o) ∧ (alignof ft | alignof t) ∧
  (alignof t | sizeof t).
Proof.
  intros Ht Ho. pose proof (offsetof_ok t path o ft (kernel_type_wf t Ht) Ho) as (?&?&?&?&_).
  split_and!; try done. apply alignof_divides_sizeof.
Qed.

(** the members of a kernel structure, bit-fields included, do not overlap and stay inside it. *)
Theorem kernel_members_disjoint (n : string) (ms : members) (i j : nat) (p l p' l' : Z) :
  CStruct n ms ∈ kernel_types →
  member_slots ms 0 !! i = Some (p, l) → member_slots ms 0 !! j = Some (p', l') → (i < j)%nat →
  0 ≤ p ∧ p + l ≤ p' ∧ p' + l' ≤ 8 * sizeof (CStruct n ms).
Proof.
  intros Ht Hi Hj Hij. apply kernel_type_wf in Ht. simpl in Ht.
  pose proof (member_slots_from ms 0 Ht) as Hs.
  pose proof (slots_from_disjoint _ _ _ i j _ _ _ _ Hs Hi Hj Hij).
  destruct (slots_from_lookup _ _ _ _ _ _ Hs Hi) as (?&_&_).
  destruct (slots_from_lookup _ _ _ _ _ _ Hs Hj) as (_&_&He).
  split_and!; [done|done|]. etrans; [exact He|].
  change (struct_end ms 0 ≤ 8 * align_up (bytes_of_bits (struct_end ms 0)) (members_align ms)).
  pose proof (bytes_of_bits_spec (struct_end ms 0)).
  pose proof (align_up_ge (bytes_of_bits (struct_end ms 0)) (members_align ms)
    (members_align_pos ms Ht)). lia.
Qed.

(** writing a member of a kernel structure reads back, truncated to its width, and leaves every
    member that does not share bytes with it alone. *)
Theorem kernel_member_update (t ft : ctype) (p q : list string) (o v : Z) (obj : list byte) :
  t ∈ kernel_types → is_object t obj → offsetof t p = Some (o, ft) →
  load_member t p (store_member t p v obj) = wrap (8 * sizeof ft) v ∧
  (members_apart t q p = true → load_member t q (store_member t p v obj) = load_member t q obj).
Proof.
  intros Ht%kernel_type_wf Hobj Ho. split; [by apply (load_store_member t p o ft)|].
  intros Ha. by apply load_store_member_apart.
Qed.

(** the probes read what they mean to.  Each [BPF_CORE_READ] of the sources follows a path of
    declared members and pointers, to a member of the type that the variable receiving it has: the
    common part of a socket, the [unsigned int] number of its network namespace and of the task's, and
    the one-byte TCP state. *)
Theorem core_read_paths_resolve :
  resolve struct_sock [["__sk_common"]] = Some struct_sock_common ∧
  resolve struct_sock [["__sk_common"; "skc_net"; "net"]; ["ns"; "inum"]] = Some c_uint ∧
  resolve struct_task_struct [["nsproxy"]; ["net_ns"]; ["ns"; "inum"]] = Some c_uint ∧
  sizeof <$> resolve struct_sock [["__sk_common"; "skc_state"]] = Some 1.
Proof. split_and!; vm_compute; reflexivity. Qed.

(** where the members of [struct sock_common] that the hooks use are, and how wide.  The addresses
    share an 8-byte word with [skc_addrpair], the ports one of 4 bytes with [skc_portpair]. *)
Theorem sock_common_layout :
  sizeof struct_sock_common = 136 ∧
  (λ m, (λ '(o, t), (o, sizeof t)) <$> offsetof struct_sock_common [m]) <$>
    ["skc_daddr"; "skc_rcv_saddr"; "skc_addrpair"; "skc_dport"; "skc_num"; "skc_portpair";
     "skc_family"; "skc_state"; "skc_net"] =
  [Some (0, 4); Some (4, 4); Some (0, 8); Some (12, 2); Some (14, 2); Some (12, 4);
   Some (16, 2); Some (18, 1); Some (48, 8)].
Proof. split; vm_compute; reflexivity. Qed.

(** ** The theorems at concrete structures *)

Definition skc_members : members :=
  match struct_sock_common with CStruct _ ms => ms | _ => MNil end.

Lemma sock_common_kernel : struct_sock_common ∈ kernel_types.
Proof. apply (list_elem_of_lookup_2 _ 97). vm_compute. reflexivity. Qed.

Lemma kernel_members_in_bounds_witness :
  0 ≤ 16 ∧ 16 + 2 ≤ 136 ∧ (2 | 16) ∧ (2 | 8) ∧ (8 | 136).
Proof.
  exact (kernel_members_in_bounds struct_sock_common (CInt false 2) ["skc_family"] 16
    sock_common_kernel eq_refl).
Defined.

(** [skc_family] and the bit-field [skc_reuse]. *)
Lemma kernel_members_disjoint_witness : 0 ≤ 128 ∧ 128 + 16 ≤ 152 ∧ 152 + 4 ≤ 8 * 136.
Proof.
  exact (kernel_members_disjoint "sock_common" skc_members 3 5 128 16 152 4
    sock_common_kernel eq_refl eq_refl ltac:(lia)).
Defined.

Lemma kernel_member_update_witness :
  let skc := store_member struct_sock_common ["skc_dport"] 65537 (replicate 136 Byte.xff) in
  load_member struct_sock_common ["skc_dport"] skc = 1 ∧
  load_member struct_sock_common ["skc_num"] skc = 65535.
Proof.
  destruct (kernel_member_update struct_sock_common (CInt false 2) ["skc_dport"] ["skc_num"] 12 65537
    (replicate 136 Byte.xff) sock_common_kernel eq_refl eq_refl) as [H1 H2].
  split; [exact H1|]. rewrite H2 by (vm_compute; reflexivity). vm_compute. reflexivity.
Defined.
