(* ===== verification/BpfEnv.v ===== *)
(** * The execution environment of the probes

    What the C code takes from outside the repository, as an interface: the bpf maps and ring
    buffers, the byte-order and kernel-memory helpers, the clock and the identity of the current
    task.  [BpfKernel] lists the operations, [BpfKernelLaws] the documented behaviour that the
    theorems rely on; [Bpf S] is the monad of a program whose maps are a record [S].
    [LruKernel.v] gives an executable implementation. *)

From S2P Require Import Prelude CLayout.

(** ** Map declarations *)

(** [struct { __uint(type, ..); __uint(max_entries, ..); __type(key, ..); __type(value, ..); }]. *)
Record map_def : Type := MapDef {
  map_type : string;
  max_entries : Z;
  key_type : ctype;
  value_type : ctype
}.

(** ** One invocation of a program *)

(** What the helpers return during one run of a program on one CPU.  [core_read p [a1; ..; an] size]
    is the [size] bytes that [BPF_CORE_READ(p, a1, .., an)] fetches: every accessor but the last is a
    pointer that is followed; the destination is zero-filled when a read faults, so that there are
    always [size] bytes. *)
Record kctx : Type := KCtx {
  bpf_ktime_get_ns : Z;
  bpf_get_current_pid_tgid : Z;
  bpf_get_current_task : Z;
  bpf_get_smp_processor_id : Z;
  core_read : Z → list (list string) → Z → list byte;
  core_read_length (p : Z) (path : list (list string)) (size : Z) :
    length (core_read p path size) = Z.to_nat size
}.

(** The value that a zero-filled map element reads as. *)
Class ZeroValue (V : Type) := zero_value : V.

(** ** Helpers *)

(** A lookup may reorder an LRU map, so it also returns the map; [bpf_map_peek] is the content of a
    map, which no program can observe but through the helpers.  [bpf_map_modify k f m] is a
    write through the pointer that a lookup of [k] returned. *)
Class BpfKernel := {
  bpf_map : map_def → Type → Type → Type;
  bpf_map_peek {d K V} `{EqDecision K} : bpf_map d K V → K → option V;
  bpf_map_lookup_elem {d K V} `{EqDecision K} : K → bpf_map d K V → option V * bpf_map d K V;
  bpf_map_update_elem {d K V} `{EqDecision K} : K → V → bpf_map d K V → Z * bpf_map d K V;
  bpf_map_delete_elem {d K V} `{EqDecision K} : K → bpf_map d K V → Z * bpf_map d K V;
  bpf_map_modify {d K V} `{EqDecision K} : K → (V → V) → bpf_map d K V → bpf_map d K V;

  percpu_map : map_def → Type → Type → Type;
  percpu_peek {d K V} `{EqDecision K} : percpu_map d K V → Z → K → option V;
  percpu_lookup_elem {d K V} `{EqDecision K} :
    Z → K → percpu_map d K V → option V * percpu_map d K V;
  percpu_update_elem {d K V} `{EqDecision K} `{ZeroValue V} :
    Z → K → V → percpu_map d K V → Z * percpu_map d K V;
  percpu_delete_elem {d K V} `{EqDecision K} : K → percpu_map d K V → Z * percpu_map d K V;

  ringbuf : Z → Type;
  bpf_ringbuf_reserve {n} : Z → ringbuf n → option (list byte) * ringbuf n;
  bpf_ringbuf_submit {n} : list byte → ringbuf n → ringbuf n;
  (* every record submitted so far, and those of them that user space has not read yet *)
  ringbuf_records {n} : ringbuf n → list (list byte);
  ringbuf_unread {n} : ringbuf n → list (list byte);
  (* user space reads what there is *)
  ringbuf_consume {n} : ringbuf n → ringbuf n;

  bpf_ntohs : Z → Z
}.

(** An update that succeeds and evicts nothing. *)
Definition update_faithful `{BpfKernel} {d K V} `{EqDecision K}
    (k : K) (v : V) (m : bpf_map d K V) : Prop :=
  fst (bpf_map_update_elem k v m) = 0 ∧
  ∀ k', k' ≠ k → bpf_map_peek (snd (bpf_map_update_elem k v m)) k' = bpf_map_peek m k'.

(** The value that the other CPUs see for a key that one CPU has just written: what they had, or a
    zero-filled element if the key was not in the map. *)
Definition percpu_other {V} `{ZeroValue V} (old : option V) : V := default zero_value old.

Definition percpu_update_faithful `{BpfKernel} {d K V} `{EqDecision K} `{ZeroValue V}
    (cpu : Z) (k : K) (v : V) (m : percpu_map d K V) : Prop :=
  let '(r, m') := percpu_update_elem cpu k v m in
  r = 0 ∧ percpu_peek m' cpu k = Some v ∧
  (∀ cpu', cpu' ≠ cpu → percpu_peek m' cpu' k = Some (percpu_other (percpu_peek m cpu' k))) ∧
  (∀ cpu' k', k' ≠ k → percpu_peek m' cpu' k' = percpu_peek m cpu' k').

(** The elements of some keys are evicted, on all CPUs at once. *)
Definition percpu_evicts `{BpfKernel} {d K V} `{EqDecision K} (m m' : percpu_map d K V) : Prop :=
  ∀ k, (∀ cpu, percpu_peek m' cpu k = percpu_peek m cpu k) ∨ (∀ cpu, percpu_peek m' cpu k = None).

(** One CPU has written its value of [k], and nothing else has changed. *)
Definition percpu_written `{BpfKernel} {d K V} `{EqDecision K} `{ZeroValue V}
    (cpu : Z) (k : K) (v : V) (m m' : percpu_map d K V) : Prop :=
  percpu_peek m' cpu k = Some v ∧
  (∀ cpu', cpu' ≠ cpu → percpu_peek m' cpu' k = Some (percpu_other (percpu_peek m cpu' k))) ∧
  (∀ cpu' k', k' ≠ k → percpu_peek m' cpu' k' = percpu_peek m cpu' k').

Class BpfKernelLaws `{BpfKernel} := {
  lookup_elem_value {d K V} `{EqDecision K} (k : K) (m : bpf_map d K V) :
    fst (bpf_map_lookup_elem k m) = bpf_map_peek m k;
  lookup_elem_peek {d K V} `{EqDecision K} (k k' : K) (m : bpf_map d K V) :
    bpf_map_peek (snd (bpf_map_lookup_elem k m)) k' = bpf_map_peek m k';
  update_elem_ok {d K V} `{EqDecision K} (k : K) (v : V) (m : bpf_map d K V) :
    fst (bpf_map_update_elem k v m) = 0 →
    bpf_map_peek (snd (bpf_map_update_elem k v m)) k = Some v;
  update_elem_fail {d K V} `{EqDecision K} (k : K) (v : V) (m : bpf_map d K V) :
    fst (bpf_map_update_elem k v m) ≠ 0 →
    bpf_map_peek (snd (bpf_map_update_elem k v m)) k = bpf_map_peek m k;
  update_elem_other {d K V} `{EqDecision K} (k k' : K) (v : V) (m : bpf_map d K V) :
    k' ≠ k →
    bpf_map_peek (snd (bpf_map_update_elem k v m)) k' = bpf_map_peek m k' ∨
    bpf_map_peek (snd (bpf_map_update_elem k v m)) k' = None;
  (* nothing is refused or evicted below capacity: [keys] bounds the keys present *)
  update_elem_room {d K V} `{EqDecision K} (k : K) (v : V) (m : bpf_map d K V) (keys : list K) :
    (∀ k', is_Some (bpf_map_peek m k') → k' ∈ keys) →
    Z.of_nat (length keys) < max_entries d →
    update_faithful k v m;
  delete_elem_peek {d K V} `{EqDecision K} (k k' : K) (m : bpf_map d K V) :
    bpf_map_peek (snd (bpf_map_delete_elem k m)) k' =
    if decide (k' = k) then None else bpf_map_peek m k';
  map_modify_peek {d K V} `{EqDecision K} (k k' : K) (f : V → V) (m : bpf_map d K V) :
    bpf_map_peek (bpf_map_modify k f m) k' =
    if decide (k' = k) then f <$> bpf_map_peek m k' else bpf_map_peek m k';

  percpu_lookup_value {d K V} `{EqDecision K} (cpu : Z) (k : K) (m : percpu_map d K V) :
    fst (percpu_lookup_elem cpu k m) = percpu_peek m cpu k;
  percpu_lookup_peek {d K V} `{EqDecision K} (cpu cpu' : Z) (k k' : K) (m : percpu_map d K V) :
    percpu_peek (snd (percpu_lookup_elem cpu k m)) cpu' k' = percpu_peek m cpu' k';
  percpu_update_room {d K V} `{EqDecision K} `{ZeroValue V} (cpu : Z) (k : K) (v : V)
      (m : percpu_map d K V) (keys : list K) :
    (∀ cpu' k', is_Some (percpu_peek m cpu' k') → k' ∈ keys) →
    Z.of_nat (length keys) < max_entries d →
    percpu_update_faithful cpu k v m;
  (* a full map evicts elements to make room; still the update may be refused *)
  percpu_update_any {d K V} `{EqDecision K} `{ZeroValue V} (cpu : Z) (k : K) (v : V)
      (m : percpu_map d K V) :
    ∃ m1, percpu_evicts m m1 ∧
      let m2 := snd (percpu_update_elem cpu k v m) in
      percpu_written cpu k v m1 m2 ∨ ∀ cpu' k', percpu_peek m2 cpu' k' = percpu_peek m1 cpu' k';
  (* a key is in the map for every CPU or for none *)
  percpu_delete_peek {d K V} `{EqDecision K} (cpu : Z) (k k' : K) (m : percpu_map d K V) :
    percpu_peek (snd (percpu_delete_elem k m)) cpu k' =
    if decide (k' = k) then None else percpu_peek m cpu k';

  reserve_records {n} (size : Z) (rb : ringbuf n) :
    ringbuf_records (snd (bpf_ringbuf_reserve size rb)) = ringbuf_records rb;
  reserve_length {n} (size : Z) (rb : ringbuf n) (slot : list byte) :
    fst (bpf_ringbuf_reserve size rb) = Some slot → length slot = Z.to_nat size;
  submit_records {n} (data : list byte) (rb : ringbuf n) :
    ringbuf_records (bpf_ringbuf_submit data rb) = ringbuf_records rb ++ [data];
  reserve_unread {n} (size : Z) (rb : ringbuf n) :
    ringbuf_unread (snd (bpf_ringbuf_reserve size rb)) = ringbuf_unread rb;
  submit_unread {n} (data : list byte) (rb : ringbuf n) :
    ringbuf_unread (bpf_ringbuf_submit data rb) = ringbuf_unread rb ++ [data];
  consume_unread {n} (rb : ringbuf n) : ringbuf_unread (ringbuf_consume rb) = [];
  consume_records {n} (rb : ringbuf n) : ringbuf_records (ringbuf_consume rb) = ringbuf_records rb;

  (* network byte order on a little-endian machine *)
  ntohs_swap (b0 b1 : byte) : bpf_ntohs (le_combine [b0; b1]) = le_combine [b1; b0]
}.

#[export] Hint Rewrite @lookup_elem_value @lookup_elem_peek @delete_elem_peek @map_modify_peek
  @percpu_lookup_value @percpu_lookup_peek @percpu_delete_peek @reserve_records @submit_records
  @reserve_unread @submit_unread @consume_unread @consume_records
  using typeclasses eauto : kg_rw.

(** ** The monad of a program over its maps *)

Definition Bpf (S A : Type) : Type := S → A * S.

#[export] Instance bpf_ret {S : Type} : MRet (Bpf S) := λ A a s, (a, s).
#[export] Instance bpf_bind {S : Type} : MBind (Bpf S) :=
  λ A B k m s, let '(a, s') := m s in k a s'.

(** Run an operation on one component of the state. *)
Definition zoom {S T A : Type} (get : S → T) (set : T → S → S) (m : Bpf T A) : Bpf S A :=
  λ s, let '(a, t) := m (get s) in (a, set t s).

(** An operation that only changes the state. *)
Definition update_state {S : Type} (f : S → S) : Bpf S unit := λ s, (tt, f s).

(** The state after a program. *)
Definition exec {S A : Type} (m : Bpf S A) (s : S) : S := snd (m s).
Definition result {S A : Type} (m : Bpf S A) (s : S) : A := fst (m s).

(** Monad laws, up to pointwise equality of programs. *)
Lemma bpf_ret_bind {S A B : Type} (a : A) (k : A → Bpf S B) (s : S) :
  (mret a ≫= k) s = k a s.
Proof. done. Qed.

Lemma bpf_bind_ret {S A : Type} (m : Bpf S A) (s : S) : (m ≫= mret) s = m s.
Proof. unfold mbind, bpf_bind, mret, bpf_ret. by destruct (m s). Qed.

Lemma bpf_bind_assoc {S A B C : Type} (m : Bpf S A) (k : A → Bpf S B) (l : B → Bpf S C) (s : S) :
  ((m ≫= k) ≫= l) s = (m ≫= λ a, k a ≫= l) s.
Proof. unfold mbind, bpf_bind. by destruct (m s) as [a s']; destruct (k a s'). Qed.

Lemma bpf_bind_run {S A B : Type} (m : Bpf S A) (k : A → Bpf S B) (s : S) :
  (m ≫= k) s = k (fst (m s)) (snd (m s)).
Proof. unfold mbind, bpf_bind. by destruct (m s). Qed.

Lemma zoom_run {S T A : Type} (get : S → T) (set : T → S → S) (m : Bpf T A) (s : S) :
  zoom get set m s = (fst (m (get s)), set (snd (m (get s))) s).
Proof. unfold zoom. by destruct (m (get s)). Qed.

(** ** What every run of a program preserves *)

(** The states before and after the program are related; [R] is a preorder, so that programs compose. *)
Definition keeps {S A : Type} (R : relation S) (m : Bpf S A) : Prop := ∀ s, R s (exec m s).

Section Keeps.
Context {S : Type} (R : relation S) `{!PreOrder R}.

Lemma keeps_ret {A : Type} (a : A) : keeps R (mret a).
Proof. intros s. reflexivity. Qed.

Lemma keeps_bind {A B : Type} (m : Bpf S A) (k : A → Bpf S B) :
  keeps R m → (∀ a, keeps R (k a)) → keeps R (m ≫= k).
Proof.
  intros Hm Hk s. unfold exec. rewrite bpf_bind_run. etrans; [apply Hm|]. apply Hk.
Qed.

(** An operation on a component that [R] does not look at. *)
Lemma keeps_zoom {T A : Type} (get : S → T) (set : T → S → S) (m : Bpf T A) :
  (∀ t s, R s (set t s)) → keeps R (zoom get set m).
Proof. intros Hs s. unfold exec. rewrite zoom_run. apply Hs. Qed.

End Keeps.

#[export] Hint Resolve keeps_ret keeps_bind : kg.
