(* ===== verification/LruKernel.v ===== *)
(** * An executable implementation of the environment

    Hash maps as association lists kept in order of use, with the capacity of their declaration:
    an LRU map drops the least recently used entry when it is full, a plain hash map refuses the
    update.  Ring buffers with the capacity of their declaration and the 8-byte header of each
    record.  This is the instance at which the theorems are applied to concrete runs; it also shows
    that the laws of [BpfKernelLaws] can hold together. *)

From S2P Require Import Prelude CLayout BpfEnv.

(** ** Association lists *)

Section Assoc.
Context {K V : Type} `{EqDecision K}.

Fixpoint assoc (l : list (K * V)) (k : K) : option V :=
  match l with
  | [] => None
  | (k', v) :: l => if decide (k' = k) then Some v else assoc l k
  end.

Definition without (k : K) (l : list (K * V)) : list (K * V) := filter (λ p, fst p ≠ k) l.

Definition entries (l : list (K * V)) : nat := length (remove_dups (fst <$> l)).

Lemma assoc_without (l : list (K * V)) (k k' : K) :
  assoc (without k l) k' = if decide (k' = k) then None else assoc l k'.
Proof.
  unfold without. induction l as [|[k0 v0] l IH]; [by case_decide|].
  rewrite filter_cons. simpl. repeat case_decide; simplify_eq; simpl; try done;
    repeat case_decide; simplify_eq; done.
Qed.

Lemma assoc_take (n : nat) (l : list (K * V)) (k : K) :
  assoc (take n l) k = assoc l k ∨ assoc (take n l) k = None.
Proof.
  revert n. induction l as [|[k0 v0] l IH]; intros [|n]; simpl; auto.
  case_decide; auto.
Qed.

Lemma assoc_map (l : list (K * V)) (k k' : K) (f : V → V) :
  assoc ((λ p, if decide (fst p = k) then (fst p, f (snd p)) else p) <$> l) k' =
  if decide (k' = k) then f <$> assoc l k' else assoc l k'.
Proof.
  induction l as [|[k0 v0] l IH]; simpl; [by case_decide|].
  repeat case_decide; simplify_eq; simpl; repeat case_decide; simplify_eq; done.
Qed.

Lemma assoc_Some_elem (l : list (K * V)) (k : K) : k ∈ fst <$> l ↔ is_Some (assoc l k).
Proof.
  induction l as [|[k0 v0] l IH]; simpl.
  - split; [by intros ?%not_elem_of_nil|by intros []].
  - rewrite elem_of_cons, IH. case_decide; split; naive_solver.
Qed.

Lemma entries_bound (l : list (K * V)) (keys : list K) :
  (∀ k, is_Some (assoc l k) → k ∈ keys) → (entries l ≤ length keys)%nat.
Proof.
  intros Hk. unfold entries. apply submseteq_length, NoDup_submseteq.
  - apply NoDup_remove_dups.
  - intros k Hin%elem_of_remove_dups%assoc_Some_elem. by apply Hk.
Qed.

End Assoc.

(** ** Operations *)

Definition evicting (d : map_def) : bool :=
  String.eqb (map_type d) "BPF_MAP_TYPE_LRU_HASH" ||
  String.eqb (map_type d) "BPF_MAP_TYPE_LRU_PERCPU_HASH".

(** Use of a key: it moves to the front of the list. *)
Definition lru_lookup {K V} `{EqDecision K} (k : K) (l : list (K * V)) : option V * list (K * V) :=
  match assoc l k with
  | Some v => (Some v, (k, v) :: without k l)
  | None => (None, l)
  end.

(** -7 is E2BIG. *)
Definition lru_update {K V} `{EqDecision K} (d : map_def) (k : K) (v : V) (l : list (K * V)) :
    Z * list (K * V) :=
  match assoc l k with
  | Some _ => (0, (k, v) :: without k l)
  | None =>
      if Z.of_nat (entries l) <? max_entries d then (0, (k, v) :: l)
      else if evicting d then (0, (k, v) :: take (length l - 1) l)
      else (-7, l)
  end.

(** -2 is ENOENT. *)
Definition lru_delete {K V} `{EqDecision K} (k : K) (l : list (K * V)) : Z * list (K * V) :=
  (match assoc l k with Some _ => 0 | None => -2 end, without k l).

Definition lru_modify {K V} `{EqDecision K} (k : K) (f : V → V) (l : list (K * V)) :
    list (K * V) :=
  (λ p, if decide (fst p = k) then (fst p, f (snd p)) else p) <$> l.

Definition write_cpu {V} `{ZeroValue V} (cpu : Z) (v : V) (old : option (Z → V)) (cpu' : Z) : V :=
  if decide (cpu' = cpu) then v else percpu_other ((λ f, f cpu') <$> old).

(** The records that user space has read, those it has not, and the bytes that other CPUs have
    reserved and not submitted yet. *)
Record ring : Type := Ring {
  rb_read : list (list byte);
  rb_unread : list (list byte);
  rb_pending : Z
}.

Definition record_space (size : Z) : Z := align_up (size + 8) 8.

Definition ring_used (rb : ring) : Z :=
  foldr (λ r n, record_space (Z.of_nat (length r)) + n) (rb_pending rb) (rb_unread rb).

(** The reserved bytes are those that an earlier record left. *)
Definition ring_reserve (n size : Z) (rb : ring) : option (list byte) * ring :=
  (if ring_used rb + record_space size <=? n then Some (replicate (Z.to_nat size) Byte.xff) else None,
   rb).

Definition ring_submit (data : list byte) (rb : ring) : ring :=
  {| rb_read := rb_read rb; rb_unread := rb_unread rb ++ [data]; rb_pending := rb_pending rb |}.

Definition ring_consume (rb : ring) : ring :=
  {| rb_read := rb_read rb ++ rb_unread rb; rb_unread := []; rb_pending := rb_pending rb |}.

Definition swap16 (z : Z) : Z := le_combine (rev (le_split 2 z)).

#[export] Instance lru_kernel : BpfKernel := {
  bpf_map _ K V := list (K * V);
  bpf_map_peek _ _ _ _ := assoc;
  bpf_map_lookup_elem _ _ _ _ := lru_lookup;
  bpf_map_update_elem d _ _ _ := lru_update d;
  bpf_map_delete_elem _ _ _ _ := lru_delete;
  bpf_map_modify _ _ _ _ := lru_modify;
  percpu_map _ K V := list (K * (Z → V));
  percpu_peek _ _ _ _ l cpu k := (λ f, f cpu) <$> assoc l k;
  percpu_lookup_elem _ _ _ _ cpu k l :=
    ((λ f, f cpu) <$> fst (lru_lookup k l), snd (lru_lookup k l));
  percpu_update_elem d _ _ _ _ cpu k v l := lru_update d k (write_cpu cpu v (assoc l k)) l;
  percpu_delete_elem _ _ _ _ := lru_delete;
  ringbuf _ := ring;
  bpf_ringbuf_reserve n := ring_reserve n;
  bpf_ringbuf_submit _ := ring_submit;
  ringbuf_records _ rb := rb_read rb ++ rb_unread rb;
  ringbuf_unread _ := rb_unread;
  ringbuf_consume _ := ring_consume;
  bpf_ntohs := swap16
}.

(** ** The laws *)

Lemma lru_lookup_value {K V} `{EqDecision K} (k : K) (l : list (K * V)) :
  fst (lru_lookup k l) = assoc l k.
Proof. unfold lru_lookup. by destruct (assoc l k). Qed.

Lemma lru_lookup_peek {K V} `{EqDecision K} (k k' : K) (l : list (K * V)) :
  assoc (snd (lru_lookup k l)) k' = assoc l k'.
Proof.
  unfold lru_lookup. destruct (assoc l k) eqn:Hk; simpl; [|done].
  rewrite assoc_without. repeat case_decide; congruence.
Qed.

Lemma lru_update_ok {K V} `{EqDecision K} (d : map_def) (k : K) (v : V) (l : list (K * V)) :
  fst (lru_update d k v l) = 0 → assoc (snd (lru_update d k v l)) k = Some v.
Proof. unfold lru_update. intros Hr. case_all; simpl in *; by repeat case_decide. Qed.

Lemma lru_update_fail {K V} `{EqDecision K} (d : map_def) (k : K) (v : V) (l : list (K * V)) :
  fst (lru_update d k v l) ≠ 0 → assoc (snd (lru_update d k v l)) k = assoc l k.
Proof. unfold lru_update. intros Hr. case_all; simpl in *; congruence. Qed.

Lemma lru_update_other {K V} `{EqDecision K} (d : map_def) (k k' : K) (v : V) (l : list (K * V)) :
  k' ≠ k →
  assoc (snd (lru_update d k v l)) k' = assoc l k' ∨ assoc (snd (lru_update d k v l)) k' = None.
Proof.
  intros Hne. unfold lru_update. case_all; simpl; rewrite ?decide_False by congruence; auto.
  - rewrite assoc_without, decide_False by congruence. auto.
  - apply assoc_take.
Qed.

Lemma lru_update_room {K V} `{EqDecision K} (d : map_def) (k : K) (v : V) (l : list (K * V))
    (keys : list K) :
  (∀ k', is_Some (assoc l k') → k' ∈ keys) → Z.of_nat (length keys) < max_entries d →
  fst (lru_update d k v l) = 0 ∧
  ∀ k', assoc (snd (lru_update d k v l)) k' = if decide (k' = k) then Some v else assoc l k'.
Proof.
  intros Hk%entries_bound Hlen. unfold lru_update. rewrite (proj2 (Z.ltb_lt _ _)) by lia.
  destruct (assoc l k) eqn:Ha; simpl; (split; [done|]); intros k'.
  - rewrite assoc_without. repeat case_decide; congruence.
  - repeat case_decide; congruence.
Qed.

Lemma lru_percpu_room {K V} `{EqDecision K} `{ZeroValue V} (d : map_def) (cpu : Z) (k : K) (v : V)
    (m : percpu_map d K V) (keys : list K) :
  (∀ cpu' k', is_Some (percpu_peek m cpu' k') → k' ∈ keys) →
  Z.of_nat (length keys) < max_entries d → percpu_update_faithful cpu k v m.
Proof.
  simpl in *. intros Hk Hlen.
  destruct (lru_update_room d k (write_cpu cpu v (assoc m k)) m keys) as [Hr Hp]; [|done|].
  { intros k' [f Hf]. apply (Hk 0). rewrite Hf. by eexists. }
  unfold percpu_update_faithful. simpl.
  destruct (lru_update d k (write_cpu cpu v (assoc m k)) m) as [r m']; simpl in *.
  split_and!; [done|..]; intros; rewrite Hp.
  - rewrite decide_True by done. simpl. unfold write_cpu. by rewrite decide_True.
  - rewrite decide_True by done. simpl. unfold write_cpu. by rewrite decide_False.
  - by rewrite decide_False.
Qed.

Lemma lru_percpu_any {K V} `{EqDecision K} `{ZeroValue V} (d : map_def) (cpu : Z) (k : K) (v : V)
    (m : percpu_map d K V) :
  ∃ m1, percpu_evicts m m1 ∧
    let m2 := snd (percpu_update_elem cpu k v m) in
    percpu_written cpu k v m1 m2 ∨ ∀ cpu' k', percpu_peek m2 cpu' k' = percpu_peek m1 cpu' k'.
Proof.
  assert (∀ l l' : list (K * (Z → V)), assoc l k = None ∨ l' = without k l →
    ∀ f, f = write_cpu cpu v (assoc l k) → (assoc l k = None → l' = l) →
    percpu_written (d := d) cpu k v l ((k, f) :: l')) as Hw.
  { intros l l' Hl f -> Hn. unfold percpu_written. simpl. rewrite decide_True by done. simpl.
    unfold write_cpu. rewrite decide_True by done. split; [done|]. split.
    - intros cpu' Hc. simpl. by rewrite decide_False.
    - intros cpu' k' Hk. rewrite decide_False by congruence. destruct Hl as [Hl| ->]; [by rewrite Hn|].
      rewrite assoc_without. by rewrite decide_False. }
  simpl in *. unfold lru_update. destruct (assoc m k) as [f|] eqn:Hf.
  { exists m. split; [by left|]. left. simpl. eapply Hw; [by right|by rewrite Hf|by rewrite Hf]. }
  destruct (Z.of_nat (entries m) <? max_entries d); simpl.
  { exists m. split; [by left|]. left. eapply Hw; [by left|by rewrite Hf|done]. }
  destruct (evicting d); simpl; [|exists m; split; [by left|by right]].
  exists (take (length m - 1) m). split.
  - intros k'. simpl. destruct (assoc_take (length m - 1) m k') as [->| ->]; [by left|by right].
  - left. assert (assoc (take (length m - 1) m) k = None) as Ht by (destruct (assoc_take (length m - 1) m k); congruence).
    eapply Hw; [by left|by rewrite Ht|done].
Qed.

#[export] Instance lru_kernel_laws : BpfKernelLaws.
Proof.
  split; simpl; intros.
  - apply lru_lookup_value.
  - apply lru_lookup_peek.
  - by apply lru_update_ok.
  - by apply lru_update_fail.
  - by apply lru_update_other.
  - destruct (lru_update_room d k v m keys) as [? Hp]; [done..|]. split; [done|].
    intros k' Hne. simpl. rewrite Hp. by rewrite decide_False.
  - apply assoc_without.
  - apply assoc_map.
  - by rewrite lru_lookup_value.
  - by rewrite lru_lookup_peek.
  - by eapply lru_percpu_room.
  - apply lru_percpu_any.
  - rewrite assoc_without. by case_decide.
  - done.
  - unfold ring_reserve in *. simpl in *. case_match; simplify_eq. by rewrite length_replicate.
  - apply app_assoc.
  - done.
  - done.
  - done.
  - apply app_nil_r.
  - unfold swap16. change 2%nat with (length [b0; b1]). by rewrite split_le_combine.
Qed.

(** A context whose kernel memory reads are given by a function on the accessors. *)
Definition fit_bytes (size : Z) (bs : list byte) : list byte :=
  take (Z.to_nat size) bs ++ replicate (Z.to_nat size - length bs) Byte.x00.

Lemma length_fit_bytes (size : Z) (bs : list byte) : length (fit_bytes size bs) = Z.to_nat size.
Proof. unfold fit_bytes. rewrite length_app, length_take, length_replicate. lia. Qed.

Definition mk_ctx (now pid_tgid task cpu : Z) (read : Z → list (list string) → list byte) : kctx :=
  {| bpf_ktime_get_ns := now;
     bpf_get_current_pid_tgid := pid_tgid;
     bpf_get_current_task := task;
     bpf_get_smp_processor_id := cpu;
     core_read p path size := fit_bytes size (read p path);
     core_read_length p path size := length_fit_bytes size (read p path) |}.
