(* ===== verification/RingBuffer.v ===== *)
(** * Sending records through a ring buffer

    The reserve, fill and submit sequence that ends every reporting program, for a record of any C
    type; and the room that a run needs. *)

From S2P Require Import Prelude CLayout CLayoutFacts BpfEnv LruKernel.

Section RingBuffer.
Context `{BpfKernelLaws}.

Definition ring_full {n : Z} (t : ctype) (rb : ringbuf n) : bool :=
  match fst (bpf_ringbuf_reserve (sizeof t) rb) with Some _ => false | None => true end.

(** The ring buffer after an attempt to send the record that [fill] writes. *)
Definition send_record {n : Z} (t : ctype) (fill : list byte → list byte) (rb : ringbuf n) :
    ringbuf n :=
  match bpf_ringbuf_reserve (sizeof t) rb with
  | (Some slot, rb') => bpf_ringbuf_submit (fill slot) rb'
  | (None, rb') => rb'
  end.

(** There is room for [k] more records, whatever the values of their members. *)
Fixpoint ring_accepts {n : Z} (t : ctype) (k : nat) (rb : ringbuf n) : Prop :=
  match k with
  | O => True
  | S k => ∃ slot rb',
      bpf_ringbuf_reserve (sizeof t) rb = (Some slot, rb') ∧
      ∀ data, is_object t data → ring_accepts t k (bpf_ringbuf_submit data rb')
  end.

Lemma reserve_object {n : Z} (t : ctype) (rb : ringbuf n) (slot : list byte) :
  0 ≤ sizeof t → fst (bpf_ringbuf_reserve (sizeof t) rb) = Some slot → is_object t slot.
Proof. intros Ht Hs%reserve_length. unfold is_object. rewrite Hs. by rewrite Z2Nat.id. Qed.

(** One record is added, if there is room: what it decodes to does not depend on the stale bytes of
    the slot. *)
Lemma send_record_decoded {n : Z} {A : Type} (t : ctype) (fill : list byte → list byte)
    (decode : list byte → A) (a : A) (rb : ringbuf n) :
  0 ≤ sizeof t → (∀ slot, is_object t slot → decode (fill slot) = a) →
  decode <$> ringbuf_records (send_record t fill rb) =
  (decode <$> ringbuf_records rb) ++ (if ring_full t rb then [] else [a]).
Proof.
  intros Ht Hd. unfold send_record, ring_full.
  pose proof (reserve_records (sizeof t) rb) as Hr. pose proof (reserve_object t rb) as Ho.
  destruct (bpf_ringbuf_reserve _ rb) as [[slot|] rb']; simpl in *.
  - rewrite submit_records, fmap_app, Hr. simpl. by rewrite Hd by auto.
  - by rewrite Hr, app_nil_r.
Qed.

Lemma ring_accepts_S {n : Z} (t : ctype) (k : nat) (rb : ringbuf n) :
  ring_accepts t (S k) rb → ring_accepts t k rb.
Proof.
  revert rb. induction k as [|k IH]; intros rb; [done|].
  intros (slot&rb'&Hr&Ha). exists slot, rb'. split; [done|]. intros data Hd. by apply IH, Ha.
Qed.

Lemma ring_accepts_not_full {n : Z} (t : ctype) (k : nat) (rb : ringbuf n) :
  ring_accepts t (S k) rb → ring_full t rb = false.
Proof. intros (slot&rb'&Hr&_). unfold ring_full. by rewrite Hr. Qed.

Lemma ring_accepts_send {n : Z} (t : ctype) (k : nat) (fill : list byte → list byte)
    (rb : ringbuf n) :
  0 ≤ sizeof t → (∀ slot, is_object t slot → is_object t (fill slot)) →
  ring_accepts t (S k) rb → ring_accepts t k (send_record t fill rb).
Proof.
  intros Ht Hf (slot&rb'&Hr&Ha). unfold send_record. rewrite Hr.
  apply Ha, Hf, (reserve_object t rb); [done|]. by rewrite Hr.
Qed.

(** ** What programs do to a ring buffer *)

(** Between two states of a ring buffer whose records are of type [t], programs have submitted
    records and user space has read none. *)
Definition ring_grows {n : Z} (t : ctype) (rb rb' : ringbuf n) : Prop :=
  ∃ rs, Forall (is_object t) rs ∧ ringbuf_records rb' = ringbuf_records rb ++ rs ∧
        ringbuf_unread rb' = ringbuf_unread rb ++ rs.

#[export] Instance ring_grows_preorder (n : Z) (t : ctype) : PreOrder (@ring_grows n t).
Proof.
  split.
  - intros rb. exists []. by rewrite !app_nil_r.
  - intros rb1 rb2 rb3 (rs&Ho&Hr&Hu) (rs'&Ho'&Hr'&Hu'). exists (rs ++ rs').
    rewrite Hr', Hu', Hr, Hu, !app_assoc. split; [by apply Forall_app|done].
Qed.

Lemma ring_grows_reserve {n : Z} (t : ctype) (size : Z) (rb : ringbuf n) :
  ring_grows t rb (snd (bpf_ringbuf_reserve size rb)).
Proof. exists []. autorewrite with kg_rw. by rewrite !app_nil_r. Qed.

Lemma ring_grows_submit {n : Z} (t : ctype) (data : list byte) (rb : ringbuf n) :
  is_object t data → ring_grows t rb (bpf_ringbuf_submit data rb).
Proof. intros Hd. exists [data]. autorewrite with kg_rw. by repeat constructor. Qed.

Lemma ring_grows_send {n : Z} (t : ctype) (fill : list byte → list byte) (rb : ringbuf n) :
  0 ≤ sizeof t → (∀ slot, is_object t slot → is_object t (fill slot)) →
  ring_grows t rb (send_record t fill rb).
Proof.
  intros Ht Hf. unfold send_record.
  pose proof (ring_grows_reserve t (sizeof t) rb) as Hg. pose proof (reserve_object t rb) as Ho.
  destruct (bpf_ringbuf_reserve _ rb) as [[slot|] rb']; simpl in *; [|done].
  etrans; [done|]. apply ring_grows_submit. auto.
Qed.

End RingBuffer.

(** The executable ring buffer has the room that its capacity gives: each record takes its size and
    the 8-byte header, rounded up to 8. *)
Lemma lru_ring_accepts (n : Z) (t : ctype) (k : nat) (rs : list (list byte)) :
  0 ≤ sizeof t → ring_used (Ring [] rs 0) + record_space (sizeof t) * Z.of_nat k ≤ n →
  ring_accepts (H := lru_kernel) (n := n) t k (Ring [] rs 0).
Proof.
  intros Ht. revert rs. induction k as [|k IH]; intros rs Hn; [done|].
  eexists _, (Ring [] rs 0). split.
  - unfold bpf_ringbuf_reserve. simpl. unfold ring_reserve.
    assert (0 ≤ record_space (sizeof t)) as Hp.
    { transitivity (sizeof t + 8); [lia|]. by apply align_up_ge. }
    by rewrite (proj2 (Z.leb_le _ _)) by nia.
  - intros data Hd. apply IH. unfold is_object in Hd.
    assert (ring_used (Ring [] (rs ++ [data]) 0) =
            ring_used (Ring [] rs 0) + record_space (sizeof t)) as Hr.
    2: { simpl. rewrite Hr. lia. }
    unfold ring_used. simpl. rewrite foldr_app. simpl. rewrite Hd. clear Hn.
    induction rs as [|r rs IHrs]; simpl; [lia|]. rewrite IHrs. lia.
Qed.
