(* ===== verification/Helper.v ===== *)
(** * controller/src/bpf/helper.h

    The three maps that every probe object declares, the address filter and the test that a socket
    belongs to a tracked network namespace. *)

From S2P Require Import Prelude CLayout CLayoutFacts BpfEnv VmlinuxBase VmlinuxSock VmlinuxNet.

(** ** Maps *)

Definition inode_num_def : map_def := MapDef "BPF_MAP_TYPE_LRU_HASH" 10240 u64 u32.
Definition ignore_ips_def : map_def := MapDef "BPF_MAP_TYPE_LRU_HASH" 10240 u32 u32.
Definition allowed_syscalls_def : map_def := MapDef "BPF_MAP_TYPE_HASH" 512 u32 u32.

(** 127.0.0.1 as a [__u32] in network byte order, [0x0100007F]. *)
Definition localhost : Z := 16777343.

Section Helper.
Context `{BpfKernel}.

Record helper_maps : Type := HelperMaps {
  inode_num : bpf_map inode_num_def Z Z;
  ignore_ips : bpf_map ignore_ips_def Z Z;
  allowed_syscalls : bpf_map allowed_syscalls_def Z Z
}.

Definition set_inode_num (m : bpf_map inode_num_def Z Z) (h : helper_maps) : helper_maps :=
  {| inode_num := m; ignore_ips := ignore_ips h; allowed_syscalls := allowed_syscalls h |}.

Definition set_ignore_ips (m : bpf_map ignore_ips_def Z Z) (h : helper_maps) : helper_maps :=
  {| inode_num := inode_num h; ignore_ips := m; allowed_syscalls := allowed_syscalls h |}.

Definition set_allowed_syscalls (m : bpf_map allowed_syscalls_def Z Z) (h : helper_maps) :
    helper_maps :=
  {| inode_num := inode_num h; ignore_ips := ignore_ips h; allowed_syscalls := m |}.

Definition lookup_inode_num (k : Z) : Bpf helper_maps (option Z) :=
  zoom inode_num set_inode_num (bpf_map_lookup_elem k).

Definition lookup_ignore_ips (k : Z) : Bpf helper_maps (option Z) :=
  zoom ignore_ips set_ignore_ips (bpf_map_lookup_elem k).

Definition lookup_allowed_syscalls (k : Z) : Bpf helper_maps (option Z) :=
  zoom allowed_syscalls set_allowed_syscalls (bpf_map_lookup_elem k).

(** A pointer used as a condition. *)
Definition non_null {A : Type} (p : option A) : bool := match p with Some _ => true | None => false end.

(** ** The address filter *)

Definition should_filter_traffic (saddr daddr : Z) : Bpf helper_maps bool :=
  if saddr =? daddr then mret true else
  if (saddr =? localhost) || (daddr =? localhost) then mret true else
  if (saddr =? 0) || (daddr =? 0) then mret true else
  p ← lookup_ignore_ips saddr;
  if non_null p then mret true else
  q ← lookup_ignore_ips daddr;
  if non_null q then mret true else
  mret false.

(** ** The namespace test *)

(** [*inum_out] when the function returns true; it is left as it was otherwise. *)
Definition get_and_validate_inum (c : kctx) (sk : Z) : Bpf helper_maps (option Z) :=
  if sk =? 0 then mret None else
  let net_ns_inum :=
    le_combine (core_read c sk [["__sk_common"; "skc_net"; "net"]; ["ns"; "inum"]] (sizeof u32)) in
  let key := u64_of net_ns_inum in
  user_space_inum_ptr ← lookup_inode_num key;
  if non_null user_space_inum_ptr then mret (Some key) else mret None.

(** [struct sock_common skc; BPF_CORE_READ_INTO(&skc, sk, __sk_common);] *)
Definition read_sock_common (c : kctx) (sk : Z) : list byte :=
  core_read c sk [["__sk_common"]] (sizeof struct_sock_common).

(** [skc.<member>]: the offset is the one of the header the probe is compiled with. *)
Definition skc_member (m : string) (skc : list byte) : Z := load_member struct_sock_common [m] skc.

(** ** Observational equality

    Lookups reorder the LRU lists, so the maps of two runs are compared by their contents. *)

Definition helper_equiv (h h' : helper_maps) : Prop :=
  (∀ k, bpf_map_peek (inode_num h) k = bpf_map_peek (inode_num h') k) ∧
  (∀ k, bpf_map_peek (ignore_ips h) k = bpf_map_peek (ignore_ips h') k) ∧
  (∀ k, bpf_map_peek (allowed_syscalls h) k = bpf_map_peek (allowed_syscalls h') k).

#[export] Instance helper_maps_equiv : Equiv helper_maps := helper_equiv.

#[export] Instance helper_maps_equivalence : Equivalence (≡@{helper_maps}).
Proof.
  split.
  - by intros h.
  - intros h h' (?&?&?). split_and!; congruence.
  - intros h1 h2 h3 (?&?&?) (?&?&?). split_and!; congruence.
Qed.

(** ** Reference definitions *)

(** The filter as a set of addresses: loopback, unset, on the ignore list; or a flow from an
    address to itself. *)
Definition uninteresting (ignored : Z → option Z) (a : Z) : bool :=
  (a =? localhost) || (a =? 0) || non_null (ignored a).

Definition filter_ref (ignored : Z → option Z) (saddr daddr : Z) : bool :=
  (saddr =? daddr) || uninteresting ignored saddr || uninteresting ignored daddr.

Definition filtered (h : helper_maps) (saddr daddr : Z) : bool :=
  filter_ref (bpf_map_peek (ignore_ips h)) saddr daddr.

(** The network namespace number of a socket, as the helper reads it. *)
Definition sock_inum (c : kctx) (sk : Z) : Z :=
  u64_of (le_combine
    (core_read c sk [["__sk_common"; "skc_net"; "net"]; ["ns"; "inum"]] (sizeof u32))).

Definition tracked (h : helper_maps) (k : Z) : bool := non_null (bpf_map_peek (inode_num h) k).

(** What the two checks at the start of every socket hook decide. *)
Definition socket_tracked (h : helper_maps) (c : kctx) (sk : Z) : bool :=
  negb (sk =? 0) && tracked h (sock_inum c sk).

Definition skc_filtered (h : helper_maps) (skc : list byte) : bool :=
  filtered h (skc_member "skc_rcv_saddr" skc) (skc_member "skc_daddr" skc).

End Helper.

Arguments skc_member : simpl never.
Arguments read_sock_common : simpl never.
Arguments sock_inum : simpl never.

(** ** Theorems *)

Section HelperFacts.
Context `{BpfKernelLaws}.

#[export] Instance tracked_proper : Proper ((≡) ==> (=) ==> (=)) tracked.
Proof. intros h h' (Hi&_&_) k ? <-. unfold tracked. by rewrite Hi. Qed.

#[export] Instance filtered_proper : Proper ((≡) ==> (=) ==> (=) ==> (=)) filtered.
Proof.
  intros h h' (_&Hi&_) a ? <- b ? <-. unfold filtered, filter_ref, uninteresting. by rewrite !Hi.
Qed.

Lemma filtered_equiv (h h' : helper_maps) (a b : Z) : h ≡ h' → filtered h a b = filtered h' a b.
Proof. by intros ->. Qed.

Lemma tracked_equiv (h h' : helper_maps) (k : Z) : h ≡ h' → tracked h k = tracked h' k.
Proof. by intros ->. Qed.

Lemma lookup_inode_num_run (k : Z) (h : helper_maps) :
  fst (lookup_inode_num k h) = bpf_map_peek (inode_num h) k ∧ snd (lookup_inode_num k h) ≡ h.
Proof.
  unfold lookup_inode_num. rewrite zoom_run. simpl. autorewrite with kg_rw.
  split; [done|]. split_and!; intros; simpl; by autorewrite with kg_rw.
Qed.

Lemma lookup_ignore_ips_run (k : Z) (h : helper_maps) :
  fst (lookup_ignore_ips k h) = bpf_map_peek (ignore_ips h) k ∧ snd (lookup_ignore_ips k h) ≡ h.
Proof.
  unfold lookup_ignore_ips. rewrite zoom_run. simpl. autorewrite with kg_rw.
  split; [done|]. split_and!; intros; simpl; by autorewrite with kg_rw.
Qed.

Lemma lookup_allowed_syscalls_run (k : Z) (h : helper_maps) :
  fst (lookup_allowed_syscalls k h) = bpf_map_peek (allowed_syscalls h) k ∧
  snd (lookup_allowed_syscalls k h) ≡ h.
Proof.
  unfold lookup_allowed_syscalls. rewrite zoom_run. simpl. autorewrite with kg_rw.
  split; [done|]. split_and!; intros; simpl; by autorewrite with kg_rw.
Qed.

Lemma should_filter_traffic_run (saddr daddr : Z) (h : helper_maps) :
  fst (should_filter_traffic saddr daddr h) = filtered h saddr daddr ∧
  snd (should_filter_traffic saddr daddr h) ≡ h.
Proof.
  unfold should_filter_traffic, filtered, filter_ref, uninteresting.
  destruct (saddr =? daddr) eqn:E1; [done|].
  destruct (saddr =? localhost) eqn:E2; [done|].
  destruct (daddr =? localhost) eqn:E3; [by rewrite !orb_true_r|].
  destruct (saddr =? 0) eqn:E4; [done|].
  destruct (daddr =? 0) eqn:E5; [by rewrite !orb_true_r|]. simpl.
  rewrite bpf_bind_run. destruct (lookup_ignore_ips_run saddr h) as [-> Hh].
  destruct (bpf_map_peek (ignore_ips h) saddr); [done|]. simpl.
  rewrite bpf_bind_run.
  destruct (lookup_ignore_ips_run daddr (snd (lookup_ignore_ips saddr h))) as [-> Hh'].
  rewrite (proj1 (proj2 Hh) daddr).
  destruct (bpf_map_peek (ignore_ips h) daddr); simpl; (split; [done|by etrans]).
Qed.

Lemma get_and_validate_inum_run (c : kctx) (sk : Z) (h : helper_maps) :
  fst (get_and_validate_inum c sk h) =
    (if (negb (sk =? 0)) && tracked h (sock_inum c sk) then Some (sock_inum c sk) else None) ∧
  snd (get_and_validate_inum c sk h) ≡ h.
Proof.
  unfold get_and_validate_inum, sock_inum. destruct (sk =? 0); [done|]. simpl.
  set (k := u64_of _). rewrite bpf_bind_run.
  destruct (lookup_inode_num_run k h) as [-> Hh]. unfold tracked.
  by destruct (bpf_map_peek (inode_num h) k).
Qed.

(** ** The two checks inside a program

    [get] and [set] reach the helper maps of the object.  Each check changes nothing but the order of
    the LRU lists. *)

Lemma check_inum_run {S A : Type} (get : S → helper_maps) (set : helper_maps → S → S)
    (c : kctx) (sk : Z) (k : option Z → Bpf S A) (s : S) :
  ∃ h', h' ≡ get s ∧
    (inum ← zoom get set (get_and_validate_inum c sk); k inum) s =
    k (if socket_tracked (get s) c sk then Some (sock_inum c sk) else None) (set h' s).
Proof.
  rewrite bpf_bind_run, zoom_run. simpl.
  destruct (get_and_validate_inum_run c sk (get s)) as [-> Hh]. by eexists.
Qed.

Lemma check_filter_run {S A : Type} (get : S → helper_maps) (set : helper_maps → S → S)
    (skc : list byte) (k : bool → Bpf S A) (h : helper_maps) (s : S) :
  get s ≡ h →
  ∃ h', h' ≡ h ∧
    (filtered ← zoom get set
       (should_filter_traffic (skc_member "skc_rcv_saddr" skc) (skc_member "skc_daddr" skc));
     k filtered) s =
    k (skc_filtered h skc) (set h' s).
Proof.
  intros Hh. rewrite bpf_bind_run, zoom_run. simpl.
  destruct (should_filter_traffic_run (skc_member "skc_rcv_saddr" skc)
              (skc_member "skc_daddr" skc) (get s)) as [-> Hh1].
  eexists. split; [by etrans|]. unfold skc_filtered. by rewrite (filtered_equiv _ h).
Qed.

Lemma socket_tracked_equiv (h h' : helper_maps) (c : kctx) (sk : Z) :
  h ≡ h' → socket_tracked h c sk = socket_tracked h' c sk.
Proof. intros Hh. unfold socket_tracked. by rewrite (tracked_equiv h h'). Qed.

Lemma skc_filtered_equiv (h h' : helper_maps) (skc : list byte) :
  h ≡ h' → skc_filtered h skc = skc_filtered h' skc.
Proof. intros Hh. unfold skc_filtered. by rewrite (filtered_equiv h h'). Qed.

(** ** Ranges of the members that the hooks read *)

Lemma sock_common_size : sizeof struct_sock_common = 136.
Proof. reflexivity. Qed.

Lemma sock_common_wf : wf_type struct_sock_common = true.
Proof. reflexivity. Qed.

Lemma read_sock_common_object (c : kctx) (sk : Z) : is_object struct_sock_common (read_sock_common c sk).
Proof. unfold is_object, read_sock_common. by rewrite core_read_length. Qed.

Lemma sock_inum_range (c : kctx) (sk : Z) : 0 ≤ sock_inum c sk < 2 ^ 64.
Proof. by apply wrap_range. Qed.

Lemma skc_dport_range (skc : list byte) :
  is_object struct_sock_common skc →
  0 ≤ bpf_ntohs (skc_member "skc_dport" skc) < 2 ^ 16.
Proof.
  intros Hskc. unfold skc_member, load_member.
  change (offsetof struct_sock_common ["skc_dport"]) with (Some (12, __be16)).
  unfold load_le. simpl. unfold is_object in Hskc. rewrite sock_common_size in Hskc.
  pose proof (length_read_bytes (Z.to_nat 12) (Z.to_nat (sizeof __be16)) skc) as Hl.
  change (Z.to_nat (sizeof __be16)) with 2%nat in *. specialize (Hl ltac:(lia)).
  destruct (read_bytes (Z.to_nat 12) 2 skc) as [|b0 [|b1 [|]]]; try done.
  rewrite ntohs_swap. apply (le_combine_bound [b1; b0]).
Qed.

End HelperFacts.

(** Step over one check of the program in the goal; the maps afterwards are [h]. *)
Ltac step_check_inum get set h Hh :=
  match goal with
  | |- context [mbind ?k (?on (get_and_validate_inum ?c ?sk)) ?s] =>
      change (on (get_and_validate_inum c sk)) with (zoom get set (get_and_validate_inum c sk));
      destruct (check_inum_run get set c sk k s) as (h & Hh & ->)
  end.

Ltac step_check_filter get set h0 h Hh :=
  match goal with
  | |- context [mbind ?k (?on (should_filter_traffic (_ ?skc) (_ ?skc))) ?s] =>
      match goal with
      | |- context [on (should_filter_traffic ?a ?b)] =>
          change (on (should_filter_traffic a b)) with (zoom get set (should_filter_traffic a b))
      end;
      destruct (check_filter_run get set skc k h0 s) as (h & Hh & ->);
        [first [assumption | done]|]
  end.
