(* ===== verification/NetworkProbe.v ===== *)
(** * controller/src/bpf/network_probe.bpf.c

    The connection probe: the UDP send hook, the TCP state-change hook and the pair of accept hooks,
    which report each new flow of a tracked pod once through the [network_events] ring buffer. *)

From S2P Require Import Prelude CLayout CLayoutFacts BpfEnv VmlinuxBase VmlinuxSock Helper.

(** ** Data *)

Definition network_event_data : ctype :=
  CStruct "network_event_data" {{
    MField u64 "inum";
    MField u32 "saddr";
    MField u16 "sport";
    MField u32 "daddr";
    MField u16 "dport";
    MField u16 "kind" }}.

Definition network_events_size : Z := 256 * 1024.

Definition conn_key_type : ctype :=
  CStruct "conn_key" {{
    MField u64 "inum";
    MField u32 "saddr";
    MField u32 "daddr";
    MField u16 "dport";
    MField u8 "protocol";
    MField u8 "direction" }}.

Definition conn_state_type : ctype :=
  CStruct "conn_state" {{
    MField u64 "first_seen";
    MField u64 "last_seen";
    MField u32 "event_count" }}.

Record conn_key : Type := ConnKey {
  ck_inum : Z;
  ck_saddr : Z;
  ck_daddr : Z;
  ck_dport : Z;
  ck_protocol : Z;
  ck_direction : Z
}.

#[export] Instance conn_key_eq_dec : EqDecision conn_key.
Proof. solve_decision. Defined.

Record conn_state : Type := ConnState {
  first_seen : Z;
  last_seen : Z;
  event_count : Z
}.

Definition connections_def : map_def :=
  MapDef "BPF_MAP_TYPE_LRU_HASH" 65536 conn_key_type conn_state_type.

Definition tcp_connect_ctx_type : ctype :=
  CStruct "tcp_connect_ctx" {{
    MField (CPtr "struct sock") "sk";
    MField u64 "inum" }}.

Record tcp_connect_ctx : Type := TcpConnectCtx {
  tc_sk : Z;
  tc_inum : Z
}.

#[export] Instance tcp_connect_ctx_zero : ZeroValue tcp_connect_ctx := TcpConnectCtx 0 0.

Definition tcp_ctx_def : map_def :=
  MapDef "BPF_MAP_TYPE_LRU_PERCPU_HASH" 10240 u32 tcp_connect_ctx_type.

(** The events as user space reads them. *)
Record network_event : Type := NetworkEvent {
  ne_inum : Z;
  ne_saddr : Z;
  ne_sport : Z;
  ne_daddr : Z;
  ne_dport : Z;
  ne_kind : Z
}.

(** [event->inum = ..; event->saddr = ..; ..] on the reserved bytes, in the order of the source. *)
Definition fill_network_event (inum saddr daddr sport dport kind : Z) (event : list byte) :
    list byte :=
  let event := store_member network_event_data ["inum"] inum event in
  let event := store_member network_event_data ["saddr"] saddr event in
  let event := store_member network_event_data ["daddr"] daddr event in
  let event := store_member network_event_data ["sport"] sport event in
  let event := store_member network_event_data ["dport"] dport event in
  store_member network_event_data ["kind"] kind event.

Definition decode_network_event (event : list byte) : network_event :=
  {| ne_inum := load_member network_event_data ["inum"] event;
     ne_saddr := load_member network_event_data ["saddr"] event;
     ne_sport := load_member network_event_data ["sport"] event;
     ne_daddr := load_member network_event_data ["daddr"] event;
     ne_dport := load_member network_event_data ["dport"] event;
     ne_kind := load_member network_event_data ["kind"] event |}.

Section NetworkProbe.
Context `{BpfKernel}.

Record probe_state : Type := ProbeState {
  np_helper : helper_maps;
  connections : bpf_map connections_def conn_key conn_state;
  tcp_ctx : percpu_map tcp_ctx_def Z tcp_connect_ctx;
  network_events : ringbuf network_events_size
}.

Definition set_np_helper (h : helper_maps) (s : probe_state) : probe_state :=
  {| np_helper := h; connections := connections s; tcp_ctx := tcp_ctx s;
     network_events := network_events s |}.

Definition set_connections (m : bpf_map connections_def conn_key conn_state) (s : probe_state) :
    probe_state :=
  {| np_helper := np_helper s; connections := m; tcp_ctx := tcp_ctx s;
     network_events := network_events s |}.

Definition set_tcp_ctx (m : percpu_map tcp_ctx_def Z tcp_connect_ctx) (s : probe_state) :
    probe_state :=
  {| np_helper := np_helper s; connections := connections s; tcp_ctx := m;
     network_events := network_events s |}.

Definition set_network_events (rb : ringbuf network_events_size) (s : probe_state) : probe_state :=
  {| np_helper := np_helper s; connections := connections s; tcp_ctx := tcp_ctx s;
     network_events := rb |}.

Definition on_helper {A : Type} (m : Bpf helper_maps A) : Bpf probe_state A :=
  zoom np_helper set_np_helper m.

Definition on_connections {A : Type} (m : Bpf (bpf_map connections_def conn_key conn_state) A) :
    Bpf probe_state A :=
  zoom connections set_connections m.

Definition on_tcp_ctx {A : Type} (m : Bpf (percpu_map tcp_ctx_def Z tcp_connect_ctx) A) :
    Bpf probe_state A :=
  zoom tcp_ctx set_tcp_ctx m.

Definition on_network_events {A : Type} (m : Bpf (ringbuf network_events_size) A) :
    Bpf probe_state A :=
  zoom network_events set_network_events m.

(** ** Connection tracking *)

(** [state->last_seen = now; state->event_count++;] *)
Definition store_last_seen (now : Z) (st : conn_state) : conn_state :=
  {| first_seen := first_seen st; last_seen := now; event_count := event_count st |}.

Definition incr_event_count (st : conn_state) : conn_state :=
  {| first_seen := first_seen st; last_seen := last_seen st;
     event_count := u32_succ (event_count st) |}.

Definition is_new_connection (c : kctx) (key : conn_key) : Bpf probe_state bool :=
  state ← on_connections (bpf_map_lookup_elem key);
  let now := bpf_ktime_get_ns c in
  match state with
  | None =>
      let new_state := {| first_seen := now; last_seen := now; event_count := 1 |} in
      _ ← on_connections (bpf_map_update_elem key new_state);
      mret true
  | Some _ =>
      _ ← on_connections (update_state (bpf_map_modify key (store_last_seen now)));
      _ ← on_connections (update_state (bpf_map_modify key incr_event_count));
      mret false
  end.

(** ** Hooks *)

(** [fentry/udp_sendmsg] *)
Definition trace_udp_send (c : kctx) (sk msg len : Z) : Bpf probe_state Z :=
  inum ← on_helper (get_and_validate_inum c sk);
  match inum with
  | None => mret 0
  | Some inum =>
      let skc := read_sock_common c sk in
      filtered ← on_helper
        (should_filter_traffic (skc_member "skc_rcv_saddr" skc) (skc_member "skc_daddr" skc));
      if (filtered : bool) then mret 0 else
      let conn := {|
        ck_inum := inum;
        ck_saddr := skc_member "skc_rcv_saddr" skc;
        ck_daddr := skc_member "skc_daddr" skc;
        ck_dport := bpf_ntohs (skc_member "skc_dport" skc);
        ck_protocol := 2;
        ck_direction := 1 |} in
      is_new ← is_new_connection c conn;
      if negb is_new then mret 0 else
      event ← on_network_events (bpf_ringbuf_reserve (sizeof network_event_data));
      match event with
      | None => mret 0
      | Some event =>
          let event :=
            fill_network_event inum (skc_member "skc_rcv_saddr" skc) (skc_member "skc_daddr" skc)
              (skc_member "skc_num" skc) (bpf_ntohs (skc_member "skc_dport" skc)) 3 event in
          _ ← on_network_events (update_state (bpf_ringbuf_submit event));
          mret 0
      end
  end.

(** [fentry/tcp_set_state] *)
Definition trace_tcp_state_change (c : kctx) (sk state : Z) : Bpf probe_state Z :=
  if sk =? 0 then mret 0 else
  if negb (state =? 1) then mret 0 else
  let skc := read_sock_common c sk in
  if negb (skc_member "skc_family" skc =? 2) then mret 0 else
  inum ← on_helper (get_and_validate_inum c sk);
  match inum with
  | None => mret 0
  | Some inum =>
      filtered ← on_helper
        (should_filter_traffic (skc_member "skc_rcv_saddr" skc) (skc_member "skc_daddr" skc));
      if (filtered : bool) then mret 0 else
      let sport := skc_member "skc_num" skc in
      let dport := bpf_ntohs (skc_member "skc_dport" skc) in
      let direction := if 1024 <? sport then 1 else 2 in
      let conn := {|
        ck_inum := inum;
        ck_saddr := skc_member "skc_rcv_saddr" skc;
        ck_daddr := skc_member "skc_daddr" skc;
        ck_dport := dport;
        ck_protocol := 1;
        ck_direction := direction |} in
      is_new ← is_new_connection c conn;
      if negb is_new then mret 0 else
      tcp_event ← on_network_events (bpf_ringbuf_reserve (sizeof network_event_data));
      match tcp_event with
      | None => mret 0
      | Some tcp_event =>
          let tcp_event :=
            fill_network_event inum (skc_member "skc_rcv_saddr" skc) (skc_member "skc_daddr" skc)
              sport dport direction tcp_event in
          _ ← on_network_events (update_state (bpf_ringbuf_submit tcp_event));
          mret 0
      end
  end.

(** [kprobe/inet_csk_accept] *)
Definition tcp_accept_entry (c : kctx) (sk : Z) : Bpf probe_state Z :=
  inum ← on_helper (get_and_validate_inum c sk);
  match inum with
  | None => mret 0
  | Some inum =>
      let ctx_data := {| tc_sk := 0; tc_inum := inum |} in
      let tid := u32_of (bpf_get_current_pid_tgid c) in
      _ ← on_tcp_ctx (percpu_update_elem (bpf_get_smp_processor_id c) tid ctx_data);
      mret 0
  end.

(** [kretprobe/inet_csk_accept] *)
Definition tcp_accept_exit (c : kctx) (new_sk : Z) : Bpf probe_state Z :=
  let tid := u32_of (bpf_get_current_pid_tgid c) in
  ctx_data ← on_tcp_ctx (percpu_lookup_elem (bpf_get_smp_processor_id c) tid);
  match ctx_data with
  | None => mret 0
  | Some ctx_data =>
      let inum := tc_inum ctx_data in
      _ ← on_tcp_ctx (percpu_delete_elem tid);
      if new_sk =? 0 then mret 0 else
      let skc := read_sock_common c new_sk in
      filtered ← on_helper
        (should_filter_traffic (skc_member "skc_rcv_saddr" skc) (skc_member "skc_daddr" skc));
      if (filtered : bool) then mret 0 else
      let dport := bpf_ntohs (skc_member "skc_dport" skc) in
      let conn := {|
        ck_inum := inum;
        ck_saddr := skc_member "skc_rcv_saddr" skc;
        ck_daddr := skc_member "skc_daddr" skc;
        ck_dport := dport;
        ck_protocol := 1;
        ck_direction := 2 |} in
      is_new ← is_new_connection c conn;
      if negb is_new then mret 0 else
      accept_event ← on_network_events (bpf_ringbuf_reserve (sizeof network_event_data));
      match accept_event with
      | None => mret 0
      | Some accept_event =>
          let accept_event :=
            fill_network_event inum (skc_member "skc_rcv_saddr" skc) (skc_member "skc_daddr" skc)
              (skc_member "skc_num" skc) dport 2 accept_event in
          _ ← on_network_events (update_state (bpf_ringbuf_submit accept_event));
          mret 0
      end
  end.

(** ** One invocation of the object, and a history of invocations *)

Inductive probe_hook : Type :=
| UdpSendmsg (c : kctx) (sk msg len : Z)
| TcpSetState (c : kctx) (sk state : Z)
| AcceptEntry (c : kctx) (sk : Z)
| AcceptExit (c : kctx) (new_sk : Z).

Definition run_hook (hk : probe_hook) : Bpf probe_state Z :=
  match hk with
  | UdpSendmsg c sk msg len => trace_udp_send c sk msg len
  | TcpSetState c sk state => trace_tcp_state_change c sk state
  | AcceptEntry c sk => tcp_accept_entry c sk
  | AcceptExit c new_sk => tcp_accept_exit c new_sk
  end.

Definition run_hooks (hks : list probe_hook) (s : probe_state) : probe_state :=
  foldl (λ s hk, exec (run_hook hk) s) s hks.

(** What user space has been sent, in order. *)
Definition reported (s : probe_state) : list network_event :=
  decode_network_event <$> ringbuf_records (network_events s).

End NetworkProbe.
