(* ===== verification/NetpolicyDrop.v ===== *)
(** * controller/src/bpf/netpolicy_drop.bpf.c

    The policy-drop probe: it follows every outgoing connection attempt of the tracked pods and
    reports those whose SYN is retransmitted three times without an answer. *)

From S2P Require Import Prelude CLayout CLayoutFacts BpfEnv RingBuffer VmlinuxBase VmlinuxSock.
From S2P Require Import Helper.

(** ** Data *)

Definition TCP_ESTABLISHED : Z := 1.
Definition TCP_SYN_SENT : Z := 2.

Definition conn_attempt_type : ctype :=
  CStruct "conn_attempt" {{
    MField u64 "inum";
    MField u32 "saddr";
    MField u32 "daddr";
    MField u16 "sport";
    MField u16 "dport";
    MField u8 "protocol";
    MField u8 "_pad" }}.

Record conn_attempt : Type := ConnAttempt {
  ca_inum : Z;
  ca_saddr : Z;
  ca_daddr : Z;
  ca_sport : Z;
  ca_dport : Z;
  ca_protocol : Z;
  ca_pad : Z
}.

#[export] Instance conn_attempt_eq_dec : EqDecision conn_attempt.
Proof. solve_decision. Defined.

Definition conn_state_type : ctype :=
  CStruct "conn_state" {{
    MField u64 "first_syn_time";
    MField u64 "last_syn_time";
    MField u32 "syn_count";
    MField u8 "established" }}.

Record conn_state : Type := ConnState {
  first_syn_time : Z;
  last_syn_time : Z;
  syn_count : Z;
  established : Z
}.

Definition policy_drop_event : ctype :=
  CStruct "policy_drop_event" {{
    MField u64 "timestamp";
    MField u64 "inum";
    MField u32 "saddr";
    MField u32 "daddr";
    MField u16 "sport";
    MField u16 "dport";
    MField u8 "protocol";
    MField u8 "_pad";
    MField u32 "syn_retries" }}.

Definition connection_tracking_def : map_def :=
  MapDef "BPF_MAP_TYPE_LRU_HASH" 16384 conn_attempt_type conn_state_type.

Definition policy_drop_events_size : Z := 256 * 1024.

(** The events as user space reads them; [_pad] is never written. *)
Record policy_drop : Type := PolicyDrop {
  pd_timestamp : Z;
  pd_inum : Z;
  pd_saddr : Z;
  pd_daddr : Z;
  pd_sport : Z;
  pd_dport : Z;
  pd_protocol : Z;
  pd_syn_retries : Z
}.

(** [evt->timestamp = now; evt->inum = inum; ..] in the order of the source. *)
Definition fill_policy_drop (now inum : Z) (key : conn_attempt) (retries : Z) (evt : list byte) :
    list byte :=
  let evt := store_member policy_drop_event ["timestamp"] now evt in
  let evt := store_member policy_drop_event ["inum"] inum evt in
  let evt := store_member policy_drop_event ["saddr"] (ca_saddr key) evt in
  let evt := store_member policy_drop_event ["daddr"] (ca_daddr key) evt in
  let evt := store_member policy_drop_event ["sport"] (ca_sport key) evt in
  let evt := store_member policy_drop_event ["dport"] (ca_dport key) evt in
  let evt := store_member policy_drop_event ["protocol"] 6 evt in
  store_member policy_drop_event ["syn_retries"] retries evt.

Definition decode_policy_drop (evt : list byte) : policy_drop :=
  {| pd_timestamp := load_member policy_drop_event ["timestamp"] evt;
     pd_inum := load_member policy_drop_event ["inum"] evt;
     pd_saddr := load_member policy_drop_event ["saddr"] evt;
     pd_daddr := load_member policy_drop_event ["daddr"] evt;
     pd_sport := load_member policy_drop_event ["sport"] evt;
     pd_dport := load_member policy_drop_event ["dport"] evt;
     pd_protocol := load_member policy_drop_event ["protocol"] evt;
     pd_syn_retries := load_member policy_drop_event ["syn_retries"] evt |}.

(** Writes through the pointer to a tracked connection. *)
Definition store_last_syn_time (now : Z) (st : conn_state) : conn_state :=
  {| first_syn_time := first_syn_time st; last_syn_time := now;
     syn_count := syn_count st; established := established st |}.

Definition incr_syn_count (st : conn_state) : conn_state :=
  {| first_syn_time := first_syn_time st; last_syn_time := last_syn_time st;
     syn_count := u32_succ (syn_count st); established := established st |}.

Definition store_established (st : conn_state) : conn_state :=
  {| first_syn_time := first_syn_time st; last_syn_time := last_syn_time st;
     syn_count := syn_count st; established := 1 |}.

Section NetpolicyDrop.
Context `{BpfKernel}.

Record drop_state : Type := DropState {
  nd_helper : helper_maps;
  connection_tracking : bpf_map connection_tracking_def conn_attempt conn_state;
  policy_drop_events : ringbuf policy_drop_events_size
}.

Definition set_nd_helper (h : helper_maps) (s : drop_state) : drop_state :=
  {| nd_helper := h; connection_tracking := connection_tracking s;
     policy_drop_events := policy_drop_events s |}.

Definition set_connection_tracking (m : bpf_map connection_tracking_def conn_attempt conn_state)
    (s : drop_state) : drop_state :=
  {| nd_helper := nd_helper s; connection_tracking := m;
     policy_drop_events := policy_drop_events s |}.

Definition set_policy_drop_events (rb : ringbuf policy_drop_events_size) (s : drop_state) :
    drop_state :=
  {| nd_helper := nd_helper s; connection_tracking := connection_tracking s;
     policy_drop_events := rb |}.

Definition on_nd_helper {A : Type} (m : Bpf helper_maps A) : Bpf drop_state A :=
  zoom nd_helper set_nd_helper m.

Definition on_tracking {A : Type}
    (m : Bpf (bpf_map connection_tracking_def conn_attempt conn_state) A) : Bpf drop_state A :=
  zoom connection_tracking set_connection_tracking m.

Definition on_drop_events {A : Type} (m : Bpf (ringbuf policy_drop_events_size) A) :
    Bpf drop_state A :=
  zoom policy_drop_events set_policy_drop_events m.

(** [*state_ptr], for a pointer to the element of [key] that read as [st] when it was looked up. *)
Definition deref (key : conn_attempt) (st : conn_state) : Bpf drop_state conn_state :=
  λ s, (default st (bpf_map_peek (connection_tracking s) key), s).

(** The key of a socket, the same initialiser in every hook. *)
Definition attempt_key (inum : Z) (skc : list byte) (protocol : Z) : conn_attempt :=
  {| ca_inum := inum;
     ca_saddr := skc_member "skc_rcv_saddr" skc;
     ca_daddr := skc_member "skc_daddr" skc;
     ca_sport := skc_member "skc_num" skc;
     ca_dport := bpf_ntohs (skc_member "skc_dport" skc);
     ca_protocol := protocol;
     ca_pad := 0 |}.

(** ** Hooks *)

(** [fentry/tcp_retransmit_skb] *)
Definition trace_tcp_retransmit (c : kctx) (sk skb segs : Z) : Bpf drop_state Z :=
  if sk =? 0 then mret 0 else
  inum ← on_nd_helper (get_and_validate_inum c sk);
  match inum with
  | None => mret 0
  | Some inum =>
      let skc := read_sock_common c sk in
      filtered ← on_nd_helper
        (should_filter_traffic (skc_member "skc_rcv_saddr" skc) (skc_member "skc_daddr" skc));
      if (filtered : bool) then mret 0 else
      let state := le_combine (core_read c sk [["__sk_common"; "skc_state"]] (sizeof u8)) in
      if negb (state =? TCP_SYN_SENT) then mret 0 else
      let key := attempt_key inum skc 6 in
      state_ptr ← on_tracking (bpf_map_lookup_elem key);
      let now := bpf_ktime_get_ns c in
      match state_ptr with
      | None =>
          let new_state := {| first_syn_time := now; last_syn_time := now; syn_count := 2;
                              established := 0 |} in
          _ ← on_tracking (bpf_map_update_elem key new_state);
          mret 0
      | Some st =>
          _ ← on_tracking (update_state (bpf_map_modify key (store_last_syn_time now)));
          _ ← on_tracking (update_state (bpf_map_modify key incr_syn_count));
          st ← deref key st;
          if (4 <=? syn_count st) && (established st =? 0) then
            evt ← on_drop_events (bpf_ringbuf_reserve (sizeof policy_drop_event));
            match evt with
            | None => mret 0
            | Some evt =>
                st ← deref key st;
                let evt := fill_policy_drop now inum key (syn_count st) evt in
                _ ← on_drop_events (update_state (bpf_ringbuf_submit evt));
                _ ← on_tracking (update_state (bpf_map_modify key store_established));
                mret 0
            end
          else mret 0
      end
  end.

(** [fentry/tcp_v4_connect] *)
Definition trace_tcp_connect (c : kctx) (sk uaddr addr_len : Z) : Bpf drop_state Z :=
  if sk =? 0 then mret 0 else
  inum ← on_nd_helper (get_and_validate_inum c sk);
  match inum with
  | None => mret 0
  | Some inum =>
      let skc := read_sock_common c sk in
      filtered ← on_nd_helper
        (should_filter_traffic (skc_member "skc_rcv_saddr" skc) (skc_member "skc_daddr" skc));
      if (filtered : bool) then mret 0 else
      let key := attempt_key inum skc 6 in
      let initial_state := {| first_syn_time := bpf_ktime_get_ns c; last_syn_time := 0;
                              syn_count := 1; established := 0 |} in
      _ ← on_tracking (bpf_map_update_elem key initial_state);
      mret 0
  end.

(** [fentry/tcp_set_state] *)
Definition trace_tcp_state_change (c : kctx) (sk state : Z) : Bpf drop_state Z :=
  if sk =? 0 then mret 0 else
  if negb (state =? TCP_ESTABLISHED) then mret 0 else
  inum ← on_nd_helper (get_and_validate_inum c sk);
  match inum with
  | None => mret 0
  | Some inum =>
      let skc := read_sock_common c sk in
      let key := attempt_key inum skc 6 in
      state_ptr ← on_tracking (bpf_map_lookup_elem key);
      match state_ptr with
      | None => mret 0
      | Some _ =>
          _ ← on_tracking (update_state (bpf_map_modify key store_established));
          mret 0
      end
  end.

(** [fentry/udp_sendmsg] *)
Definition trace_udp_send (c : kctx) (sk msg len : Z) : Bpf drop_state Z :=
  if sk =? 0 then mret 0 else
  inum ← on_nd_helper (get_and_validate_inum c sk);
  match inum with
  | None => mret 0
  | Some inum =>
      let skc := read_sock_common c sk in
      filtered ← on_nd_helper
        (should_filter_traffic (skc_member "skc_rcv_saddr" skc) (skc_member "skc_daddr" skc));
      if (filtered : bool) then mret 0 else
      let key := attempt_key inum skc 17 in
      state_ptr ← on_tracking (bpf_map_lookup_elem key);
      let now := bpf_ktime_get_ns c in
      match state_ptr with
      | None =>
          let new_state := {| first_syn_time := now; last_syn_time := now; syn_count := 1;
                              established := 0 |} in
          _ ← on_tracking (bpf_map_update_elem key new_state);
          mret 0
      | Some _ =>
          _ ← on_tracking (update_state (bpf_map_modify key (store_last_syn_time now)));
          _ ← on_tracking (update_state (bpf_map_modify key incr_syn_count));
          mret 0
      end
  end.

(** ** A history of invocations of the object *)

Inductive drop_hook : Type :=
| OnRetransmit (c : kctx) (sk skb segs : Z)
| OnConnect (c : kctx) (sk uaddr addr_len : Z)
| OnSetState (c : kctx) (sk state : Z)
| OnUdpSend (c : kctx) (sk msg len : Z).

Definition run_drop_hook (hk : drop_hook) : Bpf drop_state Z :=
  match hk with
  | OnRetransmit c sk skb segs => trace_tcp_retransmit c sk skb segs
  | OnConnect c sk uaddr addr_len => trace_tcp_connect c sk uaddr addr_len
  | OnSetState c sk state => trace_tcp_state_change c sk state
  | OnUdpSend c sk msg len => trace_udp_send c sk msg len
  end.

Definition run_drop_hooks (hks : list drop_hook) (s : drop_state) : drop_state :=
  foldl (λ s hk, exec (run_drop_hook hk) s) s hks.

(** The drops that user space has been sent, in order. *)
Definition drops (s : drop_state) : list policy_drop :=
  decode_policy_drop <$> ringbuf_records (policy_drop_events s).

End NetpolicyDrop.
