(* ===== verification/SyscallProbe.v ===== *)
(** * controller/src/bpf/syscall.bpf.c

    The system-call probe: one tracepoint, which sends the number of every system call that a
    tracked pod enters, filtered by an allowlist. *)

From S2P Require Import Prelude CLayout CLayoutFacts BpfEnv RingBuffer VmlinuxBase VmlinuxTask.
From S2P Require Import Helper.

Definition syscall_events_size : Z := 128 * 1024.

Definition data_t : ctype := CStruct "data_t" {{ MField u64 "inum"; MField u64 "sysnbr" }}.

(** [data->sysnbr = ctx->id; data->inum = net_ns;] on the reserved bytes. *)
Definition fill_data_t (id net_ns : Z) (data : list byte) : list byte :=
  let data := store_member data_t ["sysnbr"] id data in
  store_member data_t ["inum"] net_ns data.

(** The two members of a record. *)
Definition decode_data_t (data : list byte) : Z * Z :=
  (load_member data_t ["inum"] data, load_member data_t ["sysnbr"] data).

(** [ctx->id], the bits of a [long]. *)
Definition sys_enter_id (ctx : list byte) : Z :=
  load_member struct_trace_event_raw_sys_enter ["id"] ctx.

Section SyscallProbe.
Context `{BpfKernel}.

Record syscall_state : Type := SyscallState {
  sy_helper : helper_maps;
  syscall_events : ringbuf syscall_events_size
}.

Definition set_sy_helper (h : helper_maps) (s : syscall_state) : syscall_state :=
  {| sy_helper := h; syscall_events := syscall_events s |}.

Definition set_syscall_events (rb : ringbuf syscall_events_size) (s : syscall_state) :
    syscall_state :=
  {| sy_helper := sy_helper s; syscall_events := rb |}.

Definition on_sy_helper {A : Type} (m : Bpf helper_maps A) : Bpf syscall_state A :=
  zoom sy_helper set_sy_helper m.

Definition on_syscall_events {A : Type} (m : Bpf (ringbuf syscall_events_size) A) :
    Bpf syscall_state A :=
  zoom syscall_events set_syscall_events m.

(** The network namespace of the current task. *)
Definition task_inum (c : kctx) : Z :=
  u64_of (le_combine (core_read c (bpf_get_current_task c)
                        [["nsproxy"]; ["net_ns"]; ["ns"; "inum"]] (sizeof u32))).

(** [tracepoint/raw_syscalls/sys_enter] *)
Definition trace_execve (c : kctx) (ctx : list byte) : Bpf syscall_state Z :=
  let net_ns := task_inum c in
  inum ← on_sy_helper (lookup_inode_num net_ns);
  if negb (non_null inum) then mret 0 else
  let syscall_id := u32_of (sys_enter_id ctx) in
  allowed ← on_sy_helper (lookup_allowed_syscalls syscall_id);
  let zero := 0 in
  test ← on_sy_helper (lookup_allowed_syscalls zero);
  if non_null test && negb (non_null allowed) then mret 0 else
  data ← on_syscall_events (bpf_ringbuf_reserve (sizeof data_t));
  match data with
  | None => mret 0
  | Some data =>
      let data := fill_data_t (sys_enter_id ctx) net_ns data in
      _ ← on_syscall_events (update_state (bpf_ringbuf_submit data));
      mret 0
  end.

(** A history of system calls: the context of each, and the record of the tracepoint. *)
Definition run_syscalls (l : list (kctx * list byte)) (s : syscall_state) : syscall_state :=
  foldl (λ s '(c, ctx), exec (trace_execve c ctx) s) s l.

Definition syscalls_reported (s : syscall_state) : list (Z * Z) :=
  decode_data_t <$> ringbuf_records (syscall_events s).

(** ** Reference definitions *)

(** The allowlist as a predicate on system-call numbers.  An allowlist without number 0 allows
    everything. *)
Definition syscall_allowed (h : helper_maps) (nr : Z) : bool :=
  negb (non_null (bpf_map_peek (allowed_syscalls h) 0)) ||
  non_null (bpf_map_peek (allowed_syscalls h) nr).

(** What one system call is reported as, if it is. *)
Definition syscall_event (h : helper_maps) (c : kctx) (ctx : list byte) : option (Z * Z) :=
  if tracked h (task_inum c) && syscall_allowed h (u32_of (sys_enter_id ctx))
  then Some (task_inum c, sys_enter_id ctx) else None.

End SyscallProbe.

Arguments sys_enter_id : simpl never.
Arguments task_inum : simpl never.

Section SyscallProbeFacts.
Context `{BpfKernelLaws}.
Implicit Types (s : syscall_state) (h : helper_maps) (c : kctx).

Lemma on_sy_helper_run {A : Type} (m : Bpf helper_maps A) s :
  on_sy_helper m s = (fst (m (sy_helper s)), set_sy_helper (snd (m (sy_helper s))) s).
Proof. apply zoom_run. Qed.

Lemma on_syscall_events_run {A : Type} (m : Bpf (ringbuf syscall_events_size) A) s :
  on_syscall_events m s =
  (fst (m (syscall_events s)), set_syscall_events (snd (m (syscall_events s))) s).
Proof. apply zoom_run. Qed.

Lemma syscall_allowed_equiv h h' (nr : Z) : h ≡ h' → syscall_allowed h nr = syscall_allowed h' nr.
Proof. intros (_&_&Hh). unfold syscall_allowed. by rewrite !Hh. Qed.

Lemma syscall_event_equiv h h' c ctx : h ≡ h' → syscall_event h c ctx = syscall_event h' c ctx.
Proof.
  intros Hh. unfold syscall_event. by rewrite (tracked_equiv h h'), (syscall_allowed_equiv h h').
Qed.

Lemma sys_enter_id_range (ctx : list byte) : 0 ≤ sys_enter_id ctx < 2 ^ 64.
Proof. by apply (load_member_range struct_trace_event_raw_sys_enter ["id"] 8 c_long). Qed.

Lemma task_inum_range c : 0 ≤ task_inum c < 2 ^ 64.
Proof. by apply wrap_range. Qed.

Lemma decode_fill_data_t (id net_ns : Z) (data : list byte) :
  is_object data_t data → decode_data_t (fill_data_t id net_ns data) = (u64_of net_ns, u64_of id).
Proof. intros Hd. unfold decode_data_t, fill_data_t. f_equal; by load_members. Qed.

Lemma fill_data_t_object (id net_ns : Z) (data : list byte) :
  is_object data_t data → is_object data_t (fill_data_t id net_ns data).
Proof. intros Hd. unfold fill_data_t. solve_object. Qed.

(** A lookup in a helper map, in sequence. *)
Lemma sy_lookup_run {A : Type} (m : Bpf helper_maps (option Z)) (k : option Z → Bpf syscall_state A)
    h s :
  sy_helper s ≡ h → snd (m (sy_helper s)) ≡ sy_helper s →
  ∃ h', h' ≡ h ∧
    (x ← on_sy_helper m; k x) s = k (fst (m (sy_helper s))) (set_sy_helper h' s).
Proof.
  intros Hh Hm. rewrite bpf_bind_run, on_sy_helper_run. eexists. split; [|done]. by etrans.
Qed.

Ltac step_sy_lookup h Hh lem :=
  match goal with
  | |- context [mbind ?k (on_sy_helper ?m) ?s] =>
      destruct (sy_lookup_run m k (sy_helper s) s) as (h & Hh & ->);
        [reflexivity|apply lem|rewrite (proj1 (lem _ _)); simpl in *]
  end.

Lemma trace_execve_run c (ctx : list byte) s :
  ∃ h', h' ≡ sy_helper s ∧
    trace_execve c ctx s =
    (0, match syscall_event (sy_helper s) c ctx with
        | Some (net_ns, id) =>
            set_syscall_events (send_record data_t (fill_data_t id net_ns) (syscall_events s))
              (set_sy_helper h' s)
        | None => set_sy_helper h' s
        end).
Proof.
  unfold trace_execve, syscall_event, syscall_allowed, tracked.
  step_sy_lookup h1 Hh1 lookup_inode_num_run.
  destruct (bpf_map_peek (inode_num _) (task_inum c)); simpl; [|by exists h1].
  set (nr := u32_of (sys_enter_id ctx)).
  step_sy_lookup h2 Hh2 lookup_allowed_syscalls_run. 
  step_sy_lookup h3 Hh3 lookup_allowed_syscalls_run.
  rewrite (proj2 (proj2 Hh2) 0), !(proj2 (proj2 Hh1)).
  exists h3. split; [etrans; [done|by etrans]|].
  destruct (bpf_map_peek (allowed_syscalls (sy_helper s)) 0), (bpf_map_peek _ nr); simpl; try done.
  all: rewrite bpf_bind_run, on_syscall_events_run; simpl; unfold send_record.
  all: by destruct (bpf_ringbuf_reserve _ (syscall_events s)) as [[data|] rb].
Qed.

End SyscallProbeFacts.
