(* ===== verification/Fixtures.v ===== *)
(** * Concrete sockets, contexts and states

    The inputs at which the theorems are applied: sockets given by their addresses and ports, run
    on the executable environment of [LruKernel.v]. *)

From S2P Require Import Prelude CLayout CLayoutFacts BpfEnv LruKernel VmlinuxBase VmlinuxSock VmlinuxTask.
From S2P Require Import Helper.
From S2P Require Import NetworkProbe NetpolicyDrop SyscallProbe.

Definition zeros (n : nat) : list byte := replicate n Byte.x00.

(** The bytes of a [struct sock_common]; [dport] is in network byte order, as in the kernel. *)
Definition fix_skc (saddr daddr dport num family state : Z) : list byte :=
  foldr (λ '(m, v), store_member struct_sock_common [m] v) (zeros 136)
    [("skc_rcv_saddr", saddr); ("skc_daddr", daddr); ("skc_dport", dport); ("skc_num", num);
     ("skc_family", family); ("skc_state", state)].

(** A run at time [now] of the thread [pid_tgid] on [cpu], in which every socket that is read has
    the common part [skc] and lives in the network namespace [inum]. *)
Definition fix_ctx (now pid_tgid cpu inum : Z) (skc : list byte) : kctx :=
  mk_ctx now pid_tgid 0 cpu
    (λ _ path,
      if decide (path = [["__sk_common"]]) then skc else
      if decide (path = [["__sk_common"; "skc_state"]]) then le_split 1 (skc_member "skc_state" skc)
      else le_split 4 inum).

(** 10.0.0.1, 10.0.0.2 and 10.0.0.3 in network byte order. *)
Definition ip1 : Z := 16777226.
Definition ip2 : Z := 33554442.
Definition ip3 : Z := 50331658.

(** Ports 443, 50000 and 50001 in network byte order. *)
Definition be443 : Z := 47873.
Definition be50000 : Z := 20675.
Definition be50001 : Z := 20931.

Definition fix_helper (inums ips syscalls : list Z) : helper_maps :=
  let one k := (k, 1) in
  @HelperMaps lru_kernel (one <$> inums) (one <$> ips) (one <$> syscalls).

(** The object after user space has registered the namespaces [inums]. *)
Definition fix_probe (inums ips : list Z) : probe_state :=
  @NetworkProbe.ProbeState lru_kernel (fix_helper inums ips []) [] [] (Ring [] [] 0).

(** The same while other CPUs have reserved the whole ring buffer. *)
Definition full_ring : ring := Ring [] [] network_events_size.

Definition fix_full_probe (inums ips : list Z) : probe_state :=
  @NetworkProbe.ProbeState lru_kernel (fix_helper inums ips []) [] [] full_ring.

Definition fix_drop (inums : list Z) : drop_state :=
  @DropState lru_kernel (fix_helper inums [] []) [] (Ring [] [] 0).

Definition fix_full_drop (inums : list Z) : drop_state :=
  @DropState lru_kernel (fix_helper inums [] []) [] full_ring.

Definition fix_syscall (inums syscalls : list Z) : syscall_state :=
  @SyscallState lru_kernel (fix_helper inums [] syscalls) (Ring [] [] 0).

(** The record of a raw system-call entry. *)
Definition fix_sys_enter (id : Z) : list byte :=
  store_member struct_trace_event_raw_sys_enter ["id"] id
    (zeros (Z.to_nat (sizeof struct_trace_event_raw_sys_enter))).
