(* ===== verification/HelperThms.v ===== *)
(** * Theorems about the checks of helper.h *)

From S2P Require Import Prelude CLayout CLayoutFacts BpfEnv LruKernel VmlinuxBase VmlinuxSock.
From S2P Require Import Helper Fixtures.

Section Theorems.
Context `{BpfKernelLaws}.
Implicit Types (h : helper_maps) (c : kctx).

(** [should_filter_traffic] is the filter of its specification: it answers whether the two
    addresses are equal or one of them is loopback, unset or on the ignore list, whichever end it is
    at; and it leaves the contents of the maps alone. *)
Theorem should_filter_traffic_correct (saddr daddr : Z) h :
  let '(r, h') := should_filter_traffic saddr daddr h in
  h' ≡ h ∧ (r = false ↔ saddr ≠ daddr ∧
    Forall (λ a, a ≠ localhost ∧ a ≠ 0 ∧ bpf_map_peek (ignore_ips h) a = None) [saddr; daddr]).
Proof.
  pose proof (should_filter_traffic_run saddr daddr h) as Hr.
  destruct (should_filter_traffic saddr daddr h) as [r h']. simpl in Hr. destruct Hr as [-> Hh].
  split; [done|]. unfold filtered, filter_ref.
  assert (∀ a, uninteresting (bpf_map_peek (ignore_ips h)) a = false ↔
               a ≠ localhost ∧ a ≠ 0 ∧ bpf_map_peek (ignore_ips h) a = None) as Hu.
  { intros a. unfold uninteresting. rewrite !orb_false_iff, !Z.eqb_neq.
    destruct (bpf_map_peek (ignore_ips h) a); simpl; naive_solver. }
  rewrite !orb_false_iff, !Hu, Z.eqb_neq, !Forall_cons, Forall_nil. tauto.
Qed.

(** [get_and_validate_inum] writes the namespace number of the socket to its result exactly when
    the socket is not null and user space has registered the namespace; it leaves the contents of the
    maps alone. *)
Theorem get_and_validate_inum_correct c (sk : Z) h (inum : Z) :
  let '(r, h') := get_and_validate_inum c sk h in
  h' ≡ h ∧ (r = Some inum ↔ sk ≠ 0 ∧ inum = sock_inum c sk ∧ is_Some (bpf_map_peek (inode_num h) inum)).
Proof.
  pose proof (get_and_validate_inum_run c sk h) as Hr.
  destruct (get_and_validate_inum c sk h) as [r h']. simpl in Hr. destruct Hr as [-> Hh].
  split; [done|]. unfold tracked.
  destruct (Z.eqb_spec sk 0) as [->|Hsk]; simpl; [naive_solver|].
  destruct (bpf_map_peek (inode_num h) (sock_inum c sk)) eqn:Hp; simpl; split; intros Hx.
  - injection Hx as <-. by rewrite Hp.
  - by destruct Hx as (_&->&_).
  - done.
  - destruct Hx as (_&->&Hx). rewrite Hp in Hx. by destruct Hx.
Qed.

End Theorems.

(** ** The theorems at concrete inputs *)

#[local] Existing Instance lru_kernel.
#[local] Existing Instance lru_kernel_laws.

Definition wit_maps : helper_maps := fix_helper [7] [ip3] [].

Lemma should_filter_traffic_correct_witness :
  fst (should_filter_traffic ip1 ip2 wit_maps) = false ∧
  ¬ fst (should_filter_traffic ip1 ip3 wit_maps) = false.
Proof.
  pose proof (should_filter_traffic_correct ip1 ip2 wit_maps) as H1.
  pose proof (should_filter_traffic_correct ip1 ip3 wit_maps) as H2.
  destruct (should_filter_traffic ip1 ip2 wit_maps) as [r h'].
  destruct (should_filter_traffic ip1 ip3 wit_maps) as [r' h'']. simpl.
  destruct H1 as [_ ->], H2 as [_ ->]. split.
  - split; [done|]. repeat constructor; done.
  - intros [_ Hf]. apply Forall_cons in Hf as [_ Hf]. apply Forall_cons in Hf as [(_&_&Hf) _]. done.
Defined.

Lemma get_and_validate_inum_correct_witness :
  fst (get_and_validate_inum (fix_ctx 100 42 0 7 []) 1 wit_maps) = Some 7.
Proof.
  pose proof (get_and_validate_inum_correct (fix_ctx 100 42 0 7 []) 1 wit_maps 7) as Hw.
  destruct (get_and_validate_inum _ 1 wit_maps) as [r h']. simpl.
  destruct Hw as [_ ->]. split; [done|]. split; [by vm_compute|]. by exists 1.
Defined.
