(* ===== verification/NetworkProbeFacts.v ===== *)
(** * What the connection probe does

    The flow that a hook observes as a pure function of the socket and of the contents of the maps;
    every hook is this extraction followed by one announcement of the flow. *)

From S2P Require Import Prelude CLayout CLayoutFacts BpfEnv RingBuffer VmlinuxBase VmlinuxSock Helper.
From S2P Require Import NetworkProbe.

(** ** Layout of the event record *)

Lemma network_event_data_wf : wf_type network_event_data = true.
Proof. reflexivity. Qed.

Lemma network_event_data_size : sizeof network_event_data = 24.
Proof. reflexivity. Qed.

Lemma decode_fill_network_event (inum saddr daddr sport dport kind : Z) (slot : list byte) :
  is_object network_event_data slot →
  decode_network_event (fill_network_event inum saddr daddr sport dport kind slot) =
  {| ne_inum := u64_of inum; ne_saddr := u32_of saddr; ne_sport := u16_of sport;
     ne_daddr := u32_of daddr; ne_dport := u16_of dport; ne_kind := u16_of kind |}.
Proof.
  intros Hl. unfold decode_network_event, fill_network_event. f_equal; by load_members.
Qed.

(** ** Flows *)

(** One observed flow: its tracking key and the local port, which is not part of the key. *)
Record flow : Type := Flow {
  fl_key : conn_key;
  fl_sport : Z
}.

(** 3 for UDP, the direction for TCP. *)
Definition kind_of (k : conn_key) : Z := if ck_protocol k =? 2 then 3 else ck_direction k.

Definition event_of (fl : flow) : network_event :=
  let k := fl_key fl in
  {| ne_inum := ck_inum k; ne_saddr := ck_saddr k; ne_sport := fl_sport fl;
     ne_daddr := ck_daddr k; ne_dport := ck_dport k; ne_kind := kind_of k |}.

(** The tracking key of an event. *)
Definition event_key (e : network_event) : conn_key :=
  {| ck_inum := ne_inum e; ck_saddr := ne_saddr e; ck_daddr := ne_daddr e; ck_dport := ne_dport e;
     ck_protocol := if ne_kind e =? 3 then 2 else 1;
     ck_direction := if ne_kind e =? 3 then 1 else ne_kind e |}.

Section NetworkProbeFacts.
Context `{BpfKernelLaws}.

Implicit Types (s : probe_state) (h : helper_maps) (c : kctx) (fl : flow).

(** The flow of the connected pair of addresses in [skc]. *)
Definition skc_flow (inum protocol direction : Z) (skc : list byte) : flow :=
  {| fl_key := {|
       ck_inum := inum;
       ck_saddr := skc_member "skc_rcv_saddr" skc;
       ck_daddr := skc_member "skc_daddr" skc;
       ck_dport := bpf_ntohs (skc_member "skc_dport" skc);
       ck_protocol := protocol;
       ck_direction := direction |};
     fl_sport := skc_member "skc_num" skc |}.

Definition udp_flow h c (sk : Z) : option flow :=
  let skc := read_sock_common c sk in
  if socket_tracked h c sk && negb (skc_filtered h skc)
  then Some (skc_flow (sock_inum c sk) 2 1 skc) else None.

Definition tcp_flow h c (sk state : Z) : option flow :=
  let skc := read_sock_common c sk in
  if socket_tracked h c sk && (state =? 1) && (skc_member "skc_family" skc =? 2)
     && negb (skc_filtered h skc)
  then Some (skc_flow (sock_inum c sk) 1 (if 1024 <? skc_member "skc_num" skc then 1 else 2) skc)
  else None.

Definition accept_flow h c (inum new_sk : Z) : option flow :=
  let skc := read_sock_common c new_sk in
  if negb (new_sk =? 0) && negb (skc_filtered h skc)
  then Some (skc_flow inum 1 2 skc) else None.

(** ** Announcing a flow: the common end of the three reporting hooks *)

Definition announce c fl : Bpf probe_state Z :=
  is_new ← is_new_connection c (fl_key fl);
  if negb is_new then mret 0 else
  event ← on_network_events (bpf_ringbuf_reserve (sizeof network_event_data));
  match event with
  | None => mret 0
  | Some event =>
      let k := fl_key fl in
      let event := fill_network_event (ck_inum k) (ck_saddr k) (ck_daddr k) (fl_sport fl)
                     (ck_dport k) (kind_of k) event in
      _ ← on_network_events (update_state (bpf_ringbuf_submit event));
      mret 0
  end.

Definition announce_opt c (o : option flow) : Bpf probe_state Z :=
  match o with Some fl => announce c fl | None => mret 0 end.

Lemma on_helper_run {A : Type} (m : Bpf helper_maps A) s :
  on_helper m s = (fst (m (np_helper s)), set_np_helper (snd (m (np_helper s))) s).
Proof. apply zoom_run. Qed.

Lemma on_tcp_ctx_run {A : Type} (m : Bpf (percpu_map tcp_ctx_def Z tcp_connect_ctx) A) s :
  on_tcp_ctx m s = (fst (m (tcp_ctx s)), set_tcp_ctx (snd (m (tcp_ctx s))) s).
Proof. apply zoom_run. Qed.

Lemma on_connections_run {A : Type} (m : Bpf (bpf_map connections_def conn_key conn_state) A) s :
  on_connections m s = (fst (m (connections s)), set_connections (snd (m (connections s))) s).
Proof. apply zoom_run. Qed.

Lemma on_network_events_run {A : Type} (m : Bpf (ringbuf network_events_size) A) s :
  on_network_events m s =
  (fst (m (network_events s)), set_network_events (snd (m (network_events s))) s).
Proof. apply zoom_run. Qed.

Lemma trace_udp_send_announce c (sk msg len : Z) s :
  ∃ h', h' ≡ np_helper s ∧
    trace_udp_send c sk msg len s =
    announce_opt c (udp_flow (np_helper s) c sk) (set_np_helper h' s).
Proof.
  unfold trace_udp_send, udp_flow. step_check_inum np_helper set_np_helper h1 Hh1.
  destruct (socket_tracked (np_helper s) c sk); simpl; [|by exists h1].
  step_check_filter np_helper set_np_helper (np_helper s) h2 Hh2.
  exists h2. split; [done|]. by destruct (skc_filtered _ _).
Qed.

Lemma trace_tcp_state_change_announce c (sk state : Z) s :
  ∃ h', h' ≡ np_helper s ∧
    trace_tcp_state_change c sk state s =
    announce_opt c (tcp_flow (np_helper s) c sk state) (set_np_helper h' s).
Proof.
  assert (s = set_np_helper (np_helper s) s) as Hs by by destruct s.
  unfold trace_tcp_state_change, tcp_flow.
  destruct (sk =? 0) eqn:Hsk.
  { exists (np_helper s). unfold socket_tracked. rewrite Hsk. by rewrite <- Hs. }
  destruct (state =? 1); simpl.
  2:{ exists (np_helper s). rewrite andb_false_r. by rewrite <- Hs. }
  destruct (skc_member "skc_family" (read_sock_common c sk) =? 2); simpl.
  2:{ exists (np_helper s). rewrite andb_false_r. by rewrite <- Hs. }
  step_check_inum np_helper set_np_helper h1 Hh1.
  destruct (socket_tracked (np_helper s) c sk); simpl; [|by exists h1].
  step_check_filter np_helper set_np_helper (np_helper s) h2 Hh2.
  exists h2. split; [done|]. destruct (skc_filtered _ _); [done|]. simpl.
  by destruct (1024 <? _).
Qed.

(** The accept hooks meet in the per-CPU map. *)
Lemma tcp_accept_entry_run c (sk : Z) s :
  let cpu := bpf_get_smp_processor_id c in
  let tid := u32_of (bpf_get_current_pid_tgid c) in
  let ctx_data := {| tc_sk := 0; tc_inum := sock_inum c sk |} in
  ∃ h', h' ≡ np_helper s ∧
    tcp_accept_entry c sk s =
    (0, if socket_tracked (np_helper s) c sk
        then set_tcp_ctx (snd (percpu_update_elem cpu tid ctx_data (tcp_ctx s))) (set_np_helper h' s)
        else set_np_helper h' s).
Proof.
  simpl. unfold tcp_accept_entry. step_check_inum np_helper set_np_helper h1 Hh1. exists h1. split; [done|].
  destruct (socket_tracked (np_helper s) c sk); [|done].
  by rewrite bpf_bind_run, on_tcp_ctx_run.
Qed.

Lemma tcp_accept_exit_announce c (new_sk : Z) s :
  let cpu := bpf_get_smp_processor_id c in
  let tid := u32_of (bpf_get_current_pid_tgid c) in
  ∃ h' t', h' ≡ np_helper s ∧
    (∀ cpu' k, percpu_peek t' cpu' k =
       if decide (k = tid ∧ is_Some (percpu_peek (tcp_ctx s) cpu tid)) then None
       else percpu_peek (tcp_ctx s) cpu' k) ∧
    tcp_accept_exit c new_sk s =
    announce_opt c
      (x ← percpu_peek (tcp_ctx s) cpu tid; accept_flow (np_helper s) c (tc_inum x) new_sk)
      (set_tcp_ctx t' (set_np_helper h' s)).
Proof.
  intros cpu tid. unfold tcp_accept_exit, accept_flow. fold tid cpu.
  rewrite bpf_bind_run, on_tcp_ctx_run. simpl.
  rewrite percpu_lookup_value.
  set (t1 := snd (percpu_lookup_elem cpu tid (tcp_ctx s))).
  assert (∀ cpu' k, percpu_peek t1 cpu' k = percpu_peek (tcp_ctx s) cpu' k) as Ht1.
  { intros. apply percpu_lookup_peek. }
  destruct (percpu_peek (tcp_ctx s) cpu tid) as [x|] eqn:Hx; simpl.
  2:{ exists (np_helper s), t1. split_and!; [done| |reflexivity].
      intros. rewrite Ht1. case_decide as Hd; [|done]. by destruct Hd as [_ [? ?]]. }
  rewrite bpf_bind_run, on_tcp_ctx_run. simpl.
  set (t2 := snd (percpu_delete_elem tid t1)).
  assert (∀ cpu' k, percpu_peek t2 cpu' k =
            if decide (k = tid ∧ is_Some (Some x)) then None
            else percpu_peek (tcp_ctx s) cpu' k) as Ht2.
  { intros. unfold t2. rewrite percpu_delete_peek, Ht1.
    do 2 case_decide; naive_solver. }
  destruct (new_sk =? 0); simpl.
  { exists (np_helper s), t2. split_and!; [done|done|reflexivity]. }
  step_check_filter np_helper set_np_helper (np_helper s) h2 Hh2.
  exists h2, t2. split_and!; [done|done|].
  by destruct (skc_filtered (np_helper s) (read_sock_common c new_sk)).
Qed.

(** ** The effect of one announcement *)

Definition new_conn (now : Z) : conn_state :=
  {| first_seen := now; last_seen := now; event_count := 1 |}.

Definition seen_again (now : Z) (st : conn_state) : conn_state :=
  {| first_seen := first_seen st; last_seen := now; event_count := u32_succ (event_count st) |}.

Definition fill_flow fl (slot : list byte) : list byte :=
  let k := fl_key fl in
  fill_network_event (ck_inum k) (ck_saddr k) (ck_daddr k) (fl_sport fl) (ck_dport k) (kind_of k)
    slot.

(** The ring buffer after an attempt to send a flow. *)
Definition try_send fl (rb : ringbuf network_events_size) : ringbuf network_events_size :=
  send_record network_event_data (fill_flow fl) rb.

Record announced c fl s s' : Prop := {
  an_helper : np_helper s' = np_helper s;
  an_ctx : tcp_ctx s' = tcp_ctx s;
  an_known st :
    bpf_map_peek (connections s) (fl_key fl) = Some st →
    network_events s' = network_events s ∧
    ∀ k, bpf_map_peek (connections s') k =
         if decide (k = fl_key fl) then Some (seen_again (bpf_ktime_get_ns c) st)
         else bpf_map_peek (connections s) k;
  an_fresh :
    bpf_map_peek (connections s) (fl_key fl) = None →
    network_events s' = try_send fl (network_events s) ∧
    ∃ m, (∀ k, bpf_map_peek m k = bpf_map_peek (connections s) k) ∧
         connections s' =
         snd (bpf_map_update_elem (fl_key fl) (new_conn (bpf_ktime_get_ns c)) m)
}.

Lemma is_new_connection_run c (key : conn_key) s :
  let m := snd (bpf_map_lookup_elem key (connections s)) in
  let now := bpf_ktime_get_ns c in
  is_new_connection c key s =
  match bpf_map_peek (connections s) key with
  | None => (true, set_connections (snd (bpf_map_update_elem key (new_conn now) m)) s)
  | Some _ =>
      (false, set_connections
         (bpf_map_modify key incr_event_count (bpf_map_modify key (store_last_seen now) m)) s)
  end.
Proof.
  simpl. unfold is_new_connection. rewrite bpf_bind_run, on_connections_run. simpl.
  rewrite lookup_elem_value. destruct (bpf_map_peek (connections s) key); [done|].
  by rewrite bpf_bind_run, on_connections_run.
Qed.

Lemma modify_seen_peek (now : Z) (key : conn_key) st
    (m : bpf_map connections_def conn_key conn_state) :
  bpf_map_peek m key = Some st →
  ∀ k, bpf_map_peek (bpf_map_modify key incr_event_count
                       (bpf_map_modify key (store_last_seen now) m)) k =
       if decide (k = key) then Some (seen_again now st) else bpf_map_peek m k.
Proof.
  intros Hst k. rewrite !map_modify_peek. case_decide as Hk; [|done]. subst k. by rewrite Hst.
Qed.

Lemma announce_run c fl s :
  fst (announce c fl s) = 0 ∧ announced c fl s (snd (announce c fl s)).
Proof.
  unfold announce. rewrite bpf_bind_run, is_new_connection_run.
  set (m := snd (bpf_map_lookup_elem (fl_key fl) (connections s))).
  assert (∀ k, bpf_map_peek m k = bpf_map_peek (connections s) k) as Hm
    by (intros; apply lookup_elem_peek).
  destruct (bpf_map_peek (connections s) (fl_key fl)) as [st|] eqn:Hst; simpl.
  - split; [done|]. split; simpl; [done|done| |congruence].
    intros st' Hst'. split; [done|]. intros k. rewrite (modify_seen_peek _ _ st').
    + by rewrite Hm.
    + by rewrite Hm.
  - rewrite bpf_bind_run, on_network_events_run. simpl.
    destruct (bpf_ringbuf_reserve _ (network_events s)) as [[slot|] rb] eqn:Hrb; simpl.
    + split; [done|]. split; simpl; [done|done|congruence|].
      intros _. unfold try_send, send_record. rewrite Hrb. by eauto.
    + split; [done|]. split; simpl; [done|done|congruence|].
      intros _. unfold try_send, send_record. rewrite Hrb. by eauto.
Qed.

(** ** Ranges *)

(** The fields of a flow fit the members of the event record. *)
Definition flow_ok fl : Prop :=
  let k := fl_key fl in
  0 ≤ ck_inum k < 2 ^ 64 ∧ 0 ≤ ck_saddr k < 2 ^ 32 ∧ 0 ≤ ck_daddr k < 2 ^ 32 ∧
  0 ≤ ck_dport k < 2 ^ 16 ∧ 0 ≤ fl_sport fl < 2 ^ 16 ∧
  (ck_protocol k = 2 ∧ ck_direction k = 1 ∨
   ck_protocol k = 1 ∧ (ck_direction k = 1 ∨ ck_direction k = 2)).

Lemma skc_flow_ok (inum protocol direction : Z) (skc : list byte) :
  is_object struct_sock_common skc →
  0 ≤ inum < 2 ^ 64 →
  (protocol = 2 ∧ direction = 1 ∨ protocol = 1 ∧ (direction = 1 ∨ direction = 2)) →
  flow_ok (skc_flow inum protocol direction skc).
Proof.
  intros Hskc Hi Hpd. unfold flow_ok, skc_flow. simpl. split_and!; try lia.
  1-2: by apply (load_member_range struct_sock_common ["skc_rcv_saddr"] 4 __be32).
  1-2: by apply (load_member_range struct_sock_common ["skc_daddr"] 0 __be32).
  1-2: by apply skc_dport_range.
  1-2: by apply (load_member_range struct_sock_common ["skc_num"] 14 __u16).
Qed.

Lemma event_key_of fl : flow_ok fl → event_key (event_of fl) = fl_key fl.
Proof.
  unfold flow_ok, event_key, event_of, kind_of. destruct fl as [[i sa da dp pr di] sp]. simpl.
  intros (_&_&_&_&_&[[-> ->]|[-> [-> | ->]]]); done.
Qed.

Lemma decode_fill_flow fl (slot : list byte) :
  flow_ok fl → is_object network_event_data slot →
  decode_network_event (fill_flow fl slot) = event_of fl.
Proof.
  intros (?&?&?&?&?&Hpd) Hslot. unfold fill_flow. rewrite decode_fill_network_event by done.
  unfold event_of, u64_of, u32_of, u16_of. rewrite !wrap_small; try done.
  unfold kind_of. case_match; lia.
Qed.

Lemma fill_flow_object fl (slot : list byte) :
  is_object network_event_data slot → is_object network_event_data (fill_flow fl slot).
Proof. intros Hslot. unfold fill_flow, fill_network_event. solve_object. Qed.

Lemma try_send_reported fl s :
  flow_ok fl →
  decode_network_event <$> ringbuf_records (try_send fl (network_events s)) =
  reported s ++ (if ring_full network_event_data (network_events s) then [] else [event_of fl]).
Proof.
  intros Hfl. apply send_record_decoded; [done|]. intros slot. by apply decode_fill_flow.
Qed.

Lemma announced_reported c fl s s' :
  flow_ok fl → announced c fl s s' →
  reported s' =
  reported s ++ (if non_null (bpf_map_peek (connections s) (fl_key fl))
                    || ring_full network_event_data (network_events s)
                 then [] else [event_of fl]).
Proof.
  intros Hfl Ha. destruct (bpf_map_peek (connections s) (fl_key fl)) eqn:Hst; simpl.
  - apply (an_known _ _ _ _ Ha) in Hst as [He _]. unfold reported. by rewrite He, app_nil_r.
  - apply (an_fresh _ _ _ _ Ha) in Hst as [He _]. unfold reported at 1.
    rewrite He. by apply try_send_reported.
Qed.

End NetworkProbeFacts.
