(* ===== verification/NetworkProbeSpec.v ===== *)
(** * The specification of the connection probe, and its refinement

    [observer] is what the probe promises: the set of flows seen so far, the accepts in progress and
    the events sent.  Every hook refines one step of the observer, for as long as the flows and the
    threads it tracks fit its maps. *)

From S2P Require Import Prelude CLayout CLayoutFacts BpfEnv RingBuffer VmlinuxBase VmlinuxSock Helper.
From S2P Require Import NetworkProbe NetworkProbeFacts.

#[export] Instance conn_key_countable : Countable conn_key.
Proof.
  refine (inj_countable'
    (λ k, (ck_inum k, ck_saddr k, ck_daddr k, ck_dport k, ck_protocol k, ck_direction k))
    (λ '(i, sa, da, dp, pr, di), ConnKey i sa da dp pr di) _).
  by intros [].
Defined.

(** An accept in progress belongs to a thread; its map element holds one value per CPU. *)
Record observer : Type := Observer {
  ob_accepting : gmap Z (Z → Z);
  ob_seen : gset conn_key;
  ob_out : list network_event
}.

Definition initial_observer : observer := Observer ∅ ∅ [].

(** The first sight of a flow is remembered, and sent unless the ring buffer refuses it. *)
Definition saw (dropped : bool) (fl : flow) (o : observer) : observer :=
  if decide (fl_key fl ∈ ob_seen o) then o
  else {| ob_accepting := ob_accepting o;
          ob_seen := {[fl_key fl]} ∪ ob_seen o;
          ob_out := ob_out o ++ (if dropped then [] else [event_of fl]) |}.

Definition saw_opt (dropped : bool) (fl : option flow) (o : observer) : observer :=
  match fl with Some fl => saw dropped fl o | None => o end.

Definition set_accepting (m : gmap Z (Z → Z)) (o : observer) : observer :=
  {| ob_accepting := m; ob_seen := ob_seen o; ob_out := ob_out o |}.

(** A CPU writes its own slot of an element; the other slots of a new element read as zero. *)
Definition write_slot (cpu inum : Z) (old : option (Z → Z)) (cpu' : Z) : Z :=
  if decide (cpu' = cpu) then inum else match old with Some f => f cpu' | None => 0 end.

Definition hook_ctx {A : Type} (c : kctx) (f : Z → Z → A) : A :=
  f (bpf_get_smp_processor_id c) (u32_of (bpf_get_current_pid_tgid c)).

Section Observer.
Context `{BpfKernel}.

Definition observe (h : helper_maps) (dropped : bool) (hk : probe_hook) (o : observer) : observer :=
  match hk with
  | UdpSendmsg c sk _ _ => saw_opt dropped (udp_flow h c sk) o
  | TcpSetState c sk state => saw_opt dropped (tcp_flow h c sk state) o
  | AcceptEntry c sk => hook_ctx c (λ cpu tid,
      if socket_tracked h c sk
      then set_accepting
             (<[tid := write_slot cpu (sock_inum c sk) (ob_accepting o !! tid)]> (ob_accepting o)) o
      else o)
  | AcceptExit c new_sk => hook_ctx c (λ cpu tid,
      match ob_accepting o !! tid with
      | None => o
      | Some slots =>
          saw_opt dropped (accept_flow h c (slots cpu) new_sk)
            (set_accepting (delete tid (ob_accepting o)) o)
      end)
  end.

(** The run in which the ring buffer never refuses an event. *)
Definition observe_all (h : helper_maps) (hks : list probe_hook) (o : observer) : observer :=
  foldl (λ o hk, observe h false hk o) o hks.

(** Everything tracked fits the maps: no step of the run can evict. *)
Definition roomy (o : observer) : Prop :=
  Z.of_nat (size (ob_seen o)) < max_entries connections_def ∧
  Z.of_nat (size (ob_accepting o)) < max_entries tcp_ctx_def.

(** [dropped] tells, for each hook, whether the ring buffer refused the event it may have sent. *)
Fixpoint observe_with (h : helper_maps) (dropped : list bool) (hks : list probe_hook)
    (o : observer) : observer :=
  match dropped, hks with
  | d :: dropped, hk :: hks => observe_with h dropped hks (observe h d hk o)
  | _, _ => o
  end.

Definition hook_kctx (hk : probe_hook) : kctx :=
  match hk with
  | UdpSendmsg c _ _ _ | TcpSetState c _ _ | AcceptEntry c _ | AcceptExit c _ => c
  end.

(** The flow a hook observes, and the accepts in progress after it. *)
Definition hook_flow (h : helper_maps) (hk : probe_hook) (o : observer) : option flow :=
  match hk with
  | UdpSendmsg c sk _ _ => udp_flow h c sk
  | TcpSetState c sk state => tcp_flow h c sk state
  | AcceptEntry _ _ => None
  | AcceptExit c new_sk => hook_ctx c (λ cpu tid,
      slots ← ob_accepting o !! tid; accept_flow h c (slots cpu) new_sk)
  end.

Definition hook_accepting (h : helper_maps) (hk : probe_hook) (m : gmap Z (Z → Z)) :
    gmap Z (Z → Z) :=
  match hk with
  | AcceptEntry c sk => hook_ctx c (λ cpu tid,
      if socket_tracked h c sk
      then <[tid := write_slot cpu (sock_inum c sk) (m !! tid)]> m else m)
  | AcceptExit c _ => hook_ctx c (λ _ tid, delete tid m)
  | _ => m
  end.

(** The object as it is loaded: nothing tracked, nothing sent; user space fills the helper maps. *)
Definition loaded (s : probe_state) : Prop :=
  (∀ k, bpf_map_peek (connections s) k = None) ∧
  (∀ cpu tid, percpu_peek (tcp_ctx s) cpu tid = None) ∧
  ringbuf_records (network_events s) = [].

Fixpoint fits (h : helper_maps) (hks : list probe_hook) (o : observer) : Prop :=
  match hks with
  | [] => True
  | hk :: hks => roomy o ∧ fits h hks (observe h false hk o)
  end.

(** ** The simulation relation *)

Record refines (h : helper_maps) (s : probe_state) (o : observer) : Prop := {
  rf_helper : np_helper s ≡ h;
  rf_accepting cpu tid :
    tc_inum <$> percpu_peek (tcp_ctx s) cpu tid = (λ f, f cpu) <$> ob_accepting o !! tid;
  rf_seen k : is_Some (bpf_map_peek (connections s) k) ↔ k ∈ ob_seen o;
  rf_out : reported s = ob_out o;
  rf_inum tid f cpu : ob_accepting o !! tid = Some f → 0 ≤ f cpu < 2 ^ 64
}.

End Observer.

Section NetworkProbeSpec.
Context `{BpfKernelLaws}.

Implicit Types (s : probe_state) (h : helper_maps) (c : kctx) (fl : flow) (o : observer).

Lemma udp_flow_equiv h h' c (sk : Z) : h ≡ h' → udp_flow h c sk = udp_flow h' c sk.
Proof.
  intros Hh. unfold udp_flow, socket_tracked, skc_filtered.
  by rewrite (tracked_equiv h h'), (filtered_equiv h h').
Qed.

Lemma tcp_flow_equiv h h' c (sk state : Z) : h ≡ h' → tcp_flow h c sk state = tcp_flow h' c sk state.
Proof.
  intros Hh. unfold tcp_flow, socket_tracked, skc_filtered.
  by rewrite (tracked_equiv h h'), (filtered_equiv h h').
Qed.

Lemma accept_flow_equiv h h' c (inum sk : Z) :
  h ≡ h' → accept_flow h c inum sk = accept_flow h' c inum sk.
Proof.
  intros Hh. unfold accept_flow, skc_filtered. by rewrite (filtered_equiv h h').
Qed.

Lemma udp_flow_ok h c (sk : Z) fl : udp_flow h c sk = Some fl → flow_ok fl.
Proof.
  unfold udp_flow. case_match; [|done]. intros [= <-].
  apply skc_flow_ok; [apply read_sock_common_object|apply sock_inum_range|by left].
Qed.

Lemma tcp_flow_ok h c (sk state : Z) fl : tcp_flow h c sk state = Some fl → flow_ok fl.
Proof.
  unfold tcp_flow. case_match; [|done]. intros [= <-].
  apply skc_flow_ok; [apply read_sock_common_object|apply sock_inum_range|].
  right. split; [done|]. case_match; auto.
Qed.

Lemma accept_flow_ok h c (inum sk : Z) fl :
  0 ≤ inum < 2 ^ 64 → accept_flow h c inum sk = Some fl → flow_ok fl.
Proof.
  unfold accept_flow. intros Hi. case_match; [|done]. intros [= <-].
  apply skc_flow_ok; [apply read_sock_common_object|done|]. right. auto.
Qed.

(** Set the helper maps to equivalent ones, or replace the accept table. *)
Lemma refines_helper h h' s o : refines h s o → h' ≡ np_helper s → refines h (set_np_helper h' s) o.
Proof. intros [] Hh. split; simpl; [by etrans|done..]. Qed.

Lemma roomy_connections h s o fl (v : conn_state)
    (m : bpf_map connections_def conn_key conn_state) :
  refines h s o → roomy o →
  (∀ k, bpf_map_peek m k = bpf_map_peek (connections s) k) →
  update_faithful (fl_key fl) v m.
Proof.
  intros Hr [Hroom _] Hm. apply (update_elem_room _ _ _ (elements (ob_seen o))).
  - intros k. rewrite Hm. intros Hk%(rf_seen _ _ _ Hr). by apply elem_of_elements.
  - done.
Qed.

(** An announcement refines the first-sight rule. *)
Lemma announced_refines h c fl s s' o :
  refines h s o → roomy o → flow_ok fl → announced c fl s s' →
  refines h s' (saw (ring_full network_event_data (network_events s)) fl o).
Proof.
  intros Hr Hroom Hfl Ha. pose proof (announced_reported c fl s s' Hfl Ha) as Hout.
  pose proof (rf_seen _ _ _ Hr (fl_key fl)) as Hseen. unfold saw.
  destruct (bpf_map_peek (connections s) (fl_key fl)) as [st|] eqn:Hst; simpl in Hout.
  - rewrite decide_True by (apply Hseen; eauto).
    apply (an_known _ _ _ _ Ha) in Hst as Hk. destruct Hk as [_ Hk].
    destruct Hr. split.
    + by rewrite (an_helper _ _ _ _ Ha).
    + by rewrite (an_ctx _ _ _ _ Ha).
    + intros k. rewrite Hk. case_decide as Hd; [|done]. subst k.
      rewrite <- Hseen. split; eauto.
    + by rewrite Hout, app_nil_r.
    + done.
  - rewrite decide_False by (rewrite <- Hseen; by intros []).
    apply (an_fresh _ _ _ _ Ha) in Hst as Hk. destruct Hk as [_ (m&Hm&Hc)].
    pose proof (roomy_connections h s o fl (new_conn (bpf_ktime_get_ns c)) m Hr Hroom Hm) as [H0' Hoth].
    destruct Hr. split; simpl.
    + by rewrite (an_helper _ _ _ _ Ha).
    + by rewrite (an_ctx _ _ _ _ Ha).
    + intros k. rewrite Hc. rewrite elem_of_union, elem_of_singleton.
      destruct (decide (k = fl_key fl)) as [->|Hne].
      * rewrite update_elem_ok by done. split; eauto.
      * rewrite Hoth, Hm, rf_seen0 by done. set_solver.
    + by rewrite Hout, rf_out0.
    + done.
Qed.

Lemma announce_opt_refines h c (ofl : option flow) s o :
  refines h s o → roomy o → (∀ fl, ofl = Some fl → flow_ok fl) →
  refines h (exec (announce_opt c ofl) s) (saw_opt (ring_full network_event_data (network_events s)) ofl o).
Proof.
  intros Hr Hroom Hok. destruct ofl as [fl|]; simpl; [|done].
  apply (announced_refines h c fl s); [done|done|by apply Hok|]. apply announce_run.
Qed.

(** ** Every hook refines the observer *)

Lemma refines_keys h s o (cpu tid : Z) :
  refines h s o → is_Some (percpu_peek (tcp_ctx s) cpu tid) → tid ∈ elements (dom (ob_accepting o)).
Proof.
  intros Hr [x Hx]. apply elem_of_elements, elem_of_dom.
  pose proof (rf_accepting _ _ _ Hr cpu tid) as Ha. rewrite Hx in Ha. simpl in Ha.
  destruct (ob_accepting o !! tid); [eauto|done].
Qed.

(** The element of a thread, written by one CPU. *)
Lemma refines_written h s o (cpu tid inum : Z) (t' : percpu_map tcp_ctx_def Z tcp_connect_ctx) :
  refines h s o → 0 ≤ inum < 2 ^ 64 →
  percpu_written cpu tid {| tc_sk := 0; tc_inum := inum |} (tcp_ctx s) t' →
  refines h (set_tcp_ctx t' s)
    (set_accepting (<[tid := write_slot cpu inum (ob_accepting o !! tid)]> (ob_accepting o)) o).
Proof.
  intros [? Hacc ? ? Hin] Hi (Hs&Ho&Hk). split; simpl; try done.
  - intros cpu' tid'. destruct (decide (tid' = tid)) as [->|Hne].
    + rewrite lookup_insert_eq. simpl. unfold write_slot. case_decide as Hc.
      * subst cpu'. by rewrite Hs.
      * rewrite Ho by done. simpl. f_equal. unfold percpu_other. specialize (Hacc cpu' tid).
        destruct (percpu_peek (tcp_ctx s) cpu' tid), (ob_accepting o !! tid); simpl in *;
          by simplify_eq.
    + rewrite lookup_insert_ne by done. by rewrite Hk.
  - intros tid' f cpu'. destruct (decide (tid' = tid)) as [->|Hne].
    + rewrite lookup_insert_eq. intros [= <-]. unfold write_slot. case_decide; [done|].
      destruct (ob_accepting o !! tid) as [f|] eqn:Hf; [by apply (Hin tid)|lia].
    + rewrite lookup_insert_ne by done. apply Hin.
Qed.

Lemma refines_entry h s o c (inum : Z) (t : percpu_map tcp_ctx_def Z tcp_connect_ctx) :
  refines h s o → roomy o → 0 ≤ inum < 2 ^ 64 → t = tcp_ctx s →
  hook_ctx c (λ cpu tid,
    refines h
      (set_tcp_ctx (snd (percpu_update_elem cpu tid {| tc_sk := 0; tc_inum := inum |} t)) s)
      (set_accepting (<[tid := write_slot cpu inum (ob_accepting o !! tid)]> (ob_accepting o)) o)).
Proof.
  intros Hr [_ Hroom] Hi ->. unfold hook_ctx.
  set (cpu := bpf_get_smp_processor_id c). set (tid := u32_of (bpf_get_current_pid_tgid c)).
  pose proof (percpu_update_room cpu tid {| tc_sk := 0; tc_inum := inum |} (tcp_ctx s)
    (elements (dom (ob_accepting o)))
    (λ cpu' k, refines_keys h s o cpu' k Hr)) as Hf.
  unfold percpu_update_faithful in Hf. rewrite <- size_dom in Hroom.
  specialize (Hf Hroom).
  destruct (percpu_update_elem cpu tid _ (tcp_ctx s)) as [r t']; simpl.
  destruct Hf as [_ Hw]. by apply refines_written.
Qed.

Lemma refines_exit h s o c (t : percpu_map tcp_ctx_def Z tcp_connect_ctx) :
  refines h s o →
  hook_ctx c (λ cpu tid,
    (∀ cpu' k, percpu_peek t cpu' k =
       if decide (k = tid ∧ is_Some (percpu_peek (tcp_ctx s) cpu tid)) then None
       else percpu_peek (tcp_ctx s) cpu' k) →
    refines h (set_tcp_ctx t s) (set_accepting (delete tid (ob_accepting o)) o)).
Proof.
  intros Hr. unfold hook_ctx.
  set (cpu := bpf_get_smp_processor_id c). set (tid := u32_of (bpf_get_current_pid_tgid c)).
  intros Ht. destruct Hr as [? Hacc ? ? Hin]. split; simpl; try done.
  - intros cpu' k. rewrite Ht. specialize (Hacc cpu tid) as Hat.
    destruct (decide (k = tid)) as [->|Hne].
    + rewrite lookup_delete_eq. case_decide as Hd; [done|].
      specialize (Hacc cpu' tid).
      destruct (percpu_peek (tcp_ctx s) cpu tid); [naive_solver|].
      by destruct (ob_accepting o !! tid), (percpu_peek (tcp_ctx s) cpu' tid).
    + rewrite lookup_delete_ne by done. rewrite decide_False by naive_solver. apply Hacc.
  - intros tid' f cpu'. rewrite lookup_delete. case_decide; [done|]. apply Hin.
Qed.

Lemma observe_eq h (d : bool) (hk : probe_hook) o :
  observe h d hk o =
  saw_opt d (hook_flow h hk o) (set_accepting (hook_accepting h hk (ob_accepting o)) o).
Proof.
  assert (set_accepting (ob_accepting o) o = o) as Ho by by destruct o.
  destruct hk as [c sk ? ?|c sk state|c sk|c sk]; simpl; rewrite ?Ho; try done.
  - unfold hook_ctx. by destruct (socket_tracked h c sk).
  - unfold hook_ctx. destruct (ob_accepting o !! _) eqn:Hl; simpl; [done|].
    by rewrite delete_id, Ho.
Qed.

(** The namespaces of the accepts in progress fit their member. *)
Definition slots_ok o : Prop := ∀ tid f cpu, ob_accepting o !! tid = Some f → 0 ≤ f cpu < 2 ^ 64.

Lemma refines_slots h s o : refines h s o → slots_ok o.
Proof. by intros []. Qed.

Lemma hook_flow_ok h o (hk : probe_hook) fl :
  slots_ok o → hook_flow h hk o = Some fl → flow_ok fl.
Proof.
  intros Hr. destruct hk as [c sk ? ?|c sk state|c sk|c sk]; simpl.
  - apply udp_flow_ok.
  - apply tcp_flow_ok.
  - done.
  - unfold hook_ctx. destruct (ob_accepting o !! _) as [f|] eqn:Hf; simpl; [|done].
    apply accept_flow_ok. by eapply Hr.
Qed.

(** Every hook is the gate of its source, which touches nothing but the accept table and the order
    of the LRU lists, followed by the announcement of the flow it observed. *)
Lemma run_hook_announce h s o (hk : probe_hook) :
  refines h s o → (∀ c sk, hk = AcceptEntry c sk → roomy o) →
  ∃ s1,
    exec (run_hook hk) s = exec (announce_opt (hook_kctx hk) (hook_flow h hk o)) s1 ∧
    connections s1 = connections s ∧ network_events s1 = network_events s ∧
    refines h s1 (set_accepting (hook_accepting h hk (ob_accepting o)) o).
Proof.
  intros Hr Hroom. unfold exec.
  assert (set_accepting (ob_accepting o) o = o) as Ho by by destruct o.
  destruct hk as [c sk msg len|c sk state|c sk|c sk]; simpl; rewrite ?Ho.
  - destruct (trace_udp_send_announce c sk msg len s) as (h'&Hh&->).
    rewrite (udp_flow_equiv _ h) by apply (rf_helper _ _ _ Hr).
    exists (set_np_helper h' s). split_and!; [done..|]. by apply refines_helper.
  - destruct (trace_tcp_state_change_announce c sk state s) as (h'&Hh&->).
    rewrite (tcp_flow_equiv _ h) by apply (rf_helper _ _ _ Hr).
    exists (set_np_helper h' s). split_and!; [done..|]. by apply refines_helper.
  - destruct (tcp_accept_entry_run c sk s) as (h1&Hh1&->). simpl.
    rewrite (socket_tracked_equiv _ h) by apply (rf_helper _ _ _ Hr).
    eexists. split; [reflexivity|]. unfold hook_ctx. destruct (socket_tracked h c sk).
    + split_and!; [done..|].
      apply (refines_entry h (set_np_helper h1 s) o c); [by apply refines_helper|by eapply Hroom| |done].
      apply sock_inum_range.
    + rewrite Ho. split_and!; [done..|]. by apply refines_helper.
  - destruct (tcp_accept_exit_announce c sk s) as (h'&t'&Hh&Ht&->).
    exists (set_tcp_ctx t' (set_np_helper h' s)). split_and!; [|done|done|].
    + unfold hook_ctx. set (cpu := bpf_get_smp_processor_id c).
      set (tid := u32_of (bpf_get_current_pid_tgid c)).
      pose proof (rf_accepting _ _ _ Hr cpu tid) as Hacc.
      destruct (percpu_peek (tcp_ctx s) cpu tid), (ob_accepting o !! tid); simpl in *; try done.
      injection Hacc as ->. by rewrite (accept_flow_equiv _ h) by apply (rf_helper _ _ _ Hr).
    + by apply (refines_exit h (set_np_helper h' s) o c t'); [apply refines_helper|].
Qed.

Lemma hook_flow_roomy h o (hk : probe_hook) fl :
  hook_flow h hk o = Some fl → roomy o →
  roomy (set_accepting (hook_accepting h hk (ob_accepting o)) o).
Proof.
  intros Hfl [Hr1 Hr2]. split; [done|]. destruct hk; simpl; try done.
  unfold hook_ctx. rewrite map_size_delete. simpl in Hr2. case_match; simpl; lia.
Qed.

Lemma hook_refines_observe h s o (hk : probe_hook) :
  refines h s o → roomy o →
  refines h (exec (run_hook hk) s) (observe h (ring_full network_event_data (network_events s)) hk o).
Proof.
  intros Hr Hroom. destruct (run_hook_announce h s o hk Hr (λ _ _ _, Hroom)) as (s1&->&_&Hn&Hr1).
  rewrite observe_eq. destruct (hook_flow h hk o) as [fl|] eqn:Hfl; [|done].
  rewrite <- Hn. apply (announce_opt_refines h _ (Some fl)); [done| |].
  - exact (hook_flow_roomy h o hk fl Hfl Hroom).
  - intros ? [= <-]. exact (hook_flow_ok h o hk fl (refines_slots _ _ _ Hr) Hfl).
Qed.

(** What a hook does to the record of a flow. *)
Definition record_after (now : Z) (old : option conn_state) : conn_state :=
  match old with Some st => seen_again now st | None => new_conn now end.

Lemma hook_connections h s o (hk : probe_hook) (k : conn_key) :
  refines h s o → roomy o →
  bpf_map_peek (connections (exec (run_hook hk) s)) k =
  match hook_flow h hk o with
  | Some fl =>
      if decide (k = fl_key fl)
      then Some (record_after (bpf_ktime_get_ns (hook_kctx hk)) (bpf_map_peek (connections s) k))
      else bpf_map_peek (connections s) k
  | None => bpf_map_peek (connections s) k
  end.
Proof.
  intros Hr Hroom. destruct (run_hook_announce h s o hk Hr (λ _ _ _, Hroom)) as (s1&->&Hc&_&Hr1).
  destruct (hook_flow h hk o) as [fl|] eqn:Hfl; simpl; [|by rewrite <- Hc].
  destruct (announce_run (hook_kctx hk) fl s1) as [_ Ha]. unfold exec. rewrite <- Hc.
  destruct (bpf_map_peek (connections s1) (fl_key fl)) as [st|] eqn:Hst.
  - apply (an_known _ _ _ _ Ha) in Hst as Hk. destruct Hk as [_ ->].
    case_decide as Hd; [|done]. subst k. by rewrite Hst.
  - apply (an_fresh _ _ _ _ Ha) in Hst as Hk. destruct Hk as [_ (m&Hm&->)].
    destruct (roomy_connections h s1 _ fl (new_conn (bpf_ktime_get_ns (hook_kctx hk))) m Hr1)
      as [H0' Hoth]; [exact (hook_flow_roomy h o hk fl Hfl Hroom)|done|].
    case_decide as Hd; [subst k; rewrite Hst; by apply update_elem_ok|].
    by rewrite Hoth, Hm.
Qed.

(** ** Runs *)

Lemma loaded_refines s : loaded s → refines (np_helper s) s initial_observer.
Proof.
  intros (Hc&Ht&Hr). split; simpl.
  - done.
  - intros. by rewrite Ht, lookup_empty.
  - intros k. rewrite Hc. split; [by intros []|set_solver].
  - unfold reported. by rewrite Hr.
  - intros ???. by rewrite lookup_empty.
Qed.

(** What is tracked does not depend on what the ring buffer refuses. *)
Definition same_tracking o o' : Prop :=
  ob_accepting o = ob_accepting o' ∧ ob_seen o = ob_seen o'.

Lemma saw_opt_tracking (d d' : bool) (fl : option flow) o o' :
  same_tracking o o' → same_tracking (saw_opt d fl o) (saw_opt d' fl o').
Proof.
  intros [Ha Hs]. destruct fl as [fl|]; simpl; [|done]. unfold saw. rewrite <- Hs.
  case_decide; split; simpl; by rewrite ?Ha, ?Hs.
Qed.

Lemma observe_tracking h (d d' : bool) (hk : probe_hook) o o' :
  same_tracking o o' → same_tracking (observe h d hk o) (observe h d' hk o').
Proof.
  intros [Ha Hs]. rewrite !observe_eq.
  replace (hook_flow h hk o') with (hook_flow h hk o) by (destruct hk; simpl; by rewrite ?Ha).
  apply saw_opt_tracking. split; simpl; by rewrite ?Ha.
Qed.

Lemma fits_tracking h (hks : list probe_hook) o o' :
  same_tracking o o' → fits h hks o → fits h hks o'.
Proof.
  revert o o'. induction hks as [|hk hks IH]; intros o o' Ho; simpl; [done|].
  intros [[Hr1 Hr2] Hf]. pose proof Ho as [Ha Hs]. split.
  - split; [by rewrite <- Hs|by rewrite <- Ha].
  - eapply IH; [|done]. by apply observe_tracking.
Qed.

Lemma run_refines_observe h s o (hks : list probe_hook) :
  refines h s o → fits h hks o →
  ∃ ds, length ds = length hks ∧ refines h (run_hooks hks s) (observe_with h ds hks o).
Proof.
  revert s o. induction hks as [|hk hks IH]; intros s o Hr Hf; simpl.
  - by exists [].
  - destruct Hf as [Hroom Hf]. apply (hook_refines_observe h s o hk Hr) in Hroom as Hr'.
    destruct (IH _ _ Hr') as (ds&Hl&Hds).
    { eapply fits_tracking; [|done]. by apply observe_tracking. }
    exists (ring_full network_event_data (network_events s) :: ds). split; [simpl; lia|done].
Qed.

(** ** Invariants of the observer *)

(** Every event sent is of a flow seen, and no two of the same flow. *)
Definition observer_ok o : Prop :=
  NoDup (event_key <$> ob_out o) ∧ ∀ k, k ∈ event_key <$> ob_out o → k ∈ ob_seen o.

Lemma initial_observer_ok : observer_ok initial_observer.
Proof. split; simpl; [constructor|]. by intros k ?%not_elem_of_nil. Qed.

Lemma saw_ok (d : bool) fl o : flow_ok fl → observer_ok o → observer_ok (saw d fl o).
Proof.
  intros Hfl [Hn Hs]. unfold saw. case_decide as Hd; [done|].
  destruct d; split; simpl; rewrite ?app_nil_r, ?fmap_app.
  - done.
  - intros k Hk%Hs. set_solver.
  - apply list.NoDup_app. simpl. rewrite (event_key_of fl Hfl). split_and!; [done| |apply list.NoDup_singleton].
    intros k Hk%Hs ->%list_elem_of_singleton. done.
  - intros k. simpl. rewrite (event_key_of fl Hfl), elem_of_app, list_elem_of_singleton.
    intros [Hk%Hs| ->]; set_solver.
Qed.

Lemma observe_ok h s o (d : bool) (hk : probe_hook) :
  refines h s o → observer_ok o → observer_ok (observe h d hk o).
Proof.
  intros Hr Ho. rewrite observe_eq. destruct (hook_flow h hk o) as [fl|] eqn:Hfl; simpl; [|done].
  apply saw_ok; [|done]. eapply hook_flow_ok; [by eapply refines_slots|done].
Qed.

End NetworkProbeSpec.
