(* ===== verification/NetworkProbeThms.v ===== *)
(** * Theorems about the connection probe *)

From S2P Require Import Prelude CLayout CLayoutFacts BpfEnv LruKernel RingBuffer VmlinuxBase VmlinuxSock Helper.
From S2P Require Import NetworkProbe NetworkProbeFacts NetworkProbeSpec Fixtures.

Section Helpers.
Context `{BpfKernelLaws}.
Implicit Types (s : probe_state) (h : helper_maps) (c : kctx) (fl : flow) (o : observer).

(** ** Ring buffers with room *)

(** A hook sends one event or leaves the ring buffer as it was. *)
Lemma announce_opt_ring c (ofl : option flow) s :
  network_events (exec (announce_opt c ofl) s) = network_events s ∨
  ∃ fl, network_events (exec (announce_opt c ofl) s) = try_send fl (network_events s).
Proof.
  destruct ofl as [fl|]; simpl; [|by left].
  destruct (announce_run c fl s) as [_ Ha].
  destruct (bpf_map_peek (connections s) (fl_key fl)) eqn:Hst.
  - left. by apply (an_known _ _ _ _ Ha) in Hst as [? _].
  - right. exists fl. by apply (an_fresh _ _ _ _ Ha) in Hst as [? _].
Qed.

Lemma run_hook_ring (hk : probe_hook) s :
  network_events (exec (run_hook hk) s) = network_events s ∨
  ∃ fl, network_events (exec (run_hook hk) s) = try_send fl (network_events s).
Proof.
  unfold exec. destruct hk as [c sk msg len|c sk state|c sk|c sk]; simpl.
  - destruct (trace_udp_send_announce c sk msg len s) as (h'&_&->).
    apply (announce_opt_ring c _ (set_np_helper h' s)).
  - destruct (trace_tcp_state_change_announce c sk state s) as (h'&_&->).
    apply (announce_opt_ring c _ (set_np_helper h' s)).
  - destruct (tcp_accept_entry_run c sk s) as (h'&_&->). left. simpl. by case_match.
  - destruct (tcp_accept_exit_announce c sk s) as (h'&t'&_&_&->).
    apply (announce_opt_ring c _ (set_tcp_ctx t' (set_np_helper h' s))).
Qed.

Lemma run_hook_accepts (hk : probe_hook) s (n : nat) :
  ring_accepts network_event_data (S n) (network_events s) → ring_accepts network_event_data n (network_events (exec (run_hook hk) s)).
Proof.
  intros Ha. destruct (run_hook_ring hk s) as [-> | [fl ->]].
  - by apply ring_accepts_S.
  - apply ring_accepts_send; [done| |done]. apply fill_flow_object.
Qed.

Lemma run_refines_observe_all h s o (hks : list probe_hook) :
  refines h s o → fits h hks o → ring_accepts network_event_data (length hks) (network_events s) →
  refines h (run_hooks hks s) (observe_all h hks o).
Proof.
  revert s o. induction hks as [|hk hks IH]; intros s o Hr Hf Ha; simpl in *; [done|].
  destruct Hf as [Hroom Hf]. pose proof (hook_refines_observe h s o hk Hr Hroom) as Hr'.
  assert (ring_full network_event_data (network_events s) = false) as Hnf by by eapply ring_accepts_not_full.
  rewrite Hnf in Hr'. apply IH; [done..|]. apply (run_hook_accepts hk s). exact Ha.
Qed.

(** An invariant of the observer holds along the run that the probe refines. *)
Lemma run_refines_invariant (P : observer → Prop) h s o (hks : list probe_hook) :
  (∀ s o d hk, refines h s o → P o → P (observe h d hk o)) →
  refines h s o → fits h hks o → P o →
  ∃ o', refines h (run_hooks hks s) o' ∧ P o'.
Proof.
  intros HP. revert s o. induction hks as [|hk hks IH]; intros s o Hr Hf Ho; simpl in *.
  - eauto.
  - destruct Hf as [Hroom Hf]. eapply IH.
    + by apply (hook_refines_observe h s o hk Hr).
    + eapply fits_tracking; [|done]. by apply observe_tracking.
    + by eapply HP.
Qed.

(** The keys of what has been sent only grow along a run that sends nothing of [k]. *)
Definition never_sent (k : conn_key) o : Prop :=
  k ∈ ob_seen o ∧ k ∉ event_key <$> ob_out o.

Lemma observe_never_sent (k : conn_key) h s o (d : bool) (hk : probe_hook) :
  refines h s o → never_sent k o → never_sent k (observe h d hk o).
Proof.
  intros Hr [Hs Ho]. rewrite observe_eq.
  destruct (hook_flow h hk o) as [fl|] eqn:Hfl; simpl; [|done].
  pose proof (hook_flow_ok h o hk fl (refines_slots _ _ _ Hr) Hfl) as Hok.
  unfold saw. simpl. case_decide as Hd; [done|]. split; simpl; [set_solver|].
  destruct d; rewrite ?app_nil_r, ?fmap_app; [done|]. simpl.
  rewrite (event_key_of fl Hok), elem_of_app, list_elem_of_singleton. naive_solver.
Qed.

(** Along the run that drops nothing, the keys sent are exactly the keys seen. *)
Definition all_sent o : Prop := ∀ k, k ∈ ob_seen o → k ∈ event_key <$> ob_out o.

Lemma observe_all_sent h o (hk : probe_hook) :
  slots_ok o → all_sent o → all_sent (observe h false hk o).
Proof.
  intros Hr Ho. rewrite observe_eq.
  destruct (hook_flow h hk o) as [fl|] eqn:Hfl; simpl; [|done].
  pose proof (hook_flow_ok h o hk fl Hr Hfl) as Hok.
  unfold saw. simpl. case_decide as Hd; [done|]. intros k. simpl.
  rewrite fmap_app, elem_of_app. simpl. rewrite (event_key_of fl Hok), list_elem_of_singleton.
  rewrite elem_of_union, elem_of_singleton. intros [->|Hk]; [by right|left; by apply Ho].
Qed.

Lemma run_all_sent h s o (hks : list probe_hook) :
  refines h s o → fits h hks o → ring_accepts network_event_data (length hks) (network_events s) → all_sent o →
  refines h (run_hooks hks s) (observe_all h hks o) ∧ all_sent (observe_all h hks o).
Proof.
  revert s o. induction hks as [|hk hks IH]; intros s o Hr Hf Ha Ho; simpl in *; [done|].
  destruct Hf as [Hroom Hf]. pose proof (hook_refines_observe h s o hk Hr Hroom) as Hr'.
  rewrite (ring_accepts_not_full _ _ _ Ha) in Hr'. apply IH; [done|done| |].
  - by apply (run_hook_accepts hk s).
  - apply observe_all_sent; [by eapply refines_slots|done].
Qed.

Lemma observe_all_app h (hks hks' : list probe_hook) o :
  observe_all h (hks ++ hks') o = observe_all h hks' (observe_all h hks o).
Proof. apply foldl_app. Qed.

Lemma observe_seen_mono h (hks : list probe_hook) o :
  ob_seen o ⊆ ob_seen (observe_all h hks o).
Proof.
  revert o. induction hks as [|hk hks IH]; intros o; simpl; [done|].
  etrans; [|apply IH]. rewrite observe_eq. destruct (hook_flow h hk o); simpl; [|done].
  unfold saw. simpl. case_decide; simpl; set_solver.
Qed.

Lemma observe_sees_flow h (d : bool) (hk : probe_hook) fl o :
  hook_flow h hk o = Some fl → fl_key fl ∈ ob_seen (observe h d hk o).
Proof.
  intros Hfl. rewrite observe_eq, Hfl. simpl. unfold saw. case_decide; simpl; [done|set_solver].
Qed.

(** ** Records along a run *)

(** What the hooks of a run observe: the flows, each with the time of the observation. *)
Fixpoint observations h (hks : list probe_hook) o : list (conn_key * Z) :=
  match hks with
  | [] => []
  | hk :: hks =>
      match hook_flow h hk o with
      | Some fl => [(fl_key fl, bpf_ktime_get_ns (hook_kctx hk))]
      | None => []
      end ++ observations h hks (observe h false hk o)
  end.

Definition times_of (k : conn_key) (l : list (conn_key * Z)) : list Z :=
  snd <$> filter (λ p, fst p = k) l.

(** The record of a flow observed at these times. *)
Definition conn_summary (times : list Z) : option conn_state :=
  match times with
  | [] => None
  | t :: _ =>
      Some {| first_seen := t; last_seen := default t (last times);
              event_count := u32_of (Z.of_nat (length times)) |}
  end.

Lemma conn_summary_snoc (times : list Z) (now : Z) :
  conn_summary (times ++ [now]) = Some (record_after now (conn_summary times)).
Proof.
  destruct times as [|t times]; [done|]. simpl. unfold seen_again. simpl.
  rewrite app_comm_cons, last_snoc. simpl. do 2 f_equal.
  rewrite length_app. simpl. unfold u32_succ, u32_of, wrap.
  rewrite Zplus_mod_idemp_l. f_equal. lia.
Qed.

Lemma times_of_app (k : conn_key) (l l' : list (conn_key * Z)) :
  times_of k (l ++ l') = times_of k l ++ times_of k l'.
Proof. unfold times_of. by rewrite filter_app, fmap_app. Qed.

Lemma times_of_one (k k' : conn_key) (t : Z) :
  times_of k [(k', t)] = if decide (k' = k) then [t] else [].
Proof. unfold times_of. rewrite filter_cons. simpl. by case_decide. Qed.

Lemma observations_tracking h (hks : list probe_hook) o o' :
  same_tracking o o' → observations h hks o = observations h hks o'.
Proof.
  revert o o'. induction hks as [|hk hks IH]; intros o o' Ho; simpl; [done|]. f_equal.
  - destruct Ho as [Ha _]. destruct hk; simpl; by rewrite ?Ha.
  - apply IH. by apply observe_tracking.
Qed.

Lemma run_hooks_records h s o (hks : list probe_hook) (past : list (conn_key * Z)) :
  refines h s o → fits h hks o →
  (∀ k, bpf_map_peek (connections s) k = conn_summary (times_of k past)) →
  ∀ k, bpf_map_peek (connections (run_hooks hks s)) k =
       conn_summary (times_of k (past ++ observations h hks o)).
Proof.
  revert s o past. induction hks as [|hk hks IH]; intros s o past Hr Hf Hp k; simpl in *.
  { by rewrite app_nil_r. }
  destruct Hf as [Hroom Hf]. pose proof (hook_refines_observe h s o hk Hr Hroom) as Hr'.
  set (d := ring_full network_event_data (network_events s)) in *.
  assert (same_tracking (observe h d hk o) (observe h false hk o)) as Hst
    by by apply observe_tracking.
  rewrite (IH _ _ (past ++ match hook_flow h hk o with
                           | Some fl => [(fl_key fl, bpf_ktime_get_ns (hook_kctx hk))]
                           | None => [] end) Hr').
  - by rewrite <- app_assoc, (observations_tracking h hks _ _ Hst).
  - eapply fits_tracking; [|done]. by split; symmetry; apply Hst.
  - intros k'. rewrite (hook_connections h s o hk k' Hr Hroom), times_of_app.
    destruct (hook_flow h hk o) as [fl|]; [|by rewrite app_nil_r].
    rewrite times_of_one. repeat case_decide; simplify_eq; rewrite ?app_nil_r; try done.
    by rewrite conn_summary_snoc, <- Hp.
Qed.

(** ** Soundness of the events *)

(** A namespace that user space registered, or, for an accept that returned on another CPU than
    the one it was called on, no namespace. *)
Definition inum_sound h (e : network_event) : Prop :=
  tracked h (ne_inum e) = true ∨ ne_kind e = 2 ∧ ne_inum e = 0.

Definition event_sound h (e : network_event) : Prop :=
  ne_saddr e ≠ ne_daddr e ∧
  uninteresting (bpf_map_peek (ignore_ips h)) (ne_saddr e) = false ∧
  uninteresting (bpf_map_peek (ignore_ips h)) (ne_daddr e) = false ∧
  (ne_kind e = 1 ∨ ne_kind e = 2 ∨ ne_kind e = 3) ∧
  inum_sound h e.

Definition observer_sound h o : Prop :=
  Forall (event_sound h) (ob_out o) ∧
  ∀ tid f cpu, ob_accepting o !! tid = Some f → tracked h (f cpu) = true ∨ f cpu = 0.

Lemma skc_flow_sound h (inum protocol direction : Z) (skc : list byte) :
  skc_filtered h skc = false →
  (protocol = 2 ∧ direction = 1 ∨ protocol = 1 ∧ (direction = 1 ∨ direction = 2)) →
  (tracked h inum = true ∨ protocol = 1 ∧ direction = 2 ∧ inum = 0) →
  event_sound h (event_of (skc_flow inum protocol direction skc)).
Proof.
  unfold skc_filtered, filtered, filter_ref, event_sound, event_of, inum_sound, kind_of. simpl.
  intros [[Hne%Z.eqb_neq Hs]%orb_false_iff Hd]%orb_false_iff Hpd Hi. split_and!; try done.
  - destruct Hpd as [[-> ->]|[-> Hd']]; simpl; tauto.
  - destruct Hi as [|(->&->&->)]; [by left|by right].
Qed.

Lemma hook_flow_sound h o (hk : probe_hook) fl :
  observer_sound h o → hook_flow h hk o = Some fl → event_sound h (event_of fl).
Proof.
  intros [_ Ha]. destruct hk as [c sk ? ?|c sk state|c sk|c sk]; simpl.
  - unfold udp_flow, socket_tracked. case_match eqn:Hg; [|done]. intros [= <-].
    rewrite !andb_true_iff, !negb_true_iff in Hg. apply skc_flow_sound; tauto.
  - unfold tcp_flow, socket_tracked. case_match eqn:Hg; [|done]. intros [= <-].
    rewrite !andb_true_iff, !negb_true_iff in Hg. apply skc_flow_sound; [tauto| |tauto].
    right. split; [done|]. case_match; auto.
  - done.
  - unfold hook_ctx, accept_flow. destruct (ob_accepting o !! _) as [f|] eqn:Hf; simpl; [|done].
    case_match eqn:Hg; [|done]. intros [= <-].
    rewrite !andb_true_iff, !negb_true_iff in Hg. destruct Hg as [_ Hg].
    apply skc_flow_sound; [done|by right; auto|].
    destruct (Ha _ _ (bpf_get_smp_processor_id c) Hf); auto.
Qed.

Lemma observe_sound h o (d : bool) (hk : probe_hook) :
  observer_sound h o → observer_sound h (observe h d hk o).
Proof.
  intros Ho. pose proof Ho as [Hout Ha]. rewrite observe_eq. split.
  - destruct (hook_flow h hk o) as [fl|] eqn:Hfl; simpl; [|done]. unfold saw. simpl.
    case_decide; [done|]. simpl. apply Forall_app. split; [done|]. destruct d; [constructor|].
    apply Forall_singleton. by eapply hook_flow_sound.
  - assert (ob_accepting (saw_opt d (hook_flow h hk o)
              (set_accepting (hook_accepting h hk (ob_accepting o)) o)) =
            hook_accepting h hk (ob_accepting o)) as ->.
    { destruct (hook_flow h hk o); simpl; [|done]. unfold saw. by case_decide. }
    intros tid f cpu. destruct hk as [| |c sk|c sk]; simpl; [apply Ha|apply Ha|..];
      unfold hook_ctx.
    + destruct (socket_tracked h c sk) eqn:Ht; [|apply Ha].
      unfold socket_tracked in Ht. apply andb_true_iff in Ht as [_ Ht].
      rewrite lookup_insert. case_decide; [|apply Ha]. intros [= <-]. unfold write_slot.
      case_decide; [by left|]. case_match eqn:Hl; [by eapply Ha|by right].
    + rewrite lookup_delete. case_decide; [done|]. apply Ha.
Qed.

Lemma saw_new (d : bool) fl o :
  fl_key fl ∉ ob_seen o →
  saw d fl o = {| ob_accepting := ob_accepting o; ob_seen := {[fl_key fl]} ∪ ob_seen o;
                  ob_out := ob_out o ++ (if d then [] else [event_of fl]) |}.
Proof. intros Hn. unfold saw. by rewrite decide_False. Qed.

Lemma saw_known (d : bool) fl o : fl_key fl ∈ ob_seen o → saw d fl o = o.
Proof. intros Hn. unfold saw. by rewrite decide_True. Qed.

(** User space may read records at any time. *)
Lemma refines_ring h s o (rb : ringbuf network_events_size) :
  refines h s o → ringbuf_records rb = ringbuf_records (network_events s) →
  refines h (set_network_events rb s) o.
Proof.
  intros [] Hrb. split; simpl; try done. unfold reported in *. simpl. by rewrite Hrb.
Qed.

(** ** One accept, from entry to return *)

Lemma roomy_initial : roomy initial_observer.
Proof. split; cbn -[size]; rewrite ?size_empty, ?map_size_empty; done. Qed.

Lemma roomy_entry h (d : bool) c (sk : Z) :
  roomy (observe h d (AcceptEntry c sk) initial_observer).
Proof.
  simpl. unfold hook_ctx. destruct (socket_tracked h c sk); [|apply roomy_initial].
  split; cbn -[size]; [by rewrite size_empty|].
  by rewrite map_size_insert, lookup_empty, map_size_empty.
Qed.

Lemma accept_entry_ring c (sk : Z) s :
  network_events (exec (run_hook (AcceptEntry c sk)) s) = network_events s.
Proof.
  unfold exec. simpl. destruct (tcp_accept_entry_run c sk s) as (?&_&->). simpl. by case_match.
Qed.

(** The events of an accept called on one CPU and returning on any: the namespace is the one that
    the slot of the second CPU holds. *)
Lemma accept_pair_reported s c c' (sk new_sk : Z) fl :
  let inum := if decide (bpf_get_smp_processor_id c' = bpf_get_smp_processor_id c)
              then sock_inum c sk else 0 in
  loaded s → socket_tracked (np_helper s) c sk = true →
  bpf_get_current_pid_tgid c' = bpf_get_current_pid_tgid c →
  accept_flow (np_helper s) c' inum new_sk = Some fl →
  ring_full network_event_data (network_events s) = false →
  reported (run_hooks [AcceptEntry c sk; AcceptExit c' new_sk] s) = [event_of fl] ∧
  ne_inum (event_of fl) = inum.
Proof.
  intros inum Hl Ht Hp Hfl Hnf. pose proof (loaded_refines s Hl) as Hr.
  set (h := np_helper s) in *.
  pose proof (hook_refines_observe h s _ (AcceptEntry c sk) Hr roomy_initial) as Hr1.
  pose proof (hook_refines_observe h _ _ (AcceptExit c' new_sk) Hr1 (roomy_entry h _ c sk)) as Hr2.
  rewrite accept_entry_ring, Hnf in Hr2. simpl in Hr2. unfold hook_ctx in Hr2.
  rewrite Ht, Hp in Hr2. simpl in Hr2. rewrite lookup_insert_eq in Hr2. split.
  - simpl. rewrite (rf_out _ _ _ Hr2). unfold write_slot at 1. rewrite lookup_empty.
    fold inum. rewrite Hfl. simpl. unfold saw. simpl. by rewrite decide_False.
  - unfold accept_flow in Hfl. case_match; [|done]. by injection Hfl as <-.
Qed.

(** An accept that stays on its CPU, seen by the observer. *)
Lemma observe_accept_pair h c c' (sk new_sk : Z) o :
  socket_tracked h c sk = true →
  bpf_get_current_pid_tgid c' = bpf_get_current_pid_tgid c →
  bpf_get_smp_processor_id c' = bpf_get_smp_processor_id c →
  observe h false (AcceptExit c' new_sk) (observe h false (AcceptEntry c sk) o) =
  saw_opt false (accept_flow h c' (sock_inum c sk) new_sk)
    (set_accepting (delete (u32_of (bpf_get_current_pid_tgid c)) (ob_accepting o)) o).
Proof.
  intros Ht Hp Hc. simpl. unfold hook_ctx. rewrite Ht, Hp, Hc. simpl.
  rewrite lookup_insert_eq. unfold write_slot at 1. rewrite decide_True by done.
  by rewrite delete_insert_eq.
Qed.

(** A short run fits the maps. *)
Lemma observe_size h (d : bool) (hk : probe_hook) o :
  (size (ob_seen (observe h d hk o)) ≤ S (size (ob_seen o)))%nat ∧
  (size (ob_accepting (observe h d hk o)) ≤ S (size (ob_accepting o)))%nat.
Proof.
  rewrite observe_eq. split.
  - destruct (hook_flow h hk o) as [fl|]; simpl; [|lia]. unfold saw. simpl. case_decide; simpl; [lia|].
    rewrite size_union, size_singleton by set_solver. lia.
  - transitivity (size (hook_accepting h hk (ob_accepting o))).
    { destruct (hook_flow h hk o); simpl; [|done]. unfold saw. by case_decide. }
    destruct hk; simpl; try lia; unfold hook_ctx.
    + case_match; [|lia]. rewrite map_size_insert. case_match; simpl; lia.
    + rewrite map_size_delete. case_match; simpl; lia.
Qed.

Lemma fits_short h (hks : list probe_hook) o :
  Z.of_nat (length hks + size (ob_seen o)) ≤ 10240 →
  Z.of_nat (length hks + size (ob_accepting o)) ≤ 10240 → fits h hks o.
Proof.
  revert o. induction hks as [|hk hks IH]; intros o Hs Ha; [done|]. split.
  - unfold roomy. change (max_entries connections_def) with 65536.
    change (max_entries tcp_ctx_def) with 10240. simpl length in *. lia.
  - destruct (observe_size h false hk o). simpl length in *. apply IH; lia.
Qed.

Lemma fits_few h (hks : list probe_hook) :
  Z.of_nat (length hks) ≤ 10240 → fits h hks initial_observer.
Proof.
  intros Hl. apply fits_short; simpl ob_seen; simpl ob_accepting;
    rewrite ?size_empty, ?map_size_empty; lia.
Qed.

End Helpers.

(** ** Theorems *)

Section Theorems.
Context `{BpfKernelLaws}.
Implicit Types (s : probe_state) (h : helper_maps) (c : kctx) (fl : flow) (o : observer).

(** C1: [network_probe.bpf.c] refines its specification.  From a state that represents an observer,
    any sequence of hook invocations leads to a state that represents the observer after the same
    invocations, where the ring buffer may have refused some of the events, as long as the flows and
    accepts tracked fit the maps. *)
Theorem probe_refines_observer h s o (hks : list probe_hook) :
  refines h s o → fits h hks o →
  ∃ dropped, length dropped = length hks ∧
    refines h (run_hooks hks s) (observe_with h dropped hks o).
Proof. apply run_refines_observe. Qed.

(** C5: exact reporting.  Loaded with nothing tracked, while the ring buffer has room, the probe
    sends to user space exactly the events of the specification, in order: one per distinct flow,
    at its first sight.  The hooks run one at a time, and the flows and accepts tracked fit the maps, so
    that nothing is evicted. *)
Theorem probe_reports_exactly s (hks : list probe_hook) :
  loaded s → fits (np_helper s) hks initial_observer →
  ring_accepts network_event_data (length hks) (network_events s) →
  reported (run_hooks hks s) = ob_out (observe_all (np_helper s) hks initial_observer).
Proof.
  intros Hl Hf Ha. eapply rf_out, run_refines_observe_all; [by apply loaded_refines|done|done].
Qed.

(** C6: no duplicates.  Even when the ring buffer refuses events, no two events sent since the
    object was loaded are about the same flow, as long as the flows and accepts tracked fit the maps and
    the hooks run one at a time.  A flow that is evicted can be reported again, and so can one that two
    processors see at the same time. *)
Theorem probe_never_repeats s (hks : list probe_hook) :
  loaded s → fits (np_helper s) hks initial_observer →
  NoDup (event_key <$> reported (run_hooks hks s)).
Proof.
  intros Hl Hf.
  destruct (run_refines_invariant observer_ok (np_helper s) s initial_observer hks)
    as (o'&Hr&[Hn _]).
  - intros. by eapply observe_ok.
  - by apply loaded_refines.
  - done.
  - apply initial_observer_ok.
  - by rewrite (rf_out _ _ _ Hr).
Qed.

(** completeness.  While the ring buffer has room, every flow that some hook of the run
    observes is among the flows reported at its end. *)
Theorem probe_reports_every_flow s (pre : list probe_hook) (hk : probe_hook)
    (post : list probe_hook) fl :
  loaded s → fits (np_helper s) (pre ++ hk :: post) initial_observer →
  ring_accepts network_event_data (length (pre ++ hk :: post)) (network_events s) →
  hook_flow (np_helper s) hk (observe_all (np_helper s) pre initial_observer) = Some fl →
  fl_key fl ∈ event_key <$> reported (run_hooks (pre ++ hk :: post) s).
Proof.
  intros Hl Hf Ha Hfl.
  destruct (run_all_sent (np_helper s) s initial_observer (pre ++ hk :: post)) as [Hr Hs];
    [by apply loaded_refines|done|done| |].
  { intros k. set_solver. }
  rewrite (rf_out _ _ _ Hr). apply Hs. rewrite observe_all_app. simpl.
  apply observe_seen_mono. by apply observe_sees_flow.
Qed.

(** a refused event is lost.  The flow is recorded in [connections] before the ring buffer is
    asked for room, so a flow first seen while the ring buffer is full is never reported for as long
    as its record stays in the map, even if user space empties the ring buffer right afterwards. *)
Theorem refused_flow_is_never_reported h s o (hk : probe_hook) fl
    (rb : ringbuf network_events_size) (hks : list probe_hook) :
  let s' := exec (run_hook hk) s in
  refines h s o → observer_ok o → fits h (hk :: hks) o →
  hook_flow h hk o = Some fl → fl_key fl ∉ ob_seen o →
  ring_full network_event_data (network_events s) = true →
  ringbuf_records rb = ringbuf_records (network_events s') →
  fl_key fl ∉ event_key <$> reported (run_hooks hks (set_network_events rb s')).
Proof.
  intros s' Hr [_ Hok] [Hroom Hf] Hfl Hnew Hfull Hrb.
  pose proof (hook_refines_observe h s o hk Hr Hroom) as Hr'. rewrite Hfull in Hr'.
  destruct (run_refines_invariant (never_sent (fl_key fl)) h (set_network_events rb s')
              (observe h true hk o) hks) as (o'&Hr''&[_ Hno]).
  - intros. by eapply observe_never_sent.
  - by apply refines_ring.
  - eapply fits_tracking; [|done]. by apply observe_tracking.
  - split; [by apply observe_sees_flow|]. rewrite observe_eq, Hfl. simpl.
    unfold saw. simpl. rewrite decide_False by done. simpl. rewrite app_nil_r. naive_solver.
  - by rewrite (rf_out _ _ _ Hr'').
Qed.

(** soundness of the events.  Every event sent is between two distinct addresses, neither of
    them loopback, unset or ignored; its kind is one of the three that user space knows; and its
    namespace is one that user space registered, or 0 for an accept that changed CPU. *)
Theorem probe_events_are_sound s (hks : list probe_hook) (e : network_event) :
  loaded s → fits (np_helper s) hks initial_observer →
  e ∈ reported (run_hooks hks s) → event_sound (np_helper s) e.
Proof.
  intros Hl Hf He.
  destruct (run_refines_invariant (observer_sound (np_helper s)) (np_helper s) s
              initial_observer hks) as (o'&Hr&[Ho _]).
  - intros. by apply observe_sound.
  - by apply loaded_refines.
  - done.
  - split; [constructor|]. intros ???. simpl. by rewrite lookup_empty.
  - rewrite (rf_out _ _ _ Hr) in He. by eapply Forall_forall.
Qed.

(** the records of [connections] summarise the history.  After any run, the record of a flow
    holds the time of its first observation, the time of its last one, and the number of
    observations modulo 2^32; a flow never observed has no record. *)
Theorem conn_state_summarises_history s (hks : list probe_hook) (k : conn_key) :
  loaded s → fits (np_helper s) hks initial_observer →
  bpf_map_peek (connections (run_hooks hks s)) k =
  conn_summary (times_of k (observations (np_helper s) hks initial_observer)).
Proof.
  intros Hl Hf. apply (run_hooks_records (np_helper s) s initial_observer hks []);
    [by apply loaded_refines|done|].
  intros k'. by apply Hl.
Qed.

(** [is_new_connection], on every branch.  It answers whether the key had no record; it touches
    only the record of its key and whatever the map evicts; a known record keeps its first
    time and counts one more event, modulo 2^32; an unknown one is created unless the map refuses
    it. *)
Theorem is_new_connection_correct c (key : conn_key) s :
  let '(r, s') := is_new_connection c key s in
  let now := bpf_ktime_get_ns c in
  let old := bpf_map_peek (connections s) in
  let new := bpf_map_peek (connections s') in
  r = negb (non_null (old key)) ∧
  np_helper s' = np_helper s ∧ tcp_ctx s' = tcp_ctx s ∧ network_events s' = network_events s ∧
  match old key with
  | Some st => new key = Some (seen_again now st) ∧ ∀ k, k ≠ key → new k = old k
  | None => (new key = Some (new_conn now) ∨ new key = None) ∧
            ∀ k, k ≠ key → new k = old k ∨ new k = None
  end.
Proof.
  rewrite is_new_connection_run. set (m := snd (bpf_map_lookup_elem key (connections s))).
  assert (∀ k, bpf_map_peek m k = bpf_map_peek (connections s) k) as Hm
    by (intros; apply lookup_elem_peek).
  destruct (bpf_map_peek (connections s) key) as [st|] eqn:Hst; simpl; rewrite Hst;
    split_and!; try done.
  - rewrite (modify_seen_peek _ _ st) by by rewrite Hm. by rewrite decide_True.
  - intros k Hne. rewrite (modify_seen_peek _ _ st) by by rewrite Hm. by rewrite decide_False.
  - destruct (decide (fst (bpf_map_update_elem key (new_conn (bpf_ktime_get_ns c)) m) = 0)).
    + left. by apply update_elem_ok.
    + right. by rewrite update_elem_fail, Hm.
  - intros k Hne. rewrite <- Hm. by apply update_elem_other.
Qed.

(** an accept that returns on the CPU it was called on reports the flow of the new connection in
    the namespace of the listening socket. *)
Theorem accept_on_one_cpu s c c' (sk new_sk : Z) fl :
  loaded s → socket_tracked (np_helper s) c sk = true →
  bpf_get_current_pid_tgid c' = bpf_get_current_pid_tgid c →
  bpf_get_smp_processor_id c' = bpf_get_smp_processor_id c →
  accept_flow (np_helper s) c' (sock_inum c sk) new_sk = Some fl →
  ring_full network_event_data (network_events s) = false →
  reported (run_hooks [AcceptEntry c sk; AcceptExit c' new_sk] s) = [event_of fl] ∧
  ne_inum (event_of fl) = sock_inum c sk.
Proof.
  intros Hl Ht Hp Hc Hfl Hnf. pose proof (accept_pair_reported s c c' sk new_sk fl) as Ha.
  simpl in Ha. rewrite decide_True in Ha by done. by apply Ha.
Qed.

(** an accept that returns on another CPU loses its namespace.  [tcp_ctx] is a per-CPU map and
    a blocking accept can migrate: the return probe then finds the zero-filled slot of its own CPU,
    and the flow is reported in namespace 0, which is no pod's. *)
Theorem accept_on_two_cpus s c c' (sk new_sk : Z) fl :
  loaded s → socket_tracked (np_helper s) c sk = true →
  bpf_get_current_pid_tgid c' = bpf_get_current_pid_tgid c →
  bpf_get_smp_processor_id c' ≠ bpf_get_smp_processor_id c →
  accept_flow (np_helper s) c' 0 new_sk = Some fl →
  ring_full network_event_data (network_events s) = false →
  reported (run_hooks [AcceptEntry c sk; AcceptExit c' new_sk] s) = [event_of fl] ∧
  ne_inum (event_of fl) = 0.
Proof.
  intros Hl Ht Hp Hc Hfl Hnf. pose proof (accept_pair_reported s c c' sk new_sk fl) as Ha.
  simpl in Ha. rewrite decide_False in Ha by done. by apply Ha.
Qed.

(** the return probe always cleans up.  Whatever it does next, when it finds the element of its
    thread it removes it for every CPU, and it leaves the elements of the other threads alone. *)
Theorem accept_exit_cleans_up c (new_sk : Z) s (cpu : Z) (k : Z) :
  let tid := u32_of (bpf_get_current_pid_tgid c) in
  let s' := exec (tcp_accept_exit c new_sk) s in
  (is_Some (percpu_peek (tcp_ctx s) (bpf_get_smp_processor_id c) tid) →
   percpu_peek (tcp_ctx s') cpu tid = None) ∧
  (k ≠ tid → percpu_peek (tcp_ctx s') cpu k = percpu_peek (tcp_ctx s) cpu k).
Proof.
  intros tid s'. unfold s', exec.
  destruct (tcp_accept_exit_announce c new_sk s) as (h'&t'&_&Ht&->). fold tid in Ht.
  assert (∀ ofl s1, tcp_ctx (snd (announce_opt c ofl s1)) = tcp_ctx s1) as Hctx.
  { intros [fl|] s1; [|done]. apply (an_ctx _ _ _ _ (proj2 (announce_run c fl s1))). }
  rewrite Hctx. simpl. split.
  - intros Hs. rewrite Ht. by rewrite decide_True.
  - intros Hne. rewrite Ht. rewrite decide_False; [done|]. naive_solver.
Qed.

(** [trace_udp_send], on every branch.  It returns 0; it changes nothing but the order of the
    LRU lists unless the socket is in a tracked namespace and its addresses pass the filter; then
    it announces the flow to the peer as UDP egress, keyed without the local port. *)
Theorem trace_udp_send_correct c (sk msg len : Z) s :
  let skc := read_sock_common c sk in
  let s' := exec (trace_udp_send c sk msg len) s in
  result (trace_udp_send c sk msg len) s = 0 ∧
  ∃ h', h' ≡ np_helper s ∧
    if negb (sk =? 0) && tracked (np_helper s) (sock_inum c sk)
       && negb (filtered (np_helper s) (skc_member "skc_rcv_saddr" skc) (skc_member "skc_daddr" skc))
    then announced c
           {| fl_key := ConnKey (sock_inum c sk) (skc_member "skc_rcv_saddr" skc)
                          (skc_member "skc_daddr" skc) (bpf_ntohs (skc_member "skc_dport" skc)) 2 1;
              fl_sport := skc_member "skc_num" skc |} (set_np_helper h' s) s'
    else s' = set_np_helper h' s.
Proof.
  intros skc s'. unfold s', result, exec.
  destruct (trace_udp_send_announce c sk msg len s) as (h'&Hh&->).
  unfold udp_flow, socket_tracked, skc_filtered. fold skc. case_match; simpl.
  - destruct (announce_run c (skc_flow (sock_inum c sk) 2 1 skc) (set_np_helper h' s)). eauto.
  - eauto.
Qed.

(** [trace_tcp_state_change], on every branch.  It returns 0 and announces a TCP flow exactly
    when an IPv4 socket of a tracked namespace, whose addresses pass the filter, becomes
    ESTABLISHED; the direction is egress when the local port is above 1024 and ingress otherwise. *)
Theorem trace_tcp_state_change_correct c (sk state : Z) s :
  let skc := read_sock_common c sk in
  let s' := exec (trace_tcp_state_change c sk state) s in
  result (trace_tcp_state_change c sk state) s = 0 ∧
  ∃ h', h' ≡ np_helper s ∧
    if negb (sk =? 0) && tracked (np_helper s) (sock_inum c sk) && (state =? 1)
       && (skc_member "skc_family" skc =? 2)
       && negb (filtered (np_helper s) (skc_member "skc_rcv_saddr" skc) (skc_member "skc_daddr" skc))
    then announced c
           {| fl_key := ConnKey (sock_inum c sk) (skc_member "skc_rcv_saddr" skc)
                          (skc_member "skc_daddr" skc) (bpf_ntohs (skc_member "skc_dport" skc)) 1
                          (if 1024 <? skc_member "skc_num" skc then 1 else 2);
              fl_sport := skc_member "skc_num" skc |} (set_np_helper h' s) s'
    else s' = set_np_helper h' s.
Proof.
  intros skc s'. unfold s', result, exec.
  destruct (trace_tcp_state_change_announce c sk state s) as (h'&Hh&->).
  unfold tcp_flow, socket_tracked, skc_filtered. fold skc. case_match; simpl.
  - destruct (announce_run c (skc_flow (sock_inum c sk) 1
      (if 1024 <? skc_member "skc_num" skc then 1 else 2) skc) (set_np_helper h' s)). eauto.
  - eauto.
Qed.

(** one inbound connection to a port above 1024 is reported twice, first as egress by the
    state-change hook and then as ingress by the accept hooks; to a port up to 1024, once. *)
Theorem inbound_connection_reports s c0 c c' (sk new_sk : Z) :
  let skc := read_sock_common c' new_sk in
  let inum := sock_inum c sk in
  loaded s → ring_accepts network_event_data 3 (network_events s) →
  (* the three hooks see the listening socket and the accepted one *)
  socket_tracked (np_helper s) c sk = true →
  new_sk ≠ 0 → sock_inum c0 new_sk = inum → read_sock_common c0 new_sk = skc →
  skc_member "skc_family" skc = 2 → skc_filtered (np_helper s) skc = false →
  bpf_get_current_pid_tgid c' = bpf_get_current_pid_tgid c →
  bpf_get_smp_processor_id c' = bpf_get_smp_processor_id c →
  reported (run_hooks [TcpSetState c0 new_sk 1; AcceptEntry c sk; AcceptExit c' new_sk] s) =
  (if 1024 <? skc_member "skc_num" skc then [event_of (skc_flow inum 1 1 skc)] else []) ++
  [event_of (skc_flow inum 1 2 skc)].
Proof.
  intros skc inum Hl Ha Ht Hsk Hi Hskc Hfam Hnf Hp Hc.
  assert (tracked (np_helper s) inum = true) as Htr.
  { unfold socket_tracked in Ht. by apply andb_true_iff in Ht as [_ ?]. }
  assert (tcp_flow (np_helper s) c0 new_sk 1 =
    Some (skc_flow inum 1 (if 1024 <? skc_member "skc_num" skc then 1 else 2) skc)) as Htcp.
  { unfold tcp_flow, socket_tracked. rewrite Hskc, Hi, Htr, Hfam, Hnf.
    apply Z.eqb_neq in Hsk. by rewrite Hsk. }
  assert (accept_flow (np_helper s) c' inum new_sk = Some (skc_flow inum 1 2 skc)) as Hacc.
  { unfold accept_flow. fold skc. rewrite Hnf. apply Z.eqb_neq in Hsk. by rewrite Hsk. }
  erewrite rf_out; [|apply (run_refines_observe_all (np_helper s) s initial_observer);
    [by apply loaded_refines| |exact Ha]].
  - simpl. rewrite Htcp. unfold hook_ctx. rewrite Ht, Hp, Hc. simpl. rewrite lookup_insert_eq.
    unfold write_slot at 1. rewrite decide_True by done. fold inum. rewrite Hacc. simpl.
    rewrite (saw_new _ _ initial_observer) by (simpl; set_solver). simpl.
    destruct (1024 <? skc_member "skc_num" skc).
    + rewrite saw_new; [done|]. simpl. rewrite elem_of_union, elem_of_singleton.
      intros [[=]|Hin]; set_solver.
    + rewrite saw_known; [done|]. simpl. set_solver.
  - apply fits_few; simpl; lia.
Qed.

(** inbound flows are told apart by the peer's port and not by the local one.  Of two
    connections accepted in one namespace from one peer address, the second is reported exactly when
    the peer used another port, whatever the local ports are. *)
Theorem inbound_flows_keyed_by_peer_port s c c1 c2 (sk sk1 sk2 : Z) :
  let skc1 := read_sock_common c1 sk1 in
  let skc2 := read_sock_common c2 sk2 in
  let fl1 := skc_flow (sock_inum c sk) 1 2 skc1 in
  let fl2 := skc_flow (sock_inum c sk) 1 2 skc2 in
  loaded s → ring_accepts network_event_data 4 (network_events s) → socket_tracked (np_helper s) c sk = true →
  sk1 ≠ 0 → sk2 ≠ 0 →
  skc_filtered (np_helper s) skc1 = false → skc_filtered (np_helper s) skc2 = false →
  Forall (λ c', bpf_get_current_pid_tgid c' = bpf_get_current_pid_tgid c ∧
                bpf_get_smp_processor_id c' = bpf_get_smp_processor_id c) [c1; c2] →
  skc_member "skc_rcv_saddr" skc2 = skc_member "skc_rcv_saddr" skc1 →
  skc_member "skc_daddr" skc2 = skc_member "skc_daddr" skc1 →
  reported (run_hooks [AcceptEntry c sk; AcceptExit c1 sk1; AcceptEntry c sk; AcceptExit c2 sk2] s) =
  event_of fl1 ::
  (if bpf_ntohs (skc_member "skc_dport" skc2) =? bpf_ntohs (skc_member "skc_dport" skc1)
   then [] else [event_of fl2]).
Proof.
  intros skc1 skc2 fl1 fl2 Hl Ha Ht Hsk1 Hsk2 Hnf1 Hnf2
    [[Hp1 Hc1] [[Hp2 Hc2] _]%Forall_cons]%Forall_cons Hs Hd.
  assert (accept_flow (np_helper s) c1 (sock_inum c sk) sk1 = Some fl1) as H1.
  { unfold accept_flow. fold skc1. rewrite Hnf1. apply Z.eqb_neq in Hsk1. by rewrite Hsk1. }
  assert (accept_flow (np_helper s) c2 (sock_inum c sk) sk2 = Some fl2) as H2.
  { unfold accept_flow. fold skc2. rewrite Hnf2. apply Z.eqb_neq in Hsk2. by rewrite Hsk2. }
  erewrite rf_out; [|apply (run_refines_observe_all (np_helper s) s initial_observer);
    [by apply loaded_refines| |exact Ha]].
  2:{ apply fits_few; simpl; lia. }
  unfold observe_all. cbn [foldl].
  rewrite !observe_accept_pair, H1, H2 by done. simpl.
  rewrite (saw_new _ fl1) by (simpl; set_solver).
  destruct (Z.eqb_spec (bpf_ntohs (skc_member "skc_dport" skc2))
              (bpf_ntohs (skc_member "skc_dport" skc1))) as [He|Hne].
  - rewrite saw_known; [done|]. simpl. rewrite Hs, Hd, He. set_solver.
  - rewrite saw_new; [done|]. simpl. rewrite elem_of_union, elem_of_singleton.
    intros [[=]|Hin]; set_solver.
Qed.

(** the event record round-trips.  Whatever stale bytes the ring buffer hands out, the bytes
    that the probe submits decode to the members it stored. *)
Theorem network_event_roundtrip (inum saddr daddr sport dport kind : Z) (slot : list byte) :
  0 ≤ inum < 2 ^ 64 → 0 ≤ saddr < 2 ^ 32 → 0 ≤ daddr < 2 ^ 32 →
  0 ≤ sport < 2 ^ 16 → 0 ≤ dport < 2 ^ 16 → 0 ≤ kind < 2 ^ 16 →
  length slot = 24%nat →
  decode_network_event (fill_network_event inum saddr daddr sport dport kind slot) =
  {| ne_inum := inum; ne_saddr := saddr; ne_sport := sport; ne_daddr := daddr;
     ne_dport := dport; ne_kind := kind |}.
Proof.
  intros ?????? Hl. rewrite decode_fill_network_event by (unfold is_object; by rewrite Hl).
  unfold u64_of, u32_of, u16_of. by rewrite !wrap_small.
Qed.

End Theorems.
