(* ===== verification/NetworkProbeWitness.v ===== *)
(** * The theorems about the connection probe at concrete inputs

    Every theorem of [NetworkProbeThms.v] applied to sockets, contexts and states of [Fixtures.v],
    on the executable environment. *)

From S2P Require Import Prelude CLayout CLayoutFacts BpfEnv LruKernel RingBuffer VmlinuxBase VmlinuxSock Helper.
From S2P Require Import NetworkProbe NetworkProbeFacts NetworkProbeSpec Fixtures NetworkProbeThms.

#[local] Existing Instance lru_kernel.
#[local] Existing Instance lru_kernel_laws.

(** ** The hypotheses of the theorems, at a freshly loaded object *)

Lemma fix_probe_loaded (inums ips : list Z) : loaded (fix_probe inums ips).
Proof. done. Qed.

Lemma fix_probe_refines (inums ips : list Z) :
  refines (np_helper (fix_probe inums ips)) (fix_probe inums ips) initial_observer.
Proof. by apply (loaded_refines (fix_probe inums ips)). Qed.

Lemma fix_full_probe_refines (inums ips : list Z) :
  refines (np_helper (fix_probe inums ips)) (fix_full_probe inums ips) initial_observer.
Proof. by apply (loaded_refines (fix_full_probe inums ips)). Qed.

Lemma fix_probe_accepts (n : nat) (inums ips : list Z) :
  Z.of_nat n ≤ 8192 → ring_accepts network_event_data n (network_events (fix_probe inums ips)).
Proof.
  intros Hn. apply lru_ring_accepts; [done|]. change (ring_used _) with 0.
  change (record_space _) with 32. unfold network_events_size. lia.
Qed.

(** ** Two sockets of namespace 7 *)

(** A client on an ephemeral port, talking to 10.0.0.2:443. *)
Definition wit_client : kctx := fix_ctx 100 42 0 7 (fix_skc ip1 ip2 be443 50000 2 2).
(** A server on port 80 that 10.0.0.2 has connected to from port 50000. *)
Definition wit_server : kctx := fix_ctx 200 42 0 7 (fix_skc ip1 ip2 be50000 80 2 1).
Definition wit_server' : kctx := fix_ctx 300 42 0 7 (fix_skc ip1 ip2 be50001 80 2 1).
(** The same server, the thread having moved to CPU 1. *)
Definition wit_moved : kctx := fix_ctx 200 42 1 7 (fix_skc ip1 ip2 be50000 80 2 1).

Definition wit_state : probe_state := fix_probe [7] [].

Definition wit_run : list probe_hook :=
  [UdpSendmsg wit_client 1 1 10; TcpSetState wit_client 1 1; AcceptEntry wit_server 1;
   UdpSendmsg wit_client 1 1 10; AcceptExit wit_server 2].

Definition wit_flow : flow :=
  {| fl_key := ConnKey 7 ip1 ip2 443 2 1; fl_sport := 50000 |}.

Lemma wit_run_fits : fits (np_helper wit_state) wit_run initial_observer.
Proof. by apply fits_few. Qed.

Lemma wit_run_accepts : ring_accepts network_event_data 5 (network_events wit_state).
Proof. by apply fix_probe_accepts. Qed.

Ltac at_input := first [ done | apply wit_run_fits | apply wit_run_accepts
                       | apply fix_probe_loaded | by apply fits_few | by apply fix_probe_accepts
                       | vm_compute; congruence ].

Lemma probe_refines_observer_witness :
  ∃ dropped, length dropped = 5%nat ∧
    refines (np_helper wit_state) (run_hooks wit_run wit_state)
      (observe_with (np_helper wit_state) dropped wit_run initial_observer).
Proof.
  apply (probe_refines_observer (np_helper wit_state) wit_state initial_observer wit_run).
  - by apply fix_probe_refines.
  - at_input.
Defined.

(** The five invocations report three flows: UDP and TCP egress to port 443, and the inbound one. *)
Lemma probe_reports_exactly_witness :
  reported (run_hooks wit_run wit_state) =
    ob_out (observe_all (np_helper wit_state) wit_run initial_observer) ∧
  reported (run_hooks wit_run wit_state) =
    [NetworkEvent 7 ip1 50000 ip2 443 3; NetworkEvent 7 ip1 50000 ip2 443 1;
     NetworkEvent 7 ip1 80 ip2 50000 2].
Proof. split; [apply (probe_reports_exactly wit_state wit_run); at_input | by vm_compute]. Defined.

Lemma probe_never_repeats_witness : NoDup (event_key <$> reported (run_hooks wit_run wit_state)).
Proof. apply (probe_never_repeats wit_state wit_run); at_input. Defined.

Lemma probe_reports_every_flow_witness :
  fl_key wit_flow ∈ event_key <$> reported (run_hooks wit_run wit_state).
Proof.
  apply (probe_reports_every_flow wit_state [] (UdpSendmsg wit_client 1 1 10) (tail wit_run));
    at_input.
Defined.

(** The ring buffer is full at the first invocation, and empty from then on. *)
Lemma refused_flow_is_never_reported_witness :
  fl_key wit_flow ∉ event_key <$> reported (run_hooks (tail wit_run)
    (set_network_events (Ring [] [] 0)
       (exec (run_hook (UdpSendmsg wit_client 1 1 10)) (fix_full_probe [7] [])))).
Proof.
  apply (refused_flow_is_never_reported (np_helper wit_state) (fix_full_probe [7] [])
    initial_observer (UdpSendmsg wit_client 1 1 10) wit_flow (Ring [] [] 0) (tail wit_run));
    [apply fix_full_probe_refines|apply initial_observer_ok|..]; at_input.
Defined.

Lemma probe_events_are_sound_witness :
  event_sound (np_helper wit_state) (NetworkEvent 7 ip1 80 ip2 50000 2).
Proof.
  apply (probe_events_are_sound wit_state wit_run); [at_input|at_input|].
  change (NetworkEvent 7 ip1 80 ip2 50000 2 ∈ reported (run_hooks wit_run wit_state)).
  apply list_elem_of_lookup. exists 2%nat. by vm_compute.
Defined.

(** The flow of the client is observed twice, at 100. *)
Lemma conn_state_summarises_history_witness :
  bpf_map_peek (connections (run_hooks wit_run wit_state)) (fl_key wit_flow) =
    conn_summary (times_of (fl_key wit_flow)
      (observations (np_helper wit_state) wit_run initial_observer)) ∧
  bpf_map_peek (connections (run_hooks wit_run wit_state)) (fl_key wit_flow) =
    Some (ConnState 100 100 2).
Proof.
  split; [apply (conn_state_summarises_history wit_state wit_run); at_input | by vm_compute].
Defined.

Lemma is_new_connection_correct_witness :
  let '(r, s') := is_new_connection wit_client (fl_key wit_flow) wit_state in
  r = true ∧ np_helper s' = np_helper wit_state.
Proof.
  pose proof (is_new_connection_correct wit_client (fl_key wit_flow) wit_state) as Hw.
  destruct (is_new_connection _ _ _) as [r s']. destruct Hw as (Hr&Hh&_).
  split; [by rewrite Hr|done].
Defined.

Definition wit_inbound : flow := {| fl_key := ConnKey 7 ip1 ip2 50000 1 2; fl_sport := 80 |}.

Lemma accept_on_one_cpu_witness :
  reported (run_hooks [AcceptEntry wit_server 1; AcceptExit wit_server 2] wit_state) =
    [event_of wit_inbound] ∧ ne_inum (event_of wit_inbound) = 7.
Proof. apply (accept_on_one_cpu wit_state wit_server wit_server 1 2 wit_inbound); at_input. Defined.

Lemma accept_on_two_cpus_witness :
  reported (run_hooks [AcceptEntry wit_server 1; AcceptExit wit_moved 2] wit_state) =
    [NetworkEvent 0 ip1 80 ip2 50000 2] ∧ ne_inum (NetworkEvent 0 ip1 80 ip2 50000 2) = 0.
Proof.
  apply (accept_on_two_cpus wit_state wit_server wit_moved 1 2
    {| fl_key := ConnKey 0 ip1 ip2 50000 1 2; fl_sport := 80 |}); at_input.
Defined.

Lemma accept_exit_cleans_up_witness :
  let s := run_hooks [AcceptEntry wit_server 1] wit_state in
  percpu_peek (tcp_ctx (exec (tcp_accept_exit wit_server 2) s)) 1 42 = None.
Proof.
  apply (accept_exit_cleans_up wit_server 2 (run_hooks [AcceptEntry wit_server 1] wit_state) 1 42).
  by exists (TcpConnectCtx 0 7).
Defined.

Lemma trace_udp_send_correct_witness : result (trace_udp_send wit_client 1 1 10) wit_state = 0.
Proof. apply (trace_udp_send_correct wit_client 1 1 10 wit_state). Defined.

Lemma trace_tcp_state_change_correct_witness :
  result (trace_tcp_state_change wit_client 1 1) wit_state = 0.
Proof. apply (trace_tcp_state_change_correct wit_client 1 1 wit_state). Defined.

(** A server on port 8080 is reported twice. *)
Definition wit_high : kctx := fix_ctx 200 42 0 7 (fix_skc ip1 ip2 be50000 8080 2 1).

Lemma inbound_connection_reports_witness :
  reported (run_hooks [TcpSetState wit_high 2 1; AcceptEntry wit_high 1; AcceptExit wit_high 2]
              wit_state) =
  [NetworkEvent 7 ip1 8080 ip2 50000 1; NetworkEvent 7 ip1 8080 ip2 50000 2].
Proof. apply (inbound_connection_reports wit_state wit_high wit_high wit_high 1 2); at_input. Defined.

(** Two connections from one peer: on another port, then on the same one. *)
Lemma inbound_flows_keyed_by_peer_port_witness :
  reported (run_hooks [AcceptEntry wit_server 1; AcceptExit wit_server 2;
                       AcceptEntry wit_server 1; AcceptExit wit_server' 3] wit_state) =
    [NetworkEvent 7 ip1 80 ip2 50000 2; NetworkEvent 7 ip1 80 ip2 50001 2] ∧
  reported (run_hooks [AcceptEntry wit_server 1; AcceptExit wit_server 2;
                       AcceptEntry wit_server 1; AcceptExit wit_server 3] wit_state) =
    [NetworkEvent 7 ip1 80 ip2 50000 2].
Proof.
  split.
  - apply (inbound_flows_keyed_by_peer_port wit_state wit_server wit_server wit_server' 1 2 3);
      first [at_input | by repeat constructor].
  - apply (inbound_flows_keyed_by_peer_port wit_state wit_server wit_server wit_server 1 2 3);
      first [at_input | by repeat constructor].
Defined.

Lemma network_event_roundtrip_witness :
  decode_network_event (fill_network_event 7 ip1 ip2 50000 443 1 (replicate 24 Byte.xff)) =
  NetworkEvent 7 ip1 50000 ip2 443 1.
Proof. apply network_event_roundtrip; by vm_compute. Defined.
