(* ===== verification/Concurrency.v ===== *)
(** * is_new_connection on several CPUs

    The function is not atomic: other CPUs run between its lookup and its writes.  Here it is cut into
    the steps that touch the [connections] map, threads interleave in any order, and the sequential
    definition of [NetworkProbe.v] is the run of one thread alone. *)

From S2P Require Import Prelude CLayout CLayoutFacts VmlinuxBase VmlinuxSock BpfEnv LruKernel RingBuffer.
From S2P Require Import Helper NetworkProbe Fixtures NetworkProbeFacts.

(** Where a thread is: the next access to the map that it performs, or what it returned. *)
Inductive pc : Type :=
| Lookup
| Insert
| StoreLast
| LoadCount
| StoreCount (loaded : Z)
| Returned (is_new : bool).

Definition store_event_count (n : Z) (st : conn_state) : conn_state :=
  {| first_seen := first_seen st; last_seen := last_seen st; event_count := n |}.

Record thread : Type := Thread {
  th_now : Z;
  th_key : conn_key;
  th_pc : pc
}.

Definition set_pc (p : pc) (t : thread) : thread :=
  {| th_now := th_now t; th_key := th_key t; th_pc := p |}.

Section Concurrency.
Context `{BpfKernel}.

Definition conns : Type := bpf_map connections_def conn_key conn_state.

(** One step of a thread.  A pointer to an element that has been evicted reads as 0. *)
Definition thread_step (t : thread) (m : conns) : pc * conns :=
  match th_pc t with
  | Lookup =>
      let '(state, m) := bpf_map_lookup_elem (th_key t) m in
      (match state with None => Insert | Some _ => StoreLast end, m)
  | Insert =>
      (Returned true,
       exec (bpf_map_update_elem (th_key t)
               {| first_seen := th_now t; last_seen := th_now t; event_count := 1 |}) m)
  | StoreLast => (LoadCount, bpf_map_modify (th_key t) (store_last_seen (th_now t)) m)
  | LoadCount => (StoreCount (default 0 (event_count <$> bpf_map_peek m (th_key t))), m)
  | StoreCount n =>
      (Returned false, bpf_map_modify (th_key t) (store_event_count (u32_succ n)) m)
  | Returned b => (Returned b, m)
  end.

(** The threads of the CPUs, and the map they share. *)
Record config : Type := Config {
  cf_threads : list thread;
  cf_map : conns
}.

(** The thread [i] takes a step; a schedule is the list of who does. *)
Definition config_step (cf : config) (i : nat) : config :=
  match cf_threads cf !! i with
  | None => cf
  | Some t =>
      let '(p, m) := thread_step t (cf_map cf) in
      {| cf_threads := <[i := set_pc p t]> (cf_threads cf); cf_map := m |}
  end.

Definition run_schedule (sched : list nat) (cf : config) : config := foldl config_step cf sched.

Definition call (now : Z) (key : conn_key) : thread := Thread now key Lookup.

End Concurrency.

Section ConcurrencyFacts.
Context `{BpfKernelLaws}.

(** Whoever finds the key has been preceded by a thread that inserted it. *)
Definition announced_before (key : conn_key) (cf : config) : Prop :=
  (is_Some (bpf_map_peek (cf_map cf) key) →
   ∃ i t, cf_threads cf !! i = Some t ∧ th_key t = key ∧ th_pc t = Returned true) ∧
  (∀ i t, cf_threads cf !! i = Some t → th_key t = key → th_pc t ≠ Lookup → th_pc t ≠ Insert →
   ∃ i' t', cf_threads cf !! i' = Some t' ∧ th_key t' = key ∧ th_pc t' = Returned true).

(** A step never loses a thread that returned, and creates no element but its own. *)
Lemma thread_step_peek (t : thread) (m : conns) (k : conn_key) :
  is_Some (bpf_map_peek (snd (thread_step t m)) k) →
  is_Some (bpf_map_peek m k) ∨ (k = th_key t ∧ th_pc t = Insert).
Proof.
  unfold thread_step. destruct (th_pc t) eqn:Hpc; simpl.
  - pose proof (lookup_elem_peek (th_key t) k m) as Hl.
    destruct (bpf_map_lookup_elem (th_key t) m) as [v m']. simpl in *. rewrite Hl. by left.
  - destruct (decide (k = th_key t)) as [->|Hne]; [by right|]. unfold exec.
    destruct (update_elem_other (th_key t) k
      {| first_seen := th_now t; last_seen := th_now t; event_count := 1 |} m Hne) as [-> | ->];
      [by left|by intros []].
  - rewrite map_modify_peek. case_decide; [|by left]. rewrite fmap_is_Some. by left.
  - by left.
  - rewrite map_modify_peek. case_decide; [|by left]. rewrite fmap_is_Some. by left.
  - by left.
Qed.

Lemma thread_step_lookup (t : thread) (m : conns) :
  th_pc t = Lookup →
  fst (thread_step t m) = match bpf_map_peek m (th_key t) with Some _ => StoreLast | None => Insert end.
Proof.
  intros Hpc. unfold thread_step. rewrite Hpc. rewrite <- (lookup_elem_value (th_key t) m).
  by destruct (bpf_map_lookup_elem (th_key t) m) as [[]].
Qed.

Lemma returned_stays (cf : config) (i i' : nat) (t : thread) (b : bool) :
  cf_threads cf !! i' = Some t → th_pc t = Returned b →
  cf_threads (config_step cf i) !! i' = Some t.
Proof.
  intros Ht Hpc. unfold config_step. destruct (cf_threads cf !! i) as [u|] eqn:Hu; [|done].
  destruct (thread_step u (cf_map cf)) as [p m] eqn:Hs. simpl.
  destruct (decide (i' = i)) as [->|Hne].
  - rewrite Ht in Hu. injection Hu as <-. rewrite list_lookup_insert_eq by (by eapply lookup_lt_Some).
    unfold thread_step in Hs. rewrite Hpc in Hs. injection Hs as <- <-. f_equal. by destruct t; simpl in *; subst.
  - by rewrite list_lookup_insert_ne.
Qed.

Lemma announced_before_step (key : conn_key) (cf : config) (i : nat) :
  announced_before key cf → announced_before key (config_step cf i).
Proof.
  intros [Hm Hr].
  assert ((∃ j t, cf_threads cf !! j = Some t ∧ th_key t = key ∧ th_pc t = Returned true) →
          ∃ j t, cf_threads (config_step cf i) !! j = Some t ∧ th_key t = key ∧
                 th_pc t = Returned true) as Hkeep.
  { intros (j&t&Ht&Hk&Hp). exists j, t. split; [by eapply returned_stays|done]. }
  destruct (cf_threads cf !! i) as [u|] eqn:Hu.
  2:{ unfold config_step. rewrite Hu. by split. }
  pose proof (lookup_lt_Some _ _ _ Hu) as Hlt.
  assert (th_key u = key → th_pc u = Insert →
          ∃ j t, cf_threads (config_step cf i) !! j = Some t ∧ th_key t = key ∧
                 th_pc t = Returned true) as Hins.
  { intros Hk Hp. exists i, (set_pc (Returned true) u). unfold config_step, thread_step.
    rewrite Hu, Hp. simpl. by rewrite list_lookup_insert_eq. }
  split.
  - intros Hs. unfold config_step in Hs. rewrite Hu in Hs.
    pose proof (thread_step_peek u (cf_map cf) key) as Hp.
    destruct (thread_step u (cf_map cf)) as [p m]. simpl in *.
    destruct (Hp Hs) as [Hs'|[-> Hpc]]; auto.
  - intros j t Ht Hk Hl Hi. unfold config_step in Ht. rewrite Hu in Ht.
    pose proof (thread_step_lookup u (cf_map cf)) as Hlk.
    destruct (thread_step u (cf_map cf)) as [p m] eqn:Hstep. simpl in *.
    destruct (decide (j = i)) as [->|Hne].
    2:{ rewrite list_lookup_insert_ne in Ht by done. eauto. }
    rewrite list_lookup_insert_eq in Ht by done. injection Ht as <-. simpl in *.
    destruct (th_pc u) eqn:Hpc; try (apply Hkeep, (Hr i u Hu Hk); by rewrite Hpc).
    + rewrite Hlk in Hl, Hi by done. apply Hkeep, Hm. rewrite Hk in *.
      by destruct (bpf_map_peek (cf_map cf) key).
    + by apply Hins.
Qed.

Lemma run_schedule_announced (key : conn_key) (sched : list nat) (cf : config) :
  announced_before key cf → announced_before key (run_schedule sched cf).
Proof.
  revert cf. induction sched as [|i sched IH]; intros cf Ha; simpl; [done|].
  by apply IH, announced_before_step.
Qed.

Lemma config_step_keys (cf : config) (i : nat) :
  th_key <$> cf_threads (config_step cf i) = th_key <$> cf_threads cf.
Proof.
  unfold config_step. destruct (cf_threads cf !! i) as [t|] eqn:Ht; [|done].
  destruct (thread_step t (cf_map cf)) as [p m]. simpl.
  rewrite list_fmap_insert. apply list_insert_id. by rewrite list_lookup_fmap, Ht.
Qed.

Lemma run_schedule_keys (sched : list nat) (cf : config) :
  th_key <$> cf_threads (run_schedule sched cf) = th_key <$> cf_threads cf.
Proof.
  revert cf. induction sched as [|i sched IH]; intros cf; simpl; [done|].
  change (foldl config_step (config_step cf i) sched) with (run_schedule sched (config_step cf i)).
  by rewrite IH, config_step_keys.
Qed.

(** A step in a configuration of one or two threads. *)
Lemma first_step (t : thread) (l : list thread) (m : conns) :
  config_step (Config (t :: l) m) 0 =
  Config (set_pc (fst (thread_step t m)) t :: l) (snd (thread_step t m)).
Proof. unfold config_step. simpl. by destruct (thread_step t m). Qed.

Lemma second_step (t u : thread) (m : conns) :
  config_step (Config [t; u] m) 1 =
  Config [t; set_pc (fst (thread_step u m)) u] (snd (thread_step u m)).
Proof. unfold config_step. simpl. by destruct (thread_step u m). Qed.

(** The steps of a call, by the content of the map it looks up. *)
Lemma lookup_step (now : Z) (key : conn_key) (m : conns) :
  let r := thread_step (call now key) m in
  fst r = match bpf_map_peek m key with Some _ => StoreLast | None => Insert end ∧
  ∀ k, bpf_map_peek (snd r) k = bpf_map_peek m k.
Proof.
  split; [by apply thread_step_lookup|]. intros k. unfold thread_step. simpl.
  rewrite <- (lookup_elem_peek key k m). by destruct (bpf_map_lookup_elem key m).
Qed.

End ConcurrencyFacts.

(** ** Theorems *)

Section Theorems.
Context `{BpfKernelLaws}.

(** the interleaved definition refines the sequential one: one thread alone, run to its end,
    returns what [is_new_connection] returns and leaves the same records. *)
Theorem one_thread_is_sequential c (key : conn_key) (s : probe_state) :
  let '(r, s') := is_new_connection c key s in
  let cf := run_schedule [0; 0; 0; 0]%nat
              (Config [call (bpf_ktime_get_ns c) key] (connections s)) in
  (th_pc <$> cf_threads cf) = [Returned r] ∧
  ∀ k, bpf_map_peek (cf_map cf) k = bpf_map_peek (connections s') k.
Proof.
  rewrite is_new_connection_run. set (now := bpf_ktime_get_ns c).
  assert (snd (thread_step (call now key) (connections s)) =
          snd (bpf_map_lookup_elem key (connections s))) as Hsnd
    by (unfold thread_step; simpl; by destruct (bpf_map_lookup_elem key _)).
  pose proof (proj1 (lookup_step now key (connections s))) as Hfst.
  set (m := snd (bpf_map_lookup_elem key (connections s))) in *.
  destruct (bpf_map_peek (connections s) key) as [st|] eqn:Hst;
    unfold run_schedule, foldl; rewrite first_step, Hfst, Hsnd; repeat rewrite first_step; simpl.
  - split; [done|]. intros k. rewrite !map_modify_peek.
    assert (bpf_map_peek m key = Some st) as Hm by (unfold m; by rewrite lookup_elem_peek).
    destruct (decide (k = key)) as [->|]; [|done]. by rewrite decide_True, Hm.
  - done.
Qed.

(** no flow is lost to a race.  Whatever the interleaving of any number of calls, if a key was not
    in the map at the start and all its calls have returned, at least one of them returned true. *)
Theorem some_thread_is_new (key : conn_key) (calls : list (Z * conn_key)) (m : conns)
    (sched : list nat) :
  let cf := run_schedule sched (Config ((λ '(now, k), call now k) <$> calls) m) in
  bpf_map_peek m key = None → key ∈ snd <$> calls →
  (∀ t, t ∈ cf_threads cf → th_key t = key → ∃ b, th_pc t = Returned b) →
  ∃ t, t ∈ cf_threads cf ∧ th_key t = key ∧ th_pc t = Returned true.
Proof.
  intros cf Hm Hkey Hdone.
  destruct (run_schedule_announced key sched (Config ((λ '(now, k), call now k) <$> calls) m))
    as [_ Hr].
  { split; simpl; [rewrite Hm; by intros []|]. intros i t Ht _ Hl.
    rewrite list_lookup_fmap in Ht. destruct (calls !! i) as [[now k]|]; simplify_eq/=. }
  assert (key ∈ th_key <$> cf_threads cf) as Hk.
  { unfold cf. rewrite run_schedule_keys. simpl. rewrite <- list_fmap_compose.
    erewrite list_fmap_ext; [exact Hkey|]. by intros ? [] ?. }
  apply list_elem_of_fmap in Hk as (t&->&Ht). destruct (Hdone t Ht eq_refl) as [b Hb].
  pose proof Ht as [i Hi]%list_elem_of_lookup.
  destruct (Hr i t Hi eq_refl) as (i'&t'&Ht'&?&?); [by rewrite Hb|by rewrite Hb|].
  exists t'. split; [|done]. by eapply list_elem_of_lookup_2.
Qed.

(** the check is not atomic.  When two CPUs look a new flow up before either of them inserts it,
    both calls return true, and the flow is reported twice. *)
Theorem first_sight_race (key : conn_key) (now now' : Z) (m : conns) :
  bpf_map_peek m key = None →
  th_pc <$> cf_threads (run_schedule [0; 1; 0; 1]%nat (Config [call now key; call now' key] m)) =
  [Returned true; Returned true].
Proof.
  intros Hm. destruct (lookup_step now key m) as [H1 H1m].
  destruct (lookup_step now' key (snd (thread_step (call now key) m))) as [H2 _].
  unfold run_schedule, foldl. rewrite first_step, second_step, H1, H2, H1m, Hm.
  by rewrite first_step, second_step.
Qed.

(** counts can be lost.  [event_count++] is a load and a store: when two CPUs see a known flow and
    both load the count before either stores it, two observations add one to the count. *)
Theorem event_count_race (key : conn_key) (now now' : Z) (m : conns) (st : conn_state) :
  bpf_map_peek m key = Some st →
  let cf := run_schedule [0; 1; 0; 1; 0; 1; 0; 1]%nat (Config [call now key; call now' key] m) in
  th_pc <$> cf_threads cf = [Returned false; Returned false] ∧
  event_count <$> bpf_map_peek (cf_map cf) key = Some (u32_succ (event_count st)).
Proof.
  intros Hm. destruct (lookup_step now key m) as [H1 H1m].
  destruct (lookup_step now' key (snd (thread_step (call now key) m))) as [H2 H2m].
  unfold run_schedule, foldl. rewrite first_step, second_step, H1, H2, H1m, Hm.
  do 3 rewrite first_step, second_step. simpl. split; [done|].
  rewrite !map_modify_peek, !decide_True, H2m, H1m, Hm by done. done.
Qed.

End Theorems.

(** * At concrete runs *)

#[local] Existing Instance lru_kernel.
#[local] Existing Instance lru_kernel_laws.

Definition race_key : conn_key := ConnKey 7 ip1 ip2 443 1 1.
Definition race_fresh : conns := connections (fix_probe [7] []).
Definition race_known : conns :=
  exec (bpf_map_update_elem race_key (ConnState 10 20 5)) race_fresh.

Lemma one_thread_is_sequential_witness :
  let '(r, s') := is_new_connection (fix_ctx 100 42 0 7 []) race_key (fix_probe [7] []) in
  let cf := run_schedule [0; 0; 0; 0]%nat
              (Config [call (bpf_ktime_get_ns (fix_ctx 100 42 0 7 [])) race_key]
                 (connections (fix_probe [7] []))) in
  (th_pc <$> cf_threads cf) = [Returned r] ∧
  ∀ k, bpf_map_peek (cf_map cf) k = bpf_map_peek (connections s') k.
Proof. exact (one_thread_is_sequential (fix_ctx 100 42 0 7 []) race_key (fix_probe [7] [])). Defined.

(** Three calls for one flow, two of which overlap. *)
Definition race_schedule : list nat := [0; 1; 2; 1; 0; 2; 2; 2; 2; 1; 1; 0; 0]%nat.

Lemma some_thread_is_new_witness :
  let cf := run_schedule race_schedule
    (Config [call 100 race_key; call 110 race_key; call 120 race_key] race_fresh) in
  ∃ t, t ∈ cf_threads cf ∧ th_key t = race_key ∧ th_pc t = Returned true.
Proof.
  apply (some_thread_is_new race_key [(100, race_key); (110, race_key); (120, race_key)] race_fresh
    race_schedule); [done|by left|].
  intros t Ht _. vm_compute in Ht. set_unfold in Ht.
  destruct Ht as [-> | [-> | [-> |[]]]]; by eexists.
Defined.

Lemma first_sight_race_witness :
  th_pc <$> cf_threads (run_schedule [0; 1; 0; 1]%nat
    (Config [call 100 race_key; call 101 race_key] race_fresh)) = [Returned true; Returned true].
Proof. exact (first_sight_race race_key 100 101 race_fresh eq_refl). Defined.

Lemma event_count_race_witness :
  let cf := run_schedule [0; 1; 0; 1; 0; 1; 0; 1]%nat
              (Config [call 100 race_key; call 101 race_key] race_known) in
  th_pc <$> cf_threads cf = [Returned false; Returned false] ∧
  event_count <$> bpf_map_peek (cf_map cf) race_key = Some 6.
Proof. exact (event_count_race race_key 100 101 race_known (ConnState 10 20 5) eq_refl). Defined.
