(* ===== verification/NetpolicySpec.v ===== *)
(** * The specification of the policy-drop probe, and its refinement

    Each tracked connection is a small machine of its own: [attempt_step] is its transition and
    [attempt_report] what it sends.  A run of the object is, for every connection, the run of its
    machine over the events of that connection alone. *)

From S2P Require Import Prelude CLayout CLayoutFacts BpfEnv RingBuffer VmlinuxBase VmlinuxSock.
From S2P Require Import Helper NetpolicyDrop.

(** ** One connection *)

Inductive attempt_event : Type := Started | Retransmitted | Established | Sent.

#[export] Instance attempt_event_eq_dec : EqDecision attempt_event.
Proof. solve_decision. Defined.

(** A retransmission: time and count. *)
Definition retried (now : Z) (st : conn_state) : conn_state :=
  incr_syn_count (store_last_syn_time now st).

(** Four SYNs sent, neither answered nor reported. *)
Definition overdue (st : conn_state) : bool := (4 <=? syn_count st) && (established st =? 0).

(** [full]: the ring buffer has no room at that moment. *)
Definition attempt_step (now : Z) (full : bool) (e : attempt_event) (old : option conn_state) :
    option conn_state :=
  match e, old with
  | Started, _ => Some (ConnState now 0 1 0)
  | Retransmitted, None => Some (ConnState now now 2 0)
  | Retransmitted, Some st =>
      let st := retried now st in
      Some (if overdue st && negb full then store_established st else st)
  | Established, _ => store_established <$> old
  | Sent, None => Some (ConnState now now 1 0)
  | Sent, Some st => Some (retried now st)
  end.

Definition drop_of (now : Z) (key : conn_attempt) (st : conn_state) : policy_drop :=
  {| pd_timestamp := u64_of now; pd_inum := ca_inum key; pd_saddr := ca_saddr key;
     pd_daddr := ca_daddr key; pd_sport := ca_sport key; pd_dport := ca_dport key;
     pd_protocol := 6; pd_syn_retries := syn_count st |}.

Definition attempt_report (now : Z) (full : bool) (key : conn_attempt) (e : attempt_event)
    (old : option conn_state) : list policy_drop :=
  match e, old with
  | Retransmitted, Some st =>
      let st := retried now st in
      if overdue st && negb full then [drop_of now key st] else []
  | _, _ => []
  end.

(** The events of one connection: when, whether the ring buffer was full, and what. *)
Definition attempt_history : Type := list (Z * bool * attempt_event).

Definition attempt_run (l : attempt_history) (old : option conn_state) : option conn_state :=
  foldl (λ st '(now, full, e), attempt_step now full e st) old l.

Fixpoint attempt_reports (key : conn_attempt) (l : attempt_history) (old : option conn_state) :
    list policy_drop :=
  match l with
  | [] => []
  | (now, full, e) :: l =>
      attempt_report now full key e old ++ attempt_reports key l (attempt_step now full e old)
  end.

(** The connection an event is about. *)
Definition drop_key (e : policy_drop) : conn_attempt :=
  {| ca_inum := pd_inum e; ca_saddr := pd_saddr e; ca_daddr := pd_daddr e; ca_sport := pd_sport e;
     ca_dport := pd_dport e; ca_protocol := pd_protocol e; ca_pad := 0 |}.

Section NetpolicySpec.
Context `{BpfKernelLaws}.
Implicit Types (s : drop_state) (h : helper_maps) (c : kctx) (key : conn_attempt).

(** ** What a hook observes *)

Definition sock_state c (sk : Z) : Z :=
  le_combine (core_read c sk [["__sk_common"; "skc_state"]] (sizeof u8)).

Definition drop_hook_kctx (hk : drop_hook) : kctx :=
  match hk with
  | OnRetransmit c _ _ _ | OnConnect c _ _ _ | OnSetState c _ _ | OnUdpSend c _ _ _ => c
  end.

(** The socket is tracked and its addresses are interesting. *)
Definition socket_passes h c (sk : Z) : bool :=
  socket_tracked h c sk && negb (skc_filtered h (read_sock_common c sk)).

Definition hook_attempt h (hk : drop_hook) : option (conn_attempt * attempt_event) :=
  let key c sk protocol := attempt_key (sock_inum c sk) (read_sock_common c sk) protocol in
  match hk with
  | OnRetransmit c sk _ _ =>
      if socket_passes h c sk && (sock_state c sk =? TCP_SYN_SENT)
      then Some (key c sk 6, Retransmitted) else None
  | OnConnect c sk _ _ => if socket_passes h c sk then Some (key c sk 6, Started) else None
  | OnSetState c sk state =>
      if socket_tracked h c sk && (state =? TCP_ESTABLISHED)
      then Some (key c sk 6, Established) else None
  | OnUdpSend c sk _ _ => if socket_passes h c sk then Some (key c sk 17, Sent) else None
  end.

(** ** The map operations of a hook, behind its checks *)

Definition attempt_effect c key (e : attempt_event) : Bpf drop_state Z :=
  let now := bpf_ktime_get_ns c in
  match e with
  | Started => _ ← on_tracking (bpf_map_update_elem key (ConnState now 0 1 0)); mret 0
  | Retransmitted =>
      state_ptr ← on_tracking (bpf_map_lookup_elem key);
      match state_ptr with
      | None => _ ← on_tracking (bpf_map_update_elem key (ConnState now now 2 0)); mret 0
      | Some st =>
          _ ← on_tracking (update_state (bpf_map_modify key (store_last_syn_time now)));
          _ ← on_tracking (update_state (bpf_map_modify key incr_syn_count));
          st ← deref key st;
          if overdue st then
            evt ← on_drop_events (bpf_ringbuf_reserve (sizeof policy_drop_event));
            match evt with
            | None => mret 0
            | Some evt =>
                st ← deref key st;
                let evt := fill_policy_drop now (ca_inum key) key (syn_count st) evt in
                _ ← on_drop_events (update_state (bpf_ringbuf_submit evt));
                _ ← on_tracking (update_state (bpf_map_modify key store_established));
                mret 0
            end
          else mret 0
      end
  | Established =>
      state_ptr ← on_tracking (bpf_map_lookup_elem key);
      match state_ptr with
      | None => mret 0
      | Some _ => _ ← on_tracking (update_state (bpf_map_modify key store_established)); mret 0
      end
  | Sent =>
      state_ptr ← on_tracking (bpf_map_lookup_elem key);
      match state_ptr with
      | None => _ ← on_tracking (bpf_map_update_elem key (ConnState now now 1 0)); mret 0
      | Some _ =>
          _ ← on_tracking (update_state (bpf_map_modify key (store_last_syn_time now)));
          _ ← on_tracking (update_state (bpf_map_modify key incr_syn_count));
          mret 0
      end
  end.

Definition attempt_effect_opt c (o : option (conn_attempt * attempt_event)) : Bpf drop_state Z :=
  match o with Some (key, e) => attempt_effect c key e | None => mret 0 end.

Lemma on_tracking_run {A : Type}
    (m : Bpf (bpf_map connection_tracking_def conn_attempt conn_state) A) s :
  on_tracking m s =
  (fst (m (connection_tracking s)), set_connection_tracking (snd (m (connection_tracking s))) s).
Proof. apply zoom_run. Qed.

Lemma on_drop_events_run {A : Type} (m : Bpf (ringbuf policy_drop_events_size) A) s :
  on_drop_events m s =
  (fst (m (policy_drop_events s)), set_policy_drop_events (snd (m (policy_drop_events s))) s).
Proof. apply zoom_run. Qed.

Lemma set_nd_helper_same s : set_nd_helper (nd_helper s) s = s.
Proof. by destruct s. Qed.

(** Every hook is its checks, which change nothing but the order of the LRU lists, followed by the
    effect of the event it observed. *)
Lemma run_drop_hook_effect (hk : drop_hook) s :
  ∃ h', h' ≡ nd_helper s ∧
    run_drop_hook hk s =
    attempt_effect_opt (drop_hook_kctx hk) (hook_attempt (nd_helper s) hk) (set_nd_helper h' s).
Proof.
  destruct hk as [c sk skb segs|c sk uaddr len|c sk state|c sk msg len]; simpl;
    unfold trace_tcp_retransmit, trace_tcp_connect, trace_tcp_state_change, trace_udp_send,
      socket_passes.
  all: destruct (sk =? 0) eqn:Hsk;
    [exists (nd_helper s); unfold socket_tracked; by rewrite Hsk, set_nd_helper_same|].
  3: destruct (state =? TCP_ESTABLISHED); simpl;
    [|exists (nd_helper s); by rewrite andb_false_r, set_nd_helper_same].
  all: step_check_inum nd_helper set_nd_helper h1 Hh1.
  all: destruct (socket_tracked (nd_helper s) c sk); simpl; [|by exists h1].
  3: by exists h1.
  all: step_check_filter nd_helper set_nd_helper (nd_helper s) h2 Hh2; exists h2; (split; [done|]).
  all: destruct (skc_filtered _ _); simpl; [done|].
  - unfold sock_state. by destruct (_ =? TCP_SYN_SENT).
  - done.
  - done.
Qed.

(** ** The effect of one event *)

(** The ring buffer after an event. *)
Definition attempt_ring (now : Z) key (e : attempt_event) (old : option conn_state)
    (rb : ringbuf policy_drop_events_size) : ringbuf policy_drop_events_size :=
  match e, old with
  | Retransmitted, Some st =>
      let st := retried now st in
      if overdue st
      then send_record policy_drop_event
             (fill_policy_drop now (ca_inum key) key (syn_count st)) rb
      else rb
  | _, _ => rb
  end.

(** [m] has the contents of [s], with the element of [key] updated to [new]. *)
Definition tracks (m : bpf_map connection_tracking_def conn_attempt conn_state) s key
    (new : option conn_state) : Prop :=
  ∀ k, bpf_map_peek m k =
       if decide (k = key) then new else bpf_map_peek (connection_tracking s) k.

(** No more than [ks] connections are tracked, and [ks] fits the map. *)
Definition tracked_within (ks : list conn_attempt) s : Prop :=
  Z.of_nat (length ks) < max_entries connection_tracking_def ∧
  ∀ k, is_Some (bpf_map_peek (connection_tracking s) k) → k ∈ ks.

Lemma tracks_update ks key (v : conn_state) s
    (m : bpf_map connection_tracking_def conn_attempt conn_state) :
  tracked_within ks s → (∀ k, bpf_map_peek m k = bpf_map_peek (connection_tracking s) k) →
  tracks (snd (bpf_map_update_elem key v m)) s key (Some v).
Proof.
  intros [Hlen Hks] Hm.
  destruct (update_elem_room key v m ks) as [H1 H2]; [|done|].
  { intros k. rewrite Hm. apply Hks. }
  intros k. case_decide as Hk; [subst; by apply update_elem_ok|]. by rewrite H2, Hm.
Qed.

Lemma tracks_modify key s (m : bpf_map connection_tracking_def conn_attempt conn_state)
    (f : conn_state → conn_state) (st : conn_state) :
  tracks m s key (Some st) → tracks (bpf_map_modify key f m) s key (Some (f st)).
Proof.
  intros Hm k. rewrite map_modify_peek, Hm. by repeat case_decide.
Qed.

Lemma tracks_lookup key s :
  tracks (snd (bpf_map_lookup_elem key (connection_tracking s))) s key
    (bpf_map_peek (connection_tracking s) key).
Proof. intros k. rewrite lookup_elem_peek. case_decide; by subst. Qed.

Record after_event c key (e : attempt_event) s s' : Prop := {
  ae_helper : nd_helper s' = nd_helper s;
  ae_tracking :
    tracks (connection_tracking s') s key
      (attempt_step (bpf_ktime_get_ns c) (ring_full policy_drop_event (policy_drop_events s)) e
         (bpf_map_peek (connection_tracking s) key));
  ae_ring :
    policy_drop_events s' =
    attempt_ring (bpf_ktime_get_ns c) key e (bpf_map_peek (connection_tracking s) key)
      (policy_drop_events s)
}.

Lemma deref_run {A : Type} key (st st' : conn_state) (k : conn_state → Bpf drop_state A) s s' :
  tracks (connection_tracking s') s key (Some st') → (x ← deref key st; k x) s' = k st' s'.
Proof. intros Hm. rewrite bpf_bind_run. simpl. by rewrite Hm, decide_True. Qed.

(** A report, from the test to the mark. *)
Lemma report_run c key (st0 st : conn_state) s s' :
  let now := bpf_ktime_get_ns c in
  let full := ring_full policy_drop_event (policy_drop_events s) in
  let r :=
    (st ← deref key st0;
     if overdue st then
       evt ← on_drop_events (bpf_ringbuf_reserve (sizeof policy_drop_event));
       match evt with
       | None => mret 0
       | Some evt =>
           st ← deref key st;
           let evt := fill_policy_drop now (ca_inum key) key (syn_count st) evt in
           _ ← on_drop_events (update_state (bpf_ringbuf_submit evt));
           _ ← on_tracking (update_state (bpf_map_modify key store_established));
           mret 0
       end
     else mret 0) s' in
  nd_helper s' = nd_helper s → policy_drop_events s' = policy_drop_events s →
  tracks (connection_tracking s') s key (Some st) →
  fst r = 0 ∧ nd_helper (snd r) = nd_helper s ∧
  tracks (connection_tracking (snd r)) s key
    (Some (if overdue st && negb full then store_established st else st)) ∧
  policy_drop_events (snd r) =
    if overdue st
    then send_record policy_drop_event (fill_policy_drop now (ca_inum key) key (syn_count st))
           (policy_drop_events s)
    else policy_drop_events s.
Proof.
  intros now full r Hh Hr Hm. unfold r. rewrite (deref_run key st0 st _ s) by done.
  unfold full, ring_full, send_record.
  destruct (overdue st); simpl; [|done].
  rewrite bpf_bind_run, on_drop_events_run. simpl. rewrite Hr.
  destruct (bpf_ringbuf_reserve _ (policy_drop_events s)) as [[evt|] rb]; simpl; [|done].
  rewrite (Hm key), decide_True by done. split_and!; [done|done| |done].
  by apply tracks_modify.
Qed.

(** An event that inserts or replaces the record of its connection. *)
Definition inserts (e : attempt_event) (old : option conn_state) : Prop :=
  e = Started ∨ e ≠ Established ∧ old = None.

Lemma attempt_effect_run c key (e : attempt_event) ks s :
  (inserts e (bpf_map_peek (connection_tracking s) key) → tracked_within ks s) →
  fst (attempt_effect c key e s) = 0 ∧ after_event c key e s (snd (attempt_effect c key e s)).
Proof.
  intros Hw. pose proof (tracks_lookup key s) as Hl.
  set (m := snd (bpf_map_lookup_elem key (connection_tracking s))) in *.
  assert (∀ k, bpf_map_peek m k = bpf_map_peek (connection_tracking s) k) as Hm
    by (intros; apply lookup_elem_peek).
  destruct e; simpl; rewrite bpf_bind_run, on_tracking_run; simpl; fold m.
  1: { split; [done|]. split; [done| |done]. apply (tracks_update ks); [by apply Hw; left|done]. }
  all: rewrite lookup_elem_value.
  - destruct (bpf_map_peek (connection_tracking s) key) as [st|] eqn:Hst; simpl.
    2: { rewrite bpf_bind_run, on_tracking_run. split; [done|].
         split; simpl; rewrite ?Hst; [done| |done].
         apply (tracks_update ks); [by apply Hw; right|done]. }
    rewrite bpf_bind_run, on_tracking_run. simpl.
    rewrite bpf_bind_run, on_tracking_run. simpl.
    match goal with |- fst ?r = 0 ∧ after_event _ _ _ _ (snd ?r) =>
      pose proof (report_run c key st (retried (bpf_ktime_get_ns c) st) s
        (snd (on_tracking (update_state (bpf_map_modify key incr_syn_count))
           (snd (on_tracking (update_state (bpf_map_modify key
              (store_last_syn_time (bpf_ktime_get_ns c))))
             (set_connection_tracking m s)))))) as Hrep
    end.
    destruct Hrep as (Hz&Hh&Ht&Hr); [done|done| |].
    { by apply (tracks_modify _ _ _ incr_syn_count), tracks_modify. }
    split; [done|]. split; rewrite ?Hst; done.
  - destruct (bpf_map_peek (connection_tracking s) key) as [st|] eqn:Hst; simpl.
    + split; [done|]. split; simpl; rewrite ?Hst; [done| |done]. by apply tracks_modify.
    + split; [done|]. split; simpl; rewrite ?Hst; done.
  - destruct (bpf_map_peek (connection_tracking s) key) as [st|] eqn:Hst; simpl.
    + split; [done|].
      split; simpl; rewrite ?Hst; [done| |done].
      by apply (tracks_modify _ _ _ incr_syn_count), tracks_modify.
    + rewrite bpf_bind_run, on_tracking_run. split; [done|].
      split; simpl; rewrite ?Hst; [done| |done].
      apply (tracks_update ks); [by apply Hw; right|done].
Qed.

(** ** The reports of one event *)

Lemma policy_drop_event_size : sizeof policy_drop_event = 40.
Proof. reflexivity. Qed.

Definition key_ok key : Prop :=
  0 ≤ ca_inum key < 2 ^ 64 ∧ 0 ≤ ca_saddr key < 2 ^ 32 ∧ 0 ≤ ca_daddr key < 2 ^ 32 ∧
  0 ≤ ca_sport key < 2 ^ 16 ∧ 0 ≤ ca_dport key < 2 ^ 16.

Lemma attempt_key_ok c (sk protocol : Z) :
  key_ok (attempt_key (sock_inum c sk) (read_sock_common c sk) protocol).
Proof.
  unfold key_ok, attempt_key. simpl.
  split; [apply sock_inum_range|].
  split; [by apply (load_member_range struct_sock_common ["skc_rcv_saddr"] 4 __be32)|].
  split; [by apply (load_member_range struct_sock_common ["skc_daddr"] 0 __be32)|].
  split; [by apply (load_member_range struct_sock_common ["skc_num"] 14 __u16)|].
  apply skc_dport_range, read_sock_common_object.
Qed.

Lemma hook_attempt_ok h (hk : drop_hook) key (e : attempt_event) :
  hook_attempt h hk = Some (key, e) →
  key_ok key ∧ (e = Retransmitted → ca_protocol key = 6 ∧ ca_pad key = 0).
Proof.
  destruct hk; simpl; case_match; intros [= <- <-]; (split; [apply attempt_key_ok|done]).
Qed.

Lemma decode_fill_policy_drop (now inum retries : Z) key (evt : list byte) :
  is_object policy_drop_event evt →
  decode_policy_drop (fill_policy_drop now inum key retries evt) =
  {| pd_timestamp := u64_of now; pd_inum := u64_of inum; pd_saddr := u32_of (ca_saddr key);
     pd_daddr := u32_of (ca_daddr key); pd_sport := u16_of (ca_sport key);
     pd_dport := u16_of (ca_dport key); pd_protocol := 6; pd_syn_retries := u32_of retries |}.
Proof.
  intros He. unfold decode_policy_drop, fill_policy_drop. f_equal; by load_members.
Qed.

Lemma fill_policy_drop_object (now inum retries : Z) key (evt : list byte) :
  is_object policy_drop_event evt →
  is_object policy_drop_event (fill_policy_drop now inum key retries evt).
Proof. intros He. unfold fill_policy_drop. solve_object. Qed.

Lemma after_event_drops c key (e : attempt_event) s s' :
  key_ok key → after_event c key e s s' →
  drops s' = drops s ++
    attempt_report (bpf_ktime_get_ns c) (ring_full policy_drop_event (policy_drop_events s)) key e
      (bpf_map_peek (connection_tracking s) key).
Proof.
  intros (?&?&?&?&?) Ha. unfold drops. rewrite (ae_ring _ _ _ _ _ Ha).
  destruct e; simpl; rewrite ?app_nil_r; try done.
  destruct (bpf_map_peek (connection_tracking s) key) as [st|]; [|by rewrite app_nil_r].
  destruct (overdue _); simpl; [|by rewrite app_nil_r].
  erewrite (send_record_decoded policy_drop_event _ decode_policy_drop
    (drop_of (bpf_ktime_get_ns c) key (retried (bpf_ktime_get_ns c) st))); [|done|].
  - by destruct (ring_full _ _).
  - intros evt Hevt. rewrite decode_fill_policy_drop by done.
    unfold drop_of. f_equal; apply wrap_small; auto. apply u32_succ_range.
Qed.

(** ** Runs *)

(** Whether the ring buffer was full when each hook of a run started. *)
Fixpoint ring_flags (hks : list drop_hook) s : list bool :=
  match hks with
  | [] => []
  | hk :: hks =>
      ring_full policy_drop_event (policy_drop_events s) ::
      ring_flags hks (exec (run_drop_hook hk) s)
  end.

(** The events of the connection [k] in a run. *)
Fixpoint own_history h (k : conn_attempt) (hks : list drop_hook) (fulls : list bool) :
    attempt_history :=
  match hks, fulls with
  | hk :: hks, full :: fulls =>
      match hook_attempt h hk with
      | Some (key, e) =>
          if decide (key = k)
          then (bpf_ktime_get_ns (drop_hook_kctx hk), full, e) :: own_history h k hks fulls
          else own_history h k hks fulls
      | None => own_history h k hks fulls
      end
  | _, _ => []
  end.

(** The connections of a run fit the map together with those tracked before. *)
Definition run_fits h (ks : list conn_attempt) (hks : list drop_hook) s : Prop :=
  tracked_within ks s ∧
  Forall (λ hk, ∀ key e, hook_attempt h hk = Some (key, e) → key ∈ ks) hks.

Lemma hook_attempt_equiv h h' (hk : drop_hook) : h ≡ h' → hook_attempt h hk = hook_attempt h' hk.
Proof.
  intros Hh. unfold hook_attempt, socket_passes.
  destruct hk; by rewrite ?(socket_tracked_equiv h h'), ?(skc_filtered_equiv h h').
Qed.

(** One invocation: nothing, or one event of one connection. *)
Lemma run_drop_hook_run h ks (hk : drop_hook) s :
  nd_helper s ≡ h → tracked_within ks s →
  fst (run_drop_hook hk s) = 0 ∧
  ∃ h', h' ≡ h ∧
    match hook_attempt h hk with
    | None => exec (run_drop_hook hk) s = set_nd_helper h' s
    | Some (key, e) =>
        after_event (drop_hook_kctx hk) key e (set_nd_helper h' s) (exec (run_drop_hook hk) s)
    end.
Proof.
  intros Hh Hw. unfold exec. destruct (run_drop_hook_effect hk s) as (h'&Hh'&->).
  rewrite (hook_attempt_equiv _ h) by done.
  destruct (hook_attempt h hk) as [[key e]|]; simpl.
  - destruct (attempt_effect_run (drop_hook_kctx hk) key e ks (set_nd_helper h' s)) as [??]; [by intros|].
    split; [done|]. exists h'. split; [by etrans|done].
  - split; [done|]. exists h'. split; [by etrans|done].
Qed.

Lemma run_drop_hook_within h ks (hk : drop_hook) s :
  nd_helper s ≡ h → tracked_within ks s → (∀ key e, hook_attempt h hk = Some (key, e) → key ∈ ks) →
  nd_helper (exec (run_drop_hook hk) s) ≡ h ∧ tracked_within ks (exec (run_drop_hook hk) s).
Proof.
  intros Hh Hw Hk. destruct (run_drop_hook_run h ks hk s Hh Hw) as (_&h'&Hh'&Hs).
  destruct (hook_attempt h hk) as [[key e]|].
  - split; [by rewrite (ae_helper _ _ _ _ _ Hs)|]. split; [apply Hw|].
    intros k. rewrite (ae_tracking _ _ _ _ _ Hs). case_decide; [subst; eauto|apply Hw].
  - rewrite Hs. by split.
Qed.

End NetpolicySpec.
