(* ===== verification/NetpolicyThms.v ===== *)
(** * Theorems about the policy-drop probe *)

From S2P Require Import Prelude CLayout CLayoutFacts VmlinuxBase VmlinuxSock LayoutThms BpfEnv LruKernel.
From S2P Require Import RingBuffer Helper NetpolicyDrop Fixtures NetpolicySpec.

(** The map key has bytes that no member covers, in spite of [_pad]. *)
Lemma conn_attempt_padding : sizeof conn_attempt_type = 24 ∧ padding_bytes conn_attempt_type = 2.
Proof. by split. Qed.

(** ** One connection, by its history *)

Definition retransmissions (l : list (Z * bool)) : attempt_history :=
  (λ '(now, full), (now, full, Retransmitted)) <$> l.

Definition no_restart (l : attempt_history) : Prop := Forall (λ x, x.2 ≠ Started) l.

Definition restarts (l : attempt_history) : nat := length (filter (λ x, x.2 = Started) l).

Lemma restarts_cons (x : Z * bool * attempt_event) (l : attempt_history) :
  restarts (x :: l) = ((if decide (x.2 = Started) then 1 else 0) + restarts l)%nat.
Proof. unfold restarts, attempt_history in *. rewrite filter_cons. by case_decide. Qed.

Lemma attempt_reports_app key (l l' : attempt_history) (old : option conn_state) :
  attempt_reports key (l ++ l') old =
  attempt_reports key l old ++ attempt_reports key l' (attempt_run l old).
Proof.
  revert old. induction l as [|[[now full] e] l IH]; intros old; simpl; [done|].
  by rewrite IH, app_assoc.
Qed.

Definition drop_at (now : Z) (key : conn_attempt) (retries : Z) : policy_drop :=
  {| pd_timestamp := u64_of now; pd_inum := ca_inum key; pd_saddr := ca_saddr key;
     pd_daddr := ca_daddr key; pd_sport := ca_sport key; pd_dport := ca_dport key;
     pd_protocol := 6; pd_syn_retries := retries |}.

(** A settled connection is silent until it restarts. *)
Lemma settled_silent key (l : attempt_history) (st : conn_state) :
  established st = 1 → no_restart l → attempt_reports key l (Some st) = [].
Proof.
  intros Hst Hl. revert st Hst. induction Hl as [|[[now full] e] l He Hl IH]; intros st Hst; [done|].
  assert (∀ st', established st' = 1 → overdue st' = false) as Ho.
  { intros st' Hs. unfold overdue. by rewrite Hs, andb_false_r. }
  destruct e; simpl in *; rewrite ?Ho by done; simpl; try done; by apply IH.
Qed.

(** An open connection counts its retransmissions, and is reported at the first one from the fourth
    SYN on at which the ring buffer has room. *)
Lemma overdue_reported key (l : list (Z * bool)) (now n : Z) (post : attempt_history)
    (st : conn_state) :
  syn_count st = n → 0 ≤ n → established st = 0 →
  3 ≤ n + Z.of_nat (length l) < 2 ^ 32 - 1 →
  (∀ i x, l !! i = Some x → 3 ≤ n + Z.of_nat i → snd x = true) → no_restart post →
  attempt_reports key (retransmissions l ++ (now, false, Retransmitted) :: post) (Some st) =
  [drop_at now key (n + Z.of_nat (length l) + 1)].
Proof.
  revert st n. induction l as [|[t full] l IH]; intros st n Hn Hn0 Hst Hlen Hfull Hpost; simpl in *.
  - unfold overdue. simpl. rewrite Hst, Hn, u32_succ_small by lia. simpl.
    rewrite (proj2 (Z.leb_le 4 (n + 1))) by lia. simpl. rewrite settled_silent by done.
    unfold drop_of, drop_at. simpl. rewrite Hn, u32_succ_small by lia. by rewrite Z.add_0_r.
  - assert (overdue (retried t st) && negb full = false) as Ho.
    { unfold overdue. simpl. rewrite Hn, u32_succ_small by lia.
      destruct (Z.leb_spec 4 (n + 1)); [|done].
      assert (full = true) as -> by (apply (Hfull 0%nat (t, full)); [done|lia]).
      by rewrite andb_false_r. }
    rewrite Ho. simpl. rewrite (IH _ (n + 1)); simpl; try done.
    + unfold drop_at. do 2 f_equal. lia.
    + rewrite Hn. apply u32_succ_small. lia.
    + lia.
    + lia.
    + intros i x Hx Hi. apply (Hfull (S i) x Hx). lia.
Qed.

(** An open connection is silent before the fourth SYN. *)
Lemma early_silent key (l : list (Z * bool)) (st : conn_state) :
  0 ≤ syn_count st → syn_count st + Z.of_nat (length l) ≤ 3 →
  attempt_reports key (retransmissions l) (Some st) = [].
Proof.
  revert st. induction l as [|[t full] l IH]; intros st H0 Hl; simpl in *; [done|].
  assert (overdue (retried t st) = false) as Ho.
  { unfold overdue. simpl. rewrite u32_succ_small by lia.
    by rewrite (proj2 (Z.leb_gt 4 _)) by lia. }
  rewrite Ho. simpl. apply IH; simpl; rewrite u32_succ_small by lia; lia.
Qed.

Lemma no_restart_retransmissions (l : list (Z * bool)) : no_restart (retransmissions l).
Proof. unfold no_restart, retransmissions. apply Forall_fmap, Forall_true. by intros [? ?]. Qed.

(** With room in the ring buffer: one report, at the retransmission that makes four SYNs. *)
Lemma retransmissions_reports key (ts : list Z) (n : Z) (st : conn_state) :
  syn_count st = n → 0 ≤ n ≤ 3 → established st = 0 →
  attempt_reports key (retransmissions ((λ t, (t, false)) <$> ts)) (Some st) =
  match ts !! Z.to_nat (3 - n) with Some t => [drop_at t key 4] | None => [] end.
Proof.
  intros Hn Hr Hst. destruct (ts !! Z.to_nat (3 - n)) as [t|] eqn:Ht.
  - rewrite <- (take_drop_middle ts (Z.to_nat (3 - n)) t Ht) at 1. unfold retransmissions.
    rewrite !fmap_app, !fmap_cons. fold (retransmissions ((λ t, (t, false)) <$> take (Z.to_nat (3 - n)) ts)).
    apply lookup_lt_Some in Ht.
    assert (length (take (Z.to_nat (3 - n)) ts) = Z.to_nat (3 - n)) as Hlen
      by (rewrite length_take; lia).
    rewrite (overdue_reported key _ t n); try done; rewrite ?length_fmap, ?Hlen.
    + unfold drop_at. do 2 f_equal. lia.
    + lia.
    + lia.
    + intros i x Hx%lookup_lt_Some Hi. rewrite length_fmap, Hlen in Hx. lia.
    + apply no_restart_retransmissions.
  - apply lookup_ge_None in Ht. apply early_silent; rewrite ?length_fmap; lia.
Qed.

(** A connection that may still be reported. *)
Definition unsettled (old : option conn_state) : nat :=
  match old with Some st => if established st =? 0 then 1 else 0 | None => 1 end.

(** Between two restarts there is one report at most. *)
Lemma reports_per_restart key (l : attempt_history) (old : option conn_state) :
  (length (attempt_reports key l old) ≤ restarts l + unsettled old)%nat.
Proof.
  revert old. induction l as [|[[now full] e] l IH]; intros old; [simpl; lia|].
  rewrite restarts_cons. simpl. rewrite length_app. specialize (IH (attempt_step now full e old)).
  destruct e; destruct old as [st|]; simpl in *; try lia;
    try (destruct (established st =? 0); lia).
  unfold overdue in *. simpl in *.
  destruct (4 <=? _), (established st =? 0) eqn:He, full; simpl in *; rewrite ?He in IH; lia.
Qed.

Section Helpers.
Context `{BpfKernelLaws}.
Implicit Types (s : drop_state) (h : helper_maps) (c : kctx) (key : conn_attempt).

(** ** Runs, connection by connection *)

Definition own_drops (k : conn_attempt) (l : list policy_drop) : list policy_drop :=
  filter (λ e, drop_key e = k) l.

Lemma own_drops_report (now : Z) (full : bool) key (e : attempt_event) (old : option conn_state)
    (k : conn_attempt) :
  (e = Retransmitted → ca_protocol key = 6 ∧ ca_pad key = 0) →
  own_drops k (attempt_report now full key e old) =
  if decide (key = k) then attempt_report now full key e old else [].
Proof.
  intros Hk. unfold own_drops. destruct e; simpl; try by case_decide.
  destruct old as [st|]; simpl; [|by case_decide]. case_match; [|by case_decide].
  assert (drop_key (drop_of now key (retried now st)) = key) as Hd.
  { destruct key, (Hk eq_refl) as [Hp Hq]. simpl in *. by rewrite Hp, Hq. }
  rewrite filter_cons, Hd. by case_decide.
Qed.

Lemma run_own_history h ks (k : conn_attempt) (hks : list drop_hook) s :
  nd_helper s ≡ h → run_fits h ks hks s →
  let l := own_history h k hks (ring_flags hks s) in
  let old := bpf_map_peek (connection_tracking s) k in
  bpf_map_peek (connection_tracking (run_drop_hooks hks s)) k = attempt_run l old ∧
  own_drops k (drops (run_drop_hooks hks s)) = own_drops k (drops s) ++ attempt_reports k l old.
Proof.
  revert s. induction hks as [|hk hks IH]; intros s Hh [Hw Hf]; simpl.
  { split; [done|]. by rewrite app_nil_r. }
  apply Forall_cons in Hf as [Hhk Hf].
  destruct (run_drop_hook_within h ks hk s Hh Hw Hhk) as [Hh1 Hw1].
  destruct (IH _ Hh1 (conj Hw1 Hf)) as [IHm IHd]. clear IH.
  change (foldl _ _ hks) with (run_drop_hooks hks (exec (run_drop_hook hk) s)).
  rewrite IHm, IHd. clear IHm IHd.
  destruct (run_drop_hook_run h ks hk s Hh Hw) as (_&h'&Hh'&Hs).
  destruct (hook_attempt h hk) as [[key e]|] eqn:Hat; [|by rewrite Hs].
  destruct (hook_attempt_ok h hk key e Hat) as [Hok Hr].
  pose proof (ae_tracking _ _ _ _ _ Hs k) as Hm.
  pose proof (after_event_drops _ _ _ _ _ Hok Hs) as Hd. simpl in Hm, Hd.
  rewrite Hm, Hd. unfold own_drops at 1. rewrite filter_app.
  fold (own_drops k (drops (set_nd_helper h' s))).
  fold (own_drops k (attempt_report (bpf_ktime_get_ns (drop_hook_kctx hk))
    (ring_full policy_drop_event (policy_drop_events s)) key e
    (bpf_map_peek (connection_tracking s) key))).
  rewrite own_drops_report by done.
  destruct (decide (key = k)) as [->|Hne].
  - rewrite decide_True by done. simpl. by rewrite <- app_assoc.
  - rewrite decide_False by done. by rewrite app_nil_r.
Qed.

Lemma run_drop_hooks_within h ks (hks : list drop_hook) s :
  nd_helper s ≡ h → run_fits h ks hks s →
  nd_helper (run_drop_hooks hks s) ≡ h ∧ tracked_within ks (run_drop_hooks hks s).
Proof.
  revert s. induction hks as [|hk hks IH]; intros s Hh [Hw Hf]; simpl; [done|].
  apply Forall_cons in Hf as [Hhk Hf].
  destruct (run_drop_hook_within h ks hk s Hh Hw Hhk). by apply IH.
Qed.

(** While there is room for one record per hook, the ring buffer is never full. *)
Lemma run_drop_hook_ring h ks (hk : drop_hook) s (n : nat) :
  nd_helper s ≡ h → tracked_within ks s →
  ring_accepts policy_drop_event (S n) (policy_drop_events s) →
  ring_accepts policy_drop_event n (policy_drop_events (exec (run_drop_hook hk) s)).
Proof.
  intros Hh Hw Ha. destruct (run_drop_hook_run h ks hk s Hh Hw) as (_&h'&_&Hs).
  destruct (hook_attempt h hk) as [[key e]|]; [|rewrite Hs; by apply ring_accepts_S].
  rewrite (ae_ring _ _ _ _ _ Hs). simpl. unfold attempt_ring.
  repeat case_match; try by apply ring_accepts_S.
  apply ring_accepts_send; [done| |done]. intros ?. apply fill_policy_drop_object.
Qed.

Lemma ring_flags_room h ks (hks : list drop_hook) s :
  nd_helper s ≡ h → run_fits h ks hks s →
  ring_accepts policy_drop_event (length hks) (policy_drop_events s) →
  ring_flags hks s = replicate (length hks) false.
Proof.
  revert s. induction hks as [|hk hks IH]; intros s Hh [Hw Hf] Ha; simpl in *; [done|].
  apply Forall_cons in Hf as [Hhk Hf].
  destruct (run_drop_hook_within h ks hk s Hh Hw Hhk) as [Hh1 Hw1].
  f_equal; [by eapply ring_accepts_not_full|]. apply IH; [done|by split|].
  by eapply run_drop_hook_ring.
Qed.

(** Fresh connects start nothing. *)
Lemma fresh_no_restart h (k : conn_attempt) (hks : list drop_hook) (fulls : list bool) :
  Forall (λ hk, match hk with
                | OnConnect c sk _ _ => skc_member "skc_daddr" (read_sock_common c sk) = 0
                | _ => True
                end) hks →
  no_restart (own_history h k hks fulls).
Proof.
  intros Hc. revert fulls. induction Hc as [|hk hks Hk Hc IH]; intros [|full fulls]; simpl;
    try by constructor.
  destruct (hook_attempt h hk) as [[key e]|] eqn:Hat; [|apply IH].
  case_decide; [|apply IH]. constructor; [|apply IH]. simpl. intros ->.
  destruct hk as [c sk ? ?|c sk ? ?|c sk ?|c sk ? ?]; simpl in Hat; case_match eqn:Hp; try done.
  unfold socket_passes, skc_filtered, filtered, filter_ref, uninteresting in Hp.
  rewrite Hk in Hp. simpl in Hp. by rewrite !orb_true_r, andb_false_r in Hp.
Qed.

(** ** Soundness of the reports *)

Definition drop_sound h (e : policy_drop) : Prop :=
  pd_protocol e = 6 ∧ 4 ≤ pd_syn_retries e < 2 ^ 32 ∧ tracked h (pd_inum e) = true ∧
  filtered h (pd_saddr e) (pd_daddr e) = false.

Lemma report_sound h (hk : drop_hook) key (e : attempt_event) (now : Z) (full : bool)
    (old : option conn_state) :
  hook_attempt h hk = Some (key, e) → Forall (drop_sound h) (attempt_report now full key e old).
Proof.
  intros Hat. destruct e, old as [st|]; simpl; try constructor.
  case_match eqn:Ho; [|constructor]. apply Forall_singleton.
  apply andb_true_iff in Ho as [[Ho%Z.leb_le _]%andb_true_iff _].
  pose proof (u32_succ_range (syn_count st)) as Hr.
  destruct hk; simpl in Hat; case_match eqn:Hc; try done. injection Hat as <-.
  apply andb_true_iff in Hc as [[[_ Ht]%andb_true_iff Hf%negb_true_iff]%andb_true_iff _].
  unfold drop_sound. simpl in *. split_and!; [done|done|lia|done|done].
Qed.

Lemma run_sound h ks (hks : list drop_hook) s :
  nd_helper s ≡ h → run_fits h ks hks s → Forall (drop_sound h) (drops s) →
  Forall (drop_sound h) (drops (run_drop_hooks hks s)).
Proof.
  revert s. induction hks as [|hk hks IH]; intros s Hh [Hw Hf] Hs; simpl; [done|].
  apply Forall_cons in Hf as [Hhk Hf].
  destruct (run_drop_hook_within h ks hk s Hh Hw Hhk) as [Hh1 Hw1].
  apply IH; [done|by split|]. destruct (run_drop_hook_run h ks hk s Hh Hw) as (_&h'&Hh'&He).
  destruct (hook_attempt h hk) as [[key e]|] eqn:Hat; [|by rewrite He].
  destruct (hook_attempt_ok h hk key e Hat) as [Hok _].
  rewrite (after_event_drops _ _ _ _ _ Hok He). apply Forall_app. split; [done|].
  by eapply report_sound.
Qed.

End Helpers.

(** ** Theorems *)

Section Theorems.
Context `{BpfKernelLaws}.
Implicit Types (s : drop_state) (h : helper_maps) (c : kctx) (k : conn_attempt).

(** The events of a connection in a run whose ring buffer always has room. *)
Definition calm_history h k (hks : list drop_hook) : attempt_history :=
  own_history h k hks (replicate (length hks) false).

(** C7: [netpolicy_drop.bpf.c] refines one machine per connection.  After any run, the record of a
    connection and the drops reported about it are those of its machine over its own events, however
    the hooks of the other connections are interleaved, as long as the connections fit the map. *)
Theorem drops_per_connection h ks k (hks : list drop_hook) s :
  nd_helper s ≡ h → run_fits h ks hks s →
  let l := own_history h k hks (ring_flags hks s) in
  let old := bpf_map_peek (connection_tracking s) k in
  bpf_map_peek (connection_tracking (run_drop_hooks hks s)) k = attempt_run l old ∧
  own_drops k (drops (run_drop_hooks hks s)) = own_drops k (drops s) ++ attempt_reports k l old.
Proof. apply run_own_history. Qed.

(** C10: a blocked connection is reported exactly once, at the third retransmission of its SYN, with
    4 as the number of SYNs sent, the first included; before that it is not.  This holds whether or not
    the connect hook saw the connection, for any number of further retransmissions and whatever other
    connections do, when the map holds no earlier record of the connection, the connections fit the map
    and the ring buffer has room. *)
Theorem blocked_connection_reported_once h ks k (hks : list drop_hook) s
    (start : attempt_history) (ts : list Z) :
  nd_helper s ≡ h → run_fits h ks hks s →
  ring_accepts policy_drop_event (length hks) (policy_drop_events s) →
  bpf_map_peek (connection_tracking s) k = None →
  start = [] ∨ (∃ t0, start = [(t0, false, Started)]) →
  calm_history h k hks = start ++ retransmissions ((λ t, (t, false)) <$> ts) →
  own_drops k (drops (run_drop_hooks hks s)) =
  own_drops k (drops s) ++ match ts !! 2%nat with Some t => [drop_at t k 4] | None => [] end.
Proof.
  intros Hh Hf Ha Hold Hstart Hl.
  destruct (run_own_history h ks k hks s Hh Hf) as [_ Hd]. simpl in Hd.
  rewrite (ring_flags_room h ks hks s Hh Hf Ha), Hold in Hd. unfold calm_history in Hl.
  rewrite Hl in Hd. rewrite Hd. f_equal. destruct Hstart as [-> | [t0 ->]]; simpl.
  - destruct ts as [|t1 ts]; simpl; [done|]. by rewrite (retransmissions_reports k ts 2).
  - by rewrite (retransmissions_reports k ts 1).
Qed.

(** a report that the ring buffer refuses is retried at the next retransmission.  If the ring
    buffer is full at every retransmission from the fourth SYN on, and user space then makes room,
    the drop is reported once, at the next retransmission, with the number of SYNs sent by then. *)
Theorem refused_drop_is_retried h ks k (hks hks' : list drop_hook) s
    (rb : ringbuf policy_drop_events_size) (t0 now : Z) (full0 : bool) (l : list (Z * bool))
    (post : attempt_history) :
  let s1 := run_drop_hooks hks s in
  let s2 := set_policy_drop_events rb s1 in
  nd_helper s ≡ h → run_fits h ks (hks ++ hks') s →
  ringbuf_records rb = ringbuf_records (policy_drop_events s1) →
  own_history h k hks (ring_flags hks s) = (t0, full0, Started) :: retransmissions l →
  own_history h k hks' (ring_flags hks' s2) = (now, false, Retransmitted) :: post →
  2 ≤ Z.of_nat (length l) < 2 ^ 32 - 2 →
  (∀ i x, l !! i = Some x → (2 ≤ i)%nat → snd x = true) → no_restart post →
  own_drops k (drops (run_drop_hooks hks' s2)) =
  own_drops k (drops s) ++ [drop_at now k (Z.of_nat (length l) + 2)].
Proof.
  intros s1 s2 Hh [Hw [Hf Hf']%Forall_app] Hrb Hl Hl' Hlen Hfull Hpost.
  destruct (run_own_history h ks k hks s Hh (conj Hw Hf)) as [Hm Hd].
  destruct (run_drop_hooks_within h ks hks s Hh (conj Hw Hf)) as [Hh1 Hw1].
  destruct (run_own_history h ks k hks' s2 Hh1 (conj Hw1 Hf')) as [_ ->].
  assert (drops s2 = drops s1) as -> by (unfold drops; simpl; by rewrite Hrb).
  unfold s2. simpl. fold s1 in Hm, Hd. rewrite Hd, Hm, <- app_assoc, <- attempt_reports_app.
  fold s2. rewrite Hl, Hl'. simpl. f_equal.
  rewrite (overdue_reported k l now 1); try done.
  - unfold drop_at. do 2 f_equal. lia.
  - lia.
  - intros i x Hx Hi. apply (Hfull i x Hx). lia.
Qed.

(** an answered connection is never reported afterwards, until it starts again. *)
Theorem answered_connection_not_reported h ks k (hks : list drop_hook) s (pre post : attempt_history)
    (t : Z) (full : bool) :
  nd_helper s ≡ h → run_fits h ks hks s →
  own_history h k hks (ring_flags hks s) = pre ++ (t, full, Established) :: post →
  is_Some (attempt_run pre (bpf_map_peek (connection_tracking s) k)) → no_restart post →
  own_drops k (drops (run_drop_hooks hks s)) =
  own_drops k (drops s) ++ attempt_reports k pre (bpf_map_peek (connection_tracking s) k).
Proof.
  intros Hh Hf Hl [st Hst] Hpost.
  destruct (run_own_history h ks k hks s Hh Hf) as [_ ->]. rewrite Hl, attempt_reports_app, Hst.
  simpl. by rewrite settled_silent, app_nil_r.
Qed.

(** no duplicates.  A connection is reported at most once per time it starts, and once more if it
    was not settled before the run. *)
Theorem drops_bounded_by_restarts h ks k (hks : list drop_hook) s :
  nd_helper s ≡ h → run_fits h ks hks s →
  (length (own_drops k (drops (run_drop_hooks hks s))) ≤
   length (own_drops k (drops s)) + restarts (own_history h k hks (ring_flags hks s)) +
   unsettled (bpf_map_peek (connection_tracking s) k))%nat.
Proof.
  intros Hh Hf. destruct (run_own_history h ks k hks s Hh Hf) as [_ ->]. rewrite length_app.
  pose proof (reports_per_restart k (own_history h k hks (ring_flags hks s))
    (bpf_map_peek (connection_tracking s) k)). lia.
Qed.

(** soundness of the drops.  Every drop reported is about TCP, in a namespace that user space
    registered, between two addresses that pass the filter, after four SYNs at least; in particular
    the UDP entries of the map are never reported. *)
Theorem drops_are_sound h ks (hks : list drop_hook) s (e : policy_drop) :
  nd_helper s ≡ h → run_fits h ks hks s → drops s = [] → e ∈ drops (run_drop_hooks hks s) →
  drop_sound h e.
Proof.
  intros Hh Hf Hs He. eapply Forall_forall; [|done].
  apply (run_sound h ks); [done|done|]. rewrite Hs. constructor.
Qed.

(** the connect hook of a fresh socket does nothing.  [tcp_v4_connect] is entered before the
    kernel stores the destination in the socket, so the hook reads 0 there, and 0 is filtered. *)
Theorem fresh_connect_is_ignored c (sk uaddr addr_len : Z) s :
  skc_member "skc_daddr" (read_sock_common c sk) = 0 →
  let '(r, s') := trace_tcp_connect c sk uaddr addr_len s in
  r = 0 ∧ ∃ h', h' ≡ nd_helper s ∧ s' = set_nd_helper h' s.
Proof.
  intros Hd. destruct (run_drop_hook_effect (OnConnect c sk uaddr addr_len) s) as (h'&Hh&Hr).
  simpl in Hr. rewrite Hr. unfold socket_passes. unfold skc_filtered, filtered, filter_ref.
  rewrite Hd. unfold uninteresting at 2. simpl. rewrite orb_true_r, andb_false_r. simpl.
  split; [done|]. by exists h'.
Qed.

(** a settled connection stays settled.  As fresh connects are ignored, when a later socket
    reuses the addresses and ports of a connection that was answered or reported, its own
    blocked SYNs are never reported for as long as the old record stays in the map. *)
Theorem reused_connection_not_reported h ks k (hks : list drop_hook) s (st : conn_state) :
  nd_helper s ≡ h → run_fits h ks hks s →
  bpf_map_peek (connection_tracking s) k = Some st → established st = 1 →
  Forall (λ hk, match hk with
                | OnConnect c sk _ _ => skc_member "skc_daddr" (read_sock_common c sk) = 0
                | _ => True
                end) hks →
  own_drops k (drops (run_drop_hooks hks s)) = own_drops k (drops s).
Proof.
  intros Hh Hf Hst He Hc. destruct (run_own_history h ks k hks s Hh Hf) as [_ ->].
  rewrite Hst, settled_silent, app_nil_r; [done|done|]. by apply fresh_no_restart.
Qed.

(** every hook of [netpolicy_drop.bpf.c], on every branch.  It returns 0; unless its checks pass
    it changes nothing but the order of the LRU lists; when they do, it updates the record of one
    connection by one step of its machine, leaves the other records alone, and touches the ring buffer
    only to report an overdue connection. *)
Theorem netpolicy_hooks_correct ks (hk : drop_hook) s :
  tracked_within ks s →
  let s' := exec (run_drop_hook hk) s in
  result (run_drop_hook hk) s = 0 ∧ nd_helper s' ≡ nd_helper s ∧
  match hook_attempt (nd_helper s) hk with
  | None =>
      connection_tracking s' = connection_tracking s ∧ policy_drop_events s' = policy_drop_events s
  | Some (key, e) =>
      let now := bpf_ktime_get_ns (drop_hook_kctx hk) in
      let full := ring_full policy_drop_event (policy_drop_events s) in
      let old := bpf_map_peek (connection_tracking s) key in
      (∀ k, bpf_map_peek (connection_tracking s') k =
            if decide (k = key) then attempt_step now full e old
            else bpf_map_peek (connection_tracking s) k) ∧
      policy_drop_events s' = attempt_ring now key e old (policy_drop_events s)
  end.
Proof.
  intros Hw s'. destruct (run_drop_hook_run (nd_helper s) ks hk s) as (Hz&h'&Hh'&Hs); [done|done|].
  fold s' in Hs. split; [done|].
  destruct (hook_attempt (nd_helper s) hk) as [[key e]|].
  - destruct Hs as [Hh Ht Hr]. split; [by rewrite Hh|]. split; [exact Ht|exact Hr].
  - by rewrite Hs.
Qed.

(** the drop record round-trips.  Whatever stale bytes the ring buffer hands out (the probe never
    writes [_pad]), the bytes submitted decode to the members that were stored. *)
Theorem policy_drop_roundtrip (now inum retries : Z) k (evt : list byte) :
  0 ≤ now < 2 ^ 64 → 0 ≤ inum < 2 ^ 64 → key_ok k → 0 ≤ retries < 2 ^ 32 → length evt = 40%nat →
  decode_policy_drop (fill_policy_drop now inum k retries evt) =
  {| pd_timestamp := now; pd_inum := inum; pd_saddr := ca_saddr k; pd_daddr := ca_daddr k;
     pd_sport := ca_sport k; pd_dport := ca_dport k; pd_protocol := 6; pd_syn_retries := retries |}.
Proof.
  intros ?? (?&?&?&?&?) ? Hl.
  rewrite decode_fill_policy_drop by (unfold is_object; by rewrite Hl).
  f_equal; by apply wrap_small.
Qed.

End Theorems.

(** * At concrete runs *)

#[local] Existing Instance lru_kernel.
#[local] Existing Instance lru_kernel_laws.

(** The socket of a client in namespace 7, which sends SYNs from 10.0.0.1:50000 to 10.0.0.2:443. *)
Definition syn (now : Z) : kctx := fix_ctx now 42 0 7 (fix_skc ip1 ip2 be443 50000 2 2).
(** The same socket before the kernel has stored the destination. *)
Definition fresh (now : Z) : kctx := fix_ctx now 42 0 7 (fix_skc ip1 0 0 0 2 7).
(** Another client of the same namespace, which talks to 10.0.0.3. *)
Definition other (now : Z) : kctx := fix_ctx now 43 1 7 (fix_skc ip1 ip3 be443 50001 2 2).

Definition wit_key : conn_attempt := ConnAttempt 7 ip1 ip2 50000 443 6 0.
Definition other_key : conn_attempt := ConnAttempt 7 ip1 ip3 50001 443 6 0.
Definition udp_key : conn_attempt := ConnAttempt 7 ip1 ip3 50001 443 17 0.

Definition wit_keys : list conn_attempt := [wit_key; other_key; udp_key].
Definition wit_drop : drop_state := fix_drop [7].

Lemma fix_drop_within (inums : list Z) (ks : list conn_attempt) :
  Z.of_nat (length ks) < 16384 → tracked_within ks (fix_drop inums).
Proof. intros Hk. split; [done|]. by intros k []. Qed.

Lemma fix_drop_accepts (n : nat) (inums : list Z) :
  Z.of_nat n ≤ 5461 → ring_accepts policy_drop_event n (policy_drop_events (fix_drop inums)).
Proof.
  intros Hn. apply lru_ring_accepts; [done|]. change (ring_used _) with 0.
  change (record_space _) with 48. unfold policy_drop_events_size. lia.
Qed.

Definition keys_in (h : helper_maps) (ks : list conn_attempt) (hks : list drop_hook) : bool :=
  forallb (λ hk, match hook_attempt h hk with
                 | Some (key, _) => bool_decide (key ∈ ks)
                 | None => true
                 end) hks.

Lemma fix_drop_fits (ks : list conn_attempt) (hks : list drop_hook) (s : drop_state) :
  tracked_within ks s → keys_in (nd_helper s) ks hks = true → run_fits (nd_helper s) ks hks s.
Proof.
  intros Hw Hk. split; [done|]. apply Forall_forall. intros hk Hin key e He.
  unfold keys_in in Hk. rewrite forallb_forall in Hk.
  apply list_elem_of_In, Hk in Hin. rewrite He in Hin. by apply bool_decide_eq_true in Hin.
Qed.

(** Five SYNs of the client, between packets of the other one. *)
Definition wit_blocked : list drop_hook :=
  [OnRetransmit (syn 100) 1 1 1; OnUdpSend (other 110) 2 1 1; OnRetransmit (syn 120) 1 1 1;
   OnRetransmit (other 130) 2 1 1; OnRetransmit (syn 140) 1 1 1; OnRetransmit (syn 150) 1 1 1].

Lemma wit_blocked_fits : run_fits (nd_helper wit_drop) wit_keys wit_blocked wit_drop.
Proof. apply fix_drop_fits; [by apply fix_drop_within|by vm_compute]. Qed.

Lemma drops_per_connection_witness :
  let s' := run_drop_hooks wit_blocked wit_drop in
  bpf_map_peek (connection_tracking s') wit_key = Some (ConnState 100 150 5 1) ∧
  own_drops wit_key (drops s') = [drop_at 140 wit_key 4].
Proof.
  exact (drops_per_connection (nd_helper wit_drop) wit_keys wit_key wit_blocked wit_drop
    (reflexivity _) wit_blocked_fits).
Defined.

Lemma blocked_connection_reported_once_witness :
  own_drops wit_key (drops (run_drop_hooks wit_blocked wit_drop)) = [drop_at 140 wit_key 4].
Proof.
  apply (blocked_connection_reported_once (nd_helper wit_drop) wit_keys wit_key wit_blocked wit_drop
    [] [100; 120; 140; 150]); [done|apply wit_blocked_fits| |done|by left|by vm_compute].
  by apply fix_drop_accepts.
Defined.

(** The ring buffer is full during the first five retransmissions, and has room at the sixth. *)
Definition wit_refused : list drop_hook :=
  [OnConnect (syn 90) 1 1 1; OnRetransmit (syn 100) 1 1 1; OnRetransmit (syn 110) 1 1 1;
   OnRetransmit (syn 120) 1 1 1; OnRetransmit (syn 130) 1 1 1; OnRetransmit (syn 140) 1 1 1].

Lemma refused_drop_is_retried_witness :
  own_drops wit_key
    (drops (run_drop_hooks [OnRetransmit (syn 150) 1 1 1]
       (set_policy_drop_events (Ring [] [] 0) (run_drop_hooks wit_refused (fix_full_drop [7]))))) =
  [drop_at 150 wit_key 7].
Proof.
  apply (refused_drop_is_retried (nd_helper wit_drop) wit_keys wit_key wit_refused
    [OnRetransmit (syn 150) 1 1 1] (fix_full_drop [7]) (Ring [] [] 0) 90 150 true
    [(100, true); (110, true); (120, true); (130, true); (140, true)] []);
    [done| |done|by vm_compute|by vm_compute|done| |constructor].
  - apply (fix_drop_fits wit_keys _ (fix_full_drop [7])); [|by vm_compute].
    split; [done|by intros ? []].
  - intros i x Hx _. by repeat (destruct i as [|i]; [by injection Hx as <-|]).
Defined.

(** Answered after its second SYN: later segments are retransmitted in another state, and a SYN
    with the same addresses and ports is not reported. *)
Definition wit_answered : list drop_hook :=
  [OnRetransmit (syn 100) 1 1 1; OnSetState (syn 110) 1 1; OnRetransmit (syn 200) 3 1 1;
   OnRetransmit (syn 210) 3 1 1; OnRetransmit (syn 220) 3 1 1; OnRetransmit (syn 230) 3 1 1].

Lemma wit_answered_fits : run_fits (nd_helper wit_drop) wit_keys wit_answered wit_drop.
Proof. apply fix_drop_fits; [by apply fix_drop_within|by vm_compute]. Qed.

Lemma answered_connection_not_reported_witness :
  own_drops wit_key (drops (run_drop_hooks wit_answered wit_drop)) = [].
Proof.
  apply (answered_connection_not_reported (nd_helper wit_drop) wit_keys wit_key wit_answered wit_drop
    [(100, false, Retransmitted)]
    (retransmissions [(200, false); (210, false); (220, false); (230, false)]) 110 false);
    [done|apply wit_answered_fits|by vm_compute|by eexists|apply no_restart_retransmissions].
Defined.

Lemma drops_bounded_by_restarts_witness :
  (length (own_drops wit_key (drops (run_drop_hooks wit_blocked wit_drop))) ≤ 1)%nat.
Proof.
  apply (drops_bounded_by_restarts (nd_helper wit_drop) wit_keys wit_key wit_blocked wit_drop);
    [done|apply wit_blocked_fits].
Defined.

Lemma drops_are_sound_witness : drop_sound (nd_helper wit_drop) (drop_at 140 wit_key 4).
Proof.
  apply (drops_are_sound (nd_helper wit_drop) wit_keys wit_blocked wit_drop);
    [done|apply wit_blocked_fits|done|].
  apply list_elem_of_lookup. exists 0%nat. by vm_compute.
Defined.

Lemma fresh_connect_is_ignored_witness :
  let '(r, s') := trace_tcp_connect (fresh 90) 1 1 1 wit_drop in
  r = 0 ∧ ∃ h', h' ≡ nd_helper wit_drop ∧ s' = set_nd_helper h' wit_drop.
Proof. apply (fresh_connect_is_ignored (fresh 90) 1 1 1 wit_drop). by vm_compute. Defined.

(** The port of the answered connection is reused by a socket whose SYNs are blocked. *)
Definition wit_reused : list drop_hook :=
  [OnConnect (fresh 300) 4 1 1; OnRetransmit (syn 310) 4 1 1; OnRetransmit (syn 320) 4 1 1;
   OnRetransmit (syn 330) 4 1 1; OnRetransmit (syn 340) 4 1 1].

Definition wit_settled : drop_state := run_drop_hooks wit_answered wit_drop.

Lemma wit_settled_within : tracked_within wit_keys wit_settled.
Proof.
  exact (proj2 (run_drop_hooks_within (nd_helper wit_drop) wit_keys wit_answered wit_drop
    (reflexivity _) wit_answered_fits)).
Qed.

Lemma reused_connection_not_reported_witness :
  own_drops wit_key (drops (run_drop_hooks wit_reused wit_settled)) =
  own_drops wit_key (drops wit_settled).
Proof.
  refine (reused_connection_not_reported (nd_helper wit_settled) wit_keys wit_key wit_reused
    wit_settled (ConnState 100 230 6 1) _ _ _ _ _).
  - reflexivity.
  - apply fix_drop_fits; [apply wit_settled_within|by vm_compute].
  - vm_compute. reflexivity.
  - reflexivity.
  - repeat (apply Forall_cons; split; [vm_compute; first [exact I|reflexivity]|]). apply Forall_nil.
    exact I.
Defined.

Lemma netpolicy_hooks_correct_witness :
  result (run_drop_hook (OnRetransmit (syn 100) 1 1 1)) wit_drop = 0.
Proof.
  exact (proj1 (netpolicy_hooks_correct wit_keys (OnRetransmit (syn 100) 1 1 1) wit_drop
    (fix_drop_within [7] wit_keys eq_refl))).
Defined.

Lemma policy_drop_roundtrip_witness :
  decode_policy_drop (fill_policy_drop 140 7 wit_key 4 (replicate 40 Byte.xff)) = drop_at 140 wit_key 4.
Proof.
  apply (policy_drop_roundtrip 140 7 4 wit_key (replicate 40 Byte.xff)); try done.
Defined.
