(* ===== verification/FullMaps.v ===== *)
(** * The probes when their maps are full

    [connections], [tcp_ctx] and [connection_tracking] are LRU maps: when one is full, an insertion evicts
    elements of any key, and may be refused.  Here no bound on what is tracked is assumed.  The connection
    probe refines an observer that may forget; the policy-drop probe refines the machine of each
    connection, which may be started over at any moment.  From this: the connection probe still misses
    nothing and invents nothing, and the policy-drop probe raises no alarm before its time. *)

From S2P Require Import Prelude CLayout CLayoutFacts BpfEnv LruKernel RingBuffer VmlinuxBase VmlinuxSock.
From S2P Require Import Helper NetworkProbe NetworkProbeFacts NetworkProbeSpec NetworkProbeThms.
From S2P Require Import Fixtures NetworkProbeWitness.
From S2P Require NetpolicyDrop NetpolicySpec NetpolicyThms.

(** * The connection probe *)

(** ** An observer that forgets *)

(** Some accepts in progress and some flows are forgotten; what has been sent stays. *)
Record forgets (o o' : observer) : Prop := {
  fg_accepting : ob_accepting o' ⊆ ob_accepting o;
  fg_seen : ob_seen o' ⊆ ob_seen o;
  fg_out : ob_out o' = ob_out o
}.

#[export] Instance forgets_refl : Reflexive forgets.
Proof. by intros o. Qed.

Section Observes.
Context `{BpfKernel}.

(** A run of the observer.  [dropped] tells whether the ring buffer refused what a hook may have sent; the
    observer may forget between any two hooks, and the entry of an accept may be refused. *)
Inductive observes (h : helper_maps) : list bool → list probe_hook → observer → observer → Prop :=
| observes_nil o : observes h [] [] o o
| observes_forget dropped hks o o1 o' :
    forgets o o1 → observes h dropped hks o1 o' → observes h dropped hks o o'
| observes_hook d dropped hk hks o o' :
    observes h dropped hks (observe h d hk o) o' → observes h (d :: dropped) (hk :: hks) o o'
| observes_refused d dropped c sk hks o o' :
    observes h dropped hks o o' → observes h (d :: dropped) (AcceptEntry c sk :: hks) o o'.

(** Whether the ring buffer was full when each hook of a run started. *)
Fixpoint hook_flags (hks : list probe_hook) (s : probe_state) : list bool :=
  match hks with
  | [] => []
  | hk :: hks => ring_full network_event_data (network_events s) :: hook_flags hks (exec (run_hook hk) s)
  end.

(** The flow that a hook observes whatever is tracked: that of a datagram or of a state change. *)
Definition direct_flow (h : helper_maps) (hk : probe_hook) : option flow :=
  match hk with
  | UdpSendmsg c sk _ _ => udp_flow h c sk
  | TcpSetState c sk state => tcp_flow h c sk state
  | _ => None
  end.

(** The relation of [refines], where the maps may hold less than the observer knows. *)
Record almost (h : helper_maps) (s : probe_state) (o : observer) : Prop := {
  al_helper : np_helper s ≡ h;
  al_accepting tid :
    (∀ cpu, tc_inum <$> percpu_peek (tcp_ctx s) cpu tid = (λ f, f cpu) <$> ob_accepting o !! tid) ∨
    (∀ cpu, percpu_peek (tcp_ctx s) cpu tid = None);
  al_seen k : is_Some (bpf_map_peek (connections s) k) → k ∈ ob_seen o;
  al_out : reported s = ob_out o;
  al_inum tid f cpu : ob_accepting o !! tid = Some f → 0 ≤ f cpu < 2 ^ 64
}.

End Observes.

Section Full.
Context `{BpfKernelLaws}.
Implicit Types (s : probe_state) (h : helper_maps) (c : kctx) (fl : flow) (o : observer).

(** What the maps have lost, the observer forgets. *)
Lemma almost_refines h s o : almost h s o → ∃ o', forgets o o' ∧ refines h s o'.
Proof.
  intros [Hh Hacc Hseen Hout Hin].
  set (kept := filter (λ x : Z * (Z → Z), is_Some (percpu_peek (tcp_ctx s) 0 x.1)) (ob_accepting o)).
  assert (∀ tid, kept !! tid = if decide (is_Some (percpu_peek (tcp_ctx s) 0 tid))
                               then ob_accepting o !! tid else None) as Hkept.
  { intros tid. unfold kept. case_decide as Hd.
    - destruct (ob_accepting o !! tid) as [f|] eqn:Hf.
      + by apply map_lookup_filter_Some.
      + apply map_lookup_filter_None. by left.
    - apply map_lookup_filter_None. right. intros f _. simpl. done. }
  exists (Observer kept (filter (λ k, is_Some (bpf_map_peek (connections s) k)) (ob_seen o)) (ob_out o)).
  split; split; simpl; try done.
  - apply map_filter_subseteq.
  - intros k. set_solver.
  - intros cpu tid. rewrite Hkept. destruct (Hacc tid) as [Ht|Ht]; [|by rewrite !Ht].
    case_decide as Hd; [done|]. specialize (Ht 0) as Ht0. rewrite Ht.
    apply eq_None_not_Some in Hd. rewrite Hd in Ht0. simpl in Ht0. by destruct (ob_accepting o !! tid).
  - intros k. rewrite elem_of_filter. split; [eauto|by intros [? _]].
  - intros tid f cpu. rewrite Hkept. case_decide; [apply Hin|done].
Qed.

Lemma refines_almost h s o : refines h s o → almost h s o.
Proof. intros [? Hacc Hseen ? ?]. split; try done; [by left; intros|]. intros k. apply Hseen. Qed.

Lemma announced_almost h c fl s s' o :
  refines h s o → flow_ok fl → announced c fl s s' →
  almost h s' (saw (ring_full network_event_data (network_events s)) fl o).
Proof.
  intros Hr Hfl Ha. pose proof (announced_reported c fl s s' Hfl Ha) as Hout.
  pose proof (rf_seen _ _ _ Hr (fl_key fl)) as Hseen. destruct Hr as [Hh Hacc Hs Ho Hin]. unfold saw.
  destruct (bpf_map_peek (connections s) (fl_key fl)) as [st|] eqn:Hst; simpl in Hout.
  - rewrite decide_True by (apply Hseen; eauto).
    apply (an_known _ _ _ _ Ha) in Hst as [_ Hk]. split; rewrite ?(an_ctx _ _ _ _ Ha).
    + by rewrite (an_helper _ _ _ _ Ha).
    + intros tid. left. intros cpu. apply Hacc.
    + intros k. rewrite Hk. case_decide as Hd; [|apply Hs]. subst k. intros _. apply Hseen. eauto.
    + by rewrite Hout, app_nil_r.
    + done.
  - rewrite decide_False by (rewrite <- Hseen; by intros []).
    apply (an_fresh _ _ _ _ Ha) in Hst as [_ (m&Hm&Hc)]. split; simpl; rewrite ?(an_ctx _ _ _ _ Ha).
    + by rewrite (an_helper _ _ _ _ Ha).
    + intros tid. left. intros cpu. apply Hacc.
    + intros k. rewrite Hc, elem_of_union, elem_of_singleton.
      destruct (decide (k = fl_key fl)) as [->|Hne]; [by left|].
      destruct (update_elem_other (fl_key fl) k (new_conn (bpf_ktime_get_ns c)) m Hne) as [->| ->]; [|by intros []].
      rewrite Hm, Hs. by right.
    + by rewrite Hout, Ho.
    + done.
Qed.

Lemma refines_same_ctx h s o (t t' : percpu_map tcp_ctx_def Z tcp_connect_ctx) :
  refines h (set_tcp_ctx t s) o → (∀ cpu k, percpu_peek t' cpu k = percpu_peek t cpu k) →
  refines h (set_tcp_ctx t' s) o.
Proof. intros [? Hacc ? ? ?] Ht. split; simpl in *; try done. intros cpu tid. by rewrite Ht. Qed.

(** What a hook leads to: the observer forgets, observes unless the entry of an accept is refused, and
    forgets again. *)
Definition full_observed h (full : bool) (hk : probe_hook) o o' : Prop :=
  ∃ o1 o2, forgets o o1 ∧
    (o2 = observe h full hk o1 ∨ o2 = o1 ∧ ∃ c sk, hk = AcceptEntry c sk) ∧ forgets o2 o'.

Lemma full_entry h s o c (sk : Z) (full : bool) :
  refines h s o →
  ∃ o', full_observed h full (AcceptEntry c sk) o o' ∧ refines h (exec (run_hook (AcceptEntry c sk)) s) o'.
Proof.
  intros Hr. unfold exec. simpl. destruct (tcp_accept_entry_run c sk s) as (h1&Hh1&->). simpl.
  assert (refines h (set_np_helper h1 s) o) as Hr1 by by apply refines_helper.
  rewrite (socket_tracked_equiv _ h) by apply (rf_helper _ _ _ Hr).
  destruct (socket_tracked h c sk) eqn:Ht.
  2:{ exists o. split; [|done]. exists o, o. split_and!; [done|right; by eauto|done]. }
  set (cpu := bpf_get_smp_processor_id c). set (tid := u32_of (bpf_get_current_pid_tgid c)).
  set (v := {| tc_sk := 0; tc_inum := sock_inum c sk |}).
  destruct (percpu_update_any cpu tid v (tcp_ctx s)) as (m1&Hev&Hup).
  destruct (almost_refines h (set_tcp_ctx m1 (set_np_helper h1 s)) o) as (o1&Hf&Hr2).
  { destruct (refines_almost _ _ _ Hr1) as [? Hacc ? ? ?]. split; simpl in *; try done.
    intros k. destruct (Hev k) as [Hk|Hk]; [|by right]. destruct (Hacc k) as [Ha|Ha]; [left|right].
    - intros cpu'. by rewrite Hk.
    - intros cpu'. by rewrite Hk. }
  destruct Hup as [Hw|Hsame].
  - exists (observe h full (AcceptEntry c sk) o1). split.
    + exists o1, (observe h full (AcceptEntry c sk) o1). split_and!; [done|by left|done].
    + simpl. unfold hook_ctx. rewrite Ht.
      by apply (refines_written h (set_tcp_ctx m1 (set_np_helper h1 s))); [|apply sock_inum_range|].
  - exists o1. split; [exists o1, o1; split_and!; [done|right; by eauto|done]|].
    by eapply refines_same_ctx.
Qed.

Lemma full_step h s o (hk : probe_hook) :
  refines h s o →
  ∃ o', full_observed h (ring_full network_event_data (network_events s)) hk o o' ∧
    refines h (exec (run_hook hk) s) o'.
Proof.
  intros Hr. assert ((∃ c sk, hk = AcceptEntry c sk) ∨ ∀ c sk, hk ≠ AcceptEntry c sk) as [(c&sk&->)|Hne]
    by (destruct hk; naive_solver).
  { by apply full_entry. }
  destruct (run_hook_announce h s o hk Hr) as (s1&->&_&Hn&Hr1); [naive_solver|].
  set (full := ring_full network_event_data (network_events s)).
  assert (∀ o', forgets (observe h full hk o) o' → full_observed h full hk o o') as Hobs.
  { intros o' Hf. exists o, (observe h full hk o). split_and!; [done|by left|done]. }
  rewrite observe_eq in Hobs. destruct (hook_flow h hk o) as [fl|] eqn:Hfl; simpl in *.
  - destruct (announce_run (hook_kctx hk) fl s1) as [_ Ha].
    apply (announced_almost h _ _ _ _ _ Hr1) in Ha; [|eapply hook_flow_ok; [exact (refines_slots _ _ _ Hr)|done]].
    rewrite Hn in Ha. apply almost_refines in Ha as (o'&Hf&Hr'). exists o'. split; [by apply Hobs|done].
  - eexists. split; [by apply Hobs|]. done.
Qed.

Lemma slots_forgets o o' : forgets o o' → slots_ok o → slots_ok o'.
Proof. intros [Ha _ _] Hs tid f cpu Hf. eapply Hs, lookup_weaken; done. Qed.

(** An invariant that forgetting keeps holds along any run; while the ring buffer has room, it need only
    be kept by the hooks whose event is sent. *)
Lemma full_run_invariant (P : observer → Prop) (room : bool) h s o (hks : list probe_hook) :
  (∀ o o', forgets o o' → P o → P o') →
  (∀ o d hk, (room = true → d = false) → slots_ok o → P o → P (observe h d hk o)) →
  (room = true → ring_accepts network_event_data (length hks) (network_events s)) →
  refines h s o → P o → ∃ o', refines h (run_hooks hks s) o' ∧ P o'.
Proof.
  intros Hforget Hobs. revert s o. induction hks as [|hk hks IH]; intros s o Ha Hr Ho; simpl in *; [eauto|].
  destruct (full_step h s o hk Hr) as (o'&(o1&o2&Hf1&Ho2&Hf2)&Hr'). apply (IH _ o'); [|done|].
  - intros Hb. by apply run_hook_accepts, Ha.
  - apply (Hforget o2 o' Hf2). destruct Ho2 as [->|[-> _]]; [|by eapply Hforget].
    apply Hobs; [|eapply slots_forgets; [done|by eapply refines_slots]|by eapply Hforget].
    intros Hb. by eapply ring_accepts_not_full, Ha.
Qed.

Lemma sent_forgets o o' : forgets o o' → all_sent o → all_sent o'.
Proof. intros [_ Hs Hout] Ho k Hk. rewrite Hout. apply Ho, Hs, Hk. Qed.

Lemma sound_forgets h o o' : forgets o o' → observer_sound h o → observer_sound h o'.
Proof. intros [Ha _ Ho] [Hs Hi]. split; [by rewrite Ho|]. intros tid f cpu Hf. eapply Hi, lookup_weaken; done. Qed.

(** Hooks after the first sight of a flow do not take back its event. *)
Lemma sent_stays h (k : conn_key) o (d : bool) (hk : probe_hook) :
  k ∈ event_key <$> ob_out o → k ∈ event_key <$> ob_out (observe h d hk o).
Proof.
  intros Hk. rewrite observe_eq. destruct (hook_flow h hk o); simpl; [|done].
  unfold saw. case_decide; simpl; [done|]. rewrite fmap_app. set_solver.
Qed.

Lemma direct_hook_flow h (hk : probe_hook) o fl : direct_flow h hk = Some fl → hook_flow h hk o = Some fl.
Proof. by destruct hk. Qed.

Lemma run_hooks_accepts (hks : list probe_hook) s (n : nat) :
  ring_accepts network_event_data (length hks + n) (network_events s) →
  ring_accepts network_event_data (length hks) (network_events s) ∧
  ring_accepts network_event_data n (network_events (run_hooks hks s)).
Proof.
  intros Ha. split.
  - induction n as [|n IH]; [by rewrite Nat.add_0_r in Ha|]. apply IH, ring_accepts_S. by rewrite Nat.add_succ_r in Ha.
  - revert s Ha. induction hks as [|hk hks IH]; intros s Ha; simpl in *; [done|]. by apply IH, run_hook_accepts.
Qed.

Lemma full_run_sends s (pre : list probe_hook) (hk : probe_hook) (post : list probe_hook) fl :
  loaded s → ring_accepts network_event_data (length (pre ++ hk :: post)) (network_events s) →
  direct_flow (np_helper s) hk = Some fl →
  fl_key fl ∈ event_key <$> reported (run_hooks (pre ++ hk :: post) s).
Proof.
  intros Hl Ha Hfl. set (h := np_helper s) in *. rewrite length_app in Ha.
  destruct (run_hooks_accepts pre s _ Ha) as [Hpre Hpost].
  destruct (full_run_invariant all_sent true h s initial_observer pre) as (o&Hr&Hs);
    [apply sent_forgets| |done|by apply loaded_refines|by intros k ?%not_elem_of_empty|].
  { intros o d hk' Hd Hok. rewrite (Hd eq_refl). by apply observe_all_sent. }
  destruct (full_step h _ o hk Hr) as (o1&(o2&o3&Hf2&Ho3&Hf1)&Hr1).
  rewrite (ring_accepts_not_full _ _ _ Hpost) in Ho3.
  assert (fl_key fl ∈ event_key <$> ob_out o1) as Hk.
  { rewrite (fg_out _ _ Hf1). destruct Ho3 as [->|[_ (c&sk&->)]]; [|done].
    apply observe_all_sent; [eapply slots_forgets; [done|by eapply refines_slots]|by eapply sent_forgets|].
    by apply observe_sees_flow, direct_hook_flow. }
  destruct (full_run_invariant (λ o, fl_key fl ∈ event_key <$> ob_out o) false h
    (exec (run_hook hk) (run_hooks pre s)) o1 post) as (o'&Hr'&Ho'); [|by intros; apply sent_stays|done|done|done|].
  { intros o4 o5 [_ _ Hout]. by rewrite Hout. }
  replace (run_hooks (pre ++ hk :: post) s) with (run_hooks post (exec (run_hook hk) (run_hooks pre s)))
    by (unfold run_hooks; by rewrite foldl_app).
  by rewrite (rf_out _ _ _ Hr').
Qed.

(** ** Theorems *)

(** full maps refine.  Whatever the maps have lost, and whatever insertions they have refused, a run of
    the four hooks refines a run of the observer that may forget flows and accepts in progress. *)
Theorem full_maps_refine h s o (hks : list probe_hook) :
  refines h s o →
  ∃ o', observes h (hook_flags hks s) hks o o' ∧ refines h (run_hooks hks s) o'.
Proof.
  revert s o. induction hks as [|hk hks IH]; intros s o Hr; simpl; [exists o; split; [constructor|done]|].
  destruct (full_step h s o hk Hr) as (o1&(o2&o3&Hf2&Ho3&Hf1)&Hr1).
  destruct (IH _ _ Hr1) as (o'&Hobs&Hr'). exists o'. split; [|done].
  apply observes_forget with o2; [done|]. destruct Ho3 as [->|[-> (c&sk&->)]].
  - apply observes_hook. by eapply observes_forget.
  - apply observes_refused. by eapply observes_forget.
Qed.

(** C15: no flow is missed and none is invented, however many there are.  While the ring buffer has room, a
    datagram or a state change that shows a flow has an event of that flow among those sent, before it or
    for it, and every event sent is sound. *)
Theorem busy_probe_misses_nothing s (hks : list probe_hook) :
  loaded s → ring_accepts network_event_data (length hks) (network_events s) →
  let out := reported (run_hooks hks s) in
  (∀ hk fl, hk ∈ hks → direct_flow (np_helper s) hk = Some fl → fl_key fl ∈ event_key <$> out) ∧
  ∀ e, e ∈ out → event_sound (np_helper s) e.
Proof.
  intros Hl Ha out. pose proof (loaded_refines s Hl) as Hr. split.
  - intros hk fl (pre&post&->)%list_elem_of_split Hfl. by apply full_run_sends.
  - intros e He. destruct (full_run_invariant (observer_sound (np_helper s)) false (np_helper s) s initial_observer hks)
      as (o'&Hr'&[Ho _]); [apply sound_forgets| |done|done| |].
    + intros o d hk _ _. apply observe_sound.
    + split; [constructor|]. intros ???. simpl. by rewrite lookup_empty.
    + unfold out in He. rewrite (rf_out _ _ _ Hr') in He. by eapply Forall_forall.
Qed.

End Full.

(** * The policy-drop probe *)

Import NetpolicyDrop NetpolicySpec NetpolicyThms.

(** A run of the machine of one connection whose record may be lost between any two events, and whose
    restart may be refused: its events, the record before and after, and what is reported. *)
Inductive attempt_runs (key : conn_attempt) :
    attempt_history → option conn_state → option conn_state → list policy_drop → Prop :=
| runs_nil old : attempt_runs key [] old old []
| runs_lost l old new reports :
    attempt_runs key l None new reports → attempt_runs key l old new reports
| runs_event now full e l old new reports :
    attempt_runs key l (attempt_step now full e old) new reports →
    attempt_runs key ((now, full, e) :: l) old new (attempt_report now full key e old ++ reports)
| runs_refused now full l old new reports :
    attempt_runs key l old new reports →
    attempt_runs key ((now, full, Started) :: l) old new reports.

(** The retransmissions among the events of a connection. *)
Definition retransmitted (l : attempt_history) : nat := length (filter (λ x, x.2 = Retransmitted) l).

(** How many retransmissions the record of a connection stands for. *)
Definition owed (old : option conn_state) : Z :=
  match old with Some st => if established st =? 0 then syn_count st - 1 else 0 | None => 0 end.

Lemma retransmitted_cons (x : Z * bool * attempt_event) (l : attempt_history) :
  retransmitted (x :: l) = ((if decide (x.2 = Retransmitted) then 1 else 0) + retransmitted l)%nat.
Proof. unfold retransmitted, attempt_history in *. rewrite filter_cons. by case_decide. Qed.

Section FullDrops.
Context `{BpfKernelLaws}.
Implicit Types (s : drop_state) (h : helper_maps) (c : kctx) (key k : conn_attempt).

(** The record of [k] after an event of [key] is that of the machine, that of before where the restart of
    [k] was refused, or lost. *)
Definition full_after key (e : attempt_event) (now : Z) (full : bool) k (old new : option conn_state) : Prop :=
  new = None ∨ (k ≠ key ∧ new = old) ∨
  k = key ∧ (new = attempt_step now full e old ∨ e = Started ∧ new = old).

Lemma attempt_insert c key (e : attempt_event) s :
  let old := bpf_map_peek (connection_tracking s) key in
  inserts e old →
  ∃ v m, (∀ full, attempt_step (bpf_ktime_get_ns c) full e old = Some v) ∧
    (∀ k, bpf_map_peek m k = bpf_map_peek (connection_tracking s) k) ∧
    exec (attempt_effect c key e) s = set_connection_tracking (snd (bpf_map_update_elem key v m)) s.
Proof.
  intros old Hi. unfold exec. set (now := bpf_ktime_get_ns c).
  destruct e; simpl in *; rewrite bpf_bind_run, on_tracking_run; simpl; rewrite ?lookup_elem_value; fold old.
  - by exists (ConnState now 0 1 0), (connection_tracking s).
  - destruct Hi as [|[_ ->]]; [done|]. rewrite bpf_bind_run, on_tracking_run. simpl.
    eexists _, _. split; [done|]. split; [|done]. intros k. apply lookup_elem_peek.
  - by destruct Hi as [|[]].
  - destruct Hi as [|[_ ->]]; [done|]. rewrite bpf_bind_run, on_tracking_run. simpl.
    eexists _, _. split; [done|]. split; [|done]. intros k. apply lookup_elem_peek.
Qed.

(** One event of one connection, whatever room there is. *)
Lemma attempt_effect_full c key (e : attempt_event) s :
  let s' := exec (attempt_effect c key e) s in
  let now := bpf_ktime_get_ns c in
  let full := ring_full policy_drop_event (policy_drop_events s) in
  let old := bpf_map_peek (connection_tracking s) in
  key_ok key →
  nd_helper s' = nd_helper s ∧ drops s' = drops s ++ attempt_report now full key e (old key) ∧
  ∀ k, full_after key e now full k (old k) (bpf_map_peek (connection_tracking s') k).
Proof.
  intros s' now full old Hok. assert (inserts e (old key) ∨ ¬ inserts e (old key)) as [Hi|Hi].
  { unfold inserts. destruct e, (old key); naive_solver. }
  - destruct (attempt_insert c key e s Hi) as (v&m&Hv&Hm&Hs). unfold s'. rewrite Hs. split; [done|]. split.
    { unfold drops. simpl. destruct Hi as [-> |[_ ->]]; [by rewrite app_nil_r|]. destruct e; by rewrite app_nil_r. }
    intros k. simpl. unfold full_after. destruct (decide (k = key)) as [->|Hne].
    + destruct (decide (fst (bpf_map_update_elem key v m) = 0)) as [Hz|Hz].
      * right. right. split; [done|]. left. rewrite update_elem_ok by done. by rewrite Hv.
      * rewrite update_elem_fail, Hm by done. fold old. destruct Hi as [-> |[_ Hn]]; [|by left].
        right. right. auto.
    + destruct (update_elem_other key k v m Hne) as [-> | ->]; [|by left]. right. left. by rewrite Hm.
  - destruct (attempt_effect_run c key e [] s) as [_ Ha]; [done|]. fold s' in Ha. split; [apply Ha|]. split.
    + by apply after_event_drops.
    + intros k. rewrite (ae_tracking _ _ _ _ _ Ha). unfold full_after.
      case_decide as Hd; [subst k; right; right; auto|right; left; auto].
Qed.

Lemma full_hook h (hk : drop_hook) s :
  nd_helper s ≡ h →
  let s' := exec (run_drop_hook hk) s in
  let now := bpf_ktime_get_ns (drop_hook_kctx hk) in
  let full := ring_full policy_drop_event (policy_drop_events s) in
  let old := bpf_map_peek (connection_tracking s) in
  nd_helper s' ≡ h ∧
  match hook_attempt h hk with
  | None => drops s' = drops s ∧ ∀ k, bpf_map_peek (connection_tracking s') k = old k
  | Some (key, e) =>
      drops s' = drops s ++ attempt_report now full key e (old key) ∧
      ∀ k, full_after key e now full k (old k) (bpf_map_peek (connection_tracking s') k)
  end.
Proof.
  intros Hh s'. unfold s', exec. destruct (run_drop_hook_effect hk s) as (h'&Hh'&->).
  rewrite (hook_attempt_equiv _ h) by done. destruct (hook_attempt h hk) as [[key e]|] eqn:Hat; simpl.
  - destruct (hook_attempt_ok h hk key e Hat) as [Hok _].
    destruct (attempt_effect_full (drop_hook_kctx hk) key e (set_nd_helper h' s) Hok) as (Hn&Hd&Hk).
    unfold exec in *. rewrite Hn. split; [by etrans|]. by split.
  - split; [by etrans|done].
Qed.

(** ** The bound on alarms *)

(** The count of a record, if there is one, is not negative. *)
Definition counted (old : option conn_state) : Prop := if old is Some st then 0 ≤ syn_count st else True.

Lemma attempt_step_counted (now : Z) (full : bool) (e : attempt_event) (old : option conn_state) :
  counted old → counted (attempt_step now full e old).
Proof.
  assert (∀ z, 0 ≤ u32_succ z) as Hs by (intros z; pose proof (u32_succ_range z); lia).
  destruct e, old as [st|]; simpl; intros Hc; try case_match; simpl; first [apply Hs|done|lia].
Qed.

(** A report takes three retransmissions, and the record of a reported connection stands for none. *)
Lemma attempt_report_owed (now : Z) (full : bool) key (e : attempt_event) (old : option conn_state) :
  e ≠ Sent → counted old →
  3 * Z.of_nat (length (attempt_report now full key e old)) +
    Z.max 0 (owed (attempt_step now full e old)) ≤
  (if decide (e = Retransmitted) then 1 else 0) + Z.max 0 (owed old).
Proof.
  intros He Hc. destruct e; [|clear He|..|done]; [simpl; lia| |].
  - destruct old as [st|]; simpl; [|lia]. simpl in Hc. pose proof (u32_succ_le (syn_count st) Hc) as Hs.
    unfold overdue. simpl. destruct (established st =? 0) eqn:Hst; rewrite ?andb_true_r, ?andb_false_r; simpl;
      [|rewrite Hst; simpl; lia].
    destruct (4 <=? u32_succ (syn_count st)) eqn:Ho; simpl; [|rewrite Hst; simpl; lia].
    apply Z.leb_le in Ho. destruct full; simpl; [rewrite Hst|]; simpl; lia.
  - destruct old as [st|]; simpl; [|lia]. lia.
Qed.

Lemma attempt_runs_bound key (l : attempt_history) (old new : option conn_state) (reports : list policy_drop) :
  attempt_runs key l old new reports → Forall (λ x, x.2 ≠ Sent) l → counted old →
  3 * Z.of_nat (length reports) ≤ Z.of_nat (retransmitted l) + Z.max 0 (owed old).
Proof.
  intros Hr. induction Hr as [old|l old new reports Hr IH|now full e l old new reports Hr IH
    |now full l old new reports Hr IH]; intros Hl Hc; [simpl; lia|specialize (IH Hl I); simpl in *; lia|..];
    apply Forall_cons in Hl as [He Hl]; rewrite retransmitted_cons; simpl in *; [|by apply IH].
  specialize (IH Hl (attempt_step_counted now full e old Hc)). rewrite length_app.
  pose proof (attempt_report_owed now full key e old He Hc). case_decide; lia.
Qed.

(** ** Runs *)

Lemma full_after_runs k key (e : attempt_event) (now : Z) (full : bool) (l : attempt_history)
    (old mid new : option conn_state) (reports : list policy_drop) :
  full_after key e now full k old mid → attempt_runs k l mid new reports →
  attempt_runs k (if decide (key = k) then (now, full, e) :: l else l) old new
    ((if decide (key = k) then attempt_report now full key e old else []) ++ reports).
Proof.
  intros [->|[[Hne ->]|[-> Hmid]]] Hr.
  - case_decide; [subst key; by apply runs_event, runs_lost|by apply runs_lost].
  - by rewrite !decide_False by done.
  - rewrite !decide_True by done. destruct Hmid as [->|[-> ->]]; [by apply runs_event|by apply runs_refused].
Qed.

(** The retransmissions of the SYN of [k] that the hooks of a run see. *)
Definition syn_retransmits h k (hks : list drop_hook) : nat :=
  length (filter (λ hk, hook_attempt h hk = Some (k, Retransmitted)) hks).

Lemma own_retransmitted h k (hks : list drop_hook) (fulls : list bool) :
  (retransmitted (own_history h k hks fulls) ≤ syn_retransmits h k hks)%nat.
Proof.
  unfold syn_retransmits. revert fulls. induction hks as [|hk hks IH]; intros fulls; simpl; [done|].
  rewrite filter_cons. destruct fulls as [|full fulls].
  { unfold retransmitted. simpl. lia. }
  specialize (IH fulls). destruct (hook_attempt h hk) as [[key e]|] eqn:Hat; [|by case_decide].
  destruct (decide (key = k)) as [->|Hne].
  - rewrite retransmitted_cons. simpl. destruct (decide (e = Retransmitted)) as [->|He].
    + rewrite decide_True by done. simpl. lia.
    + rewrite decide_False by congruence. done.
  - by rewrite decide_False by congruence.
Qed.

Lemma own_history_tcp h k (hks : list drop_hook) (fulls : list bool) :
  ca_protocol k = 6 → Forall (λ x, x.2 ≠ Sent) (own_history h k hks fulls).
Proof.
  intros Hk. revert fulls. induction hks as [|hk hks IH]; intros [|full fulls]; simpl; try constructor.
  destruct (hook_attempt h hk) as [[key e]|] eqn:Hat; [|apply IH]. case_decide as Hd; [|apply IH].
  subst key. constructor; [|apply IH]. simpl. intros ->. destruct hk; simpl in Hat; case_match; try done.
  by injection Hat as <-.
Qed.

Lemma own_drops_app k (l l' : list policy_drop) : own_drops k (l ++ l') = own_drops k l ++ own_drops k l'.
Proof. apply filter_app. Qed.

Lemma full_run_own h k (hks : list drop_hook) s :
  nd_helper s ≡ h →
  ∃ reports,
    attempt_runs k (own_history h k hks (ring_flags hks s)) (bpf_map_peek (connection_tracking s) k)
      (bpf_map_peek (connection_tracking (run_drop_hooks hks s)) k) reports ∧
    own_drops k (drops (run_drop_hooks hks s)) = own_drops k (drops s) ++ reports.
Proof.
  revert s. induction hks as [|hk hks IH]; intros s Hh; simpl.
  { exists []. split; [constructor|by rewrite app_nil_r]. }
  change (foldl _ _ hks) with (run_drop_hooks hks (exec (run_drop_hook hk) s)).
  destruct (full_hook h hk s Hh) as [Hh1 Hhk]. destruct (IH _ Hh1) as (reports&Hr&Hd).
  destruct (hook_attempt h hk) as [[key e]|] eqn:Hat.
  - destruct Hhk as [Hdr Hk]. destruct (hook_attempt_ok h hk key e Hat) as [_ Hok].
    eexists. split; [by eapply full_after_runs|]. rewrite Hd, Hdr, own_drops_app, own_drops_report by done.
    rewrite <- app_assoc. case_decide as Heq; [by rewrite Heq|done].
  - destruct Hhk as [Hdr Hk]. exists reports. rewrite Hd, Hdr. split; [|done]. by rewrite <- Hk.
Qed.

Lemma full_run_sound h (hks : list drop_hook) s :
  nd_helper s ≡ h → Forall (drop_sound h) (drops s) → Forall (drop_sound h) (drops (run_drop_hooks hks s)).
Proof.
  revert s. induction hks as [|hk hks IH]; intros s Hh Hs; simpl; [done|].
  destruct (full_hook h hk s Hh) as [Hh1 Hhk]. apply IH; [done|].
  destruct (hook_attempt h hk) as [[key e]|] eqn:Hat; destruct Hhk as [-> _]; [|done].
  apply Forall_app. split; [done|]. by eapply report_sound.
Qed.

Lemma sound_drops_tcp h k (l : list policy_drop) :
  Forall (drop_sound h) l → ca_protocol k ≠ 6 → own_drops k l = [].
Proof.
  intros Hl Hk. unfold own_drops. induction Hl as [|e l [He _] Hl IH]; [done|].
  rewrite filter_cons, decide_False; [done|]. by intros <-.
Qed.

(** ** Theorems *)

(** [netpolicy_drop.bpf.c] when its map is full.  Whatever the map evicts and whatever insertions it
    refuses, the record of a connection and the drops reported about it are those of a run of its
    machine that may be started over between any two of its events. *)
Theorem full_maps_drops h k (hks : list drop_hook) s :
  nd_helper s ≡ h →
  ∃ reports,
    attempt_runs k (own_history h k hks (ring_flags hks s)) (bpf_map_peek (connection_tracking s) k)
      (bpf_map_peek (connection_tracking (run_drop_hooks hks s)) k) reports ∧
    own_drops k (drops (run_drop_hooks hks s)) = own_drops k (drops s) ++ reports.
Proof. apply full_run_own. Qed.

(** C16: no early alarm.  However many connections there are, whatever the map evicts and whatever the
    ring buffer refuses, each drop reported about a connection took three retransmissions of its SYN
    that no other report used, and every drop reported is sound: a TCP connection of a namespace that
    user space registered, between two addresses that pass the filter, after four SYNs at least. *)
Theorem no_early_alarm h k (hks : list drop_hook) s :
  nd_helper s ≡ h → bpf_map_peek (connection_tracking s) k = None → drops s = [] →
  (3 * length (own_drops k (drops (run_drop_hooks hks s))) ≤ syn_retransmits h k hks)%nat ∧
  Forall (drop_sound h) (drops (run_drop_hooks hks s)).
Proof.
  intros Hh Hk Hs. assert (Forall (drop_sound h) (drops (run_drop_hooks hks s))) as Hd
    by (apply full_run_sound; [done|rewrite Hs; constructor]).
  split; [|done]. destruct (decide (ca_protocol k = 6)) as [H6|H6]; [|rewrite (sound_drops_tcp h) by done; simpl; lia].
  destruct (full_run_own h k hks s Hh) as (reports&Hr&->). rewrite Hs, Hk in *.
  apply attempt_runs_bound in Hr; [|by apply own_history_tcp|done].
  pose proof (own_retransmitted h k hks (ring_flags hks s)). simpl in *. lia.
Qed.

End FullDrops.

(** * At concrete runs *)

#[local] Existing Instance lru_kernel.
#[local] Existing Instance lru_kernel_laws.

Lemma full_maps_refine_witness :
  ∃ o, observes (np_helper wit_state) (hook_flags wit_run wit_state) wit_run initial_observer o ∧
    refines (np_helper wit_state) (run_hooks wit_run wit_state) o.
Proof.
  apply (full_maps_refine (np_helper wit_state) wit_state initial_observer wit_run), fix_probe_refines.
Defined.

Lemma busy_probe_misses_nothing_witness :
  (∀ hk fl, hk ∈ wit_run → direct_flow (np_helper wit_state) hk = Some fl →
    fl_key fl ∈ event_key <$> reported (run_hooks wit_run wit_state)) ∧
  direct_flow (np_helper wit_state) (UdpSendmsg wit_client 1 1 10) = Some wit_flow.
Proof.
  split; [|by vm_compute].
  apply (busy_probe_misses_nothing wit_state wit_run); [apply fix_probe_loaded|apply wit_run_accepts].
Defined.

Lemma full_maps_drops_witness :
  ∃ reports,
    attempt_runs wit_key (own_history (nd_helper wit_drop) wit_key wit_blocked (ring_flags wit_blocked wit_drop))
      (bpf_map_peek (connection_tracking wit_drop) wit_key)
      (bpf_map_peek (connection_tracking (run_drop_hooks wit_blocked wit_drop)) wit_key) reports ∧
    own_drops wit_key (drops (run_drop_hooks wit_blocked wit_drop)) =
    own_drops wit_key (drops wit_drop) ++ reports.
Proof. apply (full_maps_drops (nd_helper wit_drop) wit_key wit_blocked wit_drop). done. Defined.

(** Four retransmissions, one drop. *)
Lemma no_early_alarm_witness :
  (3 * length (own_drops wit_key (drops (run_drop_hooks wit_blocked wit_drop))) ≤
   syn_retransmits (nd_helper wit_drop) wit_key wit_blocked)%nat ∧
  syn_retransmits (nd_helper wit_drop) wit_key wit_blocked = 4%nat.
Proof.
  split; [|by vm_compute].
  apply (no_early_alarm (nd_helper wit_drop) wit_key wit_blocked wit_drop); done.
Defined.
