(* ===== verification/ProbeReads.v ===== *)
(** * What the probes read of the kernel

    The footprint of every hook: the helpers it calls and the members of kernel structures it reads.
    The members are declared in vmlinux.h with the widths that the code gives them, and a hook depends on
    the kernel through its footprint alone. *)

From S2P Require Import Prelude CLayout CLayoutFacts BpfEnv VmlinuxBase VmlinuxSock VmlinuxNet VmlinuxTask.
From S2P Require Import LayoutThms LruKernel Helper NetworkProbe NetworkProbeSpec NetpolicyDrop NetpolicySpec.
From S2P Require Import SyscallProbe Fixtures.

(** ** Footprints *)

(** A value of a width in bytes: of a helper, of a member of the copy of the common part of the socket, or
    at the end of a path from the socket or from the current task. *)
Inductive kernel_read : Type :=
| TheClock
| ThePidTgid
| TheProcessor
| CommonMember (m : string) (width : Z)
| SockField (path : list (list string)) (width : Z)
| TaskField (path : list (list string)) (width : Z).

(** The types that vmlinux.h declares for it have that width. *)
Definition declared (r : kernel_read) : Prop :=
  match r with
  | TheClock | ThePidTgid | TheProcessor => True
  | CommonMember m w =>
      resolve struct_sock [["__sk_common"]] = Some struct_sock_common ∧
      sizeof <$> resolve struct_sock_common [[m]] = Some w
  | SockField path w => sizeof <$> resolve struct_sock path = Some w
  | TaskField path w => sizeof <$> resolve struct_task_struct path = Some w
  end.

Definition netns_field : kernel_read := SockField [["__sk_common"; "skc_net"; "net"]; ["ns"; "inum"]] (sizeof u32).
Definition state_field : kernel_read := SockField [["__sk_common"; "skc_state"]] (sizeof u8).
Definition task_netns_field : kernel_read := TaskField [["nsproxy"]; ["net_ns"]; ["ns"; "inum"]] (sizeof u32).
Definition family_member : kernel_read := CommonMember "skc_family" (sizeof u16).

(** The addresses and the ports, as wide as the fields of the keys and of the events. *)
Definition end_points : list kernel_read :=
  [CommonMember "skc_rcv_saddr" (sizeof u32); CommonMember "skc_daddr" (sizeof u32);
   CommonMember "skc_num" (sizeof u16); CommonMember "skc_dport" (sizeof u16)].

Definition hook_reads (hk : probe_hook) : list kernel_read :=
  match hk with
  | UdpSendmsg _ _ _ _ => TheClock :: netns_field :: end_points
  | TcpSetState _ _ _ => TheClock :: family_member :: netns_field :: end_points
  | AcceptEntry _ _ => [ThePidTgid; TheProcessor; netns_field]
  | AcceptExit _ _ => ThePidTgid :: TheProcessor :: TheClock :: end_points
  end.

Definition drop_hook_reads (hk : drop_hook) : list kernel_read :=
  match hk with
  | OnRetransmit _ _ _ _ => TheClock :: state_field :: netns_field :: end_points
  | OnConnect _ _ _ _ | OnUdpSend _ _ _ _ => TheClock :: netns_field :: end_points
  | OnSetState _ _ _ => netns_field :: end_points
  end.

Definition syscall_reads : list kernel_read := [task_netns_field].

(** ** What a context gives for a read *)

(** [sk] is the socket of the hook. *)
Definition fetch (c : kctx) (sk : Z) (r : kernel_read) : Z :=
  match r with
  | TheClock => bpf_ktime_get_ns c
  | ThePidTgid => bpf_get_current_pid_tgid c
  | TheProcessor => bpf_get_smp_processor_id c
  | CommonMember m _ => skc_member m (read_sock_common c sk)
  | SockField path w => le_combine (core_read c sk path w)
  | TaskField path w => le_combine (core_read c (bpf_get_current_task c) path w)
  end.

Definition agree (reads : list kernel_read) (sk : Z) (c c' : kctx) : Prop :=
  ∀ r, r ∈ reads → fetch c sk r = fetch c' sk r.

(** The socket of an invocation, and the same invocation in another context. *)
Definition hook_sock (hk : probe_hook) : Z :=
  match hk with UdpSendmsg _ sk _ _ | TcpSetState _ sk _ | AcceptEntry _ sk | AcceptExit _ sk => sk end.

Definition in_ctx (c : kctx) (hk : probe_hook) : probe_hook :=
  match hk with
  | UdpSendmsg _ sk msg len => UdpSendmsg c sk msg len
  | TcpSetState _ sk state => TcpSetState c sk state
  | AcceptEntry _ sk => AcceptEntry c sk
  | AcceptExit _ new_sk => AcceptExit c new_sk
  end.

Definition drop_hook_sock (hk : drop_hook) : Z :=
  match hk with OnRetransmit _ sk _ _ | OnConnect _ sk _ _ | OnSetState _ sk _ | OnUdpSend _ sk _ _ => sk end.

Definition drop_in_ctx (c : kctx) (hk : drop_hook) : drop_hook :=
  match hk with
  | OnRetransmit _ sk skb segs => OnRetransmit c sk skb segs
  | OnConnect _ sk uaddr addr_len => OnConnect c sk uaddr addr_len
  | OnSetState _ sk state => OnSetState c sk state
  | OnUdpSend _ sk msg len => OnUdpSend c sk msg len
  end.

(** ** Theorems *)

Lemma agree_nil (sk : Z) (c c' : kctx) : agree [] sk c c' ↔ True.
Proof. split; [done|]. by intros _ r ?%not_elem_of_nil. Qed.

Lemma agree_cons (r : kernel_read) (reads : list kernel_read) (sk : Z) (c c' : kctx) :
  agree (r :: reads) sk c c' ↔ fetch c sk r = fetch c' sk r ∧ agree reads sk c c'.
Proof. unfold agree. set_solver. Qed.

(** The equations of a hypothesis [agree reads sk c c'], rewritten in the goal. *)
Ltac rewrite_reads H :=
  unfold end_points, netns_field, state_field, task_netns_field, family_member in H;
  rewrite ?agree_cons, agree_nil in H; cbn [fetch] in H;
  repeat match type of H with
  | ?E ∧ _ => let H' := fresh in destruct H as [H' H]; rewrite ?H'; clear H'
  end.

Ltac solve_declared :=
  repeat first [apply Forall_nil_2
    | apply Forall_cons_2; [first [exact I | split; vm_compute; reflexivity | vm_compute; reflexivity]|]].

Lemma probe_reads_declared (hk : probe_hook) : Forall declared (hook_reads hk).
Proof. destruct hk; unfold hook_reads, end_points; solve_declared. Qed.

Lemma drop_reads_declared (hk : drop_hook) : Forall declared (drop_hook_reads hk).
Proof. destruct hk; unfold drop_hook_reads, end_points; solve_declared. Qed.

Lemma syscall_reads_declared : Forall declared syscall_reads.
Proof. unfold syscall_reads. solve_declared. Qed.

Section Reads.
Context `{BpfKernel}.

Lemma probe_footprint (hk : probe_hook) (c : kctx) :
  agree (hook_reads hk) (hook_sock hk) c (hook_kctx hk) → run_hook (in_ctx c hk) = run_hook hk.
Proof.
  destruct hk; cbn [hook_reads hook_sock hook_kctx in_ctx run_hook]; intros Ha;
    unfold NetworkProbe.trace_udp_send, NetworkProbe.trace_tcp_state_change, tcp_accept_entry, tcp_accept_exit,
      is_new_connection, get_and_validate_inum; cbv zeta; by rewrite_reads Ha.
Qed.

Lemma drop_footprint (hk : drop_hook) (c : kctx) :
  agree (drop_hook_reads hk) (drop_hook_sock hk) c (drop_hook_kctx hk) →
  run_drop_hook (drop_in_ctx c hk) = run_drop_hook hk.
Proof.
  destruct hk; cbn [drop_hook_reads drop_hook_sock drop_hook_kctx drop_in_ctx run_drop_hook]; intros Ha;
    unfold trace_tcp_retransmit, trace_tcp_connect, NetpolicyDrop.trace_tcp_state_change,
      NetpolicyDrop.trace_udp_send, get_and_validate_inum, attempt_key; cbv zeta; by rewrite_reads Ha.
Qed.

Lemma syscall_footprint (c c' : kctx) (ctx : list byte) :
  agree syscall_reads 0 c c' → trace_execve c ctx = trace_execve c' ctx.
Proof. intros Ha. unfold trace_execve, task_inum, syscall_reads in *; cbv zeta. by rewrite_reads Ha. Qed.

(** C39: the probes read what they mean to, and nothing else.  For each hook a few reads are listed: the
    clock, the thread, the processor, the addresses and ports of the common part of the socket, its family,
    its state, and the number of its network namespace or of the task's.  Each of them follows declared
    members and pointers of vmlinux.h to a member as wide as the code takes it; and in two contexts that
    agree on the reads of a hook, the hook returns the same and leaves the same maps and ring buffers,
    whatever else the kernel memory holds. *)
Theorem probes_read_declared_members :
  (∀ hk, Forall declared (hook_reads hk) ∧
     ∀ c s, agree (hook_reads hk) (hook_sock hk) c (hook_kctx hk) → run_hook (in_ctx c hk) s = run_hook hk s) ∧
  (∀ hk, Forall declared (drop_hook_reads hk) ∧
     ∀ c s, agree (drop_hook_reads hk) (drop_hook_sock hk) c (drop_hook_kctx hk) →
       run_drop_hook (drop_in_ctx c hk) s = run_drop_hook hk s) ∧
  Forall declared syscall_reads ∧
  (∀ c c' ctx s, agree syscall_reads 0 c c' → trace_execve c ctx s = trace_execve c' ctx s).
Proof.
  split_and!.
  - intros hk. split; [apply probe_reads_declared|]. intros c s Ha. by rewrite probe_footprint.
  - intros hk. split; [apply drop_reads_declared|]. intros c s Ha. by rewrite drop_footprint.
  - apply syscall_reads_declared.
  - intros c c' ctx s Ha. by rewrite (syscall_footprint c c').
Qed.

End Reads.

(** ** The theorem at concrete sockets *)

(** A datagram of 10.0.0.1 to port 443 of 10.0.0.2; and the same in another thread, on another processor,
    from a socket of another family and state. *)
Definition wit_reads_ctx : kctx := fix_ctx 5 77 0 4026531840 (fix_skc ip1 ip2 be443 50000 2 1).
Definition wit_reads_ctx' : kctx := fix_ctx 5 99 1 4026531840 (fix_skc ip1 ip2 be443 50000 10 7).

Definition wit_reads_udp : probe_hook := UdpSendmsg wit_reads_ctx 1 0 0.
Definition wit_reads_connect : drop_hook := OnConnect wit_reads_ctx 1 0 0.

Ltac solve_agree :=
  unfold hook_reads, drop_hook_reads, syscall_reads, end_points; rewrite ?agree_cons, agree_nil;
  split_and!; vm_compute; reflexivity.

Lemma wit_reads_agree :
  agree (hook_reads wit_reads_udp) 1 wit_reads_ctx' wit_reads_ctx ∧
  agree (drop_hook_reads wit_reads_connect) 1 wit_reads_ctx' wit_reads_ctx ∧
  agree syscall_reads 0 wit_reads_ctx' wit_reads_ctx.
Proof. split; [|split]; unfold wit_reads_udp, wit_reads_connect; solve_agree. Qed.

(** The datagram is reported. *)
Example wit_reads_event :
  reported (exec (run_hook wit_reads_udp) (fix_probe [4026531840] [])) =
  [NetworkEvent 4026531840 ip1 50000 ip2 443 3].
Proof. vm_compute. reflexivity. Qed.

Lemma probes_read_declared_members_witness :
  run_hook (in_ctx wit_reads_ctx' wit_reads_udp) (fix_probe [4026531840] []) =
    run_hook wit_reads_udp (fix_probe [4026531840] []) ∧
  run_drop_hook (drop_in_ctx wit_reads_ctx' wit_reads_connect) (fix_drop [4026531840]) =
    run_drop_hook wit_reads_connect (fix_drop [4026531840]) ∧
  trace_execve wit_reads_ctx' (fix_sys_enter 59) (fix_syscall [4026531840] []) =
    trace_execve wit_reads_ctx (fix_sys_enter 59) (fix_syscall [4026531840] []).
Proof.
  pose proof probes_read_declared_members as (Hp&Hd&_&Hs). destruct wit_reads_agree as (Hap&Had&Has).
  split; [exact (proj2 (Hp wit_reads_udp) wit_reads_ctx' _ Hap)|].
  split; [exact (proj2 (Hd wit_reads_connect) wit_reads_ctx' _ Had)|].
  exact (Hs wit_reads_ctx' wit_reads_ctx _ _ Has).
Defined.
