(* ===== verification/RustStd.v ===== *)
(** * What the Rust sources use of the standard library

    Byte order of 32-bit integers, the text of IPv4 addresses, and the trimming of ASCII text. *)

From Stdlib Require Import Ascii.
From stdpp Require Import pretty.
From S2P Require Import Prelude.

(** ** Byte order: [u32::to_be] and [u32::from_be] on a little-endian machine *)

Definition to_be32 (z : Z) : Z := le_combine (rev (le_split 4 z)).
Definition from_be32 (z : Z) : Z := to_be32 z.

Lemma from_to_be32 (z : Z) : 0 ≤ z < 2 ^ 32 → from_be32 (to_be32 z) = z.
Proof.
  intros Hz. unfold from_be32, to_be32.
  replace (le_split 4 (le_combine (rev (le_split 4 z)))) with (rev (le_split 4 z)).
  - rewrite rev_involutive, le_combine_split. by apply Z.mod_small.
  - symmetry. apply (split_le_combine' (rev (le_split 4 z)) 4). by rewrite length_rev, length_le_split.
Qed.

Lemma to_be32_range (z : Z) : 0 ≤ to_be32 z < 2 ^ 32.
Proof.
  unfold to_be32. pose proof (le_combine_bound (rev (le_split 4 z))) as Hb.
  by rewrite length_rev, length_le_split in Hb.
Qed.

Lemma to_be32_inj (a b : Z) :
  0 ≤ a < 2 ^ 32 → 0 ≤ b < 2 ^ 32 → to_be32 a = to_be32 b → a = b.
Proof. intros Ha Hb Hab. rewrite <- (from_to_be32 a), <- (from_to_be32 b) by done. by rewrite Hab. Qed.

(** ** [Ipv4Addr]: [to_string] and [parse] *)

(** Octets are numbered from the least significant. *)
Definition octet (i z : Z) : Z := z / 2 ^ (8 * i) mod 256.

Definition of_octets (a b c d : Z) : Z := a * 2 ^ 24 + b * 2 ^ 16 + c * 2 ^ 8 + d.

Definition ipv4_to_string (z : Z) : string :=
  pretty (octet 3 z) +:+ "." +:+ pretty (octet 2 z) +:+ "." +:+ pretty (octet 1 z) +:+ "." +:+
  pretty (octet 0 z).

Definition is_dot (a : ascii) : bool := Ascii.eqb a ".".

Fixpoint split_dots (s : string) : list string :=
  match s with
  | EmptyString => [EmptyString]
  | String a s =>
      if is_dot a then EmptyString :: split_dots s
      else match split_dots s with
           | w :: ws => String a w :: ws
           | [] => [String a EmptyString]
           end
  end.

Definition digit (a : ascii) : option Z :=
  let n := Z.of_N (N_of_ascii a) - 48 in
  if (0 <=? n) && (n <=? 9) then Some n else None.

Fixpoint parse_digits (acc : Z) (s : string) : option Z :=
  match s with
  | EmptyString => Some acc
  | String a s => d ← digit a; parse_digits (10 * acc + d) s
  end.

(** One to three digits, without a leading zero, at most 255. *)
Definition parse_octet (s : string) : option Z :=
  match s with
  | EmptyString => None
  | String "0" (String _ _) => None
  | _ =>
      if (String.length s <=? 3)%nat then
        n ← parse_digits 0 s; if n <=? 255 then Some n else None
      else None
  end.

Definition parse_ipv4 (s : string) : option Z :=
  match split_dots s with
  | [a; b; c; d] =>
      a ← parse_octet a; b ← parse_octet b; c ← parse_octet c; d ← parse_octet d;
      Some (of_octets a b c d)
  | _ => None
  end.

Arguments parse_ipv4 : simpl never.
Arguments ipv4_to_string : simpl never.

Fixpoint no_dot (s : string) : bool :=
  match s with EmptyString => true | String a s => negb (is_dot a) && no_dot s end.

Lemma split_dots_one (s : string) : no_dot s = true → split_dots s = [s].
Proof.
  induction s as [|a s IH]; simpl; [done|]. destruct (is_dot a); simpl; [done|].
  intros Hs. by rewrite IH.
Qed.

Lemma split_dots_app (s t : string) :
  no_dot s = true → split_dots (s +:+ "." +:+ t) = s :: split_dots t.
Proof.
  induction s as [|a s IH]; simpl; [done|]. destruct (is_dot a); simpl; [done|].
  intros Hs. unfold app in IH. by rewrite IH.
Qed.

(** Every octet prints without a dot and parses back: 256 cases. *)
Lemma octet_prints (n : Z) :
  0 ≤ n < 256 → no_dot (pretty n) = true ∧ parse_octet (pretty n) = Some n.
Proof.
  intros Hn.
  assert (forallb (λ n, no_dot (pretty n) && bool_decide (parse_octet (pretty n) = Some n))
    (seqZ 0 256) = true) as Hall by by vm_compute.
  rewrite forallb_forall in Hall. specialize (Hall n).
  apply andb_true_iff in Hall as [? Hp%bool_decide_eq_true_1]; [done|].
  apply list_elem_of_In, elem_of_seqZ. lia.
Qed.

Lemma octet_range (i z : Z) : 0 ≤ octet i z < 256.
Proof. by apply Z.mod_pos_bound. Qed.

Lemma of_octets_octet (z : Z) :
  0 ≤ z < 2 ^ 32 → of_octets (octet 3 z) (octet 2 z) (octet 1 z) (octet 0 z) = z.
Proof.
  intros Hz. unfold of_octets, octet.
  change (2 ^ (8 * 0)) with 1. change (2 ^ (8 * 1)) with 256.
  change (2 ^ (8 * 2)) with (256 * 256). change (2 ^ (8 * 3)) with (256 * 256 * 256).
  change (2 ^ 32) with (256 * 256 * 256 * 256) in Hz.
  rewrite Z.div_1_r, <- !Z.div_div by lia.
  pose proof (Z.div_mod z 256). pose proof (Z.div_mod (z / 256) 256).
  pose proof (Z.div_mod (z / 256 / 256) 256).
  assert (z / 256 / 256 / 256 < 256).
  { apply Z.div_lt_upper_bound; [lia|]. apply Z.div_lt_upper_bound; [lia|].
    apply Z.div_lt_upper_bound; lia. }
  assert (0 ≤ z / 256 / 256 / 256) by (repeat apply Z.div_pos; lia).
  rewrite (Z.mod_small (z / 256 / 256 / 256)) by lia. lia.
Qed.

Lemma parse_ipv4_to_string (z : Z) : 0 ≤ z < 2 ^ 32 → parse_ipv4 (ipv4_to_string z) = Some z.
Proof.
  intros Hz. unfold parse_ipv4, ipv4_to_string.
  pose proof (λ i, octet_prints (octet i z) (octet_range i z)) as Ho.
  rewrite !split_dots_app, split_dots_one by apply Ho.
  rewrite !(proj2 (Ho _)). simpl. by rewrite of_octets_octet.
Qed.

Lemma ipv4_to_string_inj (a b : Z) :
  0 ≤ a < 2 ^ 32 → 0 ≤ b < 2 ^ 32 → ipv4_to_string a = ipv4_to_string b → a = b.
Proof.
  intros Ha Hb Hab. apply (f_equal parse_ipv4) in Hab. rewrite !parse_ipv4_to_string in Hab by done.
  by injection Hab.
Qed.

(** ** [str::trim], on ASCII text *)

Definition is_whitespace (a : ascii) : bool :=
  let n := N_of_ascii a in ((9 <=? n) && (n <=? 13) || (n =? 32))%N.

Fixpoint trim_start (s : string) : string :=
  match s with
  | String a s' => if is_whitespace a then trim_start s' else s
  | EmptyString => EmptyString
  end.

Fixpoint trim_end (s : string) : string :=
  match s with
  | String a s' =>
      match trim_end s' with
      | EmptyString => if is_whitespace a then EmptyString else String a EmptyString
      | t => String a t
      end
  | EmptyString => EmptyString
  end.

Definition trim (s : string) : string := trim_end (trim_start s).
