(* ===== verification/Controller.v ===== *)
(** * controller/src/bpf.rs

    The user-space side of the probes: the allowlist that it loads, the callbacks that decode the
    records of the three ring buffers, and the poll loop, which forwards the namespaces and the
    addresses to ignore to the maps of the loaded objects. *)

From S2P Require Import Prelude CLayout CLayoutFacts BpfEnv RingBuffer VmlinuxBase Helper RustStd.
From S2P Require NetworkProbe NetpolicyDrop SyscallProbe.

(** ** The records as Rust reads them: [#[repr(C)]] structures *)

Definition NetworkEventData : ctype :=
  CStruct "NetworkEventData" {{
    MField u64 "inum"; MField u32 "saddr"; MField u16 "sport"; MField u32 "daddr";
    MField u16 "dport"; MField u16 "kind" }}.

Definition PolicyDropEvent : ctype :=
  CStruct "PolicyDropEvent" {{
    MField u64 "timestamp"; MField u64 "inum"; MField u32 "saddr"; MField u32 "daddr";
    MField u16 "sport"; MField u16 "dport"; MField u8 "protocol"; MField u8 "_pad";
    MField u32 "syn_retries" }}.

Definition SyscallEventData : ctype :=
  CStruct "SyscallEventData" {{ MField u64 "inum"; MField u32 "sysnbr" }}.

(** A callback ignores the records that are too small for its structure. *)
Definition receive {A : Type} (t : ctype) (decode : list byte → A) (data : list byte) : option A :=
  if Z.of_nat (length data) <? sizeof t then None else Some (decode data).

Definition receive_network_event (data : list byte) : option NetworkProbe.network_event :=
  receive NetworkEventData (λ d,
    {| NetworkProbe.ne_inum := load_member NetworkEventData ["inum"] d;
       NetworkProbe.ne_saddr := load_member NetworkEventData ["saddr"] d;
       NetworkProbe.ne_sport := load_member NetworkEventData ["sport"] d;
       NetworkProbe.ne_daddr := load_member NetworkEventData ["daddr"] d;
       NetworkProbe.ne_dport := load_member NetworkEventData ["dport"] d;
       NetworkProbe.ne_kind := load_member NetworkEventData ["kind"] d |}) data.

Definition receive_policy_drop (data : list byte) : option NetpolicyDrop.policy_drop :=
  receive PolicyDropEvent (λ d,
    {| NetpolicyDrop.pd_timestamp := load_member PolicyDropEvent ["timestamp"] d;
       NetpolicyDrop.pd_inum := load_member PolicyDropEvent ["inum"] d;
       NetpolicyDrop.pd_saddr := load_member PolicyDropEvent ["saddr"] d;
       NetpolicyDrop.pd_daddr := load_member PolicyDropEvent ["daddr"] d;
       NetpolicyDrop.pd_sport := load_member PolicyDropEvent ["sport"] d;
       NetpolicyDrop.pd_dport := load_member PolicyDropEvent ["dport"] d;
       NetpolicyDrop.pd_protocol := load_member PolicyDropEvent ["protocol"] d;
       NetpolicyDrop.pd_syn_retries := load_member PolicyDropEvent ["syn_retries"] d |}) data.

(** The namespace and the system-call number. *)
Definition receive_syscall_event (data : list byte) : option (Z * Z) :=
  receive SyscallEventData (λ d,
    (load_member SyscallEventData ["inum"] d, load_member SyscallEventData ["sysnbr"] d)) data.

(** ** The system-call allowlist *)

Definition security_syscalls : list Z :=
  [59; 322; 57; 58; 56; 231;
   41; 42; 43; 288; 49; 50; 46; 47; 44; 45;
   2; 257; 318; 85; 87; 263; 82; 264; 316; 83; 84; 88; 266;
   105; 106; 117; 119; 114; 113; 157; 101; 155; 165; 166; 167; 168;
   175; 313; 176;
   126;
   321;
   308; 272;
   227; 228;
   248;
   78; 217; 0; 1].

(** ** Poll errors *)

Definition MAX_CONSECUTIVE_POLL_ERRORS : Z := 50.

Inductive PollErrorAction : Type := WarnAndBackoff | BackoffSilently | Bail.

#[export] Instance PollErrorAction_eq_dec : EqDecision PollErrorAction.
Proof. solve_decision. Defined.

Definition classify_poll_error (consecutive max : Z) : PollErrorAction :=
  if max <=? consecutive then Bail
  else if consecutive =? 1 then WarnAndBackoff
  else BackoffSilently.

Section Controller.
Context `{BpfKernel}.

(** [syscall_map.update(..)?] for each number: the first failure ends the loop. *)
Fixpoint populate (l : list Z) : Bpf helper_maps bool :=
  match l with
  | [] => mret true
  | syscall_nr :: l =>
      r ← zoom allowed_syscalls set_allowed_syscalls (bpf_map_update_elem syscall_nr 1);
      if r =? 0 then populate l else mret false
  end.

Definition populate_syscall_allowlist : Bpf helper_maps bool := populate security_syscalls.

(** ** The poll loop *)

Record controller : Type := Controller {
  network_sk : NetworkProbe.probe_state;
  netpolicy_sk : NetpolicyDrop.drop_state;
  syscall_sk : SyscallProbe.syscall_state;
  consecutive_poll_errors : Z
}.

(** [inode_num.update(..)] and [ignore_ips.update(..)]; a failure is printed and ignored. *)
Definition update_inode (inum : Z) (h : helper_maps) : helper_maps :=
  set_inode_num (exec (bpf_map_update_elem inum 1) (inode_num h)) h.

Definition update_ignore (ip : Z) (h : helper_maps) : helper_maps :=
  set_ignore_ips (exec (bpf_map_update_elem ip 1) (ignore_ips h)) h.

(** A message of the pod watcher. *)
Definition track_inode (inum : Z) (st : controller) : controller :=
  {| network_sk := NetworkProbe.set_np_helper
       (update_inode inum (NetworkProbe.np_helper (network_sk st))) (network_sk st);
     netpolicy_sk := NetpolicyDrop.set_nd_helper
       (update_inode inum (NetpolicyDrop.nd_helper (netpolicy_sk st))) (netpolicy_sk st);
     syscall_sk := SyscallProbe.set_sy_helper
       (update_inode inum (SyscallProbe.sy_helper (syscall_sk st))) (syscall_sk st);
     consecutive_poll_errors := consecutive_poll_errors st |}.

(** An address to ignore; a string that does not parse is printed and ignored. *)
Definition ignore_ip (ip : option Z) (st : controller) : controller :=
  match ip with
  | None => st
  | Some parsed_ip =>
      {| network_sk := NetworkProbe.set_np_helper
           (update_ignore (to_be32 parsed_ip) (NetworkProbe.np_helper (network_sk st)))
           (network_sk st);
         netpolicy_sk := netpolicy_sk st;
         syscall_sk := syscall_sk st;
         consecutive_poll_errors := consecutive_poll_errors st |}
  end.

Definition set_poll_errors (n : Z) (st : controller) : controller :=
  {| network_sk := network_sk st; netpolicy_sk := netpolicy_sk st; syscall_sk := syscall_sk st;
     consecutive_poll_errors := n |}.

(** What one turn of the loop meets: the shutdown flag, whether [poll] succeeded, and the messages
    waiting in the two channels; an address is text. *)
Record turn : Type := Turn {
  shutdown_requested : bool;
  poll_ok : bool;
  rx_message : option Z;
  ignore_message : option string
}.

(** [None]: the loop returns an error and the pod restarts. *)
Definition poll_turn (ignore_daemonset_traffic : bool) (t : turn) (st : controller) :
    option controller :=
  if shutdown_requested t then None else
  if negb (poll_ok t) then
    let n := u32_succ (consecutive_poll_errors st) in
    match classify_poll_error n MAX_CONSECUTIVE_POLL_ERRORS with
    | Bail => None
    | WarnAndBackoff | BackoffSilently => Some (set_poll_errors n st)
    end
  else
    let st := set_poll_errors 0 st in
    let st := match rx_message t with Some inum => track_inode inum st | None => st end in
    Some (if ignore_daemonset_traffic
          then match ignore_message t with Some ip => ignore_ip (parse_ipv4 ip) st | None => st end
          else st).

Fixpoint poll_loop (ignore_daemonset_traffic : bool) (ts : list turn) (st : controller) :
    option controller :=
  match ts with
  | [] => Some st
  | t :: ts =>
      match poll_turn ignore_daemonset_traffic t st with
      | Some st => poll_loop ignore_daemonset_traffic ts st
      | None => None
      end
  end.

End Controller.
