(* ===== verification/System.v ===== *)
(** * The probes and the controller together

    The three loaded objects, the poll loop that reads their ring buffers, and the channels on which
    it forwards the records: hooks fire in the kernel, the loop takes turns, and the tasks that
    receive the records may go away, in any order. *)

From S2P Require Import Prelude CLayout CLayoutFacts BpfEnv RingBuffer VmlinuxBase Helper Controller.
From S2P Require NetworkProbe NetpolicyDrop SyscallProbe.

(** ** Channels *)

(** The sending end of a channel: what has been sent on it, and whether its receiver is alive. *)
Record channel (A : Type) : Type := Channel {
  ch_sent : list A;
  ch_open : bool
}.

Arguments Channel {A}.
Arguments ch_sent {A}.
Arguments ch_open {A}.

Definition close {A : Type} (ch : channel A) : channel A :=
  {| ch_sent := ch_sent ch; ch_open := false |}.

(** One call of a ring-buffer callback: a record too small is ignored; a closed channel trips the
    shutdown flag. *)
Definition deliver {A : Type} (receive : list byte → option A) (st : channel A * bool)
    (data : list byte) : channel A * bool :=
  let '(ch, shutdown) := st in
  match receive data with
  | None => (ch, shutdown)
  | Some a =>
      if ch_open ch
      then ({| ch_sent := ch_sent ch ++ [a]; ch_open := true |}, shutdown)
      else (ch, true)
  end.

Definition deliver_all {A : Type} (receive : list byte → option A) (records : list (list byte))
    (st : channel A * bool) : channel A * bool :=
  foldl (deliver receive) st records.

Section System.
Context `{BpfKernel}.

Record system : Type := System {
  sys_ctl : controller;
  network_tx : channel NetworkProbe.network_event;
  syscall_tx : channel (Z * Z);
  drop_tx : channel NetpolicyDrop.policy_drop;
  EBPF_SHUTDOWN : bool
}.

Definition set_network_sk (s : NetworkProbe.probe_state) (st : controller) : controller :=
  {| network_sk := s; netpolicy_sk := netpolicy_sk st; syscall_sk := syscall_sk st;
     consecutive_poll_errors := consecutive_poll_errors st |}.

Definition set_netpolicy_sk (s : NetpolicyDrop.drop_state) (st : controller) : controller :=
  {| network_sk := network_sk st; netpolicy_sk := s; syscall_sk := syscall_sk st;
     consecutive_poll_errors := consecutive_poll_errors st |}.

Definition set_syscall_sk (s : SyscallProbe.syscall_state) (st : controller) : controller :=
  {| network_sk := network_sk st; netpolicy_sk := netpolicy_sk st; syscall_sk := s;
     consecutive_poll_errors := consecutive_poll_errors st |}.

Definition set_ctl (st : controller) (y : system) : system :=
  {| sys_ctl := st; network_tx := network_tx y; syscall_tx := syscall_tx y; drop_tx := drop_tx y;
     EBPF_SHUTDOWN := EBPF_SHUTDOWN y |}.

(** [ring_buffer.poll(..)] when it succeeds: every callback is called on every record waiting, ring
    by ring in the order they were added. *)
Definition poll_rings (y : system) : system :=
  let st := sys_ctl y in
  let net := NetworkProbe.network_events (network_sk st) in
  let sys := SyscallProbe.syscall_events (syscall_sk st) in
  let drp := NetpolicyDrop.policy_drop_events (netpolicy_sk st) in
  let '(network_tx, sd) :=
    deliver_all receive_network_event (ringbuf_unread net) (network_tx y, EBPF_SHUTDOWN y) in
  let '(syscall_tx, sd) :=
    deliver_all receive_syscall_event (ringbuf_unread sys) (syscall_tx y, sd) in
  let '(drop_tx, sd) := deliver_all receive_policy_drop (ringbuf_unread drp) (drop_tx y, sd) in
  {| sys_ctl := {|
       network_sk := NetworkProbe.set_network_events (ringbuf_consume net) (network_sk st);
       netpolicy_sk := NetpolicyDrop.set_policy_drop_events (ringbuf_consume drp) (netpolicy_sk st);
       syscall_sk := SyscallProbe.set_syscall_events (ringbuf_consume sys) (syscall_sk st);
       consecutive_poll_errors := consecutive_poll_errors st |};
     network_tx := network_tx; syscall_tx := syscall_tx; drop_tx := drop_tx;
     EBPF_SHUTDOWN := sd |}.

(** One turn of the loop; [None] when it returns. *)
Definition loop_turn (ignore_daemonset_traffic : bool) (ok : bool) (inum : option Z)
    (ip : option string) (y : system) : option system :=
  let polled := if negb (EBPF_SHUTDOWN y) && ok then poll_rings y else y in
  st ← poll_turn ignore_daemonset_traffic (Turn (EBPF_SHUTDOWN y) ok inum ip) (sys_ctl polled);
  Some (set_ctl st polled).

Inductive event : Type :=
| NetworkHook (hk : NetworkProbe.probe_hook)
| DropHook (hk : NetpolicyDrop.drop_hook)
| SyscallHook (c : kctx) (ctx : list byte)
| LoopTurn (ok : bool) (inum : option Z) (ip : option string)
| CloseNetwork
| CloseSyscall
| CloseDrop.

(** What happens next, as a function. *)
Definition exec_event (d : bool) (e : event) (y : system) : option system :=
  let st := sys_ctl y in
  match e with
  | NetworkHook hk =>
      Some (set_ctl (set_network_sk (exec (NetworkProbe.run_hook hk) (network_sk st)) st) y)
  | DropHook hk =>
      Some (set_ctl (set_netpolicy_sk (exec (NetpolicyDrop.run_drop_hook hk) (netpolicy_sk st)) st) y)
  | SyscallHook c ctx =>
      Some (set_ctl (set_syscall_sk (exec (SyscallProbe.trace_execve c ctx) (syscall_sk st)) st) y)
  | LoopTurn ok inum ip => loop_turn d ok inum ip y
  | CloseNetwork =>
      Some {| sys_ctl := st; network_tx := close (network_tx y); syscall_tx := syscall_tx y;
              drop_tx := drop_tx y; EBPF_SHUTDOWN := EBPF_SHUTDOWN y |}
  | CloseSyscall =>
      Some {| sys_ctl := st; network_tx := network_tx y; syscall_tx := close (syscall_tx y);
              drop_tx := drop_tx y; EBPF_SHUTDOWN := EBPF_SHUTDOWN y |}
  | CloseDrop =>
      Some {| sys_ctl := st; network_tx := network_tx y; syscall_tx := syscall_tx y;
              drop_tx := close (drop_tx y); EBPF_SHUTDOWN := EBPF_SHUTDOWN y |}
  end.

Fixpoint exec_events (d : bool) (es : list event) (y : system) : option system :=
  match es with
  | [] => Some y
  | e :: es => y' ← exec_event d e y; exec_events d es y'
  end.

(** The same as a step relation: [ignore_daemonset_traffic] is fixed when the loop starts. *)
Definition step (d : bool) (y y' : system) : Prop := ∃ e, exec_event d e y = Some y'.

End System.
