(* ===== verification/ControllerThms.v ===== *)
(** * Theorems about the user-space side of the probes
    The system-call probe is here too, as its allowlist is written by the controller; at the end, the
    theorems at concrete inputs. *)

From S2P Require Import Prelude CLayout CLayoutFacts VmlinuxBase VmlinuxTask BpfEnv LruKernel RingBuffer.
From S2P Require Import Helper SyscallProbe Fixtures RustStd Controller.
From S2P Require NetworkProbe NetpolicyDrop.

(** ** Streaks of poll errors *)

(** [n] failures in a row, somewhere. *)
Definition streak (n : nat) (fails : list bool) : Prop :=
  ∃ i, ∀ j, (j < n)%nat → fails !! (i + j)%nat = Some true.

Lemma streak_short (n m : nat) : (n < m)%nat → ¬ streak m (replicate n true).
Proof.
  intros Hn [i Hi]. specialize (Hi (m - 1)%nat ltac:(lia)).
  apply lookup_lt_Some in Hi. rewrite length_replicate in Hi. lia.
Qed.

Lemma streak_broken (n m : nat) (l : list bool) :
  (n < m)%nat → streak m (replicate n true ++ false :: l) ↔ streak m l.
Proof.
  intros Hn. split; intros [i Hi].
  - assert (n < i)%nat as Hni.
    { destruct (decide (n < i)%nat) as [|Hge]; [done|]. exfalso.
      specialize (Hi (n - i)%nat ltac:(lia)). replace (i + (n - i))%nat with n in Hi by lia.
      rewrite lookup_app_r in Hi by (rewrite length_replicate; lia).
      by rewrite length_replicate, Nat.sub_diag in Hi. }
    exists (i - S n)%nat. intros j Hj. specialize (Hi j Hj).
    rewrite lookup_app_r in Hi by (rewrite length_replicate; lia).
    rewrite length_replicate in Hi. replace (i + j - n)%nat with (S (i - S n + j)) in Hi by lia.
    done.
  - exists (n + S i)%nat. intros j Hj. rewrite lookup_app_r by (rewrite length_replicate; lia).
    rewrite length_replicate. replace (n + S i + j - n)%nat with (S (i + j)) by lia. simpl. by apply Hi.
Qed.

Section ControllerThms.
Context `{BpfKernelLaws}.
Implicit Types (st : controller) (h : helper_maps).

Lemma set_poll_errors_count (n : Z) st : consecutive_poll_errors (set_poll_errors n st) = n.
Proof. done. Qed.

Lemma poll_turn_ok (d : bool) (t : turn) st :
  shutdown_requested t = false → poll_ok t = true →
  ∃ st', poll_turn d t st = Some st' ∧ consecutive_poll_errors st' = 0.
Proof.
  intros Hs Hp. unfold poll_turn. rewrite Hs, Hp. simpl. eexists. split; [done|].
  destruct (rx_message t), d, (ignore_message t) as [ip|]; try done; by destruct (parse_ipv4 ip).
Qed.

Lemma poll_loop_streak (d : bool) (ts : list turn) st (n : nat) :
  consecutive_poll_errors st = Z.of_nat n → (n < 50)%nat →
  Forall (λ t, shutdown_requested t = false) ts →
  poll_loop d ts st = None ↔
  streak 50 (replicate n true ++ ((λ t, negb (poll_ok t)) <$> ts)).
Proof.
  intros Hc Hn Hs. revert st n Hc Hn.
  induction Hs as [|t ts Ht Hs IH]; intros st n Hc Hn; simpl.
  - rewrite app_nil_r. split; [done|]. by intros []%streak_short.
  - destruct (poll_ok t) eqn:Hp; simpl.
    + destruct (poll_turn_ok d t st Ht Hp) as (st'&->&Hc'). rewrite (IH st' 0%nat) by (done || lia).
      by rewrite streak_broken.
    + unfold poll_turn. rewrite Ht, Hp, Hc. simpl. rewrite u32_succ_small by lia.
      unfold classify_poll_error, MAX_CONSECUTIVE_POLL_ERRORS.
      destruct (Z.leb_spec 50 (Z.of_nat n + 1)) as [Hb|Hb].
      * split; [|done]. intros _. exists 0%nat. intros j Hj. simpl.
        destruct (decide (j < n)%nat).
        -- rewrite lookup_app_l by (rewrite length_replicate; lia). by apply lookup_replicate_2.
        -- rewrite lookup_app_r, length_replicate by (rewrite length_replicate; lia).
           replace (j - n)%nat with 0%nat by lia. done.
      * assert (∀ l, replicate n true ++ true :: l = replicate (S n) true ++ l) as ->.
        { intros l. by rewrite replicate_S_end, <- app_assoc. }
        rewrite <- (IH (set_poll_errors (Z.of_nat n + 1) st)) by (simpl; lia).
        by destruct (_ =? 1).
Qed.

(** ** Registering namespaces *)

Lemma update_inode_tracked h (inum k : Z) (keys : list Z) :
  (∀ k, tracked h k = true → k ∈ keys) → Z.of_nat (length keys) < max_entries inode_num_def →
  tracked (update_inode inum h) k = (k =? inum) || tracked h k.
Proof.
  intros Hk Hl. unfold tracked, update_inode, exec. simpl.
  destruct (update_elem_room inum 1 (inode_num h) keys) as [H1 H2]; [|done|].
  { intros k' [v Hv]. apply Hk. unfold tracked. by rewrite Hv. }
  destruct (Z.eqb_spec k inum) as [->|Hne]; [by rewrite update_elem_ok|]. by rewrite H2.
Qed.

(** ** The allowlist *)

Lemma populate_run (l : list Z) (keys : list Z) h :
  (∀ k, is_Some (bpf_map_peek (allowed_syscalls h) k) → k ∈ keys) →
  Z.of_nat (length keys + length l) ≤ max_entries allowed_syscalls_def →
  let '(r, h') := populate l h in
  r = true ∧ inode_num h' = inode_num h ∧ ignore_ips h' = ignore_ips h ∧
  ∀ k, bpf_map_peek (allowed_syscalls h') k =
       if decide (k ∈ l) then Some 1 else bpf_map_peek (allowed_syscalls h) k.
Proof.
  revert keys h. induction l as [|nr l IH]; intros keys h Hk Hl; simpl.
  { done. }
  rewrite bpf_bind_run, zoom_run. simpl in *.
  destruct (update_elem_room nr 1 (allowed_syscalls h) keys Hk) as [H1 H2]; [simpl; lia|].
  rewrite H1. simpl.
  specialize (IH (nr :: keys) (set_allowed_syscalls (snd (bpf_map_update_elem nr 1
    (allowed_syscalls h))) h)). simpl in IH.
  destruct (populate l _) as [r h']. destruct IH as (->&Hi&Hg&Ha).
  { intros k Hs. destruct (decide (k = nr)) as [->|Hne]; [by left|right].
    rewrite H2 in Hs by done. by apply Hk. }
  { lia. }
  split_and!; [done|done|done|]. intros k. rewrite Ha.
  destruct (decide (k ∈ l)); [by rewrite decide_True by by right|].
  destruct (decide (k = nr)) as [->|Hne].
  - rewrite decide_True by by left. by apply update_elem_ok.
  - rewrite H2 by done. rewrite decide_False; [done|]. by intros [?|?]%elem_of_cons.
Qed.

End ControllerThms.

(** ** Records in user space *)

(** The low half of a 64-bit load is the 32-bit load at the same place. *)
Lemma load_le_low (off : nat) (bs : list byte) : load_le off 4 bs = u32_of (load_le off 8 bs).
Proof.
  unfold load_le, read_bytes, u32_of, wrap. change 32 with (8 * Z.of_nat 4).
  rewrite <- le_combine_firstn. change (@List.firstn byte) with (@take byte). by rewrite take_take.
Qed.

Lemma receive_object {A : Type} (t : ctype) (decode : list byte → A) (data : list byte) (n : Z) :
  Z.of_nat (length data) = n → sizeof t = n → receive t decode data = Some (decode data).
Proof.
  intros Hl Ht. unfold receive. rewrite Ht, Hl. by rewrite Z.ltb_irrefl.
Qed.

(** The namespace and the number of a system call, as the 32-bit member of user space reads it. *)
Definition decode_syscall (data : list byte) : Z * Z :=
  let '(inum, sysnbr) := SyscallProbe.decode_data_t data in (inum, u32_of sysnbr).

Lemma receive_network_object (data : list byte) :
  is_object NetworkProbe.network_event_data data →
  receive_network_event data = Some (NetworkProbe.decode_network_event data).
Proof. intros Hd. unfold receive_network_event. by rewrite (receive_object _ _ data 24). Qed.

Lemma receive_drop_object (data : list byte) :
  is_object NetpolicyDrop.policy_drop_event data →
  receive_policy_drop data = Some (NetpolicyDrop.decode_policy_drop data).
Proof. intros Hd. unfold receive_policy_drop. by rewrite (receive_object _ _ data 40). Qed.

Lemma receive_syscall_object (data : list byte) :
  is_object SyscallProbe.data_t data → receive_syscall_event data = Some (decode_syscall data).
Proof.
  intros Hd. unfold receive_syscall_event. rewrite (receive_object _ _ data 16) by done.
  unfold decode_syscall, SyscallProbe.decode_data_t. do 2 f_equal. apply (load_le_low 8).
Qed.

(** ** Theorems *)

Section Theorems.
Context `{BpfKernelLaws}.
Implicit Types (st : controller) (h : helper_maps).

(** C38: user space decodes what the probes submit.  The [repr(C)] structures of the callbacks and the
    structures of the C sources agree: a record of the size a probe submits is accepted and decodes to
    the members it stored; the 64-bit system-call number is read modulo 2^32, from the first half of
    its bytes. *)
Theorem user_space_decodes_events (data : list byte) :
  (is_object NetworkProbe.network_event_data data →
   receive_network_event data = Some (NetworkProbe.decode_network_event data)) ∧
  (is_object NetpolicyDrop.policy_drop_event data →
   receive_policy_drop data = Some (NetpolicyDrop.decode_policy_drop data)) ∧
  (is_object SyscallProbe.data_t data →
   receive_syscall_event data =
   let '(inum, sysnbr) := SyscallProbe.decode_data_t data in Some (inum, u32_of sysnbr)).
Proof.
  split_and!; [apply receive_network_object|apply receive_drop_object|apply receive_syscall_object].
Qed.

(** the poll loop gives up exactly on sustained failure.  Unless a callback asks for a shutdown,
    the loop that starts with no error pending ends if and only if [poll] fails 50 times in a row;
    any success in between starts the count again. *)
Theorem poll_loop_bails (d : bool) (ts : list turn) st :
  consecutive_poll_errors st = 0 → Forall (λ t, shutdown_requested t = false) ts →
  poll_loop d ts st = None ↔ streak 50 ((λ t, negb (poll_ok t)) <$> ts).
Proof. intros Hc Hs. by rewrite (poll_loop_streak d ts st 0) by (done || lia). Qed.

(** a namespace sent by the pod watcher becomes tracked by the three probes, and no other does,
    while the namespaces fit the maps. *)
Theorem track_inode_registers (inum k : Z) st (keys : list Z) :
  let tracked_by st k :=
    (tracked (NetworkProbe.np_helper (network_sk st)) k,
     tracked (NetpolicyDrop.nd_helper (netpolicy_sk st)) k,
     tracked (SyscallProbe.sy_helper (syscall_sk st)) k) in
  (∀ k, k ∉ keys → tracked_by st k = (false, false, false)) → Z.of_nat (length keys) < 10240 →
  tracked_by (track_inode inum st) k =
  if k =? inum then (true, true, true) else tracked_by st k.
Proof.
  intros tracked_by Hk Hl. unfold tracked_by. simpl.
  assert (∀ h, h = NetworkProbe.np_helper (network_sk st) ∨
               h = NetpolicyDrop.nd_helper (netpolicy_sk st) ∨
               h = SyscallProbe.sy_helper (syscall_sk st) →
               tracked (update_inode inum h) k = (k =? inum) || tracked h k) as Hu.
  { intros h Hh. apply (update_inode_tracked h inum k keys); [|done].
    intros k' Ht. destruct (decide (k' ∈ keys)) as [|Hn]; [done|]. specialize (Hk k' Hn).
    unfold tracked_by in Hk. injection Hk as H1 H2 H3.
    destruct Hh as [-> | [-> | ->]]; congruence. }
  rewrite !Hu by auto. by destruct (k =? inum).
Qed.

(** the policy-drop probe never learns an address to ignore.  The loop forwards the addresses of
    DaemonSet pods to [network_sk] alone: whatever it receives, the [ignore_ips] maps of the other two
    objects stay as they were. *)
Theorem ignored_addresses_reach_one_probe (d : bool) (ts : list turn) st st' :
  poll_loop d ts st = Some st' →
  ignore_ips (NetpolicyDrop.nd_helper (netpolicy_sk st')) =
    ignore_ips (NetpolicyDrop.nd_helper (netpolicy_sk st)) ∧
  ignore_ips (SyscallProbe.sy_helper (syscall_sk st')) =
    ignore_ips (SyscallProbe.sy_helper (syscall_sk st)).
Proof.
  revert st. induction ts as [|t ts IH]; intros st Hl; simpl in Hl; [by injection Hl as <-|].
  destruct (poll_turn d t st) as [st1|] eqn:Ht; [|done].
  destruct (IH st1 Hl) as [-> ->]. unfold poll_turn in Ht.
  destruct (shutdown_requested t); [done|].
  destruct (poll_ok t); simpl in Ht.
  - injection Ht as <-.
    destruct (rx_message t), d, (ignore_message t) as [ip|]; try done; by destruct (parse_ipv4 ip).
  - destruct (classify_poll_error _ _); simplify_eq; done.
Qed.

(** the allowlist is loaded whole.  On an empty map [populate_syscall_allowlist] succeeds, and the
    map then holds exactly the numbers of the list. *)
Theorem allowlist_is_loaded h :
  (∀ k, bpf_map_peek (allowed_syscalls h) k = None) →
  let '(r, h') := populate_syscall_allowlist h in
  r = true ∧ inode_num h' = inode_num h ∧ ignore_ips h' = ignore_ips h ∧
  ∀ k, bpf_map_peek (allowed_syscalls h') k = if decide (k ∈ security_syscalls) then Some 1 else None.
Proof.
  intros He. pose proof (populate_run security_syscalls [] h) as Hp.
  unfold populate_syscall_allowlist. destruct (populate security_syscalls h) as [r h'].
  destruct Hp as (->&->&->&Ha); [|done|].
  { intros k. rewrite He. by intros []. }
  split_and!; [done|done|done|]. intros k. by rewrite Ha, He.
Qed.

End Theorems.

(** * The system-call probe *)

Section Helpers.
Context `{BpfKernelLaws}.
Implicit Types (s : syscall_state) (h : helper_maps) (c : kctx).

Lemma data_t_size : sizeof data_t = 16.
Proof. reflexivity. Qed.

(** The events of one system call. *)
Lemma trace_execve_reported c (ctx : list byte) s (n : nat) :
  ring_accepts data_t (S n) (syscall_events s) →
  let s' := exec (trace_execve c ctx) s in
  sy_helper s' ≡ sy_helper s ∧ ring_accepts data_t n (syscall_events s') ∧
  syscalls_reported s' = syscalls_reported s ++ option_list (syscall_event (sy_helper s) c ctx).
Proof.
  intros Ha s'. unfold s', exec. destruct (trace_execve_run c ctx s) as (h'&Hh&->).
  unfold syscall_event, syscalls_reported. destruct (_ && _); simpl.
  - split_and!; [done| |].
    + apply ring_accepts_send; [done| |done]. apply fill_data_t_object.
    + rewrite (send_record_decoded data_t _ decode_data_t (task_inum c, sys_enter_id ctx)).
      * by rewrite (ring_accepts_not_full _ _ _ Ha).
      * done.
      * intros data Hd. rewrite decode_fill_data_t by done. unfold u64_of.
        rewrite !wrap_small; [done|apply sys_enter_id_range|apply task_inum_range].
  - split_and!; [done|by apply ring_accepts_S|by rewrite app_nil_r].
Qed.

Lemma zero_allowlisted : 0 ∈ security_syscalls.
Proof. apply (bool_decide_eq_true_1 (0 ∈ security_syscalls)). by vm_compute. Qed.

End Helpers.

(** ** Theorems *)

Section Theorems.
Context `{BpfKernelLaws}.
Implicit Types (s : syscall_state) (h : helper_maps) (c : kctx).

(** [trace_execve], on every branch.  It returns 0 and changes nothing but the order of the LRU
    lists, unless the task is in a tracked namespace and the system call passes the allowlist; then it
    submits one record with the namespace and the number, if the ring buffer has room. *)
Theorem trace_execve_correct c (ctx : list byte) s :
  let s' := exec (trace_execve c ctx) s in
  result (trace_execve c ctx) s = 0 ∧ sy_helper s' ≡ sy_helper s ∧
  syscall_events s' =
  if tracked (sy_helper s) (task_inum c) &&
     syscall_allowed (sy_helper s) (u32_of (sys_enter_id ctx))
  then send_record data_t (fill_data_t (sys_enter_id ctx) (task_inum c)) (syscall_events s)
  else syscall_events s.
Proof.
  intros s'. unfold s', exec, result. destruct (trace_execve_run c ctx s) as (h'&Hh&->).
  unfold syscall_event. by destruct (_ && _).
Qed.

(** exact reporting of system calls.  While the ring buffer has room, a history of system calls
    is reported in order, one record for each call of a tracked pod that passes the allowlist and none
    for the others; the namespace and the number survive the encoding. *)
Theorem syscalls_reported_exactly (l : list (kctx * list byte)) s :
  ring_accepts data_t (length l) (syscall_events s) →
  syscalls_reported (run_syscalls l s) =
  syscalls_reported s ++ omap (λ '(c, ctx), syscall_event (sy_helper s) c ctx) l.
Proof.
  set (h := sy_helper s). assert (sy_helper s ≡ h) as Hh by done. clearbody h. revert s Hh.
  induction l as [|[c ctx] l IH]; intros s Hh Ha; simpl; [by rewrite app_nil_r|].
  destruct (trace_execve_reported c ctx s (length l) Ha) as (Hh'&Ha'&Hr).
  change (foldl _ _ l) with (run_syscalls l (exec (trace_execve c ctx) s)).
  rewrite IH by (done || by etrans). rewrite Hr, (syscall_event_equiv _ h) by done.
  rewrite <- app_assoc. by destruct (syscall_event h c ctx).
Qed.

(** with the allowlist that the controller loads, a system call of a tracked pod is reported
    exactly when its number is in the list. *)
Theorem allowlisted_syscalls_are_traced h c (ctx : list byte) :
  (∀ k, bpf_map_peek (allowed_syscalls h) k = None) → tracked h (task_inum c) = true →
  let h' := exec populate_syscall_allowlist h in
  syscall_event h' c ctx =
  if decide (u32_of (sys_enter_id ctx) ∈ security_syscalls)
  then Some (task_inum c, sys_enter_id ctx) else None.
Proof.
  intros He Ht h'. pose proof (populate_run security_syscalls [] h) as Hp.
  unfold h', exec, populate_syscall_allowlist.
  destruct (populate security_syscalls h) as [r h'']. destruct Hp as (_&Hi&_&Ha); [|done|].
  { intros k. rewrite He. by intros []. }
  unfold syscall_event, tracked, syscall_allowed. simpl. rewrite Hi.
  change (tracked h (task_inum c) = true) in Ht. unfold tracked in Ht. rewrite Ht. simpl.
  rewrite !Ha. rewrite (decide_True (P := 0 ∈ security_syscalls)) by apply zero_allowlisted.
  simpl. case_decide; [done|]. by rewrite He.
Qed.

(** an allowlist without system call 0 allows everything.  The code takes the presence of
    number 0 as the sign that the allowlist has been filled, so the other entries of an allowlist that
    does not hold 0 filter nothing. *)
Theorem allowlist_without_zero_filters_nothing h c (ctx : list byte) :
  bpf_map_peek (allowed_syscalls h) 0 = None → tracked h (task_inum c) = true →
  syscall_event h c ctx = Some (task_inum c, sys_enter_id ctx).
Proof. intros H0' Ht. unfold syscall_event, syscall_allowed. by rewrite Ht, H0'. Qed.

End Theorems.

(** * At concrete inputs *)

#[local] Existing Instance lru_kernel.
#[local] Existing Instance lru_kernel_laws.

Definition wit_controller : controller :=
  Controller (fix_probe [7] []) (fix_drop [7]) (fix_syscall [7] []) 0.

(** System call 2^32 + 59 is read as 59. *)
Lemma user_space_decodes_events_witness :
  receive_syscall_event (fill_data_t (2 ^ 32 + 59) 7 (zeros 16)) = Some (7, 59).
Proof.
  exact (proj2 (proj2 (user_space_decodes_events (fill_data_t (2 ^ 32 + 59) 7 (zeros 16)))) eq_refl).
Defined.

Definition failing : turn := Turn false false None None.
Definition working : turn := Turn false true (Some 8) (Some "10.0.0.3"%string).

Lemma poll_loop_bails_witness :
  poll_loop true (replicate 49 failing ++ working :: replicate 50 failing) wit_controller = None.
Proof.
  apply (poll_loop_bails true); [done|by repeat constructor|].
  exists 50%nat. intros j Hj. do 50 (destruct j as [|j]; [done|]). lia.
Defined.

Lemma track_inode_registers_witness :
  let st := track_inode 8 wit_controller in
  (tracked (NetworkProbe.np_helper (network_sk st)) 8,
   tracked (NetpolicyDrop.nd_helper (netpolicy_sk st)) 8,
   tracked (sy_helper (syscall_sk st)) 8) = (true, true, true).
Proof.
  apply (track_inode_registers 8 8 wit_controller [7]); [|done].
  intros k Hk. assert (7 ≠ k) as Hne by set_solver. simpl. unfold tracked. simpl.
  by rewrite !decide_False by done.
Defined.

Lemma ignored_addresses_reach_one_probe_witness :
  ∃ st', poll_loop true [working; working] wit_controller = Some st' ∧
    ignore_ips (NetpolicyDrop.nd_helper (netpolicy_sk st')) = [] ∧
    ignore_ips (sy_helper (syscall_sk st')) = [] ∧
    ignore_ips (NetworkProbe.np_helper (network_sk st')) = [(ip3, 1)].
Proof.
  eexists. split; [reflexivity|].
  match goal with |- ignore_ips (NetpolicyDrop.nd_helper (netpolicy_sk ?st')) = _ ∧ _ =>
    destruct (ignored_addresses_reach_one_probe true [working; working] wit_controller st' eq_refl)
      as [H1 H2]
  end.
  split; [exact H1|]. split; [exact H2|]. by vm_compute.
Defined.

Lemma allowlist_is_loaded_witness :
  let '(r, h') := populate_syscall_allowlist (fix_helper [7] [] []) in
  r = true ∧ bpf_map_peek (allowed_syscalls h') 59 = Some 1 ∧
  bpf_map_peek (allowed_syscalls h') 60 = None.
Proof.
  pose proof (allowlist_is_loaded (fix_helper [7] [] []) (λ _, eq_refl)) as Hw.
  destruct (populate_syscall_allowlist _) as [r h']. destruct Hw as (Hr&_&_&Ha).
  split; [exact Hr|]. by rewrite !Ha.
Defined.

(** ** System calls: execve and exit of a tracked task *)

Definition wit_task : kctx := fix_ctx 100 42 0 7 [].
Definition wit_calls : list (kctx * list byte) :=
  [(wit_task, fix_sys_enter 59); (wit_task, fix_sys_enter 60);
   (fix_ctx 100 43 0 9 [], fix_sys_enter 59)].

Lemma trace_execve_correct_witness :
  result (trace_execve wit_task (fix_sys_enter 59)) (fix_syscall [7] [0; 59]) = 0.
Proof.
  exact (proj1 (trace_execve_correct wit_task (fix_sys_enter 59) (fix_syscall [7] [0; 59]))).
Defined.

Lemma syscalls_reported_exactly_witness :
  syscalls_reported (run_syscalls wit_calls (fix_syscall [7] [0; 59])) = [(7, 59)].
Proof.
  refine (syscalls_reported_exactly wit_calls (fix_syscall [7] [0; 59]) _).
  apply lru_ring_accepts; done.
Defined.

Lemma allowlisted_syscalls_are_traced_witness :
  let h' := exec populate_syscall_allowlist (fix_helper [7] [] []) in
  syscall_event h' wit_task (fix_sys_enter 59) = Some (7, 59) ∧
  syscall_event h' wit_task (fix_sys_enter 60) = None.
Proof.
  split.
  - exact (allowlisted_syscalls_are_traced (fix_helper [7] [] []) wit_task (fix_sys_enter 59)
      (λ _, eq_refl) eq_refl).
  - exact (allowlisted_syscalls_are_traced (fix_helper [7] [] []) wit_task (fix_sys_enter 60)
      (λ _, eq_refl) eq_refl).
Defined.

(** The allowlist holds execve alone, and exit is reported. *)
Lemma allowlist_without_zero_filters_nothing_witness :
  syscall_event (fix_helper [7] [] [59]) wit_task (fix_sys_enter 60) = Some (7, 60).
Proof.
  exact (allowlist_without_zero_filters_nothing (fix_helper [7] [] [59]) wit_task (fix_sys_enter 60)
    eq_refl eq_refl).
Defined.
