(* ===== verification/SystemFacts.v ===== *)
(** * The probes and the controller: records and channels

    What hooks do to the ring buffers, what a poll does to the channels, and the invariant that links
    the two along any run. *)

From stdpp Require Import relations.
From S2P Require Import Prelude CLayout CLayoutFacts BpfEnv LruKernel RingBuffer VmlinuxBase Helper.
From S2P Require Import RustStd Controller ControllerThms System.
From S2P Require NetworkProbe NetworkProbeFacts NetworkProbeThms.
From S2P Require NetpolicyDrop NetpolicySpec SyscallProbe.

(** ** What a hook does to the ring buffer of its object *)

Section Growth.
Context `{BpfKernelLaws}.

Lemma run_hook_grows (hk : NetworkProbe.probe_hook) (s : NetworkProbe.probe_state) :
  ring_grows NetworkProbe.network_event_data (NetworkProbe.network_events s)
    (NetworkProbe.network_events (exec (NetworkProbe.run_hook hk) s)).
Proof.
  destruct (NetworkProbeThms.run_hook_ring hk s) as [-> | [fl ->]]; [done|].
  apply ring_grows_send; [done|]. apply NetworkProbeFacts.fill_flow_object.
Qed.

(** The ring buffer of the policy-drop probe, whatever happens to the other maps. *)
Definition drop_ring_grows (s s' : NetpolicyDrop.drop_state) : Prop :=
  ring_grows NetpolicyDrop.policy_drop_event (NetpolicyDrop.policy_drop_events s)
    (NetpolicyDrop.policy_drop_events s').

#[local] Instance drop_ring_grows_preorder : PreOrder drop_ring_grows.
Proof. unfold drop_ring_grows. split; [by intros s|]. intros s1 s2 s3 H1 H2. by etrans. Qed.

Lemma keeps_on_tracking {A : Type}
    (m : Bpf (bpf_map NetpolicyDrop.connection_tracking_def NetpolicyDrop.conn_attempt
                NetpolicyDrop.conn_state) A) :
  keeps drop_ring_grows (NetpolicyDrop.on_tracking m).
Proof. apply keeps_zoom. intros t s. unfold drop_ring_grows. simpl. reflexivity. Qed.

Lemma keeps_deref key (st : NetpolicyDrop.conn_state) :
  keeps drop_ring_grows (NetpolicyDrop.deref key st).
Proof. intros s. reflexivity. Qed.

Lemma keeps_reserve {A : Type} (k : option (list byte) → Bpf NetpolicyDrop.drop_state A) :
  keeps drop_ring_grows (k None) →
  (∀ slot, is_object NetpolicyDrop.policy_drop_event slot → keeps drop_ring_grows (k (Some slot))) →
  keeps drop_ring_grows
    (evt ← NetpolicyDrop.on_drop_events
             (bpf_ringbuf_reserve (sizeof NetpolicyDrop.policy_drop_event)); k evt).
Proof.
  intros Hn Hs s. unfold exec. rewrite bpf_bind_run, NetpolicySpec.on_drop_events_run. simpl.
  pose proof (ring_grows_reserve NetpolicyDrop.policy_drop_event
    (sizeof NetpolicyDrop.policy_drop_event) (NetpolicyDrop.policy_drop_events s)) as Hg.
  pose proof (reserve_object NetpolicyDrop.policy_drop_event (NetpolicyDrop.policy_drop_events s)) as Ho.
  destruct (bpf_ringbuf_reserve _ _) as [[slot|] rb]; simpl in *.
  - transitivity (NetpolicyDrop.set_policy_drop_events rb s); [done|]. by apply Hs, Ho.
  - transitivity (NetpolicyDrop.set_policy_drop_events rb s); [done|]. apply Hn.
Qed.

Lemma keeps_submit (data : list byte) :
  is_object NetpolicyDrop.policy_drop_event data →
  keeps drop_ring_grows (NetpolicyDrop.on_drop_events (update_state (bpf_ringbuf_submit data))).
Proof. intros Hd s. by apply ring_grows_submit. Qed.

Lemma attempt_effect_grows c key (e : NetpolicySpec.attempt_event) :
  keeps drop_ring_grows (NetpolicySpec.attempt_effect c key e).
Proof.
  destruct e; simpl; repeat first
    [ apply keeps_reserve; [|intros slot Hslot] | apply (keeps_bind drop_ring_grows); [|intros ?]
    | apply keeps_on_tracking | apply keeps_deref | apply (keeps_ret drop_ring_grows)
    | apply keeps_submit, NetpolicySpec.fill_policy_drop_object; assumption | case_match ].
Qed.

Lemma run_drop_hook_grows (hk : NetpolicyDrop.drop_hook) (s : NetpolicyDrop.drop_state) :
  ring_grows NetpolicyDrop.policy_drop_event (NetpolicyDrop.policy_drop_events s)
    (NetpolicyDrop.policy_drop_events (exec (NetpolicyDrop.run_drop_hook hk) s)).
Proof.
  unfold exec. destruct (NetpolicySpec.run_drop_hook_effect hk s) as (h'&_&->).
  destruct (NetpolicySpec.hook_attempt _ hk) as [[key e]|]; simpl; [|done].
  apply (attempt_effect_grows _ key e (NetpolicyDrop.set_nd_helper h' s)).
Qed.

Lemma trace_execve_grows (c : kctx) (ctx : list byte) (s : SyscallProbe.syscall_state) :
  ring_grows SyscallProbe.data_t (SyscallProbe.syscall_events s)
    (SyscallProbe.syscall_events (exec (SyscallProbe.trace_execve c ctx) s)).
Proof.
  unfold exec. destruct (SyscallProbe.trace_execve_run c ctx s) as (h'&_&->).
  destruct (SyscallProbe.syscall_event _ _ _) as [[net_ns id]|]; simpl; [|done].
  apply ring_grows_send; [done|]. apply SyscallProbe.fill_data_t_object.
Qed.

End Growth.

(** ** Channels *)

Lemma deliver_all_open {A : Type} (receive : list byte → option A) (rs : list (list byte))
    (ch : channel A) (sd : bool) :
  ch_open ch = true →
  deliver_all receive rs (ch, sd) = (Channel (ch_sent ch ++ omap receive rs) true, sd).
Proof.
  destruct ch as [l b]. intros [= ->]. simpl. revert l. induction rs as [|r rs IH]; intros l; simpl.
  { by rewrite app_nil_r. }
  unfold deliver_all. simpl. destruct (receive r) as [a|]; simpl; [|apply IH].
  etrans; [apply IH|]. by rewrite <- app_assoc.
Qed.

Lemma deliver_all_closed {A : Type} (receive : list byte → option A) (rs : list (list byte))
    (ch : channel A) (sd : bool) :
  ch_open ch = false →
  deliver_all receive rs (ch, sd) =
  (ch, sd || negb (bool_decide (omap receive rs = []))).
Proof.
  intros Hc. revert sd. induction rs as [|r rs IH]; intros sd; simpl.
  { by rewrite orb_false_r. }
  unfold deliver_all. simpl. destruct (receive r) as [a|]; simpl; [|apply IH].
  rewrite Hc. etrans; [apply IH|]. by rewrite orb_true_r.
Qed.

(** ** The invariant of one channel *)

Section Forwarded.
Context `{BpfKernelLaws}.

(** Everything that a ring buffer has held was sent, was lost, or is still unread; what was lost was
    lost to a closed receiver. *)
Definition forwarded {n : Z} {A : Type} (receive : list byte → option A) (rb : ringbuf n)
    (ch : channel A) (lost : list A) : Prop :=
  omap receive (ringbuf_records rb) = ch_sent ch ++ lost ++ omap receive (ringbuf_unread rb) ∧
  (ch_open ch = true → lost = []).

Lemma forwarded_grows {n : Z} {A : Type} (t : ctype) (receive : list byte → option A)
    (rb rb' : ringbuf n) (ch : channel A) (lost : list A) :
  ring_grows t rb rb' → forwarded receive rb ch lost → forwarded receive rb' ch lost.
Proof.
  intros (rs&_&Hr&Hu) [Hf Ho]. split; [|done]. by rewrite Hr, Hu, !omap_app, Hf, !app_assoc.
Qed.

Lemma forwarded_close {n : Z} {A : Type} (receive : list byte → option A) (rb : ringbuf n)
    (ch : channel A) (lost : list A) :
  forwarded receive rb ch lost → forwarded receive rb (close ch) lost.
Proof. by intros [Hf _]. Qed.

(** One poll: the flag is raised if and only if something is lost. *)
Lemma forwarded_poll {n : Z} {A : Type} (receive : list byte → option A) (rb : ringbuf n)
    (ch : channel A) (lost : list A) (sd : bool) :
  forwarded receive rb ch lost →
  let '(ch', sd') := deliver_all receive (ringbuf_unread rb) (ch, sd) in
  ∃ more, forwarded receive (ringbuf_consume rb) ch' (lost ++ more) ∧
    sd' = sd || negb (bool_decide (more = [])) ∧ ch_open ch' = ch_open ch ∧
    more = (if ch_open ch then [] else omap receive (ringbuf_unread rb)).
Proof.
  intros [Hf Ho]. destruct (ch_open ch) eqn:Hc.
  - rewrite deliver_all_open by done. exists []. rewrite Ho in * by done.
    rewrite bool_decide_true, orb_false_r by done. split_and!; try done.
    unfold forwarded. autorewrite with kg_rw. simpl in *. by rewrite app_nil_r, Hf.
  - rewrite deliver_all_closed by done. eexists. split_and!; [|done..].
    unfold forwarded. autorewrite with kg_rw. simpl. rewrite app_nil_r, <- Hf by done.
    split; [done|congruence].
Qed.

End Forwarded.

(** ** The invariant of the system *)

Section Delivery.
Context `{BpfKernelLaws}.
Implicit Types (y : system) (st : controller).

(** Every record is one of the type that the probe sends. *)
Definition ring_typed {n : Z} (t : ctype) (rb : ringbuf n) : Prop :=
  Forall (is_object t) (ringbuf_records rb) ∧ Forall (is_object t) (ringbuf_unread rb).

Lemma ring_typed_grows {n : Z} (t : ctype) (rb rb' : ringbuf n) :
  ring_grows t rb rb' → ring_typed t rb → ring_typed t rb'.
Proof. intros (rs&Ho&Hr&Hu) [??]. split; rewrite ?Hr, ?Hu; by apply Forall_app. Qed.

Lemma ring_typed_consume {n : Z} (t : ctype) (rb : ringbuf n) :
  ring_typed t rb → ring_typed t (ringbuf_consume rb).
Proof. intros [??]. split; autorewrite with kg_rw; by repeat constructor. Qed.

(** The state of one ring buffer and of its channel. *)
Definition channel_ok {n : Z} {A : Type} (t : ctype) (receive : list byte → option A)
    (rb : ringbuf n) (ch : channel A) (lost : list A) : Prop :=
  ring_typed t rb ∧ forwarded receive rb ch lost.

Lemma channel_ok_grows {n : Z} {A : Type} (t : ctype) (receive : list byte → option A)
    (rb rb' : ringbuf n) (ch : channel A) (lost : list A) :
  ring_grows t rb rb' → channel_ok t receive rb ch lost → channel_ok t receive rb' ch lost.
Proof. intros Hg [Ht Hf]. split; [by eapply ring_typed_grows|by eapply forwarded_grows]. Qed.

Lemma channel_ok_decoded {n : Z} {A : Type} (t : ctype) (receive : list byte → option A)
    (decode : list byte → A) (rb : ringbuf n) (ch : channel A) (lost : list A) :
  (∀ data, is_object t data → receive data = Some (decode data)) →
  channel_ok t receive rb ch lost →
  decode <$> ringbuf_records rb = ch_sent ch ++ lost ++ (decode <$> ringbuf_unread rb) ∧
  (lost ≠ [] → ch_open ch = false).
Proof.
  intros Hd [[Hr Hu] [Hf Ho]].
  assert (∀ rs, Forall (is_object t) rs → omap receive rs = decode <$> rs) as Hm.
  { intros rs. induction 1 as [|r rs Hrs _ IH]; [done|]. csimpl. rewrite Hd by done. by f_equal. }
  rewrite !Hm in Hf by done. split; [done|]. intros Hl. destruct (ch_open ch); naive_solver.
Qed.

Definition network_ring y := NetworkProbe.network_events (network_sk (sys_ctl y)).
Definition syscall_ring y := SyscallProbe.syscall_events (syscall_sk (sys_ctl y)).
Definition drop_ring y := NetpolicyDrop.policy_drop_events (netpolicy_sk (sys_ctl y)).

Record delivering y (net : list NetworkProbe.network_event) (sys : list (Z * Z))
    (drp : list NetpolicyDrop.policy_drop) : Prop := {
  dl_network : channel_ok NetworkProbe.network_event_data receive_network_event (network_ring y)
                 (network_tx y) net;
  dl_syscall : channel_ok SyscallProbe.data_t receive_syscall_event (syscall_ring y)
                 (syscall_tx y) sys;
  dl_drop : channel_ok NetpolicyDrop.policy_drop_event receive_policy_drop (drop_ring y)
              (drop_tx y) drp;
  dl_shutdown : EBPF_SHUTDOWN y = true ↔ ¬ (net = [] ∧ sys = [] ∧ drp = [])
}.

(** The system as it starts. *)
Definition booted y : Prop :=
  (ringbuf_records (network_ring y) = [] ∧ ringbuf_unread (network_ring y) = []) ∧
  (ringbuf_records (syscall_ring y) = [] ∧ ringbuf_unread (syscall_ring y) = []) ∧
  (ringbuf_records (drop_ring y) = [] ∧ ringbuf_unread (drop_ring y) = []) ∧
  network_tx y = Channel [] true ∧ syscall_tx y = Channel [] true ∧ drop_tx y = Channel [] true ∧
  EBPF_SHUTDOWN y = false.

Lemma channel_ok_empty {n : Z} {A : Type} (t : ctype) (receive : list byte → option A)
    (rb : ringbuf n) :
  ringbuf_records rb = [] → ringbuf_unread rb = [] →
  channel_ok t receive rb (Channel [] true) [].
Proof.
  intros Hr Hu. unfold channel_ok, ring_typed, forwarded. rewrite Hr, Hu. by repeat constructor.
Qed.

Lemma booted_delivering y : booted y → delivering y [] [] [].
Proof.
  intros ([]&[]&[]&Hn&Hs&Hd&Hsd). split; rewrite ?Hn, ?Hs, ?Hd, ?Hsd; try by apply channel_ok_empty.
  split; [done|]. intros Hne. by destruct Hne.
Qed.

(** What one poll reads for a receiver that is gone. *)
Definition lost_in_poll {n : Z} {A : Type} (receive : list byte → option A) (rb : ringbuf n)
    (ch : channel A) : list A :=
  if ch_open ch then [] else omap receive (ringbuf_unread rb).

Lemma delivering_poll y net sys drp :
  delivering y net sys drp →
  delivering (poll_rings y)
    (net ++ lost_in_poll receive_network_event (network_ring y) (network_tx y))
    (sys ++ lost_in_poll receive_syscall_event (syscall_ring y) (syscall_tx y))
    (drp ++ lost_in_poll receive_policy_drop (drop_ring y) (drop_tx y)).
Proof.
  intros [[Htn Hn] [Hts Hs] [Htd Hd] Hsd].
  pose proof (forwarded_poll _ _ _ _ (EBPF_SHUTDOWN y) Hn) as Hn'.
  unfold poll_rings. fold (network_ring y) (syscall_ring y) (drop_ring y).
  destruct (deliver_all _ (ringbuf_unread (network_ring y)) _) as [ch1 sd1].
  pose proof (forwarded_poll _ _ _ _ sd1 Hs) as Hs'.
  destruct (deliver_all _ (ringbuf_unread (syscall_ring y)) _) as [ch2 sd2].
  pose proof (forwarded_poll _ _ _ _ sd2 Hd) as Hd'.
  destruct (deliver_all _ (ringbuf_unread (drop_ring y)) _) as [ch3 sd3].
  destruct Hn' as (m1&Hf1&->&_&Hm1), Hs' as (m2&Hf2&->&_&Hm2), Hd' as (m3&Hf3&->&_&Hm3).
  unfold lost_in_poll. rewrite <- Hm1, <- Hm2, <- Hm3. clear Hm1 Hm2 Hm3.
  split; simpl; try (split; [by apply ring_typed_consume|done]).
  rewrite !orb_true_iff, !negb_true_iff, !bool_decide_eq_false, Hsd.
  rewrite !app_nil. destruct m1, m2, m3; intuition congruence.
Qed.

(** Nothing but the maps and the count of poll errors changes. *)
Definition same_io y y' : Prop :=
  network_ring y' = network_ring y ∧ syscall_ring y' = syscall_ring y ∧ drop_ring y' = drop_ring y ∧
  network_tx y' = network_tx y ∧ syscall_tx y' = syscall_tx y ∧ drop_tx y' = drop_tx y ∧
  EBPF_SHUTDOWN y' = EBPF_SHUTDOWN y.

Lemma poll_turn_io (d : bool) (t : turn) y st :
  poll_turn d t (sys_ctl y) = Some st → same_io y (set_ctl st y).
Proof.
  unfold poll_turn, same_io, network_ring, syscall_ring, drop_ring. simpl.
  destruct (shutdown_requested t); [done|]. destruct (poll_ok t); simpl.
  - intros [= <-]. destruct (rx_message t), d, (ignore_message t) as [ip|]; simpl; try done; by destruct (parse_ipv4 ip).
  - destruct (classify_poll_error _ _); intros; by simplify_eq.
Qed.

Lemma loop_turn_io (d ok : bool) (inum : option Z) (ip : option string) y y' :
  loop_turn d ok inum ip y = Some y' →
  EBPF_SHUTDOWN y = false ∧ same_io (if ok then poll_rings y else y) y'.
Proof.
  unfold loop_turn. destruct (EBPF_SHUTDOWN y); [done|]. simpl.
  set (polled := if ok then poll_rings y else y).
  destruct (poll_turn d _ (sys_ctl polled)) as [st|] eqn:Ht; simpl; [|done].
  intros [= <-]. split; [done|]. by eapply poll_turn_io.
Qed.

Lemma delivering_io y y' net sys drp :
  same_io y y' → delivering y net sys drp → delivering y' net sys drp.
Proof. intros (Hn&Hs&Hd&Hnt&Hst&Hdt&Hsd) []. by split; rewrite ?Hn, ?Hs, ?Hd, ?Hnt, ?Hst, ?Hdt, ?Hsd. Qed.

(** What was lost stays lost. *)
Lemma delivering_event (d : bool) (e : event) y y' net sys drp :
  exec_event d e y = Some y' → delivering y net sys drp →
  ∃ net' sys' drp', delivering y' (net ++ net') (sys ++ sys') (drp ++ drp').
Proof.
  intros He Hy. destruct e as [hk|hk|c ctx|ok inum ip| | |]; simpl in He; simplify_eq.
  4: { destruct (loop_turn_io _ _ _ _ _ _ He) as [_ Hio]. destruct ok.
       - eexists _, _, _. eapply delivering_io; [done|]. by apply delivering_poll.
       - exists [], [], []. rewrite !app_nil_r. by eapply delivering_io. }
  all: exists [], [], []; rewrite !app_nil_r; destruct Hy as [Hn Hs Hd Hsd]; split; try done.
  - eapply channel_ok_grows; [apply run_hook_grows|done].
  - eapply channel_ok_grows; [apply run_drop_hook_grows|done].
  - eapply channel_ok_grows; [apply trace_execve_grows|done].
  - destruct Hn. split; [done|]. by apply forwarded_close.
  - destruct Hs. split; [done|]. by apply forwarded_close.
  - destruct Hd. split; [done|]. by apply forwarded_close.
Qed.

Lemma delivering_steps (d : bool) y y' net sys drp :
  rtc (step d) y y' → delivering y net sys drp →
  ∃ net' sys' drp', delivering y' (net ++ net') (sys ++ sys') (drp ++ drp').
Proof.
  intros Hs. revert net sys drp. induction Hs as [y|y1 y2 y3 [e He] _ IH]; intros net sys drp Hy.
  { exists [], [], []. by rewrite !app_nil_r. }
  destruct (delivering_event d e _ _ _ _ _ He Hy) as (n1&s1&d1&Hy2).
  destruct (IH _ _ _ Hy2) as (n2&s2&d2&Hy3). exists (n1 ++ n2), (s1 ++ s2), (d1 ++ d2).
  by rewrite !app_assoc.
Qed.

(** A list of events is a run of the step relation. *)
Lemma exec_events_steps (d : bool) (es : list event) y y' :
  exec_events d es y = Some y' → rtc (step d) y y'.
Proof.
  revert y. induction es as [|e es IH]; intros y Hy; simpl in Hy; [by injection Hy as ->|].
  destruct (exec_event d e y) as [y1|] eqn:He; simpl in Hy; [|done].
  eapply rtc_l; [by exists e|by apply IH].
Qed.

Lemma exec_events_app (d : bool) (es es' : list event) y :
  exec_events d (es ++ es') y = y' ← exec_events d es y; exec_events d es' y'.
Proof.
  revert y. induction es as [|e es IH]; intros y; simpl; [done|].
  destruct (exec_event d e y); simpl; [apply IH|done].
Qed.

End Delivery.
