(* ===== verification/SystemSpec.v ===== *)
(** * The specification of the whole system

    What the three probes promise while the controller changes their maps and reads their ring
    buffers: the observer of the connection probe, one machine per connection attempt, and the system
    calls that pass the allowlist. *)

From S2P Require Import Prelude CLayout CLayoutFacts BpfEnv RingBuffer VmlinuxBase Helper.
From S2P Require Import RustStd Controller ControllerThms System SystemFacts.
From S2P Require NetworkProbe NetworkProbeSpec NetworkProbeThms.
From S2P Require NetpolicyDrop NetpolicySpec SyscallProbe.

#[local] Existing Instance NetpolicyDrop.conn_attempt_eq_dec.

#[export] Instance conn_attempt_countable : Countable NetpolicyDrop.conn_attempt.
Proof.
  refine (inj_countable'
    (λ k, let 'NetpolicyDrop.ConnAttempt i sa da sp dp pr pa := k in (i, sa, da, sp, dp, pr, pa))
    (λ '(i, sa, da, sp, dp, pr, pa), NetpolicyDrop.ConnAttempt i sa da sp dp pr pa) _).
  by intros [].
Defined.

Section SystemSpec.
Context `{BpfKernelLaws}.

Record sys_spec : Type := SysSpec {
  sp_network : helper_maps;
  sp_observer : NetworkProbeSpec.observer;
  sp_netpolicy : helper_maps;
  sp_attempts : gmap NetpolicyDrop.conn_attempt NetpolicyDrop.conn_state;
  sp_drops : list NetpolicyDrop.policy_drop;
  sp_syscall : helper_maps;
  sp_calls : list (Z * Z)
}.

(** The maps of an object after a turn of the loop; [d]: it is sent the addresses to ignore. *)
Definition told (d ok : bool) (inum : option Z) (ip : option string) (h : helper_maps) :
    helper_maps :=
  if ok then
    let h := match inum with Some inum => update_inode inum h | None => h end in
    match d, ip with
    | true, Some ip =>
        match parse_ipv4 ip with Some ip => update_ignore (to_be32 ip) h | None => h end
    | _, _ => h
    end
  else h.

Definition set_observer (o : NetworkProbeSpec.observer) (σ : sys_spec) : sys_spec :=
  {| sp_network := sp_network σ; sp_observer := o; sp_netpolicy := sp_netpolicy σ;
     sp_attempts := sp_attempts σ; sp_drops := sp_drops σ; sp_syscall := sp_syscall σ;
     sp_calls := sp_calls σ |}.

Definition attempted (full : bool) (now : Z) (key : NetpolicyDrop.conn_attempt)
    (e : NetpolicySpec.attempt_event) (σ : sys_spec) : sys_spec :=
  let old := sp_attempts σ !! key in
  {| sp_network := sp_network σ; sp_observer := sp_observer σ; sp_netpolicy := sp_netpolicy σ;
     sp_attempts := partial_alter (λ _, NetpolicySpec.attempt_step now full e old) key (sp_attempts σ);
     sp_drops := sp_drops σ ++ NetpolicySpec.attempt_report now full key e old;
     sp_syscall := sp_syscall σ; sp_calls := sp_calls σ |}.

Definition called (full : bool) (call : option (Z * Z)) (σ : sys_spec) : sys_spec :=
  {| sp_network := sp_network σ; sp_observer := sp_observer σ; sp_netpolicy := sp_netpolicy σ;
     sp_attempts := sp_attempts σ; sp_drops := sp_drops σ; sp_syscall := sp_syscall σ;
     sp_calls := sp_calls σ ++ (if full then [] else option_list call) |}.

(** [full]: the ring buffer of the object of the hook has no room at that moment. *)
Definition spec_event (d full : bool) (e : event) (σ : sys_spec) : sys_spec :=
  match e with
  | NetworkHook hk =>
      set_observer (NetworkProbeSpec.observe (sp_network σ) full hk (sp_observer σ)) σ
  | DropHook hk =>
      match NetpolicySpec.hook_attempt (sp_netpolicy σ) hk with
      | Some (key, e) => attempted full (bpf_ktime_get_ns (NetpolicySpec.drop_hook_kctx hk)) key e σ
      | None => σ
      end
  | SyscallHook c ctx => called full (SyscallProbe.syscall_event (sp_syscall σ) c ctx) σ
  | LoopTurn ok inum ip =>
      {| sp_network := told d ok inum ip (sp_network σ); sp_observer := sp_observer σ;
         sp_netpolicy := told false ok inum ip (sp_netpolicy σ);
         sp_attempts := sp_attempts σ; sp_drops := sp_drops σ;
         sp_syscall := told false ok inum ip (sp_syscall σ); sp_calls := sp_calls σ |}
  | CloseNetwork | CloseSyscall | CloseDrop => σ
  end.

Fixpoint spec_events (d : bool) (fulls : list bool) (es : list event) (σ : sys_spec) : sys_spec :=
  match fulls, es with
  | full :: fulls, e :: es => spec_events d fulls es (spec_event d full e σ)
  | _, _ => σ
  end.

(** Whether the ring buffer concerned has room, at each event of a run. *)
Definition refusal (e : event) (y : system) : bool :=
  match e with
  | NetworkHook _ => ring_full NetworkProbe.network_event_data (network_ring y)
  | DropHook _ => ring_full NetpolicyDrop.policy_drop_event (drop_ring y)
  | SyscallHook _ _ => ring_full SyscallProbe.data_t (syscall_ring y)
  | _ => false
  end.

Fixpoint refusals (d : bool) (es : list event) (y : system) : list bool :=
  match es with
  | [] => []
  | e :: es =>
      refusal e y :: match exec_event d e y with Some y => refusals d es y | None => [] end
  end.

(** ** Room *)

(** One more key fits the map. *)
Definition map_room {df : map_def} {K V : Type} `{EqDecision K} (m : bpf_map df K V) : Prop :=
  ∃ keys, (∀ k, is_Some (bpf_map_peek m k) → k ∈ keys) ∧ Z.of_nat (length keys) < max_entries df.

Definition helper_room (h : helper_maps) : Prop := map_room (inode_num h) ∧ map_room (ignore_ips h).

(** Nothing that an event adds makes a map evict. *)
Definition event_room (e : event) (σ : sys_spec) : Prop :=
  match e with
  | NetworkHook _ => NetworkProbeSpec.roomy (sp_observer σ)
  | DropHook _ => Z.of_nat (size (sp_attempts σ)) < max_entries NetpolicyDrop.connection_tracking_def
  | LoopTurn true _ _ =>
      helper_room (sp_network σ) ∧ helper_room (sp_netpolicy σ) ∧ helper_room (sp_syscall σ)
  | _ => True
  end.

Fixpoint run_room (d : bool) (fulls : list bool) (es : list event) (σ : sys_spec) : Prop :=
  match fulls, es with
  | full :: fulls, e :: es => event_room e σ ∧ run_room d fulls es (spec_event d full e σ)
  | _, _ => True
  end.

(** ** The simulation relation *)

Record sys_refines (y : system) (σ : sys_spec) : Prop := {
  sr_network : NetworkProbeSpec.refines (sp_network σ) (network_sk (sys_ctl y)) (sp_observer σ);
  sr_netpolicy : NetpolicyDrop.nd_helper (netpolicy_sk (sys_ctl y)) ≡ sp_netpolicy σ;
  sr_attempts k :
    bpf_map_peek (NetpolicyDrop.connection_tracking (netpolicy_sk (sys_ctl y))) k = sp_attempts σ !! k;
  sr_drops : NetpolicyDrop.drops (netpolicy_sk (sys_ctl y)) = sp_drops σ;
  sr_syscall : SyscallProbe.sy_helper (syscall_sk (sys_ctl y)) ≡ sp_syscall σ;
  sr_calls : SyscallProbe.syscalls_reported (syscall_sk (sys_ctl y)) = sp_calls σ
}.

(** The objects as they are loaded: only the maps that user space fills have contents. *)
Definition loaded_spec (y : system) : sys_spec :=
  {| sp_network := NetworkProbe.np_helper (network_sk (sys_ctl y));
     sp_observer := NetworkProbeSpec.initial_observer;
     sp_netpolicy := NetpolicyDrop.nd_helper (netpolicy_sk (sys_ctl y));
     sp_attempts := ∅; sp_drops := [];
     sp_syscall := SyscallProbe.sy_helper (syscall_sk (sys_ctl y)); sp_calls := [] |}.

Definition freshly_loaded (y : system) : Prop :=
  booted y ∧ NetworkProbeSpec.loaded (network_sk (sys_ctl y)) ∧
  ∀ k, bpf_map_peek (NetpolicyDrop.connection_tracking (netpolicy_sk (sys_ctl y))) k = None.

End SystemSpec.
