(* ===== verification/SystemThms.v ===== *)
(** * Theorems about the whole system *)

From stdpp Require Import relations.
From S2P Require Import Prelude CLayout CLayoutFacts BpfEnv LruKernel RingBuffer VmlinuxBase Helper.
From S2P Require Import RustStd Controller ControllerThms System SystemFacts SystemSpec.
From S2P Require NetworkProbe NetworkProbeFacts NetworkProbeSpec NetworkProbeThms.
From S2P Require NetpolicyDrop NetpolicySpec SyscallProbe.

#[local] Existing Instance NetpolicyDrop.conn_attempt_eq_dec.

(** ** The simulation *)

Section Simulation.
Context `{BpfKernelLaws}.
Implicit Types (y : system) (σ : sys_spec) (h : helper_maps).

(** An update of a map with room depends on its contents only. *)
Lemma update_room {df : map_def} {K V : Type} `{EqDecision K} (k : K) (v : V)
    (m m' : bpf_map df K V) :
  (∀ k', bpf_map_peek m k' = bpf_map_peek m' k') → map_room m' →
  ∀ k', bpf_map_peek (exec (bpf_map_update_elem k v) m) k' =
        if decide (k' = k) then Some v else bpf_map_peek m' k'.
Proof.
  intros Hm (keys&Hk&Hl) k'.
  destruct (update_elem_room k v m keys) as [H1 H2]; [|done|].
  { intros k''. rewrite Hm. apply Hk. }
  unfold exec. case_decide as Hd; [subst; by apply update_elem_ok|]. by rewrite H2, Hm.
Qed.

Lemma update_inode_equiv (inum : Z) h h' :
  h ≡ h' → map_room (inode_num h') → update_inode inum h ≡ update_inode inum h'.
Proof.
  intros (Hi&Hg&Ha) Hr. split_and!; intros k; simpl; [|done..].
  rewrite (update_room inum 1 (inode_num h) (inode_num h')) by done.
  by rewrite (update_room inum 1 (inode_num h') (inode_num h')).
Qed.

Lemma update_ignore_equiv (ip : Z) h h' :
  h ≡ h' → map_room (ignore_ips h') → update_ignore ip h ≡ update_ignore ip h'.
Proof.
  intros (Hi&Hg&Ha) Hr. split_and!; intros k; simpl; [done| |done].
  rewrite (update_room ip 1 (ignore_ips h) (ignore_ips h')) by done.
  by rewrite (update_room ip 1 (ignore_ips h') (ignore_ips h')).
Qed.

Lemma told_equiv (d ok : bool) (inum : option Z) (ip : option string) h h' :
  h ≡ h' → (ok = true → helper_room h') → told d ok inum ip h ≡ told d ok inum ip h'.
Proof.
  intros Hh Hr. destruct ok; [|done]. specialize (Hr eq_refl). destruct Hr as [Hi Hg]. unfold told.
  assert (match inum with Some inum => update_inode inum h | None => h end ≡
          match inum with Some inum => update_inode inum h' | None => h' end) as Hu.
  { destruct inum; [|done]. by apply update_inode_equiv. }
  destruct d, ip as [ip|]; try done. destruct (parse_ipv4 ip); [|done].
  apply update_ignore_equiv; [done|]. by destruct inum.
Qed.

(** A turn of the loop, object by object. *)
Lemma loop_turn_helpers (d ok : bool) (inum : option Z) (ip : option string) y y' :
  loop_turn d ok inum ip y = Some y' →
  network_sk (sys_ctl y') =
    NetworkProbe.set_np_helper (told d ok inum ip (NetworkProbe.np_helper (network_sk (sys_ctl y))))
      (NetworkProbe.set_network_events (network_ring y') (network_sk (sys_ctl y))) ∧
  netpolicy_sk (sys_ctl y') =
    NetpolicyDrop.set_nd_helper
      (told false ok inum ip (NetpolicyDrop.nd_helper (netpolicy_sk (sys_ctl y))))
      (NetpolicyDrop.set_policy_drop_events (drop_ring y') (netpolicy_sk (sys_ctl y))) ∧
  syscall_sk (sys_ctl y') =
    SyscallProbe.set_sy_helper
      (told false ok inum ip (SyscallProbe.sy_helper (syscall_sk (sys_ctl y))))
      (SyscallProbe.set_syscall_events (syscall_ring y') (syscall_sk (sys_ctl y))).
Proof.
  unfold loop_turn. destruct (EBPF_SHUTDOWN y); [done|]. simpl.
  set (polled := if ok then poll_rings y else y).
  assert (
    network_sk (sys_ctl polled) =
      NetworkProbe.set_network_events (network_ring polled) (network_sk (sys_ctl y)) ∧
    netpolicy_sk (sys_ctl polled) =
      NetpolicyDrop.set_policy_drop_events (drop_ring polled) (netpolicy_sk (sys_ctl y)) ∧
    syscall_sk (sys_ctl polled) =
      SyscallProbe.set_syscall_events (syscall_ring polled) (syscall_sk (sys_ctl y))) as (Hn&Hd&Hs).
  { unfold polled, poll_rings, network_ring, drop_ring, syscall_ring. destruct ok.
    - by repeat case_match.
    - by destruct y as [[[] [] [] ?] ? ? ? ?]. }
  clearbody polled. unfold poll_turn. simpl. destruct ok; simpl.
  - intros [= <-]. unfold network_ring, drop_ring, syscall_ring in *. simpl.
    destruct inum, d, ip as [ip|]; simpl; try destruct (parse_ipv4 ip); simpl; by rewrite Hn, Hd, Hs.
  - destruct (classify_poll_error _ _); simpl; intros; simplify_eq; unfold set_ctl, network_ring,
      drop_ring, syscall_ring in *; simpl; rewrite Hn, Hd, Hs; by destruct y as [[[] [] [] ?] ? ? ? ?].
Qed.

(** Polling keeps the records. *)
Lemma loop_turn_records (d ok : bool) (inum : option Z) (ip : option string) y y' :
  loop_turn d ok inum ip y = Some y' →
  ringbuf_records (network_ring y') = ringbuf_records (network_ring y) ∧
  ringbuf_records (drop_ring y') = ringbuf_records (drop_ring y) ∧
  ringbuf_records (syscall_ring y') = ringbuf_records (syscall_ring y).
Proof.
  intros (_&(->&->&->&_))%loop_turn_io. destruct ok; [|done].
  unfold poll_rings. repeat case_match. unfold network_ring, drop_ring, syscall_ring. simpl.
  by autorewrite with kg_rw.
Qed.

(** The specification of the connection probe does not look at the maps that the controller fills,
    but through the hooks. *)
Lemma refines_told h h' (h2 : helper_maps) (s : NetworkProbe.probe_state)
    (o : NetworkProbeSpec.observer) :
  NetworkProbeSpec.refines h s o → h2 ≡ h' →
  NetworkProbeSpec.refines h' (NetworkProbe.set_np_helper h2 s) o.
Proof. intros [] Hh. by split. Qed.

Lemma attempts_size y σ :
  sys_refines y σ →
  Z.of_nat (size (sp_attempts σ)) < max_entries NetpolicyDrop.connection_tracking_def →
  NetpolicySpec.tracked_within (elements (dom (sp_attempts σ))) (netpolicy_sk (sys_ctl y)).
Proof.
  intros Hr Hs. split.
  - by rewrite <- size_dom in Hs.
  - intros k. rewrite (sr_attempts _ _ Hr). intros [st Hk]. apply elem_of_elements, elem_of_dom. eauto.
Qed.

Lemma drop_hook_refines y σ (hk : NetpolicyDrop.drop_hook) :
  sys_refines y σ → event_room (DropHook hk) σ →
  let s' := exec (NetpolicyDrop.run_drop_hook hk) (netpolicy_sk (sys_ctl y)) in
  let σ' := spec_event false (refusal (DropHook hk) y) (DropHook hk) σ in
  NetpolicyDrop.nd_helper s' ≡ sp_netpolicy σ' ∧
  (∀ k, bpf_map_peek (NetpolicyDrop.connection_tracking s') k = sp_attempts σ' !! k) ∧
  NetpolicyDrop.drops s' = sp_drops σ'.
Proof.
  intros Hr Hroom s' σ'. pose proof (attempts_size y σ Hr Hroom) as Hw.
  destruct (NetpolicySpec.run_drop_hook_run (sp_netpolicy σ) _ hk _ (sr_netpolicy _ _ Hr) Hw)
    as (_&h'&Hh'&Hs).
  fold s' in Hs. unfold σ'. simpl.
  destruct (NetpolicySpec.hook_attempt (sp_netpolicy σ) hk) as [[key e]|] eqn:Hk; simpl.
  - split_and!.
    + by rewrite (NetpolicySpec.ae_helper _ _ _ _ _ Hs).
    + intros k. rewrite (NetpolicySpec.ae_tracking _ _ _ _ _ Hs). simpl.
      rewrite (sr_attempts _ _ Hr key). case_decide as Hd.
      * subst. by rewrite lookup_partial_alter_eq.
      * by rewrite lookup_partial_alter_ne, (sr_attempts _ _ Hr) by done.
    + apply NetpolicySpec.hook_attempt_ok in Hk as [Hk _].
      rewrite (NetpolicySpec.after_event_drops _ _ _ _ _ Hk Hs). simpl.
      rewrite (sr_attempts _ _ Hr). f_equal. apply (sr_drops _ _ Hr).
  - rewrite Hs. split_and!; [done|apply (sr_attempts _ _ Hr)|apply (sr_drops _ _ Hr)].
Qed.

Lemma syscall_hook_refines y σ (c : kctx) (ctx : list byte) :
  sys_refines y σ →
  let s' := exec (SyscallProbe.trace_execve c ctx) (syscall_sk (sys_ctl y)) in
  let σ' := spec_event false (refusal (SyscallHook c ctx) y) (SyscallHook c ctx) σ in
  SyscallProbe.sy_helper s' ≡ sp_syscall σ' ∧ SyscallProbe.syscalls_reported s' = sp_calls σ'.
Proof.
  intros Hr s' σ'. unfold s', exec.
  destruct (SyscallProbe.trace_execve_run c ctx (syscall_sk (sys_ctl y))) as (h'&Hh&->). simpl.
  rewrite (SyscallProbe.syscall_event_equiv _ (sp_syscall σ)) by apply (sr_syscall _ _ Hr).
  rewrite <- (sr_calls _ _ Hr). unfold SyscallProbe.syscall_event. destruct (_ && _); simpl.
  - split; [etrans; [done|apply (sr_syscall _ _ Hr)]|].
    unfold SyscallProbe.syscalls_reported. simpl.
    rewrite (send_record_decoded SyscallProbe.data_t _ SyscallProbe.decode_data_t
      (SyscallProbe.task_inum c, SyscallProbe.sys_enter_id ctx)); [done|done|].
    intros data Hd. rewrite SyscallProbe.decode_fill_data_t by done. unfold u64_of.
    rewrite !wrap_small; [done|apply SyscallProbe.sys_enter_id_range|apply SyscallProbe.task_inum_range].
  - split; [etrans; [done|apply (sr_syscall _ _ Hr)]|]. by destruct (ring_full _ _); rewrite app_nil_r.
Qed.

Lemma loop_turn_refines (d ok : bool) (inum : option Z) (ip : option string) y y' σ :
  loop_turn d ok inum ip y = Some y' → sys_refines y σ → event_room (LoopTurn ok inum ip) σ →
  sys_refines y' (spec_event d false (LoopTurn ok inum ip) σ).
Proof.
  intros Hy Hr Hroom. destruct (loop_turn_helpers _ _ _ _ _ _ Hy) as (Hn&Hd&Hs).
  destruct (loop_turn_records _ _ _ _ _ _ Hy) as (Hrn&Hrd&Hrs).
  destruct Hr as [Hnet Hnp Hat Hdr Hsy Hca]. simpl in Hroom.
  split; simpl; rewrite ?Hn, ?Hd, ?Hs; simpl.
  - eapply refines_told; [by apply NetworkProbeThms.refines_ring|].
    apply told_equiv; [apply (NetworkProbeSpec.rf_helper _ _ _ Hnet)|]. intros ->. apply Hroom.
  - apply told_equiv; [done|]. intros ->. apply Hroom.
  - done.
  - rewrite <- Hdr. unfold NetpolicyDrop.drops. simpl. by rewrite Hrd.
  - apply told_equiv; [done|]. intros ->. apply Hroom.
  - rewrite <- Hca. unfold SyscallProbe.syscalls_reported. simpl. by rewrite Hrs.
Qed.

Lemma event_refines (d : bool) (e : event) y y' σ :
  exec_event d e y = Some y' → sys_refines y σ → event_room e σ →
  sys_refines y' (spec_event d (refusal e y) e σ).
Proof.
  intros He Hr Hroom. destruct e as [hk|hk|c ctx|ok inum ip| | |]; simpl in He; simplify_eq.
  - destruct Hr. split; try done. by apply NetworkProbeSpec.hook_refines_observe.
  - destruct (drop_hook_refines y σ hk Hr Hroom) as (Hh&Hk&Hd).
    assert (∀ A (f : sys_spec → A),
      (∀ full now key e σ, f (attempted full now key e σ) = f σ) →
      f (spec_event d (refusal (DropHook hk) y) (DropHook hk) σ) = f σ) as Hf.
    { intros A f Hf. simpl. by destruct (NetpolicySpec.hook_attempt _ hk) as [[]|]. }
    split; [rewrite !(Hf _ sp_network), !(Hf _ sp_observer) by done; apply (sr_network _ _ Hr)
           |done|done|done| |].
    + rewrite (Hf _ sp_syscall) by done. apply (sr_syscall _ _ Hr).
    + rewrite (Hf _ sp_calls) by done. apply (sr_calls _ _ Hr).
  - destruct (syscall_hook_refines y σ c ctx Hr) as [Hh Hc]. destruct Hr. by split.
  - by apply loop_turn_refines with (y := y).
  - by destruct Hr.
  - by destruct Hr.
  - by destruct Hr.
Qed.

Lemma run_refines (d : bool) (es : list event) y y' σ :
  exec_events d es y = Some y' → sys_refines y σ → run_room d (refusals d es y) es σ →
  sys_refines y' (spec_events d (refusals d es y) es σ).
Proof.
  revert y σ. induction es as [|e es IH]; intros y σ Hy Hr Hroom; simpl in *.
  { by injection Hy as <-. }
  destruct (exec_event d e y) as [y1|] eqn:He; simpl in *; [|done]. destruct Hroom as [Hre Hroom].
  apply IH; [done| |done]. by eapply event_refines.
Qed.

Lemma loaded_sys_refines y : freshly_loaded y → sys_refines y (loaded_spec y).
Proof.
  intros (Hb&Hl&Hc). destruct Hb as ((Hn&_)&(Hs&_)&(Hd&_)&_). split; simpl.
  - by apply NetworkProbeSpec.loaded_refines.
  - done.
  - intros k. by rewrite Hc, lookup_empty.
  - unfold NetpolicyDrop.drops. unfold drop_ring in Hd. by rewrite Hd.
  - done.
  - unfold SyscallProbe.syscalls_reported. unfold syscall_ring in Hs. by rewrite Hs.
Qed.

End Simulation.

(** ** Consequences *)

Section Consequences.
Context `{BpfKernelLaws}.
Implicit Types (y : system) (σ : sys_spec).

(** What the three tasks that receive the records have not read yet, as they would decode it. *)
Definition network_waiting y := NetworkProbe.decode_network_event <$> ringbuf_unread (network_ring y).
Definition syscall_waiting y := decode_syscall <$> ringbuf_unread (syscall_ring y).
Definition drop_waiting y := NetpolicyDrop.decode_policy_drop <$> ringbuf_unread (drop_ring y).

(** A system call as user space reads it. *)
Definition user_call (call : Z * Z) : Z * Z := (call.1, u32_of call.2).

Lemma decode_syscall_user (rs : list (list byte)) :
  decode_syscall <$> rs = user_call <$> (SyscallProbe.decode_data_t <$> rs).
Proof. rewrite <- list_fmap_compose. by apply list_fmap_ext. Qed.

Lemma delivering_decoded y net sys drp :
  delivering y net sys drp →
  (NetworkProbe.reported (network_sk (sys_ctl y)) =
     ch_sent (network_tx y) ++ net ++ network_waiting y ∧
   (net ≠ [] → ch_open (network_tx y) = false)) ∧
  (user_call <$> SyscallProbe.syscalls_reported (syscall_sk (sys_ctl y)) =
     ch_sent (syscall_tx y) ++ sys ++ syscall_waiting y ∧
   (sys ≠ [] → ch_open (syscall_tx y) = false)) ∧
  (NetpolicyDrop.drops (netpolicy_sk (sys_ctl y)) =
     ch_sent (drop_tx y) ++ drp ++ drop_waiting y ∧
   (drp ≠ [] → ch_open (drop_tx y) = false)).
Proof.
  intros [Hn Hs Hd _]. split_and!.
  1-2: by apply (channel_ok_decoded _ _ NetworkProbe.decode_network_event _ _ _ receive_network_object Hn).
  1: unfold SyscallProbe.syscalls_reported; rewrite <- decode_syscall_user.
  1-2: by apply (channel_ok_decoded _ _ decode_syscall _ _ _ receive_syscall_object Hs).
  1-2: by apply (channel_ok_decoded _ _ NetpolicyDrop.decode_policy_drop _ _ _ receive_drop_object Hd).
Qed.

Lemma lost_in_poll_closed {n : Z} {A : Type} (t : ctype) (receive : list byte → option A)
    (decode : list byte → A) (rb : ringbuf n) (ch : channel A) :
  (∀ data, is_object t data → receive data = Some (decode data)) → ring_typed t rb →
  ch_open ch = false → ringbuf_unread rb ≠ [] → lost_in_poll receive rb ch ≠ [].
Proof.
  intros Hd [_ Hu] Hc Hne. unfold lost_in_poll. rewrite Hc.
  destruct Hu as [|r rs Hr _]; [done|]. csimpl. by rewrite Hd.
Qed.

(** Someone has gone away and a record for them is waiting. *)
Definition doomed y : Prop :=
  (ch_open (network_tx y) = false ∧ ringbuf_unread (network_ring y) ≠ []) ∨
  (ch_open (syscall_tx y) = false ∧ ringbuf_unread (syscall_ring y) ≠ []) ∨
  (ch_open (drop_tx y) = false ∧ ringbuf_unread (drop_ring y) ≠ []).

Lemma doomed_poll y net sys drp :
  delivering y net sys drp → doomed y → EBPF_SHUTDOWN (poll_rings y) = true.
Proof.
  intros Hy Hd. apply (dl_shutdown _ _ _ _ (delivering_poll _ _ _ _ Hy)). rewrite !app_nil.
  destruct Hy as [[Hn _] [Hs _] [Hp _] _]. destruct Hd as [[Hc Hu]|[[Hc Hu]|[Hc Hu]]].
  - pose proof (lost_in_poll_closed _ _ _ _ _ receive_network_object Hn Hc Hu). tauto.
  - pose proof (lost_in_poll_closed _ _ _ _ _ receive_syscall_object Hs Hc Hu). tauto.
  - pose proof (lost_in_poll_closed _ _ _ _ _ receive_drop_object Hp Hc Hu). tauto.
Qed.

(** The flag is never lowered. *)
Lemma exec_event_shutdown (d : bool) (e : event) y y' :
  exec_event d e y = Some y' → EBPF_SHUTDOWN y = true → EBPF_SHUTDOWN y' = true.
Proof.
  intros He Hs. destruct e; simpl in He; simplify_eq; try done.
  apply loop_turn_io in He as [Hf _]. congruence.
Qed.

Lemma exec_events_shutdown (d : bool) (es : list event) y y' :
  exec_events d es y = Some y' → EBPF_SHUTDOWN y = true → EBPF_SHUTDOWN y' = true.
Proof.
  revert y. induction es as [|e es IH]; intros y Hy Hs; simpl in Hy; [by injection Hy as <-|].
  destruct (exec_event d e y) as [y1|] eqn:He; simpl in Hy; [|done].
  apply (IH y1 Hy). by eapply exec_event_shutdown.
Qed.

Lemma refusals_app (d : bool) (es es' : list event) y y1 :
  exec_events d es y = Some y1 → refusals d (es ++ es') y = refusals d es y ++ refusals d es' y1.
Proof.
  revert y. induction es as [|e es IH]; intros y Hy; simpl in *; [by injection Hy as ->|].
  destruct (exec_event d e y); simpl in *; [|done]. f_equal. by apply IH.
Qed.

Lemma length_refusals (d : bool) (es : list event) y y1 :
  exec_events d es y = Some y1 → length (refusals d es y) = length es.
Proof.
  revert y. induction es as [|e es IH]; intros y Hy; simpl in *; [done|].
  destruct (exec_event d e y); simpl in *; [|done]. f_equal. by apply IH.
Qed.

Lemma spec_events_app (d : bool) (fs fs' : list bool) (es es' : list event) σ :
  length fs = length es →
  spec_events d (fs ++ fs') (es ++ es') σ = spec_events d fs' es' (spec_events d fs es σ).
Proof.
  revert es σ. induction fs as [|f fs IH]; intros [|e es] σ Hl; simpl in *; try done. apply IH. lia.
Qed.

Lemma run_room_app (d : bool) (fs fs' : list bool) (es es' : list event) σ :
  length fs = length es →
  run_room d (fs ++ fs') (es ++ es') σ ↔
  run_room d fs es σ ∧ run_room d fs' es' (spec_events d fs es σ).
Proof.
  revert es σ. induction fs as [|f fs IH]; intros [|e es] σ Hl; simpl in *; try done; [tauto|].
  rewrite IH by lia. tauto.
Qed.

(** A run up to some point, and the specification there. *)
Lemma run_refines_app (d : bool) (es es' : list event) y y' :
  freshly_loaded y → exec_events d (es ++ es') y = Some y' →
  run_room d (refusals d (es ++ es') y) (es ++ es') (loaded_spec y) →
  ∃ y1, exec_events d es y = Some y1 ∧ exec_events d es' y1 = Some y' ∧
    let σ1 := spec_events d (refusals d es y) es (loaded_spec y) in
    sys_refines y1 σ1 ∧ run_room d (refusals d es' y1) es' σ1 ∧
    spec_events d (refusals d (es ++ es') y) (es ++ es') (loaded_spec y) =
    spec_events d (refusals d es' y1) es' σ1.
Proof.
  intros Hl Hy Hroom. rewrite exec_events_app in Hy.
  destruct (exec_events d es y) as [y1|] eqn:Hy1; simpl in Hy; [|done].
  pose proof (length_refusals d es y y1 Hy1) as Hlen.
  rewrite (refusals_app d es es' y y1 Hy1), run_room_app in Hroom by done.
  exists y1. split; [done|]. split; [done|]. simpl. split_and!; [|by apply Hroom|].
  - apply run_refines; [done|by apply loaded_sys_refines|apply Hroom].
  - by rewrite (refusals_app d es es' y y1 Hy1), spec_events_app.
Qed.

(** ** The specification only remembers more *)

Definition remembers σ σ' : Prop :=
  (∀ e, e ∈ NetworkProbeSpec.ob_out (sp_observer σ) → e ∈ NetworkProbeSpec.ob_out (sp_observer σ')) ∧
  (∀ k, tracked (sp_network σ) k = true → tracked (sp_network σ') k = true).

#[local] Instance remembers_preorder : PreOrder remembers.
Proof. split; [by intros σ|]. intros σ1 σ2 σ3 [H1 H2] [H3 H4]. split; auto. Qed.

Lemma observe_out_mono h (full : bool) (hk : NetworkProbe.probe_hook) (o : NetworkProbeSpec.observer) e :
  e ∈ NetworkProbeSpec.ob_out o → e ∈ NetworkProbeSpec.ob_out (NetworkProbeSpec.observe h full hk o).
Proof.
  intros He. rewrite NetworkProbeSpec.observe_eq.
  destruct (NetworkProbeSpec.hook_flow h hk o) as [fl|]; simpl; [|done].
  unfold NetworkProbeSpec.saw. simpl. case_decide; simpl; [done|]. apply elem_of_app. by left.
Qed.

Lemma told_tracked (d ok : bool) (inum : option Z) (ip : option string) h (k : Z) :
  (ok = true → helper_room h) →
  tracked (told d ok inum ip h) k = (ok && bool_decide (inum = Some k)) || tracked h k.
Proof.
  intros Hr. destruct ok; simpl; [|done]. specialize (Hr eq_refl). destruct Hr as [(keys&Hk&Hl) _].
  assert (∀ h h', inode_num h = inode_num h' → tracked h k = tracked h' k) as Hi.
  { intros h1 h2 Hi. unfold tracked. by rewrite Hi. }
  rewrite (Hi _ (match inum with Some inum => update_inode inum h | None => h end)).
  2: destruct d, ip as [ip|]; try done; by destruct (parse_ipv4 ip).
  destruct inum as [inum|]; [|by rewrite bool_decide_false].
  rewrite (update_inode_tracked h inum k keys); [|intros k' Ht; apply Hk|done].
  - case_bool_decide as Hd; [injection Hd as ->; by rewrite Z.eqb_refl|].
    by rewrite (proj2 (Z.eqb_neq k inum)) by congruence.
  - unfold tracked in Ht. destruct (bpf_map_peek (inode_num h) k'); [eauto|done].
Qed.

Lemma spec_event_remembers (d full : bool) (e : event) σ :
  event_room e σ → remembers σ (spec_event d full e σ).
Proof.
  intros Hroom. destruct e as [hk|hk|c ctx|ok inum ip| | |]; simpl; try reflexivity.
  - split; simpl; [|done]. intros e. apply observe_out_mono.
  - destruct (NetpolicySpec.hook_attempt _ hk) as [[]|]; by split.
  - by split.
  - split; simpl; [done|]. intros k Hk. rewrite told_tracked, Hk; [by rewrite orb_true_r|].
    intros ->. apply Hroom.
Qed.

Lemma spec_events_remember (d : bool) (fs : list bool) (es : list event) σ :
  run_room d fs es σ → remembers σ (spec_events d fs es σ).
Proof.
  revert es σ. induction fs as [|f fs IH]; intros [|e es] σ Hroom; simpl in *; try reflexivity.
  destruct Hroom as [He Hroom]. etrans; [by apply spec_event_remembers|by apply IH].
Qed.

(** ** After a poll *)

Lemma loop_turn_waiting (d : bool) (inum : option Z) (ip : option string) y y' :
  loop_turn d true inum ip y = Some y' →
  network_waiting y' = [] ∧ syscall_waiting y' = [] ∧ drop_waiting y' = [].
Proof.
  intros (_&(Hn&Hs&Hd&_))%loop_turn_io.
  unfold network_waiting, syscall_waiting, drop_waiting. rewrite Hn, Hs, Hd. unfold poll_rings.
  repeat case_match. unfold network_ring, drop_ring, syscall_ring. simpl.
  by autorewrite with kg_rw.
Qed.

Lemma sent_of_open {A : Type} (ch : channel A) (l lost waiting : list A) :
  l = ch_sent ch ++ lost ++ waiting ∧ (lost ≠ [] → ch_open ch = false) →
  ch_open ch = true → l = ch_sent ch ++ waiting.
Proof. intros [-> Hl] Ho. destruct lost; [done|]. by rewrite Hl in Ho. Qed.

(** The first sight of a flow, when the ring buffer has room. *)
Lemma fresh_flow_out (d : bool) (hk : NetworkProbe.probe_hook) (fl : NetworkProbeFacts.flow) σ :
  NetworkProbeSpec.hook_flow (sp_network σ) hk (sp_observer σ) = Some fl →
  NetworkProbeFacts.fl_key fl ∉ NetworkProbeSpec.ob_seen (sp_observer σ) →
  NetworkProbeFacts.event_of fl ∈
    NetworkProbeSpec.ob_out (sp_observer (spec_event d false (NetworkHook hk) σ)).
Proof.
  intros Hfl Hnew. simpl. rewrite NetworkProbeSpec.observe_eq, Hfl. simpl.
  rewrite NetworkProbeThms.saw_new by done. simpl. apply elem_of_app. right. by apply list_elem_of_singleton.
Qed.

(** A namespace that a turn has registered is consulted by the hooks from then on. *)
Lemma registered_stays (d : bool) (pre mid : list event) y y1 σ (inum : Z) (ip : option string) :
  let before := pre ++ LoopTurn true (Some inum) ip :: mid in
  exec_events d before y = Some y1 → run_room d (refusals d before y) before σ →
  tracked (sp_network (spec_events d (refusals d before y) before σ)) inum = true.
Proof.
  intros before Hb Hrb. unfold before in *. rewrite exec_events_app in Hb.
  destruct (exec_events d pre y) as [y0|] eqn:Hy0; simpl in Hb; [|done].
  pose proof (length_refusals d pre y y0 Hy0) as Hlen.
  rewrite (refusals_app d pre _ y y0 Hy0) in *. rewrite spec_events_app by done.
  apply run_room_app in Hrb as [_ Hrb]; [|done]. cbn [refusals spec_events run_room] in *.
  destruct Hrb as [Hrt Hrm]. apply (spec_events_remember d _ mid _ Hrm).
  cbn [spec_event sp_network]. rewrite told_tracked by (intros _; apply Hrt).
  by rewrite bool_decide_true.
Qed.

(** What the observer has sent has reached an open channel when a run ends with a poll. *)
Lemma last_poll_forwards (d : bool) (es : list event) y y' (inum : option Z) (ip : option string) :
  let es' := es ++ [LoopTurn true inum ip] in
  freshly_loaded y → exec_events d es' y = Some y' →
  run_room d (refusals d es' y) es' (loaded_spec y) → ch_open (network_tx y') = true →
  ch_sent (network_tx y') =
  NetworkProbeSpec.ob_out (sp_observer (spec_events d (refusals d es' y) es' (loaded_spec y))).
Proof.
  intros es' Hl Hes Hroom Hopen.
  pose proof (run_refines d es' y y' _ Hes (loaded_sys_refines y Hl) Hroom) as Hr.
  rewrite <- (NetworkProbeSpec.rf_out _ _ _ (sr_network _ _ Hr)).
  destruct (delivering_steps d y y' [] [] [] (exec_events_steps _ _ _ _ Hes)
    (booted_delivering y (proj1 Hl))) as (net&sys&drp&Hy).
  rewrite (sent_of_open _ _ _ _ (proj1 (delivering_decoded _ _ _ _ Hy)) Hopen).
  unfold es' in Hes. rewrite exec_events_app in Hes.
  destruct (exec_events d es y) as [y3|]; simpl in Hes; [|done].
  destruct (loop_turn d true inum ip y3) as [y4|] eqn:Hy4; simpl in Hes; [|done].
  injection Hes as ->. destruct (loop_turn_waiting _ _ _ _ _ Hy4) as [-> _]. by rewrite app_nil_r.
Qed.

End Consequences.

(** ** Theorems *)

Section Theorems.
Context `{BpfKernelLaws}.
Implicit Types (y : system) (σ : sys_spec).

(** C11: no record is lost unnoticed.  Whatever the interleaving of the hooks of the three objects, the
    turns of the poll loop and the ends of the receiving tasks: what a probe reported is what was sent
    on its channel, then what was lost, then what is still unread, in order; only a closed receiver
    loses records; and the shutdown flag is up if and only if some record has been lost. *)
Theorem records_are_delivered (d : bool) y y' :
  booted y → rtc (step d) y y' →
  ∃ net sys drp,
    NetworkProbe.reported (network_sk (sys_ctl y')) =
      ch_sent (network_tx y') ++ net ++ network_waiting y' ∧
    user_call <$> SyscallProbe.syscalls_reported (syscall_sk (sys_ctl y')) =
      ch_sent (syscall_tx y') ++ sys ++ syscall_waiting y' ∧
    NetpolicyDrop.drops (netpolicy_sk (sys_ctl y')) =
      ch_sent (drop_tx y') ++ drp ++ drop_waiting y' ∧
    (net ≠ [] → ch_open (network_tx y') = false) ∧
    (sys ≠ [] → ch_open (syscall_tx y') = false) ∧
    (drp ≠ [] → ch_open (drop_tx y') = false) ∧
    (EBPF_SHUTDOWN y' = true ↔ ¬ (net = [] ∧ sys = [] ∧ drp = [])).
Proof.
  intros Hb Hs. destruct (delivering_steps d y y' [] [] [] Hs (booted_delivering y Hb))
    as (net&sys&drp&Hy).
  exists net, sys, drp. destruct (delivering_decoded _ _ _ _ Hy) as ([]&[]&[]).
  split_and!; try done. apply (dl_shutdown _ _ _ _ Hy).
Qed.

(** a receiver that goes away ends the loop.  Once a record is waiting for a closed channel, the
    poll that reads it raises the shutdown flag, and the next turn of the loop returns, whatever the
    hooks do in between and whatever the turn itself meets. *)
Theorem closed_receiver_ends_loop (d : bool) y y1 (es mid post : list event)
    (ok : bool) (inum inum' : option Z) (ip ip' : option string) :
  booted y → exec_events d es y = Some y1 → doomed y1 →
  exec_events d (es ++ LoopTurn true inum ip :: mid ++ LoopTurn ok inum' ip' :: post) y = None.
Proof.
  intros Hb Hes Hd. rewrite exec_events_app, Hes. simpl.
  destruct (delivering_steps d y y1 [] [] [] (exec_events_steps _ _ _ _ Hes) (booted_delivering y Hb))
    as (net&sys&drp&Hy1).
  destruct (loop_turn d true inum ip y1) as [y2|] eqn:Hy2; simpl; [|done].
  apply loop_turn_io in Hy2 as (_&_&_&_&_&_&_&Hsd). 
  rewrite (doomed_poll y1 net sys drp Hy1 Hd) in Hsd. rewrite exec_events_app.
  destruct (exec_events d mid y2) as [y3|] eqn:Hy3; simpl; [|done].
  unfold loop_turn. by rewrite (exec_events_shutdown d mid y2 y3 Hy3 Hsd).
Qed.

(** C2: the whole system refines its specification.  Along any run that fits the maps, in which the
    controller registers namespaces and addresses and reads the ring buffers while the hooks fire, the
    channels that are still open have been sent, in order, the events of the observer, the drops of the
    machines of the connection attempts and the allowed system calls, but for those still unread; the
    maps that the hooks consult are those that the specification keeps. *)
Theorem system_refines_spec (d : bool) y y' (es : list event) :
  freshly_loaded y → exec_events d es y = Some y' →
  run_room d (refusals d es y) es (loaded_spec y) →
  let σ := spec_events d (refusals d es y) es (loaded_spec y) in
  (ch_open (network_tx y') = true →
   NetworkProbeSpec.ob_out (sp_observer σ) = ch_sent (network_tx y') ++ network_waiting y') ∧
  (ch_open (drop_tx y') = true → sp_drops σ = ch_sent (drop_tx y') ++ drop_waiting y') ∧
  (ch_open (syscall_tx y') = true →
   user_call <$> sp_calls σ = ch_sent (syscall_tx y') ++ syscall_waiting y') ∧
  NetworkProbe.np_helper (network_sk (sys_ctl y')) ≡ sp_network σ ∧
  NetpolicyDrop.nd_helper (netpolicy_sk (sys_ctl y')) ≡ sp_netpolicy σ ∧
  SyscallProbe.sy_helper (syscall_sk (sys_ctl y')) ≡ sp_syscall σ.
Proof.
  intros Hl Hes Hroom σ.
  pose proof (run_refines d es y y' _ Hes (loaded_sys_refines y Hl) Hroom) as Hr. fold σ in Hr.
  destruct (delivering_steps d y y' [] [] [] (exec_events_steps _ _ _ _ Hes)
    (booted_delivering y (proj1 Hl))) as (net&sys&drp&Hy).
  destruct (delivering_decoded _ _ _ _ Hy) as (Hn&Hs&Hd).
  rewrite (NetworkProbeSpec.rf_out _ _ _ (sr_network _ _ Hr)) in Hn.
  rewrite (sr_calls _ _ Hr) in Hs. rewrite (sr_drops _ _ Hr) in Hd.
  split_and!; [by eapply sent_of_open..| | |].
  - apply (NetworkProbeSpec.rf_helper _ _ _ (sr_network _ _ Hr)).
  - apply (sr_netpolicy _ _ Hr).
  - apply (sr_syscall _ _ Hr).
Qed.

(** A pod that starts late is watched.  Once a turn of the loop has registered the namespace of a
    pod, the first datagram of a flow from a socket of that namespace is reported: if its addresses are
    not ignored and the ring buffer has room when it is sent, its event is on the channel after the
    next successful poll, whatever happens in between. *)
Theorem registered_pod_is_reported (d : bool) y y' (pre mid post : list event) (c : kctx)
    (sk msg len : Z) (ip ip' : option string) (inum' : option Z) :
  let inum := sock_inum c sk in
  let skc := read_sock_common c sk in
  let fl := NetworkProbeFacts.skc_flow inum 2 1 skc in
  let before := pre ++ LoopTurn true (Some inum) ip :: mid in
  let es := before ++ NetworkHook (NetworkProbe.UdpSendmsg c sk msg len) :: post ++
            [LoopTurn true inum' ip'] in
  let σ1 := spec_events d (refusals d before y) before (loaded_spec y) in
  freshly_loaded y → exec_events d es y = Some y' →
  run_room d (refusals d es y) es (loaded_spec y) →
  sk ≠ 0 → skc_filtered (sp_network σ1) skc = false →
  NetworkProbeFacts.fl_key fl ∉ NetworkProbeSpec.ob_seen (sp_observer σ1) →
  (∀ y1, exec_events d before y = Some y1 →
         ring_full NetworkProbe.network_event_data (network_ring y1) = false) →
  ch_open (network_tx y') = true →
  NetworkProbeFacts.event_of fl ∈ ch_sent (network_tx y').
Proof.
  intros inum skc fl before es σ1 Hl Hes Hroom Hsk Hfilt Hnew Hfull Hopen.
  destruct (run_refines_app d before _ y y' Hl Hes Hroom) as (y1&Hb&Hrest&_&Hroom1&Hspec).
  fold σ1 in Hroom1, Hspec. specialize (Hfull y1 Hb).
  assert (tracked (sp_network σ1) inum = true) as Ht.
  { apply (registered_stays d pre mid y y1); [done|]. unfold es in Hroom.
    rewrite (refusals_app d before _ y y1 Hb) in Hroom. apply run_room_app in Hroom; [apply Hroom|].
    by eapply length_refusals. }
  set (σ2 := spec_event d false (NetworkHook (NetworkProbe.UdpSendmsg c sk msg len)) σ1).
  assert (NetworkProbeFacts.event_of fl ∈ NetworkProbeSpec.ob_out (sp_observer σ2)) as Hout.
  { apply fresh_flow_out; [|done]. simpl. unfold NetworkProbeFacts.udp_flow, socket_tracked.
    fold inum skc. by rewrite Ht, Hfilt, (proj2 (Z.eqb_neq sk 0)). }
  assert (NetworkProbeFacts.event_of fl ∈ NetworkProbeSpec.ob_out (sp_observer
            (spec_events d (refusals d es y) es (loaded_spec y)))) as Hall.
  { unfold es. rewrite Hspec. cbn [refusals refusal run_room spec_events] in Hroom1 |- *.
    rewrite Hfull in Hroom1 |- *. by apply (spec_events_remember d _ _ _ (proj2 Hroom1)). }
  clear -Hl Hes Hroom Hopen Hall H0. unfold es in *. rewrite app_comm_cons, app_assoc in *.
  by rewrite (last_poll_forwards d _ y y' inum' ip' Hl Hes Hroom Hopen).
Qed.

End Theorems.
