(* ===== verification/SystemWitness.v ===== *)
(** * The theorems about the whole system at concrete runs

    A controller that registers the namespace of a pod while the pod runs, on the executable
    environment. *)

From stdpp Require Import relations.
From S2P Require Import Prelude CLayout CLayoutFacts BpfEnv LruKernel RingBuffer VmlinuxBase Helper.
From S2P Require Import Fixtures Controller System SystemFacts SystemSpec SystemThms.
From S2P Require NetworkProbe NetworkProbeFacts NetworkProbeSpec.
From S2P Require NetpolicyDrop NetpolicySpec SyscallProbe.

#[local] Existing Instance NetpolicyDrop.conn_attempt_eq_dec.
#[local] Existing Instance lru_kernel.
#[local] Existing Instance lru_kernel_laws.

(** ** Room, decided *)

Definition lru_room {K V : Type} (d : map_def) (m : list (K * V)) : bool :=
  Z.of_nat (length m) <? max_entries d.

Lemma lru_map_room {K V : Type} `{EqDecision K} (d : map_def) (m : bpf_map d K V) :
  lru_room d m = true → map_room m.
Proof.
  intros Hm%Z.ltb_lt. exists (fst <$> m). split; [|by rewrite length_fmap].
  intros k Hk. by apply (assoc_Some_elem m k).
Qed.

Definition helper_roomb (h : helper_maps) : bool :=
  lru_room inode_num_def (inode_num h) && lru_room ignore_ips_def (ignore_ips h).

Definition event_roomb (e : event) (σ : sys_spec) : bool :=
  match e with
  | NetworkHook _ =>
      let o := sp_observer σ in
      (Z.of_nat (size (NetworkProbeSpec.ob_seen o)) <? max_entries NetworkProbe.connections_def) &&
      (Z.of_nat (size (NetworkProbeSpec.ob_accepting o)) <? max_entries NetworkProbe.tcp_ctx_def)
  | DropHook _ => Z.of_nat (size (sp_attempts σ)) <? max_entries NetpolicyDrop.connection_tracking_def
  | LoopTurn true _ _ =>
      helper_roomb (sp_network σ) && helper_roomb (sp_netpolicy σ) && helper_roomb (sp_syscall σ)
  | _ => true
  end.

Fixpoint run_roomb (d : bool) (fulls : list bool) (es : list event) (σ : sys_spec) : bool :=
  match fulls, es with
  | full :: fulls, e :: es => event_roomb e σ && run_roomb d fulls es (spec_event d full e σ)
  | _, _ => true
  end.

Lemma helper_roomb_room (h : helper_maps) : helper_roomb h = true → helper_room h.
Proof. intros [? ?]%andb_true_iff. split; by apply lru_map_room. Qed.

Lemma event_roomb_room (e : event) (σ : sys_spec) : event_roomb e σ = true → event_room e σ.
Proof.
  destruct e as [| | |[] ? ?| | |]; simpl; try done.
  - intros [?%Z.ltb_lt ?%Z.ltb_lt]%andb_true_iff. by split.
  - intros ?%Z.ltb_lt. done.
  - intros [[? ?]%andb_true_iff ?]%andb_true_iff. split_and!; by apply helper_roomb_room.
Qed.

Lemma run_roomb_room (d : bool) (fulls : list bool) (es : list event) (σ : sys_spec) :
  run_roomb d fulls es σ = true → run_room d fulls es σ.
Proof.
  revert es σ. induction fulls as [|full fulls IH]; intros [|e es] σ; simpl; try done.
  intros [He Hes]%andb_true_iff. split; [by apply event_roomb_room|by apply IH].
Qed.

(** ** A run *)

(** No pod is known when the controller starts; the allowlist holds read and execve. *)
Definition wit_system : system :=
  {| sys_ctl := Controller (fix_probe [] []) (fix_drop []) (fix_syscall [] [0; 59]) 0;
     network_tx := Channel [] true; syscall_tx := Channel [] true; drop_tx := Channel [] true;
     EBPF_SHUTDOWN := false |}.

Lemma wit_system_loaded : freshly_loaded wit_system.
Proof. done. Qed.

(** A client of namespace 7, on port 50000, talking to 10.0.0.2:443. *)
Definition wit_client (now : Z) : kctx := fix_ctx now 42 0 7 (fix_skc ip1 ip2 be443 50000 2 2).

Definition datagram : event := NetworkHook (NetworkProbe.UdpSendmsg (wit_client 100) 1 1 10).
Definition resend (now : Z) : event := DropHook (NetpolicyDrop.OnRetransmit (wit_client now) 1 1 1).
Definition execve : event := SyscallHook (fix_ctx 100 42 0 7 []) (fix_sys_enter 59).

Definition wit_event : NetworkProbe.network_event :=
  NetworkProbe.NetworkEvent 7 ip1 50000 ip2 443 3.

(** Before it is registered the pod is invisible; after, its first datagram, its unanswered SYNs and
    its execve are reported. *)
Definition wit_before : list event :=
  [datagram; execve; LoopTurn true (Some 7) None; resend 10; resend 20; execve].
Definition wit_after : list event := [datagram; resend 30; LoopTurn false (Some 8) None].
Definition wit_run : list event :=
  wit_before ++ datagram :: wit_after ++ [LoopTurn true None (Some "10.0.0.3"%string)].

Definition run_of (es : list event) : system :=
  default wit_system (exec_events true es wit_system).

Lemma run_of_exec (es : list event) :
  non_null (exec_events true es wit_system) = true →
  exec_events true es wit_system = Some (run_of es).
Proof. unfold run_of. by destruct (exec_events true es wit_system). Qed.

Lemma wit_run_exec : exec_events true wit_run wit_system = Some (run_of wit_run).
Proof. apply run_of_exec. by vm_compute. Qed.

Lemma wit_run_room :
  run_room true (refusals true wit_run wit_system) wit_run (loaded_spec wit_system).
Proof. apply run_roomb_room. by vm_compute. Qed.

Lemma wit_run_open :
  ch_open (network_tx (run_of wit_run)) = true ∧ ch_open (drop_tx (run_of wit_run)) = true ∧
  ch_open (syscall_tx (run_of wit_run)) = true.
Proof. by vm_compute. Qed.

Lemma wit_run_waiting :
  network_waiting (run_of wit_run) = [] ∧ drop_waiting (run_of wit_run) = [] ∧
  syscall_waiting (run_of wit_run) = [].
Proof. by vm_compute. Qed.

Lemma wit_run_spec :
  let σ := spec_events true (refusals true wit_run wit_system) wit_run (loaded_spec wit_system) in
  NetworkProbeSpec.ob_out (sp_observer σ) = [wit_event] ∧
  sp_drops σ = [NetpolicyDrop.PolicyDrop 30 7 ip1 ip2 50000 443 6 4] ∧
  user_call <$> sp_calls σ = [(7, 59)].
Proof. by vm_compute. Qed.

Lemma system_refines_spec_witness :
  ch_sent (network_tx (run_of wit_run)) = [wit_event] ∧
  ch_sent (drop_tx (run_of wit_run)) = [NetpolicyDrop.PolicyDrop 30 7 ip1 ip2 50000 443 6 4] ∧
  ch_sent (syscall_tx (run_of wit_run)) = [(7, 59)].
Proof.
  destruct (system_refines_spec true wit_system (run_of wit_run) wit_run wit_system_loaded
    wit_run_exec wit_run_room) as (Hn&Hd&Hs&_).
  destruct wit_run_open as (On&Od&Os), wit_run_waiting as (Wn&Wd&Ws), wit_run_spec as (Sn&Sd&Ss).
  specialize (Hn On). specialize (Hd Od). specialize (Hs Os).
  rewrite Wn, app_nil_r, Sn in Hn. rewrite Wd, app_nil_r, Sd in Hd. rewrite Ws, app_nil_r, Ss in Hs.
  rewrite <- Hn, <- Hd, <- Hs. split; [|split]; reflexivity.
Defined.

Lemma wit_before_ready (y1 : system) :
  exec_events true wit_before wit_system = Some y1 →
  ring_full NetworkProbe.network_event_data (network_ring y1) = false.
Proof. rewrite run_of_exec by by vm_compute. intros [= <-]. by vm_compute. Qed.

Lemma registered_pod_is_reported_witness : wit_event ∈ ch_sent (network_tx (run_of wit_run)).
Proof.
  refine (registered_pod_is_reported true wit_system (run_of wit_run) [datagram; execve]
    [resend 10; resend 20; execve] wit_after (wit_client 100) 1 1 10 None
    (Some "10.0.0.3"%string) None wit_system_loaded wit_run_exec wit_run_room _ _ _ _ _).
  - done.
  - by vm_compute.
  - apply (bool_decide_eq_true_1 (_ ∉ _)). by vm_compute.
  - exact wit_before_ready.
  - by vm_compute.
Defined.

(** ** The receiver of the events goes away *)

Definition wit_lost : list event :=
  [LoopTurn true (Some 7) None; datagram; CloseNetwork; LoopTurn true None None; execve].

Lemma wit_lost_exec : exec_events true wit_lost wit_system = Some (run_of wit_lost).
Proof. apply run_of_exec. by vm_compute. Qed.

Lemma wit_lost_state :
  NetworkProbe.reported (network_sk (sys_ctl (run_of wit_lost))) = [wit_event] ∧
  ch_sent (network_tx (run_of wit_lost)) = [] ∧ network_waiting (run_of wit_lost) = [].
Proof. by vm_compute. Qed.

Lemma records_are_delivered_witness :
  ∃ net, net = [wit_event] ∧ ch_open (network_tx (run_of wit_lost)) = false.
Proof.
  destruct (records_are_delivered true wit_system (run_of wit_lost) (proj1 wit_system_loaded)
    (exec_events_steps true wit_lost wit_system (run_of wit_lost) wit_lost_exec))
    as (net&sys&drp&Hn&_&_&Hc&_&_&_).
  destruct wit_lost_state as (Hr&Hs&Hw). rewrite Hr, Hs, Hw, app_nil_r in Hn. simpl in Hn.
  exists net. split; [by symmetry|]. apply Hc. by rewrite <- Hn.
Defined.

Lemma closed_receiver_ends_loop_witness :
  exec_events true (take 3 wit_lost ++ LoopTurn true None None :: [execve] ++
    LoopTurn false (Some 9) None :: []) wit_system = None.
Proof.
  apply (closed_receiver_ends_loop true wit_system (run_of (take 3 wit_lost)) (take 3 wit_lost)
    [execve] [] false None (Some 9) None None);
    [exact (proj1 wit_system_loaded)|apply run_of_exec; by vm_compute|].
  left. split; by vm_compute.
Defined.
