(* ===== verification/Traffic.v ===== *)
(** * controller/src/network.rs

    The two tasks that receive the network events and the policy drops from the poll loop: each event
    becomes an entry for the broker, unless the traffic cache has seen it; entries are posted in
    batches, and kept for a retry when a post fails. *)

From stdpp Require Import pretty.
From S2P Require Import Prelude RustStd.
From S2P Require NetworkProbe NetpolicyDrop.

(** ** models.rs *)

Record Metadata : Type := MkMetadata {
  md_name : string;
  md_namespace : string;
  md_uid : string
}.

Record Config : Type := MkConfig { cf_metadata : Metadata }.
Record Info : Type := MkInfo { in_config : Config }.

Record PodInfo : Type := MkPodInfo {
  pi_pod_name : string;
  pi_pod_namespace : option string;
  pi_pod_ip : string
}.

Record PodInspect : Type := MkPodInspect {
  container_id : option string;
  status : PodInfo;
  info : Info;
  if_index : option Z;
  namespace_pid : option Z;
  pid : option Z;
  inode_num : option Z
}.

Record PodTraffic : Type := MkPodTraffic {
  pt_uuid : string;
  pt_pod_name : string;
  pt_pod_namespace : option string;
  pt_pod_ip : string;
  pt_pod_port : option string;
  pt_traffic_type : option string;
  pt_traffic_in_out_ip : option string;
  pt_traffic_in_out_port : option string;
  pt_ip_protocol : option string;
  pt_decision : option string;
  pt_time_stamp : Z
}.

(** ** The traffic cache *)

Record TrafficKey : Type := MkTrafficKey {
  tk_pod_name : string;
  tk_pod_ip : string;
  tk_pod_port : string;
  tk_traffic_in_out_ip : string;
  tk_traffic_in_out_port : string;
  tk_traffic_type : string;
  tk_ip_protocol : string;
  tk_decision : string
}.

#[export] Instance TrafficKey_eq_dec : EqDecision TrafficKey.
Proof. solve_decision. Defined.

Definition TRAFFIC_CACHE_CAPACITY : Z := 10000.

(** [moka::future::Cache<TrafficKey, ()>]: it forgets entries when it is full, at any time and in an
    order of its own, but holds nothing that was not inserted. *)
Class TrafficCache := {
  cache : Type;
  cache_new : cache;
  contains_key : TrafficKey → cache → bool;
  cache_insert : TrafficKey → cache → cache
}.

Class TrafficCacheLaws `{TrafficCache} := {
  new_contains (k : TrafficKey) : contains_key k cache_new = false;
  insert_contains (k k' : TrafficKey) (c : cache) :
    contains_key k' (cache_insert k c) = true → k' = k ∨ contains_key k' c = true;
  (* below capacity nothing is refused or forgotten: [keys] bounds the keys present *)
  insert_room (k : TrafficKey) (c : cache) (keys : list TrafficKey) :
    (∀ k', contains_key k' c = true → k' ∈ keys) →
    Z.of_nat (length keys) < TRAFFIC_CACHE_CAPACITY →
    contains_key k (cache_insert k c) = true ∧
    ∀ k', contains_key k' c = true → contains_key k' (cache_insert k c) = true
}.

(** ** Kinds and protocols *)

Definition KIND_EGRESS_TCP : Z := 1.
Definition KIND_INGRESS_TCP : Z := 2.
Definition KIND_EGRESS_UDP : Z := 3.

Definition proto_to_string (proto : Z) : string :=
  if proto =? 6 then "TCP"
  else if proto =? 17 then "UDP"
  else if proto =? 1 then "ICMP"
  else if proto =? 58 then "ICMPv6"
  else "UNKNOWN(" +:+ pretty proto +:+ ")".

(** ** Durations, in nanoseconds *)

Definition secs (n : Z) : Z := n * 10 ^ 9.

Definition BATCH_SIZE : Z := 100.
Definition NETWORK_BATCH_TIMEOUT : Z := secs 1.
Definition DROP_BATCH_TIMEOUT : Z := secs 2.

Definition should_flush (batch_len elapsed_since_last_flush batch_size batch_timeout : Z) : bool :=
  if batch_len =? 0 then false
  else (batch_size <=? batch_len) || (batch_timeout <=? elapsed_since_last_flush).

Definition MAX_PENDING_EVENTS : nat := 1000.

(** The number of entries dropped, and those that remain. *)
Definition cap_batch (batch : list PodTraffic) (max : nat) : nat * list PodTraffic :=
  if (length batch <=? max)%nat then (0%nat, batch)
  else let drop_len := (length batch - max)%nat in (drop_len, drop drop_len batch).

Section Traffic.
Context `{TrafficCache}.

(** ** Entries *)

(** [uuid] and [time_stamp] are what [Uuid::new_v4] and [Utc::now] return. *)
Definition build_traffic_event (data : NetworkProbe.network_event) (pod_data : PodInspect)
    (uuid : string) (time_stamp : Z) (c : cache) : option PodTraffic * cache :=
  let dst := from_be32 (NetworkProbe.ne_daddr data) in
  let sport := NetworkProbe.ne_sport data in
  let dport := NetworkProbe.ne_dport data in
  let kind := NetworkProbe.ne_kind data in
  let built :=
    if kind =? KIND_INGRESS_TCP then Some ("INGRESS"%string, "TCP"%string, sport, 0)
    else if kind =? KIND_EGRESS_TCP then Some ("EGRESS"%string, "TCP"%string, 0, dport)
    else if kind =? KIND_EGRESS_UDP then Some ("EGRESS"%string, "UDP"%string, 0, dport)
    else None in
  match built with
  | None => (None, c)
  | Some (traffic_type, protocol, pod_port, traffic_in_out_port) =>
      let traffic_in_out_ip := ipv4_to_string dst in
      if String.eqb (pi_pod_ip (status pod_data)) traffic_in_out_ip then (None, c) else
      let cache_key := {|
        tk_pod_name := pi_pod_name (status pod_data);
        tk_pod_ip := pi_pod_ip (status pod_data);
        tk_pod_port := pretty pod_port;
        tk_traffic_in_out_ip := traffic_in_out_ip;
        tk_traffic_in_out_port := pretty traffic_in_out_port;
        tk_traffic_type := traffic_type;
        tk_ip_protocol := protocol;
        tk_decision := "ALLOW" |} in
      if contains_key cache_key c then (None, c) else
      let traffic := {|
        pt_uuid := uuid;
        pt_pod_name := pi_pod_name (status pod_data);
        pt_pod_namespace := pi_pod_namespace (status pod_data);
        pt_pod_ip := pi_pod_ip (status pod_data);
        pt_pod_port := Some (pretty pod_port);
        pt_traffic_in_out_ip := Some traffic_in_out_ip;
        pt_traffic_in_out_port := Some (pretty traffic_in_out_port);
        pt_traffic_type := Some traffic_type;
        pt_ip_protocol := Some protocol;
        pt_decision := Some "ALLOW"%string;
        pt_time_stamp := time_stamp |} in
      (Some traffic, cache_insert cache_key c)
  end.

Definition build_policy_drop_event (data : NetpolicyDrop.policy_drop) (pod_data : PodInspect)
    (uuid : string) (time_stamp : Z) (c : cache) : option PodTraffic * cache :=
  let d_ip := from_be32 (NetpolicyDrop.pd_daddr data) in
  let s_port := 0 in
  let d_port := NetpolicyDrop.pd_dport data in
  let protocol_str := proto_to_string (NetpolicyDrop.pd_protocol data) in
  let d_ip_str := ipv4_to_string d_ip in
  if String.eqb (pi_pod_ip (status pod_data)) d_ip_str then (None, c) else
  let cache_key := {|
    tk_pod_name := pi_pod_name (status pod_data);
    tk_pod_ip := pi_pod_ip (status pod_data);
    tk_pod_port := pretty s_port;
    tk_traffic_in_out_ip := d_ip_str;
    tk_traffic_in_out_port := pretty d_port;
    tk_traffic_type := "EGRESS";
    tk_ip_protocol := protocol_str;
    tk_decision := "DROP" |} in
  if contains_key cache_key c then (None, c) else
  let drop_event := {|
    pt_uuid := uuid;
    pt_pod_name := pi_pod_name (status pod_data);
    pt_pod_namespace := pi_pod_namespace (status pod_data);
    pt_pod_ip := pi_pod_ip (status pod_data);
    pt_pod_port := Some (pretty s_port);
    pt_traffic_in_out_ip := Some d_ip_str;
    pt_traffic_in_out_port := Some (pretty d_port);
    pt_traffic_type := Some "EGRESS"%string;
    pt_ip_protocol := Some protocol_str;
    pt_decision := Some "DROP"%string;
    pt_time_stamp := time_stamp |} in
  (Some drop_event, cache_insert cache_key c).

(** ** The receiving loops *)

(** The variables of a loop, and its history: the entries pushed on the batch, those that the broker
    has acknowledged, and those dropped when too many were waiting. *)
Record handler : Type := Handler {
  batch : list PodTraffic;
  last_flush : Z;
  running : bool;
  built : list PodTraffic;
  acked : list PodTraffic;
  overflowed : list PodTraffic
}.

Definition new_handler (now : Z) : handler := Handler [] now true [] [] [].

(** [flush_network_batch]; [ok]: the broker answers with success. *)
Definition flush_network_batch (ok : bool) (h : handler) : handler :=
  match batch h with
  | [] => h
  | _ :: _ =>
      if ok
      then {| batch := []; last_flush := last_flush h; running := running h; built := built h;
              acked := acked h ++ batch h; overflowed := overflowed h |}
      else
        let '(dropped, rest) := cap_batch (batch h) MAX_PENDING_EVENTS in
        {| batch := rest; last_flush := last_flush h; running := running h; built := built h;
           acked := acked h; overflowed := overflowed h ++ take dropped (batch h) |}
  end.

Definition set_last_flush (now : Z) (h : handler) : handler :=
  {| batch := batch h; last_flush := now; running := running h; built := built h;
     acked := acked h; overflowed := overflowed h |}.

(** The loop ends.  What is left of the batch after a last post that failed is lost with the task: the
    batch of a handler that is not [running] is that loss. *)
Definition stop (h : handler) : handler :=
  {| batch := batch h; last_flush := last_flush h; running := false; built := built h;
     acked := acked h; overflowed := overflowed h |}.

Definition push (traffic : PodTraffic) (h : handler) : handler :=
  {| batch := batch h ++ [traffic]; last_flush := last_flush h; running := running h;
     built := built h ++ [traffic]; acked := acked h; overflowed := overflowed h |}.

(** What ends [tokio::time::timeout(BATCH_TIMEOUT, event_receiver.recv())]. *)
Inductive wakeup (E : Type) : Type :=
| Received (event : E) (uuid : string) (time_stamp : Z)
| Closed
| TimedOut.

(** One turn of a loop: how it wakes up, the instant at which it reads the time after that, whether
    the broker answers with success, and the instant after the post. *)
Record loop_wakeup (E : Type) : Type := Wakeup {
  wake : wakeup E;
  now : Z;
  post_ok : bool;
  flushed_at : Z
}.

#[global] Arguments Received {E}.
#[global] Arguments Closed {E}.
#[global] Arguments TimedOut {E}.
#[global] Arguments Wakeup {E}.
#[global] Arguments wake {E}.
#[global] Arguments now {E}.
#[global] Arguments post_ok {E}.
#[global] Arguments flushed_at {E}.

Definition handle_events {E : Type} (inum : E → Z)
    (build : E → PodInspect → string → Z → cache → option PodTraffic * cache) (batch_timeout : Z)
    (container_map : gmap Z PodInspect) (w : loop_wakeup E) (h : handler) (c : cache) :
    handler * cache :=
  if negb (running h) then (h, c) else
  match wake w with
  | Received event uuid time_stamp =>
      let '(h, c) :=
        match container_map !! inum event with
        | None => (h, c)
        | Some pod_inspect =>
            match build event pod_inspect uuid time_stamp c with
            | (Some traffic, c) => (push traffic h, c)
            | (None, c) => (h, c)
            end
        end in
      if should_flush (Z.of_nat (length (batch h))) (now w - last_flush h) BATCH_SIZE batch_timeout
      then (set_last_flush (flushed_at w) (flush_network_batch (post_ok w) h), c)
      else (h, c)
  | Closed =>
      (stop (match batch h with [] => h | _ :: _ => flush_network_batch (post_ok w) h end), c)
  | TimedOut =>
      (match batch h with
       | [] => h
       | _ :: _ => set_last_flush (flushed_at w) (flush_network_batch (post_ok w) h)
       end, c)
  end.

Definition handle_network_events : gmap Z PodInspect → loop_wakeup NetworkProbe.network_event →
    handler → cache → handler * cache :=
  handle_events NetworkProbe.ne_inum build_traffic_event NETWORK_BATCH_TIMEOUT.

Definition handle_policy_drop_events : gmap Z PodInspect → loop_wakeup NetpolicyDrop.policy_drop →
    handler → cache → handler * cache :=
  handle_events NetpolicyDrop.pd_inum build_policy_drop_event DROP_BATCH_TIMEOUT.

(** ** The two loops and the pod watcher

    They share the traffic cache and the map of the containers, to which the watcher only adds. *)

Record consumers : Type := Consumers {
  container_map : gmap Z PodInspect;
  TRAFFIC_CACHE : cache;
  network_handler : handler;
  drop_handler : handler
}.

Inductive consumer_event : Type :=
| NetworkTurn (w : loop_wakeup NetworkProbe.network_event)
| DropTurn (w : loop_wakeup NetpolicyDrop.policy_drop)
| PodFound (inode_num : Z) (pod_inspect : PodInspect).

Definition consume (e : consumer_event) (st : consumers) : consumers :=
  match e with
  | NetworkTurn w =>
      let '(h, c) := handle_network_events (container_map st) w (network_handler st)
                       (TRAFFIC_CACHE st) in
      {| container_map := container_map st; TRAFFIC_CACHE := c; network_handler := h;
         drop_handler := drop_handler st |}
  | DropTurn w =>
      let '(h, c) := handle_policy_drop_events (container_map st) w (drop_handler st)
                       (TRAFFIC_CACHE st) in
      {| container_map := container_map st; TRAFFIC_CACHE := c; network_handler := network_handler st;
         drop_handler := h |}
  | PodFound inode_num pod_inspect =>
      {| container_map := <[inode_num := pod_inspect]> (container_map st);
         TRAFFIC_CACHE := TRAFFIC_CACHE st; network_handler := network_handler st;
         drop_handler := drop_handler st |}
  end.

Definition consume_all (es : list consumer_event) (st : consumers) : consumers :=
  foldl (λ st e, consume e st) st es.

End Traffic.
