(* ===== verification/TrafficFacts.v ===== *)
(** * The receiving tasks: entries, batches and the cache

    What an event is worth without the cache; the invariants of a batch and of the cache along any run
    of the two tasks. *)

From stdpp Require Import pretty.
From S2P Require Import Prelude RustStd Traffic.
From S2P Require NetworkProbe NetpolicyDrop.

(** ** Keys and candidates *)

(** The key under which an entry is cached. *)
Definition entry_key (t : PodTraffic) : TrafficKey :=
  {| tk_pod_name := pt_pod_name t; tk_pod_ip := pt_pod_ip t;
     tk_pod_port := default EmptyString (pt_pod_port t);
     tk_traffic_in_out_ip := default EmptyString (pt_traffic_in_out_ip t);
     tk_traffic_in_out_port := default EmptyString (pt_traffic_in_out_port t);
     tk_traffic_type := default EmptyString (pt_traffic_type t);
     tk_ip_protocol := default EmptyString (pt_ip_protocol t);
     tk_decision := default EmptyString (pt_decision t) |}.

(** The entry of a flow of the pod: direction, protocol, the ports of the two ends (0 for the one that
    is not kept), the address of the other end and the decision. *)
Definition entry (pod : PodInspect) (traffic_type protocol : string) (pod_port ip port : Z)
    (decision uuid : string) (time_stamp : Z) : PodTraffic :=
  {| pt_uuid := uuid; pt_pod_name := pi_pod_name (status pod);
     pt_pod_namespace := pi_pod_namespace (status pod); pt_pod_ip := pi_pod_ip (status pod);
     pt_pod_port := Some (pretty pod_port); pt_traffic_type := Some traffic_type;
     pt_traffic_in_out_ip := Some (ipv4_to_string (from_be32 ip));
     pt_traffic_in_out_port := Some (pretty port); pt_ip_protocol := Some protocol;
     pt_decision := Some decision; pt_time_stamp := time_stamp |}.

(** A pod does not report itself. *)
Definition to_itself (pod : PodInspect) (ip : Z) : bool :=
  String.eqb (pi_pod_ip (status pod)) (ipv4_to_string (from_be32 ip)).

Definition network_entry (data : NetworkProbe.network_event) (pod : PodInspect) (uuid : string)
    (time_stamp : Z) : option PodTraffic :=
  let ip := NetworkProbe.ne_daddr data in
  let sport := NetworkProbe.ne_sport data in
  let dport := NetworkProbe.ne_dport data in
  if to_itself pod ip then None
  else if NetworkProbe.ne_kind data =? 1
       then Some (entry pod "EGRESS" "TCP" 0 ip dport "ALLOW" uuid time_stamp)
  else if NetworkProbe.ne_kind data =? 2
       then Some (entry pod "INGRESS" "TCP" sport ip 0 "ALLOW" uuid time_stamp)
  else if NetworkProbe.ne_kind data =? 3
       then Some (entry pod "EGRESS" "UDP" 0 ip dport "ALLOW" uuid time_stamp)
  else None.

Definition drop_entry (data : NetpolicyDrop.policy_drop) (pod : PodInspect) (uuid : string)
    (time_stamp : Z) : option PodTraffic :=
  let ip := NetpolicyDrop.pd_daddr data in
  if to_itself pod ip then None
  else Some (entry pod "EGRESS" (proto_to_string (NetpolicyDrop.pd_protocol data)) 0 ip
               (NetpolicyDrop.pd_dport data) "DROP" uuid time_stamp).

Definition ALLOWED (k : TrafficKey) : Prop := tk_decision k = "ALLOW"%string.
Definition DROPPED (k : TrafficKey) : Prop := tk_decision k = "DROP"%string.

#[export] Instance ALLOWED_dec (k : TrafficKey) : Decision (ALLOWED k).
Proof. unfold ALLOWED. apply _. Defined.

#[export] Instance DROPPED_dec (k : TrafficKey) : Decision (DROPPED k).
Proof. unfold DROPPED. apply _. Defined.

Lemma allowed_not_dropped (k : TrafficKey) : ALLOWED k → DROPPED k → False.
Proof. unfold ALLOWED, DROPPED. congruence. Qed.

Section TrafficFacts.
Context `{TrafficCacheLaws}.
Implicit Types (c : cache) (h : handler) (t : PodTraffic).

(** An entry goes out once, as far as the cache remembers. *)
Definition cached (o : option PodTraffic) c : option PodTraffic * cache :=
  match o with
  | None => (None, c)
  | Some t => if contains_key (entry_key t) c then (None, c) else (Some t, cache_insert (entry_key t) c)
  end.

Lemma build_traffic_event_cached data pod uuid ts c :
  build_traffic_event data pod uuid ts c = cached (network_entry data pod uuid ts) c.
Proof.
  unfold build_traffic_event, network_entry, to_itself, KIND_INGRESS_TCP, KIND_EGRESS_TCP,
    KIND_EGRESS_UDP.
  destruct (Z.eqb_spec (NetworkProbe.ne_kind data) 2) as [->|H2]; simpl.
  { by destruct (String.eqb _ _). }
  destruct (NetworkProbe.ne_kind data =? 1); simpl; [by destruct (String.eqb _ _)|].
  destruct (NetworkProbe.ne_kind data =? 3); simpl; by destruct (String.eqb _ _).
Qed.

Lemma build_policy_drop_event_cached data pod uuid ts c :
  build_policy_drop_event data pod uuid ts c = cached (drop_entry data pod uuid ts) c.
Proof.
  unfold build_policy_drop_event, drop_entry, to_itself. by destruct (String.eqb _ _).
Qed.

Lemma network_entry_allowed data pod uuid ts t :
  network_entry data pod uuid ts = Some t → ALLOWED (entry_key t).
Proof. unfold network_entry. repeat case_match; intros; by simplify_eq. Qed.

Lemma drop_entry_dropped data pod uuid ts t :
  drop_entry data pod uuid ts = Some t → DROPPED (entry_key t).
Proof. unfold drop_entry. case_match; intros; by simplify_eq. Qed.

(** ** One turn of a loop *)

(** A loop puts at most one entry on its batch, then flushes it or not. *)
Definition flush_turn {E : Type} (T : Z) (w : loop_wakeup E) h : handler :=
  match wake w with
  | Received _ _ _ =>
      if should_flush (Z.of_nat (length (batch h))) (now w - last_flush h) BATCH_SIZE T
      then set_last_flush (flushed_at w) (flush_network_batch (post_ok w) h) else h
  | Closed => stop (flush_network_batch (post_ok w) h)
  | TimedOut =>
      match batch h with
      | [] => h
      | _ :: _ => set_last_flush (flushed_at w) (flush_network_batch (post_ok w) h)
      end
  end.

(** What a turn has to report, if the pod of the event is known. *)
Definition candidate {E : Type} (inum : E → Z) (make : E → PodInspect → string → Z → option PodTraffic)
    (cm : gmap Z PodInspect) (w : loop_wakeup E) : option PodTraffic :=
  match wake w with
  | Received event uuid ts => pod ← cm !! inum event; make event pod uuid ts
  | _ => None
  end.

Definition push_opt (o : option PodTraffic) h : handler :=
  match o with Some t => push t h | None => h end.

Lemma handle_events_turn {E : Type} (inum : E → Z) build make (T : Z) cm (w : loop_wakeup E) h c :
  (∀ e pod uuid ts c, build e pod uuid ts c = cached (make e pod uuid ts) c) →
  running h = true →
  handle_events inum build T cm w h c =
  let '(o, c) := cached (candidate inum make cm w) c in (flush_turn T w (push_opt o h), c).
Proof.
  intros Hb Hr. unfold handle_events, candidate, flush_turn. rewrite Hr. simpl.
  destruct (wake w) as [event uuid ts| |]; simpl.
  - destruct (cm !! inum event) as [pod|]; simpl; [|by destruct (should_flush _ _ _ _)].
    rewrite Hb. destruct (cached _ c) as [[t|] c']; simpl; by destruct (should_flush _ _ _ _).
  - unfold flush_network_batch. by destruct (batch h).
  - by destruct (batch h).
Qed.

(** ** The invariant of a batch *)

Record handler_ok h : Prop := {
  hk_conserved : built h ≡ₚ acked h ++ overflowed h ++ batch h;
  hk_order : acked h ++ batch h `sublist_of` built h;
  hk_bound : (length (batch h) ≤ MAX_PENDING_EVENTS)%nat
}.

Lemma new_handler_ok (t0 : Z) : handler_ok (new_handler t0).
Proof. split; simpl; [done|done|lia]. Qed.

Lemma cap_batch_spec (l : list PodTraffic) (max : nat) :
  let '(n, rest) := cap_batch l max in
  take n l ++ rest = l ∧ rest = drop n l ∧ length rest = (length l `min` max)%nat.
Proof.
  unfold cap_batch. destruct (Nat.leb_spec (length l) max) as [Hl|Hl]; simpl.
  - split_and!; [done|done|lia].
  - rewrite take_drop, length_drop. split_and!; [done|done|lia].
Qed.

(** Only the order between the entries acknowledged and those waiting matters, and that no more wait
    than can be kept. *)
Definition handler_almost h : Prop :=
  built h ≡ₚ acked h ++ overflowed h ++ batch h ∧ acked h ++ batch h `sublist_of` built h ∧
  (length (batch h) ≤ S MAX_PENDING_EVENTS)%nat.

Lemma flush_ok (ok : bool) h : handler_almost h → handler_ok (flush_network_batch ok h).
Proof.
  intros (Hc&Ho&Hb). unfold flush_network_batch. destruct (batch h) as [|t0 l] eqn:Hl.
  { split; [by rewrite Hl|by rewrite Hl|rewrite Hl; simpl; lia]. }
  rewrite <- Hl in *. clear Hl. destruct ok.
  - split; simpl; [|by rewrite app_nil_r|lia]. rewrite Hc, app_nil_r. by rewrite (Permutation_app_comm (overflowed h)), app_assoc.
  - pose proof (cap_batch_spec (batch h) MAX_PENDING_EVENTS) as Hcap.
    destruct (cap_batch (batch h) MAX_PENDING_EVENTS) as [n rest]. destruct Hcap as (Ht&Hr&Hlen).
    split; simpl.
    + by rewrite Hc, <- app_assoc, Ht.
    + etrans; [|done]. apply sublist_app; [done|]. rewrite Hr. apply sublist_drop.
    + lia.
Qed.

Lemma handler_ok_almost h : handler_ok h → handler_almost h.
Proof. intros []. split_and!; [done|done|lia]. Qed.

Lemma push_almost o h : handler_ok h → handler_almost (push_opt o h).
Proof.
  intros Hh. destruct o as [t|]; simpl; [|by apply handler_ok_almost].
  destruct Hh as [Hc Ho Hb]. split_and!; simpl.
  - by rewrite Hc, !app_assoc.
  - rewrite app_assoc. by apply sublist_app.
  - rewrite length_app. simpl. lia.
Qed.

Lemma set_last_flush_ok (t : Z) h : handler_ok h → handler_ok (set_last_flush t h).
Proof. by intros []. Qed.

Lemma stop_ok h : handler_ok h → handler_ok (stop h).
Proof. by intros []. Qed.

Lemma flush_turn_ok {E : Type} (T : Z) (w : loop_wakeup E) o h :
  handler_ok h → (wake w = TimedOut ∨ wake w = Closed → o = None) →
  handler_ok (flush_turn T w (push_opt o h)).
Proof.
  intros Hh Ho. pose proof (push_almost o h Hh) as Ha. unfold flush_turn. destruct (wake w).
  - destruct (should_flush _ _ _ _) eqn:Hs; [by apply set_last_flush_ok, flush_ok|].
    destruct Ha as (?&?&_). split; [done|done|]. unfold should_flush in Hs.
    case_match eqn:H0'; [apply Z.eqb_eq in H0'; lia|]. apply orb_false_iff in Hs as [Hs _].
    apply Z.leb_gt in Hs. unfold BATCH_SIZE, MAX_PENDING_EVENTS in *. lia.
  - by apply stop_ok, flush_ok.
  - rewrite Ho in * by auto. simpl in *. destruct (batch h); [done|].
    by apply set_last_flush_ok, flush_ok.
Qed.

Lemma flush_turn_built {E : Type} (T : Z) (w : loop_wakeup E) h :
  built (flush_turn T w h) = built h.
Proof.
  assert (∀ ok h, built (flush_network_batch ok h) = built h) as Hf.
  { intros ok h'. unfold flush_network_batch. destruct (batch h'); [done|]. destruct ok; [done|].
    by destruct (cap_batch _ _). }
  unfold flush_turn. destruct (wake w); simpl.
  - destruct (should_flush _ _ _ _); [|done]. simpl. apply Hf.
  - apply Hf.
  - destruct (batch h); [done|]. simpl. apply Hf.
Qed.

(** ** Runs of the two tasks *)

Implicit Types (st : consumers).

Definition new_consumers (cm : gmap Z PodInspect) (t0 t1 : Z) : consumers :=
  Consumers cm cache_new (new_handler t0) (new_handler t1).

(** What a turn adds to a batch. *)
Definition network_candidate (w : loop_wakeup NetworkProbe.network_event) st : option PodTraffic :=
  if running (network_handler st)
  then candidate NetworkProbe.ne_inum network_entry (container_map st) w else None.

Definition drop_candidate (w : loop_wakeup NetpolicyDrop.policy_drop) st : option PodTraffic :=
  if running (drop_handler st)
  then candidate NetpolicyDrop.pd_inum drop_entry (container_map st) w else None.

Lemma consume_network (w : loop_wakeup NetworkProbe.network_event) st :
  let '(o, c) := cached (network_candidate w st) (TRAFFIC_CACHE st) in
  let h := network_handler st in
  consume (NetworkTurn w) st =
  {| container_map := container_map st; TRAFFIC_CACHE := c;
     network_handler := if running h then flush_turn NETWORK_BATCH_TIMEOUT w (push_opt o h) else h;
     drop_handler := drop_handler st |}.
Proof.
  unfold network_candidate, consume, handle_network_events. destruct (running (network_handler st)) eqn:Hr.
  - erewrite handle_events_turn; [|intros; apply build_traffic_event_cached|done]. by destruct (cached _ _).
  - unfold handle_events. rewrite Hr. done.
Qed.

Lemma consume_drop (w : loop_wakeup NetpolicyDrop.policy_drop) st :
  let '(o, c) := cached (drop_candidate w st) (TRAFFIC_CACHE st) in
  let h := drop_handler st in
  consume (DropTurn w) st =
  {| container_map := container_map st; TRAFFIC_CACHE := c; network_handler := network_handler st;
     drop_handler := if running h then flush_turn DROP_BATCH_TIMEOUT w (push_opt o h) else h |}.
Proof.
  unfold drop_candidate, consume, handle_policy_drop_events. destruct (running (drop_handler st)) eqn:Hr.
  - erewrite handle_events_turn; [|intros; apply build_policy_drop_event_cached|done].
    by destruct (cached _ _).
  - unfold handle_events. rewrite Hr. done.
Qed.

(** *** Batches *)

Lemma candidate_received {E : Type} (inum : E → Z) make cm (w : loop_wakeup E) c :
  wake w = TimedOut ∨ wake w = Closed → fst (cached (candidate inum make cm w) c) = None.
Proof. unfold candidate. by intros [-> | ->]. Qed.

Definition batches_ok st : Prop := handler_ok (network_handler st) ∧ handler_ok (drop_handler st).

Lemma consume_batches (e : consumer_event) st : batches_ok st → batches_ok (consume e st).
Proof.
  intros [Hn Hd]. destruct e as [w|w|inode pod]; [..|by split].
  - pose proof (consume_network w st) as Hc. unfold network_candidate in Hc.
    destruct (running (network_handler st)) eqn:Hr.
    + pose proof (candidate_received NetworkProbe.ne_inum network_entry (container_map st) w
        (TRAFFIC_CACHE st)) as Ho.
      destruct (cached _ _) as [o c]. rewrite Hc. split; [|done]. by apply flush_turn_ok.
    + cbn [cached] in Hc. by rewrite Hc.
  - pose proof (consume_drop w st) as Hc. unfold drop_candidate in Hc.
    destruct (running (drop_handler st)) eqn:Hr.
    + pose proof (candidate_received NetpolicyDrop.pd_inum drop_entry (container_map st) w
        (TRAFFIC_CACHE st)) as Ho.
      destruct (cached _ _) as [o c]. rewrite Hc. split; [done|]. by apply flush_turn_ok.
    + cbn [cached] in Hc. by rewrite Hc.
Qed.

Lemma consume_all_batches (es : list consumer_event) st :
  batches_ok st → batches_ok (consume_all es st).
Proof. revert st. induction es as [|e es IH]; intros st Hst; [done|]. apply IH. by apply consume_batches. Qed.

(** *** The cache *)

Definition entries st : list PodTraffic := built (network_handler st) ++ built (drop_handler st).

Definition has_room st : Prop := Z.of_nat (length (entries st)) ≤ TRAFFIC_CACHE_CAPACITY.

(** The cache holds nothing but the keys of the entries; each task makes entries of its own kind. *)
Record cache_ok st : Prop := {
  co_cache k : contains_key k (TRAFFIC_CACHE st) = true → k ∈ entry_key <$> entries st;
  co_allowed t : t ∈ built (network_handler st) → ALLOWED (entry_key t);
  co_dropped t : t ∈ built (drop_handler st) → DROPPED (entry_key t)
}.

(** While there is room it holds them all, and no key comes twice. *)
Record remembers st : Prop := {
  rm_cache t : t ∈ entries st → contains_key (entry_key t) (TRAFFIC_CACHE st) = true;
  rm_nodup : NoDup (entry_key <$> entries st)
}.

(** A step of the run, as far as the cache and the entries are concerned. *)
Inductive cache_step st st' : Prop :=
| step_same :
    TRAFFIC_CACHE st' = TRAFFIC_CACHE st →
    built (network_handler st') = built (network_handler st) →
    built (drop_handler st') = built (drop_handler st) → cache_step st st'
| step_network t :
    contains_key (entry_key t) (TRAFFIC_CACHE st) = false → ALLOWED (entry_key t) →
    TRAFFIC_CACHE st' = cache_insert (entry_key t) (TRAFFIC_CACHE st) →
    built (network_handler st') = built (network_handler st) ++ [t] →
    built (drop_handler st') = built (drop_handler st) → cache_step st st'
| step_drop t :
    contains_key (entry_key t) (TRAFFIC_CACHE st) = false → DROPPED (entry_key t) →
    TRAFFIC_CACHE st' = cache_insert (entry_key t) (TRAFFIC_CACHE st) →
    built (network_handler st') = built (network_handler st) →
    built (drop_handler st') = built (drop_handler st) ++ [t] → cache_step st st'.

Lemma network_candidate_allowed w st t : network_candidate w st = Some t → ALLOWED (entry_key t).
Proof.
  unfold network_candidate, candidate. destruct (running _), (wake w) as [e u ts| |]; try done.
  destruct (_ !! _); simpl; [|done]. apply network_entry_allowed.
Qed.

Lemma drop_candidate_dropped w st t : drop_candidate w st = Some t → DROPPED (entry_key t).
Proof.
  unfold drop_candidate, candidate. destruct (running _), (wake w) as [e u ts| |]; try done.
  destruct (_ !! _); simpl; [|done]. apply drop_entry_dropped.
Qed.

Lemma consume_cache_step (e : consumer_event) st : cache_step st (consume e st).
Proof.
  destruct e as [w|w|inode pod]; [..|by apply step_same].
  - pose proof (consume_network w st) as Hc. pose proof (network_candidate_allowed w st) as Ha.
    unfold cached in Hc. destruct (network_candidate w st) as [t|] eqn:Hn.
    1: destruct (contains_key (entry_key t) _) eqn:Hk.
    1,3: rewrite Hc; apply step_same; simpl; [done| |done].
    1,2: destruct (running _); [|done]; by rewrite flush_turn_built.
    rewrite Hc. apply (step_network _ _ t); simpl; auto.
    unfold network_candidate in Hn. destruct (running _); [|done]. by rewrite flush_turn_built.
  - pose proof (consume_drop w st) as Hc. pose proof (drop_candidate_dropped w st) as Ha.
    unfold cached in Hc. destruct (drop_candidate w st) as [t|] eqn:Hn.
    1: destruct (contains_key (entry_key t) _) eqn:Hk.
    1,3: rewrite Hc; apply step_same; simpl; [done|done|].
    1,2: destruct (running _); [|done]; by rewrite flush_turn_built.
    rewrite Hc. apply (step_drop _ _ t); simpl; auto.
    unfold drop_candidate in Hn. destruct (running _); [|done]. by rewrite flush_turn_built.
Qed.

Lemma new_consumers_ok cm (t0 t1 : Z) :
  let st := new_consumers cm t0 t1 in batches_ok st ∧ cache_ok st ∧ remembers st.
Proof.
  split_and!; [split; apply new_handler_ok|split; simpl|split; simpl].
  - intros k. by rewrite new_contains.
  - by intros t ?%not_elem_of_nil.
  - by intros t ?%not_elem_of_nil.
  - by intros t ?%not_elem_of_nil.
  - constructor.
Qed.

Lemma cache_step_ok st st' : cache_step st st' → cache_ok st → cache_ok st'.
Proof.
  intros Hs [Hc Ha Hd]. unfold entries in Hc.
  destruct Hs as [Ec En Ed|t Hk Ht Ec En Ed|t Hk Ht Ec En Ed]; split; unfold entries;
    rewrite ?Ec, ?En, ?Ed; try done.
  - intros k Hk'%insert_contains. rewrite !fmap_app, !elem_of_app. simpl.
    rewrite list_elem_of_singleton. destruct Hk' as [?|Hin%Hc]; [tauto|].
    rewrite fmap_app, elem_of_app in Hin. tauto.
  - intros t' [?| ->%list_elem_of_singleton]%elem_of_app; auto.
  - intros k Hk'%insert_contains. rewrite !fmap_app, !elem_of_app. simpl.
    rewrite list_elem_of_singleton. destruct Hk' as [?|Hin%Hc]; [tauto|].
    rewrite fmap_app, elem_of_app in Hin. tauto.
  - intros t' [?| ->%list_elem_of_singleton]%elem_of_app; auto.
Qed.

Lemma cache_step_entries st st' :
  cache_step st st' → entries st' ≡ₚ entries st ∨
  ∃ t, entries st' ≡ₚ t :: entries st ∧ contains_key (entry_key t) (TRAFFIC_CACHE st) = false ∧
       TRAFFIC_CACHE st' = cache_insert (entry_key t) (TRAFFIC_CACHE st).
Proof.
  unfold entries. intros [Ec En Ed|t Hk Ht Ec En Ed|t Hk Ht Ec En Ed]; rewrite En, Ed.
  - by left.
  - right. exists t. split; [|done]. rewrite <- app_assoc. simpl. symmetry. apply Permutation_middle.
  - right. exists t. split; [|done]. rewrite app_assoc. apply Permutation_app_comm.
Qed.

Lemma cache_step_room st st' : cache_step st st' → has_room st' → has_room st.
Proof.
  intros [Hp|(t&Hp&_)]%cache_step_entries; unfold has_room; apply Permutation_length in Hp;
    rewrite Hp; simpl; lia.
Qed.

Lemma cache_step_remembers st st' :
  cache_step st st' → has_room st' → cache_ok st → remembers st → remembers st'.
Proof.
  intros Hs Hroom Hok [Hc Hn]. pose proof (cache_step_entries st st' Hs) as He.
  destruct He as [Hp|(t&Hp&Hk&Ec)].
  - destruct Hs as [Ec _ _|t Hk _ Ec En Ed|t Hk _ Ec En Ed].
    + split; [|by rewrite Hp]. intros t. rewrite Hp, Ec. apply Hc.
    + apply Permutation_length in Hp. unfold entries in Hp. rewrite En, Ed, !length_app in Hp.
      simpl in Hp. lia.
    + apply Permutation_length in Hp. unfold entries in Hp. rewrite En, Ed, !length_app in Hp.
      simpl in Hp. lia.
  - destruct (insert_room (entry_key t) (TRAFFIC_CACHE st) (entry_key <$> entries st)) as [H1 H2].
    { apply (co_cache _ Hok). }
    { rewrite length_fmap. unfold has_room in Hroom. apply Permutation_length in Hp. rewrite Hp in Hroom.
      simpl in Hroom. lia. }
    split.
    + intros t'. rewrite Hp, Ec. intros [->|Hin]%elem_of_cons; auto.
    + rewrite Hp. simpl. constructor; [|done]. intros (t'&Et&Hin%Hc)%list_elem_of_fmap.
      rewrite <- Et in Hin. congruence.
Qed.

Lemma consume_all_room (es : list consumer_event) st :
  has_room (consume_all es st) → has_room st.
Proof.
  revert st. induction es as [|e es IH]; intros st Hr; [done|].
  apply IH in Hr. by eapply cache_step_room; [apply consume_cache_step|].
Qed.

Lemma consume_all_cache (es : list consumer_event) st :
  cache_ok st → cache_ok (consume_all es st).
Proof.
  revert st. induction es as [|e es IH]; intros st Hok; [done|].
  apply IH. by eapply cache_step_ok; [apply consume_cache_step|].
Qed.

Lemma consume_all_remembers (es : list consumer_event) st :
  has_room (consume_all es st) → cache_ok st → remembers st → remembers (consume_all es st).
Proof.
  revert st. induction es as [|e es IH]; intros st Hr Hok Hm; [done|].
  apply IH; [done|by eapply cache_step_ok; [apply consume_cache_step|]|].
  eapply cache_step_remembers; [apply consume_cache_step| |done|done]. by eapply consume_all_room.
Qed.

End TrafficFacts.
