(* ===== verification/TrafficThms.v ===== *)
(** * Theorems about the receiving tasks of network.rs *)

From stdpp Require Import pretty.
From S2P Require Import Prelude RustStd Traffic TrafficFacts.
From S2P Require NetworkProbe NetpolicyDrop.

#[local] Arguments consume : simpl never.

Section Helpers.
Context `{TrafficCacheLaws}.
Implicit Types (st : consumers) (h : handler) (t : PodTraffic).

Lemma consume_all_app (es es' : list consumer_event) st :
  consume_all (es ++ es') st = consume_all es' (consume_all es st).
Proof. apply foldl_app. Qed.

(** The three invariants along a run from the start. *)
Lemma run_ok cm (t0 t1 : Z) (es : list consumer_event) :
  let st := consume_all es (new_consumers cm t0 t1) in
  batches_ok st ∧ cache_ok st ∧ (has_room st → remembers st).
Proof.
  destruct (new_consumers_ok cm t0 t1) as (Hb&Hc&Hr). simpl.
  split_and!; [by apply consume_all_batches|by apply consume_all_cache|].
  intros Hroom. by apply consume_all_remembers.
Qed.

(** ** Handlers remember *)

Definition grows h h' : Prop :=
  (∀ t, t ∈ built h → t ∈ built h') ∧ (∀ t, t ∈ acked h → t ∈ acked h').

#[local] Instance grows_preorder : PreOrder grows.
Proof. split; [by intros h|]. intros h1 h2 h3 [H1 H2] [H3 H4]. split; auto. Qed.

Lemma flush_grows (ok : bool) h : grows h (flush_network_batch ok h).
Proof.
  unfold flush_network_batch. destruct (batch h) as [|b l]; [done|]. destruct ok; [|by destruct (cap_batch _ _)].
  split; simpl; [done|]. intros t. rewrite elem_of_app. tauto.
Qed.

Lemma flush_turn_grows {E : Type} (T : Z) (w : loop_wakeup E) h : grows h (flush_turn T w h).
Proof.
  unfold flush_turn. destruct (wake w).
  - destruct (should_flush _ _ _ _); [|done]. apply (flush_grows (post_ok w) h).
  - apply (flush_grows (post_ok w) h).
  - destruct (batch h); [done|]. apply (flush_grows (post_ok w) h).
Qed.

Lemma push_opt_grows (o : option PodTraffic) h : grows h (push_opt o h).
Proof. destruct o; split; simpl; try done. intros t'. rewrite elem_of_app. tauto. Qed.

Lemma consume_grows (e : consumer_event) st : grows (network_handler st) (network_handler (consume e st)).
Proof.
  destruct e as [w|w|inode pod]; [..|done].
  - pose proof (consume_network w st) as Hc. destruct (cached _ _) as [o c]. rewrite Hc. simpl.
    destruct (running _); [|done]. etrans; [apply (push_opt_grows o)|apply flush_turn_grows].
  - pose proof (consume_drop w st) as Hc. destruct (cached _ _) as [o c]. by rewrite Hc.
Qed.

Lemma consume_all_grows (es : list consumer_event) st :
  grows (network_handler st) (network_handler (consume_all es st)).
Proof.
  revert st. induction es as [|e es IH]; intros st; simpl; [done|].
  etrans; [apply consume_grows|apply IH].
Qed.

(** ** Completeness *)

(** A turn that has something to report leaves an entry of the same key. *)
Lemma consume_candidate (w : loop_wakeup NetworkProbe.network_event) st t :
  cache_ok st → network_candidate w st = Some t →
  entry_key t ∈ entry_key <$> built (network_handler (consume (NetworkTurn w) st)).
Proof.
  intros Hok Ht. pose proof (network_candidate_allowed w st t Ht) as Ha.
  pose proof (consume_network w st) as Hc. rewrite Ht in Hc. unfold cached in Hc.
  unfold network_candidate in Ht. destruct (running (network_handler st)); [|done].
  destruct (contains_key (entry_key t) (TRAFFIC_CACHE st)) eqn:Hk; rewrite Hc; simpl;
    rewrite flush_turn_built; simpl.
  - apply (co_cache _ Hok) in Hk. unfold entries in Hk. rewrite fmap_app, elem_of_app in Hk.
    destruct Hk as [?|(t'&Et&Hin)%list_elem_of_fmap]; [done|].
    apply (co_dropped _ Hok) in Hin. rewrite <- Et in Hin. by destruct (allowed_not_dropped _ Ha Hin).
  - rewrite fmap_app, elem_of_app. right. by apply list_elem_of_singleton.
Qed.

(** An event of a namespace that the watcher does not know makes no entry. *)
Lemma unknown_pod_ignored (w : loop_wakeup NetworkProbe.network_event) event uuid ts st :
  wake w = Received event uuid ts → container_map st !! NetworkProbe.ne_inum event = None →
  built (network_handler (consume (NetworkTurn w) st)) = built (network_handler st).
Proof.
  intros Hw Hcm. pose proof (consume_network w st) as Hc.
  unfold network_candidate, candidate in Hc. rewrite Hw, Hcm in Hc. unfold cached in Hc.
  destruct (running (network_handler st)); rewrite Hc; simpl; [by rewrite flush_turn_built|done].
Qed.

(** What a turn has to report is accounted for at the end of the run. *)
Lemma candidate_accounted cm (t0 t1 : Z) (pre post : list consumer_event)
    (w : loop_wakeup NetworkProbe.network_event) t :
  network_candidate w (consume_all pre (new_consumers cm t0 t1)) = Some t →
  let h := network_handler (consume_all (pre ++ NetworkTurn w :: post) (new_consumers cm t0 t1)) in
  ∃ t', entry_key t' = entry_key t ∧ (t' ∈ acked h ∨ t' ∈ overflowed h ∨ t' ∈ batch h).
Proof.
  intros Hc h. destruct (run_ok cm t0 t1 pre) as (_&Hok&_).
  apply (consume_candidate w _ t Hok) in Hc. apply list_elem_of_fmap in Hc as (t'&Et&Hin).
  apply (consume_all_grows post) in Hin. exists t'. split; [done|].
  destruct (run_ok cm t0 t1 (pre ++ NetworkTurn w :: post)) as ([[Hp _ _] _]&_&_).
  rewrite consume_all_app in Hp. simpl in Hp. rewrite Hp, !elem_of_app in Hin.
  unfold h. by rewrite consume_all_app.
Qed.

(** A task runs until its channel is closed; what the watcher says of a namespace stays. *)
Definition not_closed (e : consumer_event) : Prop :=
  match e with NetworkTurn w => wake w ≠ Closed | _ => True end.

Lemma flush_turn_running {E : Type} (T : Z) (w : loop_wakeup E) h :
  wake w ≠ Closed → running (flush_turn T w h) = running h.
Proof.
  assert (∀ ok h, running (flush_network_batch ok h) = running h) as Hf.
  { intros ok h'. unfold flush_network_batch. destruct (batch h'); [done|]. destruct ok; [done|].
    by destruct (cap_batch _ _). }
  intros Hw. unfold flush_turn. destruct (wake w); [|done|].
  - destruct (should_flush _ _ _ _); [|done]. simpl. apply Hf.
  - destruct (batch h); [done|]. simpl. apply Hf.
Qed.

Lemma consume_running (e : consumer_event) st :
  not_closed e → running (network_handler st) = true →
  running (network_handler (consume e st)) = true.
Proof.
  intros He Hr. destruct e as [w|w|inode pod]; [| |done].
  - pose proof (consume_network w st) as Hc. destruct (cached _ _) as [o c]. rewrite Hc. simpl.
    rewrite Hr, flush_turn_running by done. by destruct o.
  - pose proof (consume_drop w st) as Hc. destruct (cached _ _) as [o c]. by rewrite Hc.
Qed.

Lemma consume_all_running (es : list consumer_event) st :
  Forall not_closed es → running (network_handler st) = true →
  running (network_handler (consume_all es st)) = true.
Proof.
  intros He. revert st. induction He as [|e es He _ IH]; intros st Hr; [done|].
  apply IH. by apply consume_running.
Qed.

Definition keeps_pod (inum : Z) (e : consumer_event) : Prop :=
  match e with PodFound i _ => i ≠ inum | _ => True end.

Lemma consume_all_pod (inum : Z) (es : list consumer_event) st :
  Forall (keeps_pod inum) es → container_map (consume_all es st) !! inum = container_map st !! inum.
Proof.
  intros He. revert st. induction He as [|e es He _ IH]; intros st; [done|]. simpl. rewrite IH.
  destruct e as [w|w|i pod].
  - pose proof (consume_network w st) as Hc. destruct (cached _ _) as [o c]. by rewrite Hc.
  - pose proof (consume_drop w st) as Hc. destruct (cached _ _) as [o c]. by rewrite Hc.
  - unfold consume. simpl. by rewrite lookup_insert_ne by done.
Qed.

(** ** The two tasks apart *)

Definition network_part : list consumer_event → list consumer_event :=
  List.filter (λ e, match e with DropTurn _ => false | _ => true end).
Definition drop_part : list consumer_event → list consumer_event :=
  List.filter (λ e, match e with NetworkTurn _ => false | _ => true end).

(** What the cache says of a key of one task depends on that task alone. *)
Lemma contains_allowed st k :
  cache_ok st → remembers st → ALLOWED k →
  contains_key k (TRAFFIC_CACHE st) = bool_decide (k ∈ entry_key <$> built (network_handler st)).
Proof.
  intros Hok Hr Hk. case_bool_decide as Hin.
  - apply list_elem_of_fmap in Hin as (t&->&Hin). apply (rm_cache _ Hr). apply elem_of_app. by left.
  - destruct (contains_key k _) eqn:Hc; [|done]. apply (co_cache _ Hok) in Hc. unfold entries in Hc.
    rewrite fmap_app, elem_of_app in Hc. destruct Hc as [?|(t&->&Ht)%list_elem_of_fmap]; [done|].
    apply (co_dropped _ Hok) in Ht. by destruct (allowed_not_dropped _ Hk Ht).
Qed.

Lemma contains_dropped st k :
  cache_ok st → remembers st → DROPPED k →
  contains_key k (TRAFFIC_CACHE st) = bool_decide (k ∈ entry_key <$> built (drop_handler st)).
Proof.
  intros Hok Hr Hk. case_bool_decide as Hin.
  - apply list_elem_of_fmap in Hin as (t&->&Hin). apply (rm_cache _ Hr). apply elem_of_app. by right.
  - destruct (contains_key k _) eqn:Hc; [|done]. apply (co_cache _ Hok) in Hc. unfold entries in Hc.
    rewrite fmap_app, elem_of_app in Hc. destruct Hc as [(t&->&Ht)%list_elem_of_fmap|?]; [|done].
    apply (co_allowed _ Hok) in Ht. by destruct (allowed_not_dropped _ Ht Hk).
Qed.

(** A state whose cache is as it should be, with room in what is to come. *)
Definition sound st : Prop := cache_ok st ∧ remembers st.

Lemma consume_sound (e : consumer_event) st : sound st → has_room (consume e st) → sound (consume e st).
Proof.
  intros [Hok Hr] Hroom. pose proof (consume_cache_step e st) as Hs.
  split; [by eapply cache_step_ok|by eapply cache_step_remembers].
Qed.

Lemma network_turn_same (w : loop_wakeup NetworkProbe.network_event) st st' :
  sound st → sound st' → container_map st = container_map st' →
  network_handler st = network_handler st' →
  network_handler (consume (NetworkTurn w) st) = network_handler (consume (NetworkTurn w) st').
Proof.
  intros [Hok Hr] [Hok' Hr'] Hm Hh. pose proof (consume_network w st) as Hc.
  pose proof (consume_network w st') as Hc'.
  assert (network_candidate w st' = network_candidate w st) as Hn.
  { unfold network_candidate. by rewrite Hm, Hh. }
  rewrite Hn in Hc'. pose proof (network_candidate_allowed w st) as Ha. unfold cached in Hc, Hc'.
  destruct (network_candidate w st) as [t|]; [|by rewrite Hc, Hc'; simpl; rewrite Hh].
  rewrite contains_allowed in Hc by eauto. rewrite contains_allowed in Hc' by eauto.
  rewrite Hh in Hc. case_bool_decide; by rewrite Hc, Hc'.
Qed.

Lemma drop_turn_same (w : loop_wakeup NetpolicyDrop.policy_drop) st st' :
  sound st → sound st' → container_map st = container_map st' →
  drop_handler st = drop_handler st' →
  drop_handler (consume (DropTurn w) st) = drop_handler (consume (DropTurn w) st').
Proof.
  intros [Hok Hr] [Hok' Hr'] Hm Hh. pose proof (consume_drop w st) as Hc.
  pose proof (consume_drop w st') as Hc'.
  assert (drop_candidate w st' = drop_candidate w st) as Hn.
  { unfold drop_candidate. by rewrite Hm, Hh. }
  rewrite Hn in Hc'. pose proof (drop_candidate_dropped w st) as Ha. unfold cached in Hc, Hc'.
  destruct (drop_candidate w st) as [t|]; [|by rewrite Hc, Hc'; simpl; rewrite Hh].
  rewrite contains_dropped in Hc by eauto. rewrite contains_dropped in Hc' by eauto.
  rewrite Hh in Hc. case_bool_decide; by rewrite Hc, Hc'.
Qed.

Lemma network_turn_other (w : loop_wakeup NetworkProbe.network_event) st :
  container_map (consume (NetworkTurn w) st) = container_map st ∧
  drop_handler (consume (NetworkTurn w) st) = drop_handler st.
Proof. pose proof (consume_network w st) as Hc. destruct (cached _ _). by rewrite Hc. Qed.

Lemma drop_turn_other (w : loop_wakeup NetpolicyDrop.policy_drop) st :
  container_map (consume (DropTurn w) st) = container_map st ∧
  network_handler (consume (DropTurn w) st) = network_handler st.
Proof. pose proof (consume_drop w st) as Hc. destruct (cached _ _). by rewrite Hc. Qed.

(** The part of a run makes the entries that the task makes in the run, hence has room as well. *)
Lemma network_part_same (es : list consumer_event) st st' :
  sound st → sound st' → container_map st = container_map st' →
  network_handler st = network_handler st' → built (drop_handler st') = [] →
  has_room (consume_all es st) →
  network_handler (consume_all es st) = network_handler (consume_all (network_part es) st').
Proof.
  revert st st'. induction es as [|e es IH]; intros st st' Hs Hs' Hm Hh Hd Hroom; [done|].
  pose proof (consume_all_room es (consume e st) Hroom) as Hroom1.
  pose proof (consume_sound e st Hs Hroom1) as Hs1.
  destruct e as [w|w|inode pod]; simpl in *.
  - pose proof (network_turn_same w st st' Hs Hs' Hm Hh) as Hh1.
    destruct (network_turn_other w st) as [Hm1 _], (network_turn_other w st') as [Hm1' Hd1'].
    assert (has_room (consume (NetworkTurn w) st')) as Hroom'.
    { unfold has_room, entries in *. rewrite Hd1', Hd, <- Hh1, length_app in *. simpl. lia. }
    apply IH; [done|by apply consume_sound|congruence|done|by rewrite Hd1'|done].
  - destruct (drop_turn_other w st) as [Hm1 Hh1]. apply IH; [done|done|congruence|congruence|done|done].
  - apply IH; [done|by destruct Hs' as [[] []]; split; split|by unfold consume; simpl; rewrite Hm|done..].
Qed.

Lemma drop_part_same (es : list consumer_event) st st' :
  sound st → sound st' → container_map st = container_map st' →
  drop_handler st = drop_handler st' → built (network_handler st') = [] →
  has_room (consume_all es st) →
  drop_handler (consume_all es st) = drop_handler (consume_all (drop_part es) st').
Proof.
  revert st st'. induction es as [|e es IH]; intros st st' Hs Hs' Hm Hh Hd Hroom; [done|].
  pose proof (consume_all_room es (consume e st) Hroom) as Hroom1.
  pose proof (consume_sound e st Hs Hroom1) as Hs1.
  destruct e as [w|w|inode pod]; simpl in *.
  - destruct (network_turn_other w st) as [Hm1 Hh1]. apply IH; [done|done|congruence|congruence|done|done].
  - pose proof (drop_turn_same w st st' Hs Hs' Hm Hh) as Hh1.
    destruct (drop_turn_other w st) as [Hm1 _], (drop_turn_other w st') as [Hm1' Hd1'].
    assert (has_room (consume (DropTurn w) st')) as Hroom'.
    { unfold has_room, entries in *. rewrite Hd1', Hd, <- Hh1, length_app in *. simpl. lia. }
    apply IH; [done|by apply consume_sound|congruence|done|by rewrite Hd1'|done].
  - apply IH; [done|by destruct Hs' as [[] []]; split; split|by unfold consume; simpl; rewrite Hm|done..].
Qed.

(** ** Deadlines *)

(** Every post of the network task succeeds. *)
Definition posts_succeed (es : list consumer_event) : Prop :=
  Forall (λ e, match e with NetworkTurn w => post_ok w = true | _ => True end) es.

(** The entry has been acknowledged, or waits in a batch that has not been flushed since [lf]. *)
Definition pending t (lf : Z) h : Prop :=
  t ∈ acked h ∨ (t ∈ batch h ∧ last_flush h = lf ∧ running h = true).

Lemma flush_acks t h : t ∈ batch h → t ∈ acked (flush_network_batch true h).
Proof.
  intros Ht. unfold flush_network_batch. destruct (batch h) as [|b l] eqn:Hb; [by apply not_elem_of_nil in Ht|].
  simpl. apply elem_of_app. by right.
Qed.

Lemma flush_turn_pending {E : Type} (T : Z) (w : loop_wakeup E) t (lf : Z) h :
  post_ok w = true → pending t lf h → pending t lf (flush_turn T w h).
Proof.
  intros Hok [Ha|(Hb&Hl&Hr)]; [left; by apply flush_turn_grows|].
  unfold flush_turn. rewrite Hok. destruct (wake w).
  - destruct (should_flush _ _ _ _); [left; by apply flush_acks|by right].
  - left. by apply flush_acks.
  - destruct (batch h) eqn:Hbh; [by apply not_elem_of_nil in Hb|]. left. simpl.
    apply flush_acks. by rewrite Hbh.
Qed.

Lemma push_opt_pending (o : option PodTraffic) t (lf : Z) h : pending t lf h → pending t lf (push_opt o h).
Proof.
  intros Hp. destruct o; [|done]. destruct Hp as [?|(?&?&?)]; [by left|right].
  split; [|done]. simpl. apply elem_of_app. by left.
Qed.

Lemma consume_pending (e : consumer_event) st t (lf : Z) :
  match e with NetworkTurn w => post_ok w = true | _ => True end →
  pending t lf (network_handler st) → pending t lf (network_handler (consume e st)).
Proof.
  intros Hok Hp. destruct e as [w|w|inode pod]; [..|done].
  - pose proof (consume_network w st) as Hc. destruct (cached _ _) as [o c]. rewrite Hc. simpl.
    destruct (running _); [|done]. by apply flush_turn_pending, push_opt_pending.
  - destruct (drop_turn_other w st) as [_ Hh]. by rewrite Hh.
Qed.

Lemma consume_all_pending (es : list consumer_event) st t (lf : Z) :
  posts_succeed es → pending t lf (network_handler st) →
  pending t lf (network_handler (consume_all es st)).
Proof.
  intros He. revert st. induction He as [|e es He _ IH]; intros st Hp; [done|].
  apply IH. by apply consume_pending.
Qed.

(** The loop wakes up late enough to flush a batch that has waited since [lf]. *)
Definition due {E : Type} (T lf : Z) (w : loop_wakeup E) : Prop :=
  match wake w with Received _ _ _ => lf + T ≤ now w | _ => True end.

Lemma flush_turn_due {E : Type} (T : Z) (w : loop_wakeup E) t (lf : Z) h :
  post_ok w = true → due T lf w → pending t lf h → t ∈ acked (flush_turn T w h).
Proof.
  intros Hok Hdue [Ha|(Hb&Hl&Hr)]; [by apply flush_turn_grows|].
  unfold flush_turn, due in *. rewrite Hok. destruct (wake w).
  - unfold should_flush. rewrite Hl. destruct (Z.of_nat (length (batch h)) =? 0) eqn:Hz.
    { apply Z.eqb_eq in Hz. destruct (batch h); [by apply not_elem_of_nil in Hb|done]. }
    rewrite (proj2 (Z.leb_le T _)), orb_true_r by lia. by apply flush_acks.
  - by apply flush_acks.
  - destruct (batch h) eqn:Hbh; [by apply not_elem_of_nil in Hb|]. simpl.
    apply flush_acks. by rewrite Hbh.
Qed.

End Helpers.

(** ** What a key stands for *)

(** The fields of a record are those of its integer types. *)
Definition event_range (e : NetworkProbe.network_event) : Prop :=
  0 ≤ NetworkProbe.ne_daddr e < 2 ^ 32.

(** The port that is kept: the one the pod listens on, or the one it talks to. *)
Definition kept_port (e : NetworkProbe.network_event) : Z :=
  if NetworkProbe.ne_kind e =? 2 then NetworkProbe.ne_sport e else NetworkProbe.ne_dport e.

Lemma network_entry_shape e pod uuid ts t :
  network_entry e pod uuid ts = Some t →
  let ip := NetworkProbe.ne_daddr e in
  (NetworkProbe.ne_kind e = 1 ∧ t = entry pod "EGRESS" "TCP" 0 ip (kept_port e) "ALLOW" uuid ts) ∨
  (NetworkProbe.ne_kind e = 2 ∧ t = entry pod "INGRESS" "TCP" (kept_port e) ip 0 "ALLOW" uuid ts) ∨
  (NetworkProbe.ne_kind e = 3 ∧ t = entry pod "EGRESS" "UDP" 0 ip (kept_port e) "ALLOW" uuid ts).
Proof.
  unfold network_entry, kept_port. destruct (to_itself pod _); [done|].
  destruct (Z.eqb_spec (NetworkProbe.ne_kind e) 1) as [->|]; [intros [= <-]; by left|].
  destruct (Z.eqb_spec (NetworkProbe.ne_kind e) 2) as [->|]; [intros [= <-]; by right; left|].
  destruct (Z.eqb_spec (NetworkProbe.ne_kind e) 3) as [->|]; [intros [= <-]; by right; right|done].
Qed.

Lemma entry_key_eq pod pod' tt tt' pr pr' pp pp' ip ip' po po' u u' ts ts' d :
  0 ≤ ip < 2 ^ 32 → 0 ≤ ip' < 2 ^ 32 →
  entry_key (entry pod tt pr pp ip po d u ts) = entry_key (entry pod' tt' pr' pp' ip' po' d u' ts') ↔
  pi_pod_name (status pod) = pi_pod_name (status pod') ∧
  pi_pod_ip (status pod) = pi_pod_ip (status pod') ∧
  tt = tt' ∧ pr = pr' ∧ pp = pp' ∧ ip = ip' ∧ po = po'.
Proof.
  intros Hi Hi'. split; [|by intros (Hn&Hp&->&->&->&->&->); unfold entry_key; simpl; rewrite Hn, Hp].
  unfold entry_key. simpl. intros Heq. injection Heq as Hn Hp Hpp Hip Hpo Htt Hpr.
  apply (inj pretty) in Hpp, Hpo.
  apply ipv4_to_string_inj in Hip; [|apply to_be32_range..]. by apply to_be32_inj in Hip.
Qed.

(** ** Theorems *)

Section Theorems.
Context `{TrafficCacheLaws}.
Implicit Types (st : consumers) (t : PodTraffic).

(** C21: no entry is lost or reordered behind the back of the loops.  At any moment of any run, each
    entry that a task has made has been acknowledged by the broker, or dropped because too many were
    waiting, or still waits, exactly once; the entries acknowledged and then those waiting are in the
    order in which they were made; and at most 1000 wait. *)
Theorem entries_are_conserved (cm : gmap Z PodInspect) (t0 t1 : Z) (es : list consumer_event) :
  let st := consume_all es (new_consumers cm t0 t1) in
  Forall (λ h, built h ≡ₚ acked h ++ overflowed h ++ batch h ∧
               acked h ++ batch h `sublist_of` built h ∧ (length (batch h) ≤ 1000)%nat)
    [network_handler st; drop_handler st].
Proof.
  destruct (run_ok cm t0 t1 es) as ([Hn Hd]&_&_).
  apply Forall_cons. split; [by destruct Hn|]. apply Forall_cons. split; [by destruct Hd|].
  by apply Forall_nil.
Qed.

(** nothing is reported twice.  While the traffic cache has room for all the entries made so far,
    no two entries, of one task or of the two, have the same pod, remote address, ports, direction,
    protocol and decision. *)
Theorem no_entry_twice (cm : gmap Z PodInspect) (t0 t1 : Z) (es : list consumer_event) :
  let st := consume_all es (new_consumers cm t0 t1) in
  has_room st → NoDup (entry_key <$> entries st).
Proof. intros st Hroom. apply (run_ok cm t0 t1 es). done. Qed.

(** every event is accounted for.  An event of a known kind, from a known pod, to another address
    than its own, leaves an entry with its key, made now or before: acknowledged, waiting, or dropped
    because too many were waiting.  The cache never hides an event that was not reported. *)
Theorem every_event_is_accounted (cm : gmap Z PodInspect) (t0 t1 : Z) (pre post : list consumer_event)
    (w : loop_wakeup NetworkProbe.network_event) event uuid ts pod t :
  let st := consume_all pre (new_consumers cm t0 t1) in
  let h := network_handler (consume_all (pre ++ NetworkTurn w :: post) (new_consumers cm t0 t1)) in
  wake w = Received event uuid ts → running (network_handler st) = true →
  container_map st !! NetworkProbe.ne_inum event = Some pod →
  network_entry event pod uuid ts = Some t →
  ∃ t', entry_key t' = entry_key t ∧ (t' ∈ acked h ∨ t' ∈ overflowed h ∨ t' ∈ batch h).
Proof.
  intros st h Hw Hrun Hpod Ht. apply (candidate_accounted cm t0 t1 pre post w t).
  fold st. unfold network_candidate, candidate. by rewrite Hrun, Hw, Hpod.
Qed.

(** an entry that overflows is lost for good.  When the broker is down for long, the oldest of more
    than 1000 waiting entries is dropped, but its key stays in the traffic cache: however often the
    flow is seen again, no entry with its key is ever acknowledged, while the cache has room. *)
Theorem overflowed_entry_is_lost (cm : gmap Z PodInspect) (t0 t1 : Z) (es : list consumer_event) t :
  let st := consume_all es (new_consumers cm t0 t1) in
  has_room st → t ∈ overflowed (network_handler st) →
  entry_key t ∉ entry_key <$> acked (network_handler st) ∧
  entry_key t ∉ entry_key <$> batch (network_handler st).
Proof.
  intros st Hroom Ht. destruct (run_ok cm t0 t1 es) as ([[Hp _ _] _]&_&Hr).
  destruct (Hr Hroom) as [_ Hn]. fold st in Hp, Hn. unfold entries in Hn.
  rewrite fmap_app in Hn. apply list.NoDup_app in Hn as (Hn&_&_). rewrite Hp, !fmap_app in Hn.
  apply list.NoDup_app in Hn as (_&Ha&Hob). apply list.NoDup_app in Hob as (_&Hob&_).
  assert (entry_key t ∈ entry_key <$> overflowed (network_handler st)) as Hk
    by by apply list_elem_of_fmap_2.
  split; [|by apply Hob]. intros Hin. apply (Ha _ Hin). rewrite elem_of_app. by left.
Qed.

(** the two tasks do not interfere.  They share the traffic cache, but while it has room what each
    of them posts, keeps and drops is what it would if the other received nothing. *)
Theorem tasks_do_not_interfere (cm : gmap Z PodInspect) (t0 t1 : Z) (es : list consumer_event) :
  let st0 := new_consumers cm t0 t1 in
  has_room (consume_all es st0) →
  network_handler (consume_all es st0) = network_handler (consume_all (network_part es) st0) ∧
  drop_handler (consume_all es st0) = drop_handler (consume_all (drop_part es) st0).
Proof.
  intros st0 Hroom. destruct (new_consumers_ok cm t0 t1) as (_&Hc&Hr).
  split; [by apply network_part_same|by apply drop_part_same].
Qed.

(** an entry does not wait for ever.  While the broker answers, an entry that waits in a batch is
    acknowledged at the first turn that times out, that finds the channel closed, or that receives an
    event one second or more after the last flush. *)
Theorem waiting_entry_is_posted st t (mid post : list consumer_event)
    (w : loop_wakeup NetworkProbe.network_event) :
  running (network_handler st) = true → t ∈ batch (network_handler st) →
  posts_succeed (mid ++ [NetworkTurn w]) →
  due (secs 1) (last_flush (network_handler st)) w →
  t ∈ acked (network_handler (consume_all (mid ++ NetworkTurn w :: post) st)).
Proof.
  intros Hrun Ht Hok Hdue. apply Forall_app in Hok as [Hmid Hw].
  apply Forall_cons in Hw as [Hw _].
  rewrite consume_all_app. simpl. apply consume_all_grows.
  assert (pending t (last_flush (network_handler st)) (network_handler st)) as Hp by by right.
  apply (consume_all_pending mid st t _ Hmid) in Hp. set (st1 := consume_all mid st) in *.
  pose proof (consume_network w st1) as Hc. destruct (cached _ _) as [o c]. rewrite Hc. simpl.
  destruct (running (network_handler st1)) eqn:Hr1.
  - eapply flush_turn_due; [done|done|by apply push_opt_pending].
  - by destruct Hp as [?|(_&_&?)]; [|congruence].
Qed.

(** a key stands for a flow.  Two events make entries with the same key if and only if they come
    from pods of the same name and address and agree on the remote address, the kind and the port that
    is kept: the text of addresses and ports confuses nothing, and the entries forget nothing else. *)
Theorem traffic_key_identifies_flow e e' pod pod' uuid uuid' (ts ts' : Z) t t' :
  event_range e → event_range e' →
  network_entry e pod uuid ts = Some t → network_entry e' pod' uuid' ts' = Some t' →
  entry_key t = entry_key t' ↔
  pi_pod_name (status pod) = pi_pod_name (status pod') ∧
  pi_pod_ip (status pod) = pi_pod_ip (status pod') ∧
  NetworkProbe.ne_daddr e = NetworkProbe.ne_daddr e' ∧
  NetworkProbe.ne_kind e = NetworkProbe.ne_kind e' ∧ kept_port e = kept_port e'.
Proof.
  intros He He' Ht Ht'. apply network_entry_shape in Ht, Ht'.
  destruct Ht as [[Hk ->]|[[Hk ->]|[Hk ->]]], Ht' as [[Hk' ->]|[[Hk' ->]|[Hk' ->]]];
    rewrite entry_key_eq, Hk, Hk' by done; split; naive_solver.
Qed.

End Theorems.
