(* ===== verification/TrafficWitness.v ===== *)
(** * The theorems about the receiving tasks at concrete runs

    A traffic cache as a map that forgets nothing, and runs of a pod that talks to two
    others. *)

From stdpp Require Import pretty.
From S2P Require Import Prelude RustStd Traffic TrafficFacts TrafficThms.
From S2P Require NetworkProbe NetpolicyDrop.

(** ** An executable cache *)

#[export] Instance TrafficKey_countable : Countable TrafficKey.
Proof.
  refine (inj_countable'
    (λ k, let 'MkTrafficKey a b c d e f g h := k in (a, b, c, d, e, f, g, h))
    (λ '(a, b, c, d, e, f, g, h), MkTrafficKey a b c d e f g h) _).
  by intros [].
Defined.

#[export] Instance map_cache : TrafficCache := {
  cache := gmap TrafficKey unit;
  cache_new := ∅;
  contains_key k c := bool_decide (c !! k = Some tt);
  cache_insert k c := <[k := tt]> c
}.

#[export] Instance map_cache_laws : TrafficCacheLaws.
Proof.
  split; unfold contains_key, cache_insert, cache_new, map_cache.
  - done.
  - intros k k' c. rewrite !bool_decide_eq_true, lookup_insert. case_decide; auto.
  - intros k c keys _ _. split; [by rewrite bool_decide_eq_true, lookup_insert_eq|].
    intros k'. rewrite !bool_decide_eq_true, lookup_insert. by case_decide.
Qed.

(** ** A pod and its events *)

(** The pod web of namespace prod: network namespace 7, address 10.0.0.1. *)
Definition wit_pod : PodInspect :=
  MkPodInspect None (MkPodInfo "web" (Some "prod"%string) "10.0.0.1")
    (MkInfo (MkConfig (MkMetadata EmptyString EmptyString EmptyString))) None None None (Some 7).

Definition wit_pods : gmap Z PodInspect := {[7 := wit_pod]}.

(** A datagram to 10.0.0.2. *)
Definition to_port (dport : Z) : NetworkProbe.network_event :=
  NetworkProbe.NetworkEvent 7 16777226 50000 33554442 dport 3.

(** A connection that a network policy blocks. *)
Definition blocked : NetpolicyDrop.policy_drop :=
  NetpolicyDrop.PolicyDrop 30 7 16777226 33554442 50000 443 6 4.

Definition sees (dport t : Z) (ok : bool) : consumer_event :=
  NetworkTurn (Wakeup (Received (to_port dport) "id" t) t ok t).
Definition sees_drop (t : Z) : consumer_event :=
  DropTurn (Wakeup (Received blocked "id" t) t true t).
Definition timer (t : Z) (ok : bool) : consumer_event := NetworkTurn (Wakeup TimedOut t ok t).

Definition datagram_entry (dport t : Z) : PodTraffic :=
  entry wit_pod "EGRESS" "UDP" 0 33554442 dport "ALLOW" "id" t.

Definition start : consumers := new_consumers wit_pods 0 0.

(** Two datagrams of one flow and one of another, a drop between them, and a broker that fails once. *)
Definition wit_events : list consumer_event :=
  [sees 53 10 true; sees_drop 15; sees 53 20 true; timer (secs 1) false; sees 443 (secs 2) true;
   sees 8080 (secs 2 + 5) true].

Lemma wit_events_room : has_room (consume_all wit_events start).
Proof. by vm_compute. Qed.

Lemma entries_are_conserved_witness :
  let st := consume_all wit_events start in
  Forall (λ h, built h ≡ₚ acked h ++ overflowed h ++ batch h ∧
               acked h ++ batch h `sublist_of` built h ∧ (length (batch h) ≤ 1000)%nat)
    [network_handler st; drop_handler st].
Proof. exact (entries_are_conserved wit_pods 0 0 wit_events). Defined.

Lemma no_entry_twice_witness :
  NoDup (entry_key <$> entries (consume_all wit_events start)) ∧
  length (entries (consume_all wit_events start)) = 4%nat.
Proof.
  split; [exact (no_entry_twice wit_pods 0 0 wit_events wit_events_room)|by vm_compute].
Defined.

Lemma every_event_is_accounted_witness :
  let h := network_handler (consume_all wit_events start) in
  ∃ t', entry_key t' = entry_key (datagram_entry 53 20) ∧
        (t' ∈ acked h ∨ t' ∈ overflowed h ∨ t' ∈ batch h).
Proof.
  exact (every_event_is_accounted wit_pods 0 0 [sees 53 10 true; sees_drop 15] (drop 3 wit_events)
    (Wakeup (Received (to_port 53) "id" 20) 20 true 20) (to_port 53) "id" 20 wit_pod
    (datagram_entry 53 20) eq_refl eq_refl eq_refl eq_refl).
Defined.

Lemma tasks_do_not_interfere_witness :
  network_handler (consume_all wit_events start) =
    network_handler (consume_all (network_part wit_events) start) ∧
  drop_handler (consume_all wit_events start) = drop_handler (consume_all [sees_drop 15] start).
Proof. exact (tasks_do_not_interfere wit_pods 0 0 wit_events wit_events_room). Defined.

Lemma waiting_entry_is_posted_witness :
  datagram_entry 53 10 ∈
    acked (network_handler (consume_all [sees 443 30 true; sees 80 (secs 1) true; sees 81 (secs 1) true]
                              (consume (sees 53 10 true) start))).
Proof.
  apply (waiting_entry_is_posted (consume (sees 53 10 true) start) (datagram_entry 53 10)
    [sees 443 30 true] [sees 81 (secs 1) true]
    (Wakeup (Received (to_port 80) "id" (secs 1)) (secs 1) true (secs 1))).
  - done.
  - vm_compute. by left.
  - by repeat constructor.
  - by vm_compute.
Defined.

(** The broker is down while the pod talks to 1001 ports. *)
Definition wit_outage : list consumer_event := (λ p, sees p p false) <$> seqZ 1 1001.

Lemma wit_outage_state :
  let st := consume_all wit_outage start in
  (Z.of_nat (length (entries st)) <=? TRAFFIC_CACHE_CAPACITY) = true ∧
  overflowed (network_handler st) = [datagram_entry 1 1].
Proof. by vm_compute. Qed.

Lemma overflowed_entry_is_lost_witness :
  let st := consume_all wit_outage start in
  entry_key (datagram_entry 1 1) ∉ entry_key <$> acked (network_handler st) ∧
  entry_key (datagram_entry 1 1) ∉ entry_key <$> batch (network_handler st).
Proof.
  apply (overflowed_entry_is_lost wit_pods 0 0 wit_outage (datagram_entry 1 1)).
  - apply Z.leb_le. exact (proj1 wit_outage_state).
  - change (new_consumers wit_pods 0 0) with start. rewrite (proj2 wit_outage_state). by left.
Defined.

Lemma to_port_range (dport : Z) : event_range (to_port dport).
Proof. by split. Qed.

(** An event and a later one of the same flow, and one to another port. *)
Lemma traffic_key_identifies_flow_witness :
  entry_key (datagram_entry 53 10) = entry_key (datagram_entry 53 20) ∧
  entry_key (datagram_entry 53 10) ≠ entry_key (datagram_entry 443 20).
Proof.
  split.
  - apply (traffic_key_identifies_flow (to_port 53) (to_port 53) wit_pod wit_pod "id" "id" 10 20);
      [apply to_port_range..|reflexivity|reflexivity|]. by split_and!.
  - intros Heq. apply (traffic_key_identifies_flow (to_port 53) (to_port 443) wit_pod wit_pod "id" "id"
      10 20) in Heq as (_&_&_&_&Hp); [done|apply to_port_range..|reflexivity|reflexivity].
Defined.
