(* ===== verification/EndToEnd.v ===== *)
(** * From a hook in the kernel to the broker

    The probes, the poll loop and the receiving tasks, one after the other: what the tasks of
    network.rs receive is what the poll loop has sent on the channel. *)

From stdpp Require Import pretty.
From S2P Require Import Prelude CLayout CLayoutFacts VmlinuxBase VmlinuxSock BpfEnv LruKernel RingBuffer.
From S2P Require Import Helper Fixtures RustStd Controller System SystemFacts SystemSpec SystemThms.
From S2P Require Import SystemWitness Traffic TrafficFacts TrafficThms TrafficWitness.
From S2P Require NetworkProbe NetpolicyDrop NetworkProbeFacts NetworkProbeSpec NetworkProbeThms.
From S2P Require NetworkProbeWitness.

(** The events that the network task receives along a run. *)
Definition received (e : consumer_event) : option NetworkProbe.network_event :=
  match e with
  | NetworkTurn w => match wake w with Received event _ _ => Some event | _ => None end
  | _ => None
  end.

Lemma received_split (es : list consumer_event) (event : NetworkProbe.network_event) :
  event ∈ omap received es →
  ∃ pre w uuid ts post, es = pre ++ NetworkTurn w :: post ∧ wake w = Received event uuid ts.
Proof.
  induction es as [|e es IH]; [by intros ?%not_elem_of_nil|]. intros Hin.
  assert (received e = Some event ∨ event ∈ omap received es) as [He|Hin'].
  { apply list_elem_of_omap in Hin as (e'&[->|Hin]%elem_of_cons&He'); [by left|right].
    apply list_elem_of_omap. by exists e'. }
  - destruct e as [w| |]; try done. simpl in He. destruct (wake w) as [ev uuid ts| |] eqn:Hw; try done.
    injection He as ->. by exists [], w, uuid, ts, es.
  - destruct (IH Hin') as (pre&w&uuid&ts&post&->&Hw). by exists (e :: pre), w, uuid, ts, post.
Qed.

Section Theorems.
Context `{BpfKernelLaws} `{TrafficCacheLaws}.

(** from the first datagram of a pod to the broker.  A pod starts while the controller runs; a turn
    of the poll loop registers its network namespace; a socket of the namespace then sends its first
    datagram of a flow, to an address that is neither ignored nor the pod's own, while the ring buffer
    has room.  Once the loop has polled and the network task has received what is on its channel, the
    task holds an entry for the flow: acknowledged by the broker, still waiting, or dropped because
    more than 1000 were waiting. *)
Theorem registered_pod_reaches_broker (d : bool) (y y' : system) (pre mid post : list event)
    (c : kctx) (sk msg len : Z) (ip ip' : option string) (inum' : option Z)
    (es : list consumer_event) (cm : gmap Z PodInspect) (t0 t1 : Z) (pod : PodInspect) :
  let inum := sock_inum c sk in
  let skc := read_sock_common c sk in
  let fl := NetworkProbeFacts.skc_flow inum 2 1 skc in
  let before := pre ++ LoopTurn true (Some inum) ip :: mid in
  let kernel := before ++ NetworkHook (NetworkProbe.UdpSendmsg c sk msg len) :: post ++
                [LoopTurn true inum' ip'] in
  let σ1 := spec_events d (refusals d before y) before (loaded_spec y) in
  (* the kernel and the poll loop *)
  freshly_loaded y → exec_events d kernel y = Some y' →
  run_room d (refusals d kernel y) kernel (loaded_spec y) →
  sk ≠ 0 → skc_filtered (sp_network σ1) skc = false →
  NetworkProbeFacts.fl_key fl ∉ NetworkProbeSpec.ob_seen (sp_observer σ1) →
  (∀ y1, exec_events d before y = Some y1 →
         ring_full NetworkProbe.network_event_data (network_ring y1) = false) →
  ch_open (network_tx y') = true →
  (* the receiving task *)
  omap received es = ch_sent (network_tx y') → Forall not_closed es →
  cm !! inum = Some pod → Forall (keeps_pod inum) es →
  to_itself pod (NetworkProbe.ck_daddr (NetworkProbeFacts.fl_key fl)) = false →
  let h := network_handler (consume_all es (new_consumers cm t0 t1)) in
  ∃ t uuid time_stamp,
    entry_key t = entry_key (entry pod "EGRESS" "UDP" 0
      (NetworkProbe.ck_daddr (NetworkProbeFacts.fl_key fl))
      (NetworkProbe.ck_dport (NetworkProbeFacts.fl_key fl)) "ALLOW" uuid time_stamp) ∧
    (t ∈ acked h ∨ t ∈ overflowed h ∨ t ∈ batch h).
Proof.
  intros inum skc fl before kernel σ1 Hl Hk Hroom Hsk Hfilt Hnew Hfull Hopen Hrcv Hclosed Hcm Hpods Hself h.
  pose proof (registered_pod_is_reported d y y' pre mid post c sk msg len ip ip' inum' Hl Hk Hroom Hsk
    Hfilt Hnew Hfull Hopen) as Hsent.
  rewrite <- Hrcv in Hsent. destruct (received_split _ _ Hsent) as (epre&w&uuid&ts&epost&Hes&Hw).
  rewrite Hes in Hclosed, Hpods. apply Forall_app in Hclosed as [Hclosed _].
  apply Forall_app in Hpods as [Hpods _].
  set (t := entry pod "EGRESS" "UDP" 0 (NetworkProbe.ck_daddr (NetworkProbeFacts.fl_key fl))
    (NetworkProbe.ck_dport (NetworkProbeFacts.fl_key fl)) "ALLOW" uuid ts).
  destruct (candidate_accounted cm t0 t1 epre epost w t) as (t'&Et&Hin).
  - unfold network_candidate, candidate. rewrite consume_all_running by done. rewrite Hw.
    rewrite (consume_all_pod _ _ _ Hpods). simpl. fold inum. rewrite Hcm.
    change (network_entry (NetworkProbeFacts.event_of fl) pod uuid ts = Some t). unfold network_entry.
    change (NetworkProbe.ne_daddr (NetworkProbeFacts.event_of fl)) with
      (NetworkProbe.ck_daddr (NetworkProbeFacts.fl_key fl)). by rewrite Hself.
  - exists t', uuid, ts. split; [done|]. unfold h. by rewrite Hes.
Qed.

(** C40: an accept that changes CPU never reaches the broker.  Its event carries namespace 0, since the
    slot of the second CPU in the per-CPU map is zero; the watcher knows no pod of namespace 0, and the
    network task makes no entry for it. *)
Theorem migrated_accept_never_reaches_broker (s : NetworkProbe.probe_state) (c c' : kctx)
    (sk new_sk : Z) (fl : NetworkProbeFacts.flow) (st : consumers) :
  NetworkProbeSpec.loaded s → socket_tracked (NetworkProbe.np_helper s) c sk = true →
  bpf_get_current_pid_tgid c' = bpf_get_current_pid_tgid c →
  bpf_get_smp_processor_id c' ≠ bpf_get_smp_processor_id c →
  NetworkProbeFacts.accept_flow (NetworkProbe.np_helper s) c' 0 new_sk = Some fl →
  ring_full NetworkProbe.network_event_data (NetworkProbe.network_events s) = false →
  container_map st !! 0 = None →
  ∃ event,
    NetworkProbe.reported
      (NetworkProbe.run_hooks [NetworkProbe.AcceptEntry c sk; NetworkProbe.AcceptExit c' new_sk] s) =
      [event] ∧
    NetworkProbe.ne_inum event = 0 ∧
    ∀ w uuid ts, wake w = Received event uuid ts →
      built (network_handler (consume (NetworkTurn w) st)) = built (network_handler st).
Proof.
  intros Hl Ht Hp Hc Hfl Hnf Hcm.
  pose proof (NetworkProbeThms.accept_pair_reported s c c' sk new_sk fl) as Ha.
  simpl in Ha. rewrite decide_False in Ha by done. destruct Ha as [Hr Hi]; [done..|].
  exists (NetworkProbeFacts.event_of fl). split; [done|]. split; [done|]. intros w uuid ts Hw.
  apply (unknown_pod_ignored w (NetworkProbeFacts.event_of fl) uuid ts); [done|].
  change (container_map st !! NetworkProbe.ck_inum (NetworkProbeFacts.fl_key fl) = None). by rewrite Hi.
Qed.

End Theorems.

(** * At concrete runs *)

#[local] Existing Instance NetpolicyDrop.conn_attempt_eq_dec.
#[local] Existing Instance lru_kernel.
#[local] Existing Instance lru_kernel_laws.

(** ** The first datagram of a pod *)

(** The datagram is received within the hour; the broker acknowledges the entry a second later. *)
Definition wit_receives : list consumer_event :=
  [NetworkTurn (Wakeup (Received wit_event "id" 10) 10 true 10); timer (secs 1) true].

Lemma wit_receives_run : omap received wit_receives = ch_sent (network_tx (run_of wit_run)).
Proof. by vm_compute. Qed.

Lemma wit_run_unfiltered :
  skc_filtered
    (sp_network (spec_events true (refusals true wit_before wit_system) wit_before
                   (loaded_spec wit_system)))
    (read_sock_common (wit_client 100) 1) = false.
Proof. by vm_compute. Qed.

Lemma wit_run_new :
  NetworkProbeFacts.fl_key
    (NetworkProbeFacts.skc_flow 7 2 1 (read_sock_common (wit_client 100) 1)) ∉
  NetworkProbeSpec.ob_seen
    (sp_observer (spec_events true (refusals true wit_before wit_system) wit_before
                    (loaded_spec wit_system))).
Proof. apply (bool_decide_eq_true_1 (_ ∉ _)). by vm_compute. Qed.

Lemma wit_receives_pod : Forall (keeps_pod 7) wit_receives.
Proof. by repeat constructor. Qed.

Lemma wit_receives_open : Forall not_closed wit_receives.
Proof. by repeat constructor. Qed.

Lemma wit_receives_acked :
  acked (network_handler (consume_all wit_receives (new_consumers wit_pods 0 0))) =
    [datagram_entry 443 10].
Proof. by vm_compute. Qed.

Lemma registered_pod_reaches_broker_witness :
  let h := network_handler (consume_all wit_receives (new_consumers wit_pods 0 0)) in
  ∃ t uuid time_stamp,
    entry_key t = entry_key (entry wit_pod "EGRESS" "UDP" 0 ip2 443 "ALLOW" uuid time_stamp) ∧
    (t ∈ acked h ∨ t ∈ overflowed h ∨ t ∈ batch h).
Proof.
  exact (registered_pod_reaches_broker true wit_system (run_of wit_run) [datagram; execve]
    [resend 10; resend 20; execve] wit_after (wit_client 100) 1 1 10 None
    (Some "10.0.0.3"%string) None wit_receives wit_pods 0 0 wit_pod wit_system_loaded wit_run_exec
    wit_run_room (Z.neq_succ_diag_l 0) wit_run_unfiltered wit_run_new wit_before_ready
    (proj1 wit_run_open) wit_receives_run wit_receives_open eq_refl wit_receives_pod eq_refl).
Defined.

(** ** A migrated accept *)

Definition wit_migrated : NetworkProbeFacts.flow :=
  {| NetworkProbeFacts.fl_key := NetworkProbe.ConnKey 0 ip1 ip2 50000 1 2;
     NetworkProbeFacts.fl_sport := 80 |}.

Lemma migrated_accept_never_reaches_broker_witness :
  ∃ event, NetworkProbe.ne_inum event = 0 ∧
    built (network_handler (consume (NetworkTurn (Wakeup (Received event "id" 10) 10 true 10)) start)) =
    [].
Proof.
  destruct (migrated_accept_never_reaches_broker NetworkProbeWitness.wit_state
    NetworkProbeWitness.wit_server NetworkProbeWitness.wit_moved 1 2 wit_migrated start)
    as (event&_&Hi&Hw); [NetworkProbeWitness.at_input..|].
  exists event. split; [exact Hi|]. rewrite (Hw _ "id"%string 10); [done|done].
Defined.
