(* ===== verification/SyscallRecorder.v ===== *)
(** * controller/src/syscall.rs

    The task that receives the system calls from the poll loop and remembers, pod by pod, the names it
    has seen; and the task that posts to the broker, every ten seconds, the sets that have changed since
    they were last posted. *)

From stdpp Require Import pretty.
From S2P Require Import Prelude RustStd Traffic.

(** ** The caches *)

(** [moka::future::Cache<String, Arc<Mutex<HashSet<String>>>>]: a map from pod names to sets that
    forgets entries when it is full; [sc_modify] is a write through the pointer to a set.  [sc_iter]
    lists the entries. *)
Class SyscallCache := {
  scache : Type;
  sc_new : scache;
  sc_get : string → scache → option (gset string);
  sc_insert : string → gset string → scache → scache;
  sc_modify : string → (gset string → gset string) → scache → scache;
  sc_iter : scache → list (string * gset string)
}.

Definition SYSCALL_CACHE_CAPACITY : Z := 10000.

Class SyscallCacheLaws `{SyscallCache} := {
  sc_get_new (k : string) : sc_get k sc_new = None;
  (* nothing is in the cache that was not put there; an entry may be gone *)
  sc_get_insert (k k' : string) (v v' : gset string) (c : scache) :
    sc_get k' (sc_insert k v c) = Some v' → (k' = k ∧ v' = v) ∨ (k' ≠ k ∧ sc_get k' c = Some v');
  sc_insert_room (k : string) (v : gset string) (c : scache) (keys : list string) :
    (∀ k', is_Some (sc_get k' c) → k' ∈ keys) → Z.of_nat (length keys) < SYSCALL_CACHE_CAPACITY →
    sc_get k (sc_insert k v c) = Some v ∧ ∀ k', k' ≠ k → sc_get k' (sc_insert k v c) = sc_get k' c;
  sc_get_modify (k k' : string) (f : gset string → gset string) (c : scache) :
    sc_get k' (sc_modify k f c) = if decide (k' = k) then f <$> sc_get k' c else sc_get k' c;
  sc_iter_get (k : string) (v : gset string) (c : scache) :
    (k, v) ∈ sc_iter c ↔ sc_get k c = Some v;
  sc_iter_keys (c : scache) : NoDup (fst <$> sc_iter c)
}.

(** [models.rs] *)
Record SyscallData : Type := MkSyscallData {
  sd_pod_name : string;
  sd_pod_namespace : string;
  sd_syscalls : list string;
  sd_arch : string;
  sd_time_stamp : Z
}.

#[export] Instance SyscallData_eq_dec : EqDecision SyscallData.
Proof. solve_decision. Defined.

(** [i32::try_from] on a [u32]. *)
Definition i32_try_from (n : Z) : option Z := if n <? 2 ^ 31 then Some n else None.

Section SyscallRecorder.
Context `{SyscallCache}.

(** [ScmpSyscall::get_name_by_arch] and [std::env::consts::ARCH], for the machine. *)
Variable get_name_by_arch : Z → option string.
Variable ARCH : string.

Definition get_syscall_name (syscall_number : Z) : option string := get_name_by_arch syscall_number.

Definition syscall_name_of (syscall_number : Z) : string :=
  default (pretty syscall_number) (i32_try_from syscall_number ≫= get_syscall_name).

(** [get_with(key, async { .. HashSet::new() })]. *)
Definition get_with (k : string) (c : scache) : gset string * scache :=
  match sc_get k c with
  | Some v => (v, c)
  | None => (∅, sc_insert k ∅ c)
  end.

Definition process_syscall_event (sysnbr : Z) (pod_data : PodInspect) (c : scache) : scache :=
  let pod_name := pi_pod_name (status pod_data) in
  let syscall_name := syscall_name_of sysnbr in
  let '(syscalls, c) := get_with pod_name c in
  if decide (syscall_name ∈ syscalls) then c
  else sc_modify pod_name (λ syscalls, {[syscall_name]} ∪ syscalls) c.

(** An event of the channel: the namespace and the number. *)
Definition handle_syscall_event (container_map : gmap Z PodInspect) (event : Z * Z) (c : scache) :
    scache :=
  match container_map !! event.1 with
  | Some pod_inspect => process_syscall_event event.2 pod_inspect c
  | None => c
  end.

(** One entry of the first half of a pass: it may add an empty set to the sets last sent.  [utc_now] is
    the time read for each pod. *)
Definition collect_one (utc_now : string → Z) (entry : string * gset string)
    (st : list SyscallData * list (string * gset string) * scache) :
    list SyscallData * list (string * gset string) * scache :=
  let '(batch, pending_updates, last_sent) := st in
  let '(pod_name, syscalls) := entry in
  let '(last_sent_set, last_sent) := get_with pod_name last_sent in
  if decide (syscalls = last_sent_set) then (batch, pending_updates, last_sent)
  else
    (batch ++ [{| sd_pod_name := pod_name; sd_pod_namespace := EmptyString;
                  sd_syscalls := elements syscalls; sd_arch := ARCH;
                  sd_time_stamp := utc_now pod_name |}],
     pending_updates ++ [(pod_name, syscalls)], last_sent).

Definition collect (utc_now : string → Z) (syscall_cache last_sent : scache) :
    list SyscallData * list (string * gset string) * scache :=
  foldl (λ st entry, collect_one utc_now entry st) ([], [], last_sent) (sc_iter syscall_cache).

(** The second half: the answer of the broker. *)
Definition mark_sent (pending_updates : list (string * gset string)) (last_sent : scache) : scache :=
  foldl (λ c '(pod_name, snapshot), sc_modify pod_name (λ _, snapshot) (snd (get_with pod_name c)))
    last_sent pending_updates.

(** The two tasks.  [posting]: the batch and the snapshots of a post in progress; [acked_syscalls]: the
    batches that the broker has acknowledged. *)
Record recorder : Type := Recorder {
  rc_container_map : gmap Z PodInspect;
  SYSCALL_CACHE : scache;
  LAST_SENT_CACHE : scache;
  posting : option (list SyscallData * list (string * gset string));
  acked_syscalls : list (list SyscallData)
}.

Inductive recorder_event : Type :=
| SyscallReceived (event : Z * Z)
| RecorderPodFound (inode_num : Z) (pod_inspect : PodInspect)
| PassStarts (utc_now : string → Z)
| PassEnds (ok : bool).

(** [PassStarts] runs a pass up to its post, [PassEnds] the rest; system calls are received between the
    two.  A pass with nothing to post ends at once. *)
Definition record (e : recorder_event) (st : recorder) : recorder :=
  match e with
  | SyscallReceived event =>
      {| rc_container_map := rc_container_map st;
         SYSCALL_CACHE := handle_syscall_event (rc_container_map st) event (SYSCALL_CACHE st);
         LAST_SENT_CACHE := LAST_SENT_CACHE st; posting := posting st;
         acked_syscalls := acked_syscalls st |}
  | RecorderPodFound inode_num pod_inspect =>
      {| rc_container_map := <[inode_num := pod_inspect]> (rc_container_map st);
         SYSCALL_CACHE := SYSCALL_CACHE st; LAST_SENT_CACHE := LAST_SENT_CACHE st;
         posting := posting st; acked_syscalls := acked_syscalls st |}
  | PassStarts utc_now =>
      match posting st with
      | Some _ => st
      | None =>
          let '(batch, pending_updates, last_sent) :=
            collect utc_now (SYSCALL_CACHE st) (LAST_SENT_CACHE st) in
          {| rc_container_map := rc_container_map st; SYSCALL_CACHE := SYSCALL_CACHE st;
             LAST_SENT_CACHE := last_sent;
             posting := match batch with [] => None | _ :: _ => Some (batch, pending_updates) end;
             acked_syscalls := acked_syscalls st |}
      end
  | PassEnds ok =>
      match posting st with
      | None => st
      | Some (batch, pending_updates) =>
          {| rc_container_map := rc_container_map st; SYSCALL_CACHE := SYSCALL_CACHE st;
             LAST_SENT_CACHE :=
               if ok then mark_sent pending_updates (LAST_SENT_CACHE st) else LAST_SENT_CACHE st;
             posting := None;
             acked_syscalls := acked_syscalls st ++ (if ok then [batch] else []) |}
      end
  end.

Definition record_all (es : list recorder_event) (st : recorder) : recorder :=
  foldl (λ st e, record e st) st es.

Definition new_recorder (cm : gmap Z PodInspect) : recorder := Recorder cm sc_new sc_new None [].

End SyscallRecorder.
