(* ===== verification/SyscallRecorderFacts.v ===== *)
(** * The system-call tasks: what the caches hold along a run

    The invariants of the two caches and of a pass, in general and while the caches have room. *)

From S2P Require Import Prelude RustStd Traffic SyscallRecorder.

Section Helpers.
Context `{SyscallCacheLaws}.
Variable get_name_by_arch : Z → option string.
Variable ARCH : string.
Implicit Types (utc_now : string → Z) (st : recorder) (c : scache) (p x : string) (s : gset string).

#[local] Notation record := (record get_name_by_arch ARCH).
#[local] Notation record_all := (record_all get_name_by_arch ARCH).
#[local] Notation collect := (collect ARCH).
#[local] Notation collect_one := (collect_one ARCH).

Lemma record_all_app (es es' : list recorder_event) st :
  record_all (es ++ es') st = record_all es' (record_all es st).
Proof. apply foldl_app. Qed.

(** ** What a cache holds *)

(** Every name in the cache is one that [P] allows. *)
Definition holds_only (P : string → string → Prop) c : Prop :=
  ∀ p s x, sc_get p c = Some s → x ∈ s → P p x.

Lemma get_with_only (P : string → string → Prop) p c :
  holds_only P c → (∀ x, x ∈ fst (get_with p c) → P p x) ∧ holds_only P (snd (get_with p c)).
Proof.
  intros Hc. unfold get_with. destruct (sc_get p c) as [s|] eqn:Hs; simpl.
  - split; [|done]. intros x. by apply Hc.
  - split; [set_solver|]. intros p' s' x [[-> ->]|[_ Hs']]%sc_get_insert; [set_solver|by eapply Hc].
Qed.

Lemma modify_only (P : string → string → Prop) p (f : gset string → gset string) c :
  holds_only P c → (∀ s x, sc_get p c = Some s → x ∈ f s → P p x) → holds_only P (sc_modify p f c).
Proof.
  intros Hc Hf p' s' x. rewrite sc_get_modify. case_decide as Hd; [subst p'|by apply Hc].
  intros (s&Hs&->)%fmap_Some. by apply Hf.
Qed.

Lemma process_only (P : string → string → Prop) (nr : Z) (pod : PodInspect) c :
  holds_only P c → P (pi_pod_name (status pod)) (syscall_name_of get_name_by_arch nr) →
  holds_only P (process_syscall_event get_name_by_arch nr pod c).
Proof.
  intros Hc HP. unfold process_syscall_event.
  destruct (get_with_only P (pi_pod_name (status pod)) c Hc) as [_ Hc'].
  destruct (get_with _ c) as [s c']. simpl in Hc'. case_decide; [done|].
  apply modify_only; [done|]. intros s' x Hs' [->%elem_of_singleton|Hx]%elem_of_union; [done|].
  by eapply Hc'.
Qed.

(** ** The first half of a pass *)

(** Each entry is posted, or is what the cache of the sets last sent held when the loop came to it;
    nothing else is posted. *)
Definition posted_names (batch : list SyscallData) p x : Prop :=
  ∃ d, d ∈ batch ∧ sd_pod_name d = p ∧ x ∈ sd_syscalls d.

Record collected (P Q : string → string → Prop)
    (r : list SyscallData * list (string * gset string) * scache) : Prop := {
  cl_batch p x : posted_names r.1.1 p x → Q p x;
  cl_pending p s x : (p, s) ∈ r.1.2 → x ∈ s → posted_names r.1.1 p x;
  cl_last : holds_only P r.2
}.

Lemma posted_names_snoc (batch : list SyscallData) d p x :
  posted_names (batch ++ [d]) p x ↔
  posted_names batch p x ∨ (sd_pod_name d = p ∧ x ∈ sd_syscalls d).
Proof.
  unfold posted_names. split.
  - intros (d'&[?| ->%list_elem_of_singleton]%elem_of_app&?&?); [left; by exists d'|by right].
  - intros [(d'&?&?&?)|[? ?]]; [exists d'|exists d]; rewrite elem_of_app, ?list_elem_of_singleton; auto.
Qed.

Lemma collect_one_collected utc_now (P Q : string → string → Prop) p s r :
  (∀ x, x ∈ s → Q p x) → collected P Q r →
  collected P Q (collect_one utc_now (p, s) r) ∧
  ∀ x, x ∈ s → posted_names (collect_one utc_now (p, s) r).1.1 p x ∨ P p x.
Proof.
  destruct r as [[batch pu] last]. intros Hs [Hb Hp Hl]. simpl in *.
  destruct (get_with_only P p last Hl) as [Hw Hl']. destruct (get_with p last) as [ls last'].
  simpl in *. case_decide as Heq.
  - subst ls. split; [by split|]. intros x Hx. right. by apply Hw.
  - split; [split; simpl|].
    + intros p' x [?|[<- Hx]]%posted_names_snoc; [by apply Hb|]. simpl in Hx.
      apply elem_of_elements in Hx. by apply Hs.
    + intros p' s' x Hin Hx. rewrite posted_names_snoc. apply elem_of_app in Hin as [Hin|Hin].
      * left. by eapply Hp.
      * apply list_elem_of_singleton in Hin as [= -> ->]. right. split; [done|]. simpl. by apply elem_of_elements.
    + done.
    + intros x Hx. left. simpl. rewrite posted_names_snoc. right. split; [done|]. simpl. by apply elem_of_elements.
Qed.

Lemma collect_one_mono utc_now (entry : string * gset string) r p x :
  posted_names r.1.1 p x → posted_names (collect_one utc_now entry r).1.1 p x.
Proof.
  destruct r as [[batch pu] last], entry as [p' s']. simpl. destruct (get_with p' last).
  case_decide; simpl; [done|]. rewrite posted_names_snoc. by left.
Qed.

Lemma collect_collected utc_now (P Q : string → string → Prop) (l : list (string * gset string)) r :
  (∀ p s x, (p, s) ∈ l → x ∈ s → Q p x) → collected P Q r →
  let r' := foldl (λ r entry, collect_one utc_now entry r) r l in
  collected P Q r' ∧ (∀ p x, posted_names r.1.1 p x → posted_names r'.1.1 p x) ∧
  ∀ p s x, (p, s) ∈ l → x ∈ s → posted_names r'.1.1 p x ∨ P p x.
Proof.
  revert r. induction l as [|[p s] l IH]; intros r Hl Hr; simpl.
  { split_and!; [done|done|]. by intros p s x ?%not_elem_of_nil. }
  destruct (collect_one_collected utc_now P Q p s r) as [Hr' Hs].
  { intros x. apply Hl. by left. }
  { done. }
  destruct (IH (collect_one utc_now (p, s) r)) as (Hc&Hm&Ha).
  { intros p' s' x Hin. apply Hl. by right. }
  { done. }
  split_and!; [done| |].
  - intros p' x Hp. by apply Hm, collect_one_mono.
  - intros p' s' x [[= -> ->]|Hin]%elem_of_cons Hx; [|by eapply Ha].
    destruct (Hs x Hx); [left; by apply Hm|by right].
Qed.

(** ** The invariant of a run *)

Definition told st p x : Prop := ∃ batch, batch ∈ acked_syscalls st ∧ posted_names batch p x.

Record recorder_ok (P : string → string → Prop) st : Prop := {
  ro_cache : holds_only P (SYSCALL_CACHE st);
  ro_acked p x : told st p x → P p x;
  ro_last : holds_only (told st) (LAST_SENT_CACHE st);
  ro_posting batch pu :
    posting st = Some (batch, pu) →
    (∀ p x, posted_names batch p x → P p x) ∧
    ∀ p s x, (p, s) ∈ pu → x ∈ s → posted_names batch p x
}.

Lemma recorder_ok_mono (P P' : string → string → Prop) st :
  (∀ p x, P p x → P' p x) → recorder_ok P st → recorder_ok P' st.
Proof.
  intros HP [Hc Ha Hl Hp]. split; [| |done|].
  - intros p s x ??. by eapply HP, Hc.
  - intros p x ?. by apply HP, Ha.
  - intros batch pu ?. destruct (Hp batch pu) as [Hb ?]; [done|]. split; [|done]. intros p x ?. by apply HP, Hb.
Qed.

Lemma new_recorder_ok (P : string → string → Prop) cm : recorder_ok P (new_recorder cm).
Proof.
  split; simpl.
  - intros p s x. by rewrite sc_get_new.
  - by intros p x (batch&?%not_elem_of_nil&_).
  - intros p s x. by rewrite sc_get_new.
  - done.
Qed.

Lemma mark_sent_only (P : string → string → Prop) (pu : list (string * gset string)) c :
  holds_only P c → (∀ p s x, (p, s) ∈ pu → x ∈ s → P p x) → holds_only P (mark_sent pu c).
Proof.
  revert c. induction pu as [|[p s] pu IH]; intros c Hc Hp; simpl; [done|]. apply IH.
  - apply modify_only; [by apply get_with_only|]. intros _ x _ Hx. apply (Hp p s x); [by left|done].
  - intros p' s' x Hin. apply Hp. by right.
Qed.

(** What a received event shows: the pod and the name of the system call. *)
Definition shows st (e : recorder_event) p x : Prop :=
  match e with
  | SyscallReceived event =>
      ∃ pod, rc_container_map st !! event.1 = Some pod ∧ pi_pod_name (status pod) = p ∧
             syscall_name_of get_name_by_arch event.2 = x
  | _ => False
  end.

Lemma record_ok (P : string → string → Prop) (e : recorder_event) st :
  recorder_ok P st → (∀ p x, shows st e p x → P p x) → recorder_ok P (record e st).
Proof.
  intros [Hc Ha Hl Hp] Hsh. destruct e as [event|inode pod|utc_now|ok]; simpl in *.
  - split; simpl; try done. unfold handle_syscall_event.
    destruct (rc_container_map st !! event.1) as [pod|] eqn:Hpod; [|done].
    apply process_only; [done|]. apply Hsh. by exists pod.
  - by split.
  - destruct (posting st) as [q|] eqn:Hq; [split; try done; by rewrite Hq|].
    destruct (collect_collected utc_now (told st) P (sc_iter (SYSCALL_CACHE st)) ([], [], LAST_SENT_CACHE st))
      as ([Hb Hpu Hl']&_&_).
    { intros p s x Hin%sc_iter_get. by apply Hc. }
    { split; simpl; [|by intros ??? ?%not_elem_of_nil|done]. by intros p x (d&?%not_elem_of_nil&_). }
    unfold collect. destruct (foldl _ _ _) as [[batch pu] last]. simpl in *.
    split; simpl; try done. intros b q. destruct batch; [done|]. by intros [= <- <-].
  - destruct (posting st) as [[batch pu]|] eqn:Hq; [|split; try done; by rewrite Hq].
    destruct (Hp batch pu eq_refl) as [Hb Hpu].
    assert (∀ p x, told {| rc_container_map := rc_container_map st; SYSCALL_CACHE := SYSCALL_CACHE st;
              LAST_SENT_CACHE := if ok then mark_sent pu (LAST_SENT_CACHE st) else LAST_SENT_CACHE st;
              posting := None; acked_syscalls := acked_syscalls st ++ (if ok then [batch] else []) |} p x ↔
              told st p x ∨ (ok = true ∧ posted_names batch p x)) as Ht.
    { intros p x. unfold told. simpl. destruct ok; rewrite ?app_nil_r; [|naive_solver].
      setoid_rewrite elem_of_app. setoid_rewrite list_elem_of_singleton. naive_solver. }
    split; simpl; [done| | |done].
    + intros p x [?|[_ ?]]%Ht; [by apply Ha|by apply Hb].
    + assert (holds_only (λ p x, told st p x ∨ (ok = true ∧ posted_names batch p x))
        (if ok then mark_sent pu (LAST_SENT_CACHE st) else LAST_SENT_CACHE st)) as Hm.
      { destruct ok.
        - apply mark_sent_only; [intros p s x ??; left; by eapply Hl|].
          intros p s x ??. right. split; [done|]. by eapply Hpu.
        - intros p s x ??. left. by eapply Hl. }
      intros p s x Hs Hx. apply Ht. by eapply Hm.
Qed.

Lemma told_mono (e : recorder_event) st p x : told st p x → told (record e st) p x.
Proof.
  intros (batch&Hb&Hx). exists batch. split; [|done]. destruct e as [event|inode pod|utc_now|ok]; simpl; try done.
  - destruct (posting st); [done|]. by destruct (collect _ _ _) as [[? ?] ?].
  - destruct (posting st) as [[? ?]|]; simpl; [|done]. apply elem_of_app. by left.
Qed.

Lemma told_mono_all (es : list recorder_event) st p x : told st p x → told (record_all es st) p x.
Proof. revert st. induction es as [|e es IH]; intros st Ht; [done|]. by apply IH, told_mono. Qed.

(** ** Runs in which the caches have room *)

Section Room.
Variable names : list string.
Hypothesis names_fit : Z.of_nat (length names) < SYSCALL_CACHE_CAPACITY.

(** The names of the pods bound the keys of the caches. *)
Definition within c : Prop := ∀ k, is_Some (sc_get k c) → k ∈ names.

Lemma get_with_room p c :
  within c → p ∈ names →
  fst (get_with p c) = default ∅ (sc_get p c) ∧ within (snd (get_with p c)) ∧
  ∀ k, sc_get k (snd (get_with p c)) =
       if decide (k = p) then Some (default ∅ (sc_get p c)) else sc_get k c.
Proof.
  intros Hc Hp. unfold get_with, within. destruct (sc_get p c) as [s|] eqn:Hs; simpl.
  - split_and!; [done|done|]. intros k. case_decide; by subst.
  - destruct (sc_insert_room p ∅ c names Hc names_fit) as [H1 H2].
    assert (∀ k, sc_get k (sc_insert p ∅ c) = if decide (k = p) then Some ∅ else sc_get k c) as Hk.
    { intros k. case_decide; [by subst|by apply H2]. }
    split_and!; [done| |done]. intros k. rewrite Hk. case_decide; [by subst|apply Hc].
Qed.

Lemma modify_within p (f : gset string → gset string) c : within c → within (sc_modify p f c).
Proof.
  intros Hc k. rewrite sc_get_modify. case_decide; [|apply Hc]. rewrite fmap_is_Some. apply Hc.
Qed.

(** A set only grows, and takes in the name of the event. *)
Lemma process_room (nr : Z) (pod : PodInspect) c :
  let p := pi_pod_name (status pod) in
  let c' := process_syscall_event get_name_by_arch nr pod c in
  within c → p ∈ names →
  within c' ∧
  (∀ k s, sc_get k c = Some s → ∃ s', sc_get k c' = Some s' ∧ s ⊆ s') ∧
  ∃ s', sc_get p c' = Some s' ∧ syscall_name_of get_name_by_arch nr ∈ s'.
Proof.
  intros p c' Hc Hp. unfold c', process_syscall_event. fold p.
  destruct (get_with_room p c Hc Hp) as (Hf&Hw&Hk). destruct (get_with p c) as [s0 c0]. simpl in *.
  subst s0. case_decide as Hin.
  - split_and!; [done| |exists (default ∅ (sc_get p c)); by rewrite Hk, decide_True].
    intros k s Hs. rewrite Hk. case_decide; [|by exists s]. subst k. rewrite Hs. by exists s.
  - split_and!; [by apply modify_within| |].
    + intros k s Hs. rewrite sc_get_modify, Hk. case_decide; [|by exists s]. subst k. rewrite Hs. simpl.
      eexists. split; [done|set_solver].
    + rewrite sc_get_modify, Hk, !decide_True by done. simpl. eexists. split; [done|set_solver].
Qed.

Definition in_room st : Prop :=
  (∀ i pod, rc_container_map st !! i = Some pod → pi_pod_name (status pod) ∈ names) ∧
  within (SYSCALL_CACHE st) ∧ within (LAST_SENT_CACHE st) ∧
  ∀ batch pu, posting st = Some (batch, pu) → ∀ p s, (p, s) ∈ pu → p ∈ names.

(** The pods that the watcher finds are among the names. *)
Definition finds (e : recorder_event) : Prop :=
  match e with RecorderPodFound _ pod => pi_pod_name (status pod) ∈ names | _ => True end.

(** *** The first half of a pass, exactly *)

Definition changed c (ps : string * gset string) : Prop := ps.2 ≠ default ∅ (sc_get ps.1 c).

#[export] Instance changed_dec c ps : Decision (changed c ps).
Proof. unfold changed. apply _. Defined.

Lemma NoDup_fst_filter (l : list (string * gset string)) c :
  NoDup (l.*1) → NoDup ((filter (changed c) l).*1).
Proof.
  induction l as [|ps l IH]; [done|]. simpl. intros [Hp Hn]%NoDup_cons. rewrite filter_cons.
  case_decide; [|by apply IH]. simpl. constructor; [|by apply IH].
  intros (ps'&Eps&[_ Hin]%list_elem_of_filter)%list_elem_of_fmap. apply Hp. rewrite Eps.
  by apply list_elem_of_fmap_2.
Qed.

Lemma filter_changed (l : list (string * gset string)) c c' :
  (∀ ps, ps ∈ l → sc_get ps.1 c' = sc_get ps.1 c) → filter (changed c') l = filter (changed c) l.
Proof.
  induction l as [|ps l IH]; intros Hl; [done|]. rewrite !filter_cons, IH.
  - assert (changed c' ps ↔ changed c ps) as Hc by (unfold changed; by rewrite (Hl ps) by by left).
    destruct (decide (changed c' ps)), (decide (changed c ps)); tauto.
  - intros ps' Hin. apply Hl. by right.
Qed.

Lemma collect_room utc_now (l : list (string * gset string)) batch pu c :
  within c → NoDup (l.*1) → (∀ p s, (p, s) ∈ l → p ∈ names) → (batch = [] ↔ pu = []) →
  let r := foldl (λ r entry, collect_one utc_now entry r) (batch, pu, c) l in
  (r.1.1 = [] ↔ r.1.2 = []) ∧ r.1.2 = pu ++ filter (changed c) l ∧ within r.2 ∧
  ∀ k, sc_get k r.2 = if decide (k ∈ l.*1) then Some (default ∅ (sc_get k c)) else sc_get k c.
Proof.
  revert batch pu c. induction l as [|[p s] l IH]; intros batch pu c Hc Hn Hl Hbp.
  { simpl. rewrite app_nil_r. by split_and!. }
  simpl in Hn. apply NoDup_cons in Hn as [Hp Hn].
  destruct (get_with_room p c Hc (Hl p s ltac:(by left))) as (Hf&Hw&Hk). simpl foldl.
  destruct (get_with p c) as [ls c'] eqn:Hg. simpl in Hf, Hw, Hk. subst ls.
  assert (∀ ps, ps ∈ l → sc_get ps.1 c' = sc_get ps.1 c) as Hother.
  { intros [k s'] Hin. simpl. rewrite Hk, decide_False; [done|]. intros ->. apply Hp.
    apply list_elem_of_fmap. by exists (p, s'). }
  assert (filter (changed c') l = filter (changed c) l) as Hfilter.
  { by apply filter_changed. }
  assert (∀ k, (if decide (k ∈ l.*1) then Some (default ∅ (sc_get k c')) else sc_get k c') =
               if decide (k ∈ p :: l.*1) then Some (default ∅ (sc_get k c)) else sc_get k c) as Hlast.
  { intros k. rewrite Hk. destruct (decide (k = p)) as [->|Hne].
    - rewrite (decide_False (P := p ∈ l.*1)) by done. by rewrite decide_True by by left.
    - destruct (decide (k ∈ l.*1)); [by rewrite decide_True by by right|].
      rewrite decide_False; [done|]. by intros [?|?]%elem_of_cons. }
  cbv zeta. rewrite filter_cons.
  destruct (decide (s = default ∅ (sc_get p c))) as [Heq|Hne].
  - rewrite (decide_False (P := changed c (p, s))) by by intros ?.
    destruct (IH batch pu c' Hw Hn) as (H1&H2&H3&H4); [intros ???; eapply Hl; by right|done|].
    rewrite H2, Hfilter. split_and!; [by rewrite H1, H2, Hfilter|done|done|].
    intros k. rewrite H4. apply Hlast.
  - rewrite (decide_True (P := changed c (p, s))) by done.
    destruct (IH (batch ++ [{| sd_pod_name := p; sd_pod_namespace := EmptyString;
       sd_syscalls := elements s; sd_arch := ARCH;
       sd_time_stamp := utc_now p |}]) (pu ++ [(p, s)]) c' Hw Hn) as (H1&H2&H3&H4).
    { intros ???. eapply Hl. by right. }
    { split; by intros [_ [=]]%app_nil. }
    rewrite H2, Hfilter, <- app_assoc. split_and!; [by rewrite H1, H2, Hfilter, <- app_assoc|done|done|].
    intros k. rewrite H4. apply Hlast.
Qed.

Lemma mark_sent_room (pu : list (string * gset string)) c :
  within c → NoDup (pu.*1) → (∀ p s, (p, s) ∈ pu → p ∈ names) →
  within (mark_sent pu c) ∧ (∀ p s, (p, s) ∈ pu → sc_get p (mark_sent pu c) = Some s) ∧
  ∀ k, k ∉ pu.*1 → sc_get k (mark_sent pu c) = sc_get k c.
Proof.
  revert c. induction pu as [|[p s] pu IH]; intros c Hc Hn Hl; simpl.
  { split_and!; [done|by intros ?? ?%not_elem_of_nil|done]. }
  simpl in Hn. apply NoDup_cons in Hn as [Hp Hn].
  destruct (get_with_room p c Hc (Hl p s ltac:(by left))) as (_&Hw&Hk).
  destruct (IH (sc_modify p (λ _, s) (snd (get_with p c)))) as (H1&H2&H3).
  { by apply modify_within. }
  { done. }
  { intros ???. eapply Hl. by right. }
  split_and!; [done| |].
  - intros p' s' [[= -> ->]|Hin]%elem_of_cons; [|by apply H2].
    rewrite H3 by done. by rewrite sc_get_modify, Hk, !decide_True.
  - intros k [Hne Hnin]%not_elem_of_cons. rewrite H3 by done.
    by rewrite sc_get_modify, Hk, !decide_False.
Qed.

Lemma mark_sent_within (pu : list (string * gset string)) c :
  within c → (∀ p s, (p, s) ∈ pu → p ∈ names) → within (mark_sent pu c).
Proof.
  revert c. induction pu as [|[p s] pu IH]; intros c Hc Hl; simpl; [done|]. apply IH.
  - apply modify_within, (get_with_room p c Hc). apply (Hl p s). by left.
  - intros ???. eapply Hl. by right.
Qed.

Lemma collect_start utc_now st :
  in_room st →
  let r := collect utc_now (SYSCALL_CACHE st) (LAST_SENT_CACHE st) in
  (r.1.1 = [] ↔ r.1.2 = []) ∧
  r.1.2 = filter (changed (LAST_SENT_CACHE st)) (sc_iter (SYSCALL_CACHE st)) ∧ within r.2 ∧
  (∀ k, sc_get k r.2 = if decide (k ∈ (sc_iter (SYSCALL_CACHE st)).*1)
                       then Some (default ∅ (sc_get k (LAST_SENT_CACHE st)))
                       else sc_get k (LAST_SENT_CACHE st)) ∧
  ∀ p s, (p, s) ∈ sc_iter (SYSCALL_CACHE st) → p ∈ names.
Proof.
  intros (_&Hs&Hl&_).
  assert (∀ p s, (p, s) ∈ sc_iter (SYSCALL_CACHE st) → p ∈ names) as Hk.
  { intros p s Hin%sc_iter_get. apply Hs. by exists s. }
  destruct (collect_room utc_now (sc_iter (SYSCALL_CACHE st)) [] [] (LAST_SENT_CACHE st) Hl (sc_iter_keys _) Hk)
    as (H1&H2&H3&H4); [done|]. by split_and!.
Qed.

Lemma record_room (e : recorder_event) st : in_room st → finds e → in_room (record e st).
Proof.
  intros Hst He. pose proof Hst as (Hm&Hs&Hl&Hp). destruct e as [event|inode pod|utc_now|ok]; simpl in *.
  - split_and!; simpl; try done. unfold handle_syscall_event.
    destruct (rc_container_map st !! event.1) as [pod|] eqn:Hpod; [|done].
    apply process_room; [done|by eapply Hm].
  - split_and!; simpl; try done. intros i pod'. rewrite lookup_insert. case_decide; [by intros [= <-]|apply Hm].
  - destruct (posting st) as [q|] eqn:Hq; [done|].
    destruct (collect_start utc_now st Hst) as (_&Hpu&Hw&_&Hk).
    destruct (collect _ _ _) as [[batch pu] last]. simpl in *. split_and!; simpl; try done.
    intros b q. destruct batch as [|d batch]; [done|]. intros [= <- <-] p0 s0. rewrite Hpu, list_elem_of_filter.
    intros [_ Hin]. by eapply Hk.
  - destruct (posting st) as [[batch pu]|] eqn:Hq; [|done]. split_and!; simpl; try done.
    destruct ok; [|done]. apply mark_sent_within; [done|]. by apply (Hp batch).
Qed.

Lemma record_keeps (e : recorder_event) st p s :
  in_room st → sc_get p (SYSCALL_CACHE st) = Some s →
  ∃ s', sc_get p (SYSCALL_CACHE (record e st)) = Some s' ∧ s ⊆ s'.
Proof.
  intros (Hm&Hs&_) Hp. destruct e as [event|inode pod|utc_now|ok]; simpl.
  - unfold handle_syscall_event. destruct (rc_container_map st !! event.1) as [pod|] eqn:Hpod; [|by exists s].
    destruct (process_room event.2 pod (SYSCALL_CACHE st) Hs) as (_&Hk&_); [by eapply Hm|by apply Hk].
  - by exists s.
  - destruct (posting st); [by exists s|]. destruct (collect _ _ _) as [[? ?] ?]. by exists s.
  - destruct (posting st) as [[? ?]|]; by exists s.
Qed.

Lemma record_all_room (es : list recorder_event) st :
  in_room st → Forall finds es → in_room (record_all es st).
Proof.
  intros Hst He. revert st Hst. induction He as [|e es He _ IH]; intros st Hst; [done|].
  apply IH. by apply record_room.
Qed.

Lemma record_all_keeps (es : list recorder_event) st p x :
  in_room st → Forall finds es → (∃ s, sc_get p (SYSCALL_CACHE st) = Some s ∧ x ∈ s) →
  ∃ s, sc_get p (SYSCALL_CACHE (record_all es st)) = Some s ∧ x ∈ s.
Proof.
  intros Hst He. revert st Hst. induction He as [|e es He _ IH]; intros st Hst (s&Hs&Hx); [by exists s|].
  apply IH; [by apply record_room|].
  destruct (record_keeps e st p s Hst Hs) as (s'&Hs'&Hsub). exists s'. split; [done|by apply Hsub].
Qed.

Lemma received_recorded (event : Z * Z) (pod : PodInspect) st :
  in_room st → rc_container_map st !! event.1 = Some pod →
  ∃ s, sc_get (pi_pod_name (status pod)) (SYSCALL_CACHE (record (SyscallReceived event) st)) = Some s ∧
       syscall_name_of get_name_by_arch event.2 ∈ s.
Proof.
  intros (Hm&Hs&_) Hpod. simpl. unfold handle_syscall_event. rewrite Hpod.
  apply process_room; [done|by eapply Hm].
Qed.

End Room.

(** ** One pass *)

(** A successful pass leaves nothing to post. *)
Lemma nothing_changed utc_now (names : list string) st :
  Z.of_nat (length names) < SYSCALL_CACHE_CAPACITY → in_room names st →
  (∀ p s, (p, s) ∈ sc_iter (SYSCALL_CACHE st) → default ∅ (sc_get p (LAST_SENT_CACHE st)) = s) →
  (collect utc_now (SYSCALL_CACHE st) (LAST_SENT_CACHE st)).1.1 = [].
Proof.
  intros Hn Hroom Hall. destruct (collect_start names Hn utc_now st Hroom) as (Hbp&Hpu&_).
  apply Hbp. rewrite Hpu.
  destruct (filter _ _) as [|[p s] l] eqn:Hl; [done|]. exfalso.
  assert ((p, s) ∈ filter (changed (LAST_SENT_CACHE st)) (sc_iter (SYSCALL_CACHE st))) as Hin
    by (rewrite Hl; by left).
  apply list_elem_of_filter in Hin as [Hc Hin]. apply Hc. symmetry. by apply Hall.
Qed.

Lemma sent_agrees utc_now (names : list string) st :
  Z.of_nat (length names) < SYSCALL_CACHE_CAPACITY → in_room names st →
  let '(_, pu, last) := collect utc_now (SYSCALL_CACHE st) (LAST_SENT_CACHE st) in
  ∀ p s, (p, s) ∈ sc_iter (SYSCALL_CACHE st) → default ∅ (sc_get p (mark_sent pu last)) = s.
Proof.
  intros Hn Hroom. destruct (collect_start names Hn utc_now st Hroom) as (_&Hpu&Hw&Hlast&Hk).
  destruct (collect _ _ _) as [[batch pu] last]. simpl in *. intros p s Hin.
  pose proof (sc_iter_keys (SYSCALL_CACHE st)) as Hkeys.
  assert (NoDup (pu.*1)) as Hnd.
  { rewrite Hpu. by apply NoDup_fst_filter. }
  destruct (mark_sent_room names Hn pu last Hw Hnd) as (_&Hm&Ho).
  { intros p' s'. rewrite Hpu, list_elem_of_filter. intros [_ ?]. by eapply Hk. }
  destruct (decide (changed (LAST_SENT_CACHE st) (p, s))) as [Hc|Hc].
  - rewrite (Hm p s); [done|]. rewrite Hpu. by apply list_elem_of_filter.
  - rewrite Ho.
    + rewrite Hlast, decide_True by (apply list_elem_of_fmap; by exists (p, s)). simpl.
      unfold changed in Hc. simpl in Hc. by apply dec_stable in Hc.
    + intros ([p' s']&->&Hin')%list_elem_of_fmap. simpl in *.
      rewrite Hpu, list_elem_of_filter in Hin'. destruct Hin' as [Hc' Hin'].
      apply sc_iter_get in Hin, Hin'. rewrite Hin in Hin'. by injection Hin' as <-.
Qed.

Lemma record_PassStarts utc_now st batch pu last :
  posting st = None → collect utc_now (SYSCALL_CACHE st) (LAST_SENT_CACHE st) = (batch, pu, last) →
  record (PassStarts utc_now) st =
  {| rc_container_map := rc_container_map st; SYSCALL_CACHE := SYSCALL_CACHE st;
     LAST_SENT_CACHE := last;
     posting := match batch with [] => None | _ :: _ => Some (batch, pu) end;
     acked_syscalls := acked_syscalls st |}.
Proof. intros Hq Hc. simpl. by rewrite Hq, Hc. Qed.

Lemma recorder_rests utc_now utc_now' (names : list string) st :
  Z.of_nat (length names) < SYSCALL_CACHE_CAPACITY → in_room names st → posting st = None →
  let st' := record_all [PassStarts utc_now; PassEnds true; PassStarts utc_now'] st in
  posting st' = None ∧
  acked_syscalls st' = acked_syscalls (record_all [PassStarts utc_now; PassEnds true] st).
Proof.
  intros Hn Hroom Hq. set (st1 := record_all [PassStarts utc_now; PassEnds true] st).
  assert (in_room names st1) as Hroom1 by (apply record_all_room; [done|done|by repeat constructor]).
  assert (posting st1 = None ∧ SYSCALL_CACHE st1 = SYSCALL_CACHE st ∧
          ∀ p s, (p, s) ∈ sc_iter (SYSCALL_CACHE st) → default ∅ (sc_get p (LAST_SENT_CACHE st1)) = s)
    as (Hq1&Hc1&Hl1).
  { pose proof (sent_agrees utc_now names st Hn Hroom) as Hs.
    destruct (collect_start names Hn utc_now st Hroom) as (Hbp&_).
    change st1 with (record (PassEnds true) (record (PassStarts utc_now) st)).
    destruct (collect _ _ _) as [[batch pu] last] eqn:Hc.
    rewrite (record_PassStarts utc_now st batch pu last Hq Hc). simpl in Hbp.
    destruct batch as [|d batch]; simpl.
    - rewrite (proj1 Hbp eq_refl) in Hs. split; [done|]. split; [done|]. exact Hs.
    - split; [done|]. split; [done|]. exact Hs. }
  rewrite <- Hc1 in Hl1. pose proof (nothing_changed utc_now' names st1 Hn Hroom1 Hl1) as Hb.
  change (record_all [PassStarts utc_now; PassEnds true; PassStarts utc_now'] st) with
    (record (PassStarts utc_now') st1).
  cbv zeta. clearbody st1.
  destruct (collect utc_now' (SYSCALL_CACHE st1) (LAST_SENT_CACHE st1)) as [[batch pu] last] eqn:Hc.
  rewrite (record_PassStarts utc_now' st1 batch pu last Hq1 Hc). simpl in Hb. by subst batch.
Qed.

Definition not_an_end (e : recorder_event) : Prop := match e with PassEnds _ => False | _ => True end.

Lemma posting_stays (es : list recorder_event) st q :
  posting st = Some q → Forall not_an_end es → posting (record_all es st) = Some q.
Proof.
  intros Hq He. revert st Hq. induction He as [|e es He _ IH]; intros st Hq; [done|]. apply IH.
  destruct e; simpl in *; [done|done| |done]. by rewrite Hq.
Qed.

Lemma pass_tells utc_now (P : string → string → Prop) (mid : list recorder_event) st p x :
  recorder_ok P st → posting st = None → Forall not_an_end mid →
  (∃ s, sc_get p (SYSCALL_CACHE st) = Some s ∧ x ∈ s) →
  told (record_all (PassStarts utc_now :: mid ++ [PassEnds true]) st) p x.
Proof.
  intros [Hc Ha Hl _] Hq Hmid (s&Hs&Hx). apply sc_iter_get in Hs.
  destruct (collect_collected utc_now (told st) P (sc_iter (SYSCALL_CACHE st)) ([], [], LAST_SENT_CACHE st))
    as (_&_&Hall).
  { intros p' s' x' Hin%sc_iter_get. by apply Hc. }
  { split; simpl; [|by intros ??? ?%not_elem_of_nil|done]. by intros p' x' (d&?%not_elem_of_nil&_). }
  destruct (Hall p s x Hs Hx) as [Hpost|Ht]; [clear Hall|by apply told_mono_all].
  simpl. rewrite Hq. unfold collect. destruct (foldl _ _ (sc_iter _)) as [[batch pu] last]. simpl in Hpost.
  destruct batch as [|d batch]; [by destruct Hpost as (?&?%not_elem_of_nil&_)|].
  match goal with |- told (record_all _ ?st1) p x => set (st0 := st1) end.
  rewrite record_all_app. pose proof (posting_stays mid st0 _ eq_refl Hmid) as Hst2.
  simpl. rewrite Hst2. exists (d :: batch). split; [|done]. simpl. apply elem_of_app. right.
  by apply list_elem_of_singleton.
Qed.

(** ** Runs *)

(** Some event of the run shows that a pod of that name made that system call. *)
Definition observed cm (es : list recorder_event) p x : Prop :=
  ∃ pre e post, es = pre ++ e :: post ∧ shows (record_all pre (new_recorder cm)) e p x.

Lemma run_recorder_ok cm (es : list recorder_event) :
  recorder_ok (observed cm es) (record_all es (new_recorder cm)).
Proof.
  induction es as [|e es IH] using rev_ind; [apply new_recorder_ok|].
  rewrite record_all_app. simpl. apply record_ok.
  - eapply recorder_ok_mono; [|exact IH]. intros p x (pre&e'&post&->&Hsh).
    exists pre, e', (post ++ [e]). split; [|done]. by rewrite <- app_assoc.
  - intros p x Hsh. by exists es, e, [].
Qed.

Lemma new_recorder_room (names : list string) cm :
  (∀ i pod, cm !! i = Some pod → pi_pod_name (status pod) ∈ names) →
  in_room names (new_recorder cm).
Proof.
  intros Hcm. split_and!; simpl; [done|..|done]; intros k [s Hs]; by rewrite sc_get_new in Hs.
Qed.

End Helpers.
