(* ===== verification/SyscallRecorderThms.v ===== *)
(** * Theorems about the system-call tasks of syscall.rs

    With the theorems at concrete runs, on caches that are finite maps. *)

From S2P Require Import Prelude RustStd Traffic SyscallRecorder SyscallRecorderFacts.

Section Theorems.
Context `{SyscallCacheLaws}.
Variable get_name_by_arch : Z → option string.
Variable ARCH : string.
Implicit Types (st : recorder).

#[local] Notation record_all := (record_all get_name_by_arch ARCH).

(** C25: the broker is told the truth.  Every name of a system call that the broker has acknowledged for
    a pod is the name of one that was received from a pod of that name, whatever the caches have
    forgotten and whichever posts have failed. *)
Theorem broker_is_told_the_truth cm (es : list recorder_event) batch d x :
  batch ∈ acked_syscalls (record_all es (new_recorder cm)) → d ∈ batch → x ∈ sd_syscalls d →
  ∃ pre event post pod,
    es = pre ++ SyscallReceived event :: post ∧
    rc_container_map (record_all pre (new_recorder cm)) !! event.1 = Some pod ∧
    pi_pod_name (status pod) = sd_pod_name d ∧ syscall_name_of get_name_by_arch event.2 = x.
Proof.
  intros Hb Hd Hx.
  destruct (ro_acked _ _ (run_recorder_ok get_name_by_arch ARCH cm es)
    (sd_pod_name d) x) as (pre&e&post&->&Hsh); [exists batch; split; [done|by exists d]|].
  destruct e as [event| | |]; try done. destruct Hsh as (pod&?&?&?). by exists pre, event, post, pod.
Qed.

(** C26: a system call reaches the broker.  While the caches have room for the names of the pods, the
    name of a system call received from a known pod is acknowledged once a pass that starts after it
    ends with success, whatever failed before and whatever is received in between. *)
Theorem recorded_syscall_reaches_broker (utc_now : string → Z) (names : list string) cm (event : Z * Z) (pod : PodInspect)
    (pre mid inter post : list recorder_event) :
  let st1 := record_all pre (new_recorder cm) in
  let st2 := record_all (pre ++ SyscallReceived event :: mid) (new_recorder cm) in
  let es := pre ++ SyscallReceived event :: mid ++ PassStarts utc_now :: inter ++ PassEnds true :: post in
  Z.of_nat (length names) < SYSCALL_CACHE_CAPACITY →
  (∀ i pod, cm !! i = Some pod → pi_pod_name (status pod) ∈ names) → Forall (finds names) es →
  rc_container_map st1 !! event.1 = Some pod →
  posting st2 = None → Forall not_an_end inter →
  told (record_all es (new_recorder cm)) (pi_pod_name (status pod))
    (syscall_name_of get_name_by_arch event.2).
Proof.
  intros st1 st2 es Hn Hcm Hf Hpod Hq Hi. unfold es in Hf. apply Forall_app in Hf as [Hpre Hf].
  apply Forall_cons in Hf as [He Hf]. apply Forall_app in Hf as [Hmid _].
  pose proof (new_recorder_room names cm Hcm) as H0'.
  pose proof (record_all_room get_name_by_arch ARCH names Hn pre _ H0' Hpre) as H1. fold st1 in H1.
  pose proof (received_recorded get_name_by_arch ARCH names Hn event pod st1 H1 Hpod) as Hrec.
  pose proof (record_room get_name_by_arch ARCH names Hn _ st1 H1 He) as H2.
  apply (record_all_keeps get_name_by_arch ARCH names Hn mid _ _ _ H2 Hmid) in Hrec.
  assert (st2 = record_all mid (record get_name_by_arch ARCH (SyscallReceived event) st1)) as Hst2.
  { unfold st2. by rewrite record_all_app. }
  rewrite <- Hst2 in Hrec.
  assert (es = (pre ++ SyscallReceived event :: mid) ++ (PassStarts utc_now :: inter ++ [PassEnds true]) ++ post)
    as -> by (unfold es; rewrite <- app_assoc; simpl; by rewrite <- app_assoc).
  rewrite record_all_app. fold st2. rewrite record_all_app. apply told_mono_all.
  eapply (pass_tells _ _ utc_now); [apply run_recorder_ok|done|done|exact Hrec].
Qed.

(** the tasks come to rest.  After a pass that ends with success and during which no system call is
    received, the next pass has nothing to post. *)
Theorem recorder_comes_to_rest (utc_now utc_now' : string → Z) (names : list string) cm (es : list recorder_event) :
  let st := record_all es (new_recorder cm) in
  Z.of_nat (length names) < SYSCALL_CACHE_CAPACITY →
  (∀ i pod, cm !! i = Some pod → pi_pod_name (status pod) ∈ names) → Forall (finds names) es →
  posting st = None →
  let st' := record_all [PassStarts utc_now; PassEnds true; PassStarts utc_now'] st in
  posting st' = None ∧
  acked_syscalls st' = acked_syscalls (record_all [PassStarts utc_now; PassEnds true] st).
Proof.
  intros st Hn Hcm Hf Hq.
  pose proof (record_all_room get_name_by_arch ARCH names Hn es _ (new_recorder_room names cm Hcm) Hf)
    as Hroom. fold st in Hroom. clearbody st.
  apply (recorder_rests get_name_by_arch ARCH utc_now utc_now' names st Hn Hroom Hq).
Qed.

End Theorems.

(** ** The theorems at concrete runs *)

#[export] Instance map_scache : SyscallCache := {
  scache := gmap string (gset string);
  sc_new := ∅;
  sc_get k c := c !! k;
  sc_insert k v c := <[k := v]> c;
  sc_modify k f c := alter f k c;
  sc_iter c := map_to_list c
}.

#[export] Instance map_scache_laws : SyscallCacheLaws.
Proof.
  split; simpl.
  - done.
  - intros k k' v v' c. rewrite lookup_insert. case_decide as Hd; [intros [= <-]; by left|by right].
  - intros k v c keys _ _. split; [by rewrite lookup_insert_eq|]. intros k' Hk. by rewrite lookup_insert_ne.
  - intros k k' f c. destruct (decide (k' = k)) as [->|Hne]; [by rewrite lookup_alter_eq|].
    by rewrite lookup_alter_ne.
  - intros k v c. apply elem_of_map_to_list.
  - intros c. apply NoDup_fst_map_to_list.
Qed.

(** Two numbers have a name; the machine is an x86-64 one. *)
Definition wit_name (nr : Z) : option string :=
  if nr =? 59 then Some "execve"%string else if nr =? 0 then Some "read"%string else None.

Definition wit_clock : string → Z := λ _, 20.

Definition wit_pod : PodInspect :=
  MkPodInspect None (MkPodInfo "web" (Some "prod"%string) "10.0.0.1")
    (MkInfo (MkConfig (MkMetadata EmptyString EmptyString EmptyString))) None None None (Some 7).
Definition wit_pods : gmap Z PodInspect := {[7 := wit_pod]}.

#[local] Notation run es := (record_all wit_name "x86_64" es (new_recorder wit_pods)).

(** The first post fails; the second carries both names; a number without a name is kept as text. *)
Definition wit_failed : list recorder_event :=
  [SyscallReceived (7, 59); PassStarts wit_clock; PassEnds false; SyscallReceived (7, 2 ^ 32 - 1);
   SyscallReceived (8, 0)].
Definition wit_run : list recorder_event :=
  wit_failed ++ [PassStarts wit_clock; SyscallReceived (7, 0); PassEnds true].

Lemma broker_is_told_the_truth_witness :
  ∃ pre event post pod, wit_run = pre ++ SyscallReceived event :: post ∧
    rc_container_map (run pre) !! event.1 = Some pod ∧
    pi_pod_name (status pod) = "web"%string ∧ syscall_name_of wit_name event.2 = "4294967295"%string.
Proof.
  apply (broker_is_told_the_truth wit_name "x86_64" wit_pods wit_run
    [MkSyscallData "web" EmptyString ["execve"; "4294967295"]%string "x86_64" 20]
    (MkSyscallData "web" EmptyString ["execve"; "4294967295"]%string "x86_64" 20)).
  - apply (bool_decide_eq_true_1 (_ ∈ _)). by vm_compute.
  - by left.
  - right. by left.
Defined.

Lemma recorded_syscall_reaches_broker_witness : told (run wit_run) "web" "execve".
Proof.
  apply (recorded_syscall_reaches_broker wit_name "x86_64" wit_clock ["web"%string] wit_pods (7, 59) wit_pod []
    (tail wit_failed) [SyscallReceived (7, 0)] []).
  - done.
  - intros i pod. unfold wit_pods. rewrite lookup_singleton. case_decide; [|done]. intros [= <-]. by left.
  - by repeat constructor.
  - done.
  - by vm_compute.
  - by repeat constructor.
Defined.

Lemma recorder_comes_to_rest_witness :
  posting (record_all wit_name "x86_64" [PassStarts wit_clock; PassEnds true; PassStarts wit_clock] (run wit_run)) = None.
Proof.
  apply (recorder_comes_to_rest wit_name "x86_64" wit_clock wit_clock ["web"%string] wit_pods wit_run).
  - done.
  - intros i pod. unfold wit_pods. rewrite lookup_singleton. case_decide; [|done]. intros [= <-]. by left.
  - by repeat constructor.
  - by vm_compute.
Defined.
