(* ===== verification/Broker.v ===== *)
(** * broker/src/add.rs: what the broker stores

    The handlers of [/pod/traffic/batch] and [/pod/syscalls] on the tables [pod_traffic] and
    [pod_syscalls]; the names of the columns are those of types.rs.  A handler returns [None] when it
    answers with an error, and the tables are then as before. *)

From S2P Require Import Prelude RustStd.

(** ** types.rs *)

Record PodTraffic : Type := MkPodTraffic {
  uuid : string;
  pod_name : option string;
  pod_namespace : option string;
  pod_ip : option string;
  pod_port : option string;
  ip_protocol : option string;
  traffic_type : option string;
  traffic_in_out_ip : option string;
  traffic_in_out_port : option string;
  decision : option string;
  time_stamp : Z
}.

Record PodSyscalls : Type := MkPodSyscalls {
  ps_pod_name : string;
  ps_pod_namespace : string;
  ps_syscalls : string;
  ps_arch : string;
  ps_time_stamp : Z
}.

Record PodInputSyscalls : Type := MkPodInputSyscalls {
  pin_pod_name : string;
  pin_pod_namespace : string;
  pin_syscalls : list string;
  pin_arch : string;
  pin_time_stamp : Z
}.

(** ** /pod/traffic/batch *)

(** [pod_traffic], in the order of insertion; [uuid] is its primary key. *)
Abbreviation traffic_table := (list PodTraffic).

(** [.filter(column.eq(value))]: nothing equals NULL, not even NULL. *)
Definition sql_eq (column value : option string) : bool :=
  match column, value with
  | Some a, Some b => bool_decide (a = b)
  | _, _ => false
  end.

Definition get_row (self : PodTraffic) (pod_traffic : traffic_table) : option PodTraffic :=
  if bool_decide (ip_protocol self = Some "UDP"%string) then
    let out := List.find (λ row,
      sql_eq (pod_ip row) (pod_ip self) &&
      sql_eq (traffic_type row) (traffic_type self) &&
      sql_eq (traffic_in_out_ip row) (traffic_in_out_ip self) &&
      sql_eq (traffic_in_out_port row) (traffic_in_out_port self) &&
      sql_eq (decision row) (decision self)) pod_traffic in
    match out with
    | None =>
        List.find (λ row,
          sql_eq (pod_ip row) (pod_ip self) &&
          sql_eq (pod_port row) (pod_port self) &&
          sql_eq (traffic_type row) (traffic_type self) &&
          sql_eq (traffic_in_out_ip row) (traffic_in_out_ip self) &&
          sql_eq (decision row) (decision self)) pod_traffic
    | Some _ => out
    end
  else
    List.find (λ row,
      sql_eq (pod_ip row) (pod_ip self) &&
      sql_eq (pod_port row) (pod_port self) &&
      sql_eq (traffic_type row) (traffic_type self) &&
      sql_eq (traffic_in_out_ip row) (traffic_in_out_ip self) &&
      sql_eq (traffic_in_out_port row) (traffic_in_out_port self) &&
      sql_eq (decision row) (decision self)) pod_traffic.

Definition TrafficContentKey : Type :=
  option string * option string * option string * option string * option string * option string *
  option string.

Definition traffic_content_key (e : PodTraffic) : TrafficContentKey :=
  (pod_ip e, pod_port e, ip_protocol e, traffic_type e, traffic_in_out_ip e, traffic_in_out_port e,
   decision e).

(** The loop over the batch; [seen_in_batch] holds the keys met so far. *)
Fixpoint events_to_insert (seen_in_batch : list TrafficContentKey) (batch : list PodTraffic)
    (pod_traffic : traffic_table) : list PodTraffic :=
  match batch with
  | [] => []
  | event :: batch =>
      if decide (traffic_content_key event ∈ seen_in_batch)
      then events_to_insert seen_in_batch batch pod_traffic
      else
        let rest := events_to_insert (traffic_content_key event :: seen_in_batch) batch pod_traffic in
        match get_row event pod_traffic with
        | None => event :: rest
        | Some _ => rest
        end
  end.

(** One statement: it fails as a whole when it would repeat a primary key. *)
Definition insert_into_pod_traffic (rows : list PodTraffic) (pod_traffic : traffic_table) :
    option traffic_table :=
  if decide (NoDup (uuid <$> pod_traffic ++ rows)) then Some (pod_traffic ++ rows) else None.

(** The rows inserted, and the table. *)
Definition create_pod_traffic_batch (batch : list PodTraffic) (pod_traffic : traffic_table) :
    option (list PodTraffic * traffic_table) :=
  match batch with
  | [] => Some ([], pod_traffic)
  | _ :: _ =>
      let events := events_to_insert [] batch pod_traffic in
      match events with
      | [] => Some (events, pod_traffic)
      | _ :: _ =>
          pod_traffic ← insert_into_pod_traffic events pod_traffic;
          Some (events, pod_traffic)
      end
  end.

(** ** /pod/syscalls *)

(** [pod_syscalls]; [pod_name] is its primary key. *)
Abbreviation syscalls_table := (gmap string PodSyscalls).

Definition get_syscalls_row (self : PodInputSyscalls) (pod_syscalls : syscalls_table) :
    option PodSyscalls :=
  match pod_syscalls !! pin_pod_name self with
  | Some row =>
      if bool_decide (ps_pod_namespace row = pin_pod_namespace self ∧ ps_arch row = pin_arch self)
      then Some row
      else None
  | None => None
  end.

(** An entry of the batch. *)
Definition store_pod_syscalls (pod_syscall : PodInputSyscalls) (pod_syscalls : syscalls_table) :
    option syscalls_table :=
  if bool_decide (trim (pin_pod_name pod_syscall) = EmptyString) then Some pod_syscalls else
  let existing_row := get_syscalls_row pod_syscall pod_syscalls in
  let new_syscall_number := String.concat "," (pin_syscalls pod_syscall) in
  match existing_row with
  | Some row =>
      Some (<[ps_pod_name row := {|
        ps_pod_name := ps_pod_name row; ps_pod_namespace := ps_pod_namespace row;
        ps_syscalls := new_syscall_number; ps_arch := ps_arch row;
        ps_time_stamp := ps_time_stamp row |}]> pod_syscalls)
  | None =>
      (* the primary key *)
      match pod_syscalls !! pin_pod_name pod_syscall with
      | Some _ => None
      | None =>
          Some (<[pin_pod_name pod_syscall := {|
            ps_pod_name := pin_pod_name pod_syscall;
            ps_pod_namespace := pin_pod_namespace pod_syscall;
            ps_syscalls := new_syscall_number; ps_arch := pin_arch pod_syscall;
            ps_time_stamp := pin_time_stamp pod_syscall |}]> pod_syscalls)
      end
  end.

(** The batch is one transaction. *)
Fixpoint create_pod_syscalls (w : list PodInputSyscalls) (pod_syscalls : syscalls_table) :
    option syscalls_table :=
  match w with
  | [] => Some pod_syscalls
  | pod_syscall :: w =>
      pod_syscalls ← store_pod_syscalls pod_syscall pod_syscalls;
      create_pod_syscalls w pod_syscalls
  end.
