(* ===== verification/BrokerFacts.v ===== *)
(** * The traffic table: what a handler inserts

    [get_row] as a search for one row, and what [create_pod_traffic_batch] does with each event. *)

From S2P Require Import Prelude RustStd Broker.

(** ** The search *)

(** The row that [get_row] takes for the one of the event. *)
Definition found_by (e row : PodTraffic) : bool :=
  sql_eq (pod_ip row) (pod_ip e) && sql_eq (traffic_type row) (traffic_type e) &&
  sql_eq (traffic_in_out_ip row) (traffic_in_out_ip e) && sql_eq (decision row) (decision e) &&
  (if bool_decide (ip_protocol e = Some "UDP"%string)
   then sql_eq (traffic_in_out_port row) (traffic_in_out_port e) || sql_eq (pod_port row) (pod_port e)
   else sql_eq (traffic_in_out_port row) (traffic_in_out_port e) && sql_eq (pod_port row) (pod_port e)).

(** The event is in the table, as far as the broker can tell. *)
Definition stored (e : PodTraffic) (tbl : traffic_table) : Prop :=
  ∃ row, row ∈ tbl ∧ found_by e row = true.

(** No column of the search is NULL. *)
Definition complete (e : PodTraffic) : Prop :=
  is_Some (pod_ip e) ∧ is_Some (pod_port e) ∧ is_Some (traffic_type e) ∧
  is_Some (traffic_in_out_ip e) ∧ is_Some (traffic_in_out_port e) ∧ is_Some (decision e).

Lemma sql_eq_true (column value : option string) :
  sql_eq column value = true ↔ column = value ∧ is_Some value.
Proof.
  unfold sql_eq. destruct column as [a|], value as [b|]; rewrite ?bool_decide_eq_true; split;
    try naive_solver; by intros [? [? ?]].
Qed.

Lemma find_is_Some {A : Type} (f : A → bool) (l : list A) :
  is_Some (List.find f l) ↔ ∃ x, x ∈ l ∧ f x = true.
Proof.
  split.
  - intros [x Hx]. apply List.find_some in Hx as [Hin Hf]. exists x. by rewrite list_elem_of_In.
  - intros (x&Hin&Hf). destruct (List.find f l) eqn:Hn; [done|].
    apply list_elem_of_In in Hin. pose proof (List.find_none _ _ Hn _ Hin). congruence.
Qed.

Lemma get_row_stored (e : PodTraffic) (tbl : traffic_table) : is_Some (get_row e tbl) ↔ stored e tbl.
Proof.
  unfold get_row, stored, found_by. case_bool_decide as Hudp.
  - match goal with |- is_Some (match List.find ?f1 _ with _ => _ end) ↔ _ =>
      pose proof (find_is_Some f1 tbl) as H1; destruct (List.find f1 tbl) eqn:Hf1 end.
    + split; [|done]. intros _. destruct (proj1 H1 ltac:(done)) as (row&Hin&Hrow). exists row.
      split; [done|]. rewrite !andb_true_iff in Hrow. rewrite !andb_true_iff, orb_true_iff. tauto.
    + rewrite find_is_Some. split; intros (row&Hin&Hrow); exists row; (split; [done|]);
        rewrite ?andb_true_iff, ?orb_true_iff in *; [tauto|].
      destruct Hrow as (Hrow&[Hport|Hport]); [|tauto]. exfalso.
      destruct (proj2 H1) as [? [=]]. exists row. split; [done|]. rewrite !andb_true_iff. tauto.
  - rewrite find_is_Some. split; intros (row&Hin&Hrow); exists row; (split; [done|]);
      rewrite ?andb_true_iff in *; tauto.
Qed.

Lemma get_row_None (e : PodTraffic) (tbl : traffic_table) : get_row e tbl = None ↔ ¬ stored e tbl.
Proof. rewrite <- get_row_stored, <- eq_None_not_Some. done. Qed.

Lemma found_by_key (e e' row : PodTraffic) :
  traffic_content_key e = traffic_content_key e' → found_by e row = found_by e' row.
Proof. unfold traffic_content_key, found_by. by intros [= -> -> -> -> -> -> ->]. Qed.

Lemma stored_key (e e' : PodTraffic) (tbl : traffic_table) :
  traffic_content_key e = traffic_content_key e' → stored e tbl → stored e' tbl.
Proof. intros Hk (row&Hin&Hrow). exists row. by rewrite <- (found_by_key e e'). Qed.

Lemma stored_grows (e : PodTraffic) (tbl rows : traffic_table) : stored e tbl → stored e (tbl ++ rows).
Proof. intros (row&Hin&Hrow). exists row. rewrite elem_of_app. auto. Qed.

Lemma complete_key (e e' : PodTraffic) :
  traffic_content_key e = traffic_content_key e' → complete e → complete e'.
Proof. unfold traffic_content_key, complete. by intros [= -> -> _ -> -> -> ->]. Qed.

Lemma complete_stored (e row : PodTraffic) (tbl : traffic_table) :
  complete e → row ∈ tbl → traffic_content_key row = traffic_content_key e → stored e tbl.
Proof.
  intros Hc Hin Hk. exists row. split; [done|]. rewrite (found_by_key e row) by done.
  apply (complete_key e row) in Hc; [|done]. unfold found_by, complete in *.
  destruct Hc as (H1&H2&H3&H4&H5&H6). rewrite !andb_true_iff. rewrite !(proj2 (sql_eq_true _ _)) by done.
  by case_bool_decide.
Qed.

(** ** The loop over the batch *)

Lemma events_to_insert_sound (seen : list TrafficContentKey) (batch : list PodTraffic)
    (tbl : traffic_table) (e : PodTraffic) :
  e ∈ events_to_insert seen batch tbl →
  e ∈ batch ∧ traffic_content_key e ∉ seen ∧ ¬ stored e tbl.
Proof.
  revert seen. induction batch as [|e0 batch IH]; intros seen; simpl; [by intros ?%not_elem_of_nil|].
  case_decide as Hd.
  - intros (?&?&?)%IH. split_and!; [by right|done|done].
  - destruct (get_row e0 tbl) eqn:Hr.
    + intros (?&Hs&?)%IH. apply not_elem_of_cons in Hs as [_ ?]. split_and!; [by right|done|done].
    + apply get_row_None in Hr. intros [->|(?&Hs&?)%IH]%elem_of_cons.
      * split_and!; [by left|done|done].
      * apply not_elem_of_cons in Hs as [_ ?]. split_and!; [by right|done|done].
Qed.

Lemma events_to_insert_covers (seen : list TrafficContentKey) (batch : list PodTraffic)
    (tbl : traffic_table) (e : PodTraffic) :
  e ∈ batch →
  traffic_content_key e ∈ seen ∨ stored e tbl ∨
  ∃ e', e' ∈ events_to_insert seen batch tbl ∧ traffic_content_key e' = traffic_content_key e.
Proof.
  revert seen. induction batch as [|e0 batch IH]; intros seen; simpl; [by intros ?%not_elem_of_nil|].
  intros [<-|Hin]%elem_of_cons.
  - case_decide; [by left|]. destruct (get_row e tbl) eqn:Hr.
    + right. left. apply get_row_stored. by rewrite Hr.
    + right. right. exists e. split; [by left|done].
  - case_decide as Hd; [by apply IH|].
    destruct (IH (traffic_content_key e0 :: seen) Hin) as [[Hk|?]%elem_of_cons|[?|(e'&He'&?)]].
    + destruct (get_row e0 tbl) eqn:Hr.
      * right. left. apply (stored_key e0); [done|]. apply get_row_stored. by rewrite Hr.
      * right. right. exists e0. split; [by left|done].
    + by left.
    + right. by left.
    + right. right. exists e'. split; [|done]. destruct (get_row e0 tbl); [done|by right].
Qed.

Lemma events_to_insert_nodup (seen : list TrafficContentKey) (batch : list PodTraffic)
    (tbl : traffic_table) : NoDup (traffic_content_key <$> events_to_insert seen batch tbl).
Proof.
  revert seen. induction batch as [|e0 batch IH]; intros seen; simpl; [constructor|].
  case_decide; [apply IH|]. destruct (get_row e0 tbl); [apply IH|]. simpl. constructor; [|apply IH].
  intros (e'&He'&Hin)%list_elem_of_fmap. apply events_to_insert_sound in Hin as (_&Hs&_).
  apply Hs. rewrite <- He'. by left.
Qed.

(** ** The handler *)

Lemma create_some (batch new : list PodTraffic) (tbl tbl' : traffic_table) :
  create_pod_traffic_batch batch tbl = Some (new, tbl') →
  new = events_to_insert [] batch tbl ∧ tbl' = tbl ++ new.
Proof.
  unfold create_pod_traffic_batch, insert_into_pod_traffic. destruct batch as [|e batch].
  { intros [= <- <-]. by rewrite app_nil_r. }
  destruct (events_to_insert [] (e :: batch) tbl) as [|e0 events].
  { intros [= <- <-]. by rewrite app_nil_r. }
  case_decide; simpl; [|done]. by intros [= <- <-].
Qed.

Lemma create_none (batch : list PodTraffic) (tbl : traffic_table) :
  NoDup (uuid <$> tbl ++ events_to_insert [] batch tbl) →
  create_pod_traffic_batch batch tbl =
    Some (events_to_insert [] batch tbl, tbl ++ events_to_insert [] batch tbl).
Proof.
  intros Hn. unfold create_pod_traffic_batch, insert_into_pod_traffic.
  destruct batch as [|e batch]; [simpl; by rewrite app_nil_r|].
  destruct (events_to_insert [] (e :: batch) tbl) as [|e0 events]; [by rewrite app_nil_r|].
  by rewrite decide_True.
Qed.

(** An accepted batch is stored. *)
Lemma create_stores (batch new : list PodTraffic) (tbl tbl' : traffic_table) (e : PodTraffic) :
  create_pod_traffic_batch batch tbl = Some (new, tbl') → complete e → e ∈ batch → stored e tbl'.
Proof.
  intros [-> ->]%create_some Hc Hin.
  destruct (events_to_insert_covers [] batch tbl e Hin) as [?%not_elem_of_nil|[?|(e'&He'&Hk)]].
  - done.
  - by apply stored_grows.
  - apply (complete_stored e e'); [done| |done]. apply elem_of_app. by right.
Qed.

Lemma create_grows (batch new : list PodTraffic) (tbl tbl' : traffic_table) (e : PodTraffic) :
  create_pod_traffic_batch batch tbl = Some (new, tbl') → stored e tbl → stored e tbl'.
Proof. intros [-> ->]%create_some. apply stored_grows. Qed.

(** No two complete rows agree on the columns of the content key. *)
Definition rows_distinct (tbl : traffic_table) : Prop :=
  Forall complete tbl ∧ NoDup (traffic_content_key <$> tbl).

Lemma create_distinct (batch new : list PodTraffic) (tbl tbl' : traffic_table) :
  create_pod_traffic_batch batch tbl = Some (new, tbl') → Forall complete batch →
  rows_distinct tbl → rows_distinct tbl'.
Proof.
  intros [-> ->]%create_some Hb [Hc Hn]. rewrite Forall_forall in Hb. split.
  - apply Forall_app. split; [done|]. apply Forall_forall. intros e [He _]%events_to_insert_sound. by apply Hb.
  - rewrite fmap_app. apply NoDup_app. split_and!; [done| |apply events_to_insert_nodup].
    intros k (row&->&Hrow)%list_elem_of_fmap (e&Hk&He)%list_elem_of_fmap.
    apply events_to_insert_sound in He as (He&_&Hs). apply Hs. apply (complete_stored e row); [by apply Hb|done|done].
Qed.

(** An event that the broker takes for another is never inserted. *)
Lemma create_shadow (batch new : list PodTraffic) (tbl tbl' : traffic_table) (e : PodTraffic) :
  create_pod_traffic_batch batch tbl = Some (new, tbl') → stored e tbl →
  traffic_content_key e ∉ traffic_content_key <$> tbl →
  traffic_content_key e ∉ traffic_content_key <$> tbl'.
Proof.
  intros [-> ->]%create_some Hs Hk. rewrite fmap_app, elem_of_app. intros [?|Hin]; [done|].
  apply list_elem_of_fmap in Hin as (e'&He'&Hin). apply events_to_insert_sound in Hin as (_&_&Hn).
  apply Hn. by apply (stored_key e).
Qed.

Lemma events_to_insert_sublist (seen : list TrafficContentKey) (batch : list PodTraffic)
    (tbl : traffic_table) : events_to_insert seen batch tbl `sublist_of` batch.
Proof.
  revert seen. induction batch as [|e0 batch IH]; intros seen; simpl; [done|].
  case_decide; [by apply sublist_cons|]. destruct (get_row e0 tbl); [by apply sublist_cons|].
  by apply sublist_skip.
Qed.

Lemma create_uuids (batch new : list PodTraffic) (tbl tbl' : traffic_table) :
  create_pod_traffic_batch batch tbl = Some (new, tbl') → NoDup (uuid <$> tbl) → NoDup (uuid <$> tbl').
Proof.
  unfold create_pod_traffic_batch, insert_into_pod_traffic. destruct batch as [|e batch].
  { by intros [= _ <-]. }
  destruct (events_to_insert [] (e :: batch) tbl) as [|e0 events]; [by intros [= _ <-]|].
  case_decide; simpl; [|done]. by intros [= _ <-].
Qed.

(** What [stored] means column by column. *)
Lemma stored_columns (e : PodTraffic) (tbl : traffic_table) :
  stored e tbl →
  ∃ row, row ∈ tbl ∧ pod_ip row = pod_ip e ∧ traffic_type row = traffic_type e ∧
    traffic_in_out_ip row = traffic_in_out_ip e ∧ decision row = decision e ∧
    (traffic_in_out_port row = traffic_in_out_port e ∧ pod_port row = pod_port e ∨
     ip_protocol e = Some "UDP"%string ∧
     (traffic_in_out_port row = traffic_in_out_port e ∨ pod_port row = pod_port e)).
Proof.
  intros (row&Hin&Hf). exists row. split; [done|]. unfold found_by in Hf.
  rewrite !andb_true_iff, !sql_eq_true in Hf.
  destruct Hf as ((((H1&H2)&H3)&H4)&H5). split_and!; [tauto..|].
  case_bool_decide; rewrite ?orb_true_iff, ?andb_true_iff, !sql_eq_true in H5; tauto.
Qed.

Lemma found_by_columns (e row : PodTraffic) :
  pod_ip row = pod_ip e → traffic_type row = traffic_type e →
  traffic_in_out_ip row = traffic_in_out_ip e → decision row = decision e → complete e →
  traffic_in_out_port row = traffic_in_out_port e ∧ pod_port row = pod_port e ∨
  ip_protocol e = Some "UDP"%string ∧
  (traffic_in_out_port row = traffic_in_out_port e ∨ pod_port row = pod_port e) →
  found_by e row = true.
Proof.
  intros H1 H2 H3 H4 (?&?&?&?&?&?) Hp. unfold found_by.
  rewrite !andb_true_iff, !sql_eq_true. split_and!; try done.
  case_bool_decide; rewrite ?orb_true_iff, ?andb_true_iff, !sql_eq_true; tauto.
Qed.
