(* ===== verification/Delivery.v ===== *)
(** * The receiving tasks and the broker

    The tasks of network.rs with the broker that answers their posts: a post may not arrive, and the
    answer of one that arrives may be lost.  The controllers of other nodes post to the same table. *)

From S2P Require Import Prelude RustStd Traffic.
From S2P Require Broker NetworkProbe NetpolicyDrop.

(** The entry of the controller as the broker reads it: [json!(batch)] and [web::Json]. *)
Definition wire (t : PodTraffic) : Broker.PodTraffic :=
  {| Broker.uuid := pt_uuid t; Broker.pod_name := Some (pt_pod_name t);
     Broker.pod_namespace := pt_pod_namespace t; Broker.pod_ip := Some (pt_pod_ip t);
     Broker.pod_port := pt_pod_port t; Broker.ip_protocol := pt_ip_protocol t;
     Broker.traffic_type := pt_traffic_type t; Broker.traffic_in_out_ip := pt_traffic_in_out_ip t;
     Broker.traffic_in_out_port := pt_traffic_in_out_port t; Broker.decision := pt_decision t;
     Broker.time_stamp := pt_time_stamp t |}.

(** What becomes of a post. *)
Inductive answer : Type :=
| Unreached
| Reached (answered : bool).

(** [api_post_call(json!(batch), "pod/traffic/batch")]: whether it returns [Ok], and the table. *)
Definition api_post_call (posted : list PodTraffic) (a : answer) (pod_traffic : Broker.traffic_table) :
    bool * Broker.traffic_table :=
  match a with
  | Unreached => (false, pod_traffic)
  | Reached answered =>
      match Broker.create_pod_traffic_batch (wire <$> posted) pod_traffic with
      | Some (_, pod_traffic) => (answered, pod_traffic)
      | None => (false, pod_traffic)
      end
  end.

Definition set_post_ok {E : Type} (ok : bool) (w : loop_wakeup E) : loop_wakeup E :=
  {| wake := wake w; now := now w; post_ok := ok; flushed_at := flushed_at w |}.

Section Delivery.
Context `{TrafficCache}.

Record delivery : Type := DeliveryState {
  tasks : consumers;
  pod_traffic : Broker.traffic_table
}.

(** The batch that a turn posts is what it would count as acknowledged. *)
Definition network_posted (w : loop_wakeup NetworkProbe.network_event) (st : consumers) :
    list PodTraffic :=
  drop (length (acked (network_handler st)))
    (acked (network_handler (consume (NetworkTurn (set_post_ok true w)) st))).

Definition drop_posted (w : loop_wakeup NetpolicyDrop.policy_drop) (st : consumers) : list PodTraffic :=
  drop (length (acked (drop_handler st)))
    (acked (drop_handler (consume (DropTurn (set_post_ok true w)) st))).

(** [post_ok] of the turns below is ignored: the broker decides. *)
Inductive delivery_event : Type :=
| NetworkPost (w : loop_wakeup NetworkProbe.network_event) (a : answer)
| DropPost (w : loop_wakeup NetpolicyDrop.policy_drop) (a : answer)
| NewPod (inode_num : Z) (pod_inspect : PodInspect)
| OtherPost (batch : list Broker.PodTraffic).

Definition deliver_event (e : delivery_event) (y : delivery) : delivery :=
  match e with
  | NetworkPost w a =>
      let '(ok, tbl) := api_post_call (network_posted w (tasks y)) a (pod_traffic y) in
      {| tasks := consume (NetworkTurn (set_post_ok ok w)) (tasks y); pod_traffic := tbl |}
  | DropPost w a =>
      let '(ok, tbl) := api_post_call (drop_posted w (tasks y)) a (pod_traffic y) in
      {| tasks := consume (DropTurn (set_post_ok ok w)) (tasks y); pod_traffic := tbl |}
  | NewPod inode_num pod_inspect =>
      {| tasks := consume (PodFound inode_num pod_inspect) (tasks y); pod_traffic := pod_traffic y |}
  | OtherPost batch =>
      match Broker.create_pod_traffic_batch batch (pod_traffic y) with
      | Some (_, tbl) => {| tasks := tasks y; pod_traffic := tbl |}
      | None => y
      end
  end.

Definition deliver_events (es : list delivery_event) (y : delivery) : delivery :=
  foldl (λ y e, deliver_event e y) y es.

End Delivery.
