(* ===== verification/DeliveryFacts.v ===== *)
(** * The receiving tasks and the broker: invariants of a run *)

From stdpp Require Import pretty.
From S2P Require Import Prelude RustStd Traffic TrafficFacts Delivery BrokerFacts.
From S2P Require Broker NetworkProbe NetpolicyDrop.

#[local] Arguments consume : simpl never.

Section DeliveryFacts.
Context `{TrafficCacheLaws}.
Implicit Types (c : cache) (h : handler) (t : PodTraffic) (st : consumers) (y : delivery)
  (tbl : Broker.traffic_table).

(** ** What a turn posts *)

Definition flushed {E : Type} (T : Z) (w : loop_wakeup E) h : list PodTraffic :=
  match wake w with
  | Received _ _ _ =>
      if should_flush (Z.of_nat (length (batch h))) (now w - last_flush h) BATCH_SIZE T
      then batch h else []
  | _ => batch h
  end.

Lemma flush_acked (ok : bool) h :
  acked (flush_network_batch ok h) = acked h ++ if ok then batch h else [].
Proof.
  unfold flush_network_batch. destruct (batch h) as [|t l] eqn:Hb.
  - destruct ok; by rewrite app_nil_r.
  - destruct ok; [done|]. destruct (cap_batch _ _). by rewrite app_nil_r.
Qed.

Lemma flush_turn_acked {E : Type} (T : Z) (ok : bool) (w : loop_wakeup E) h :
  acked (flush_turn T (set_post_ok ok w) h) = acked h ++ if ok then flushed T w h else [].
Proof.
  unfold flush_turn, flushed. simpl. destruct (wake w); simpl.
  - destruct (should_flush _ _ _ _); simpl; [apply flush_acked|]. destruct ok; by rewrite app_nil_r.
  - apply flush_acked.
  - destruct (batch h) eqn:Hb; simpl; [destruct ok; by rewrite app_nil_r|]. rewrite flush_acked. by rewrite Hb.
Qed.

(** The two tasks, turn by turn: what is acknowledged is what was posted, if the broker answered. *)
Lemma network_turn_acked w st :
  ∃ l, ∀ ok, acked (network_handler (consume (NetworkTurn (set_post_ok ok w)) st)) =
             acked (network_handler st) ++ if ok then l else [].
Proof.
  set (o := (cached (network_candidate w st) (TRAFFIC_CACHE st)).1).
  set (h := network_handler st).
  exists (if running h then flushed NETWORK_BATCH_TIMEOUT w (push_opt o h) else []). intros ok.
  pose proof (consume_network (set_post_ok ok w) st) as Hc.
  change (network_candidate (set_post_ok ok w) st) with (network_candidate w st) in Hc.
  unfold o. destruct (cached _ _) as [o' c]. rewrite Hc. simpl. fold h. destruct (running h).
  - rewrite flush_turn_acked. by destruct o'.
  - destruct ok; by rewrite app_nil_r.
Qed.

Lemma drop_turn_acked w st :
  ∃ l, ∀ ok, acked (drop_handler (consume (DropTurn (set_post_ok ok w)) st)) =
             acked (drop_handler st) ++ if ok then l else [].
Proof.
  set (o := (cached (drop_candidate w st) (TRAFFIC_CACHE st)).1).
  set (h := drop_handler st).
  exists (if running h then flushed DROP_BATCH_TIMEOUT w (push_opt o h) else []). intros ok.
  pose proof (consume_drop (set_post_ok ok w) st) as Hc.
  change (drop_candidate (set_post_ok ok w) st) with (drop_candidate w st) in Hc.
  unfold o. destruct (cached _ _) as [o' c]. rewrite Hc. simpl. fold h. destruct (running h).
  - rewrite flush_turn_acked. by destruct o'.
  - destruct ok; by rewrite app_nil_r.
Qed.

Lemma network_acked (ok : bool) w st :
  acked (network_handler (consume (NetworkTurn (set_post_ok ok w)) st)) =
  acked (network_handler st) ++ if ok then network_posted w st else [].
Proof.
  destruct (network_turn_acked w st) as (l&Hl). unfold network_posted. by rewrite !Hl, drop_app_length.
Qed.

Lemma drop_acked (ok : bool) w st :
  acked (drop_handler (consume (DropTurn (set_post_ok ok w)) st)) =
  acked (drop_handler st) ++ if ok then drop_posted w st else [].
Proof. destruct (drop_turn_acked w st) as (l&Hl). unfold drop_posted. by rewrite !Hl, drop_app_length. Qed.

(** ** What a turn makes *)

Definition made (e : consumer_event) st : list PodTraffic :=
  match e with
  | NetworkTurn w => option_list (cached (network_candidate w st) (TRAFFIC_CACHE st)).1
  | DropTurn w => option_list (cached (drop_candidate w st) (TRAFFIC_CACHE st)).1
  | PodFound _ _ => []
  end.

Lemma push_opt_built (o : option PodTraffic) h : built (push_opt o h) = built h ++ option_list o.
Proof. destruct o; simpl; [done|]. by rewrite app_nil_r. Qed.

Lemma network_built w st :
  built (network_handler (consume (NetworkTurn w) st)) =
  built (network_handler st) ++ made (NetworkTurn w) st.
Proof.
  pose proof (consume_network w st) as Hc. simpl. unfold network_candidate in *.
  destruct (running (network_handler st)).
  - destruct (cached _ _) as [o c]. rewrite Hc. simpl. by rewrite flush_turn_built, push_opt_built.
  - cbn [cached] in *. rewrite Hc. simpl. by rewrite app_nil_r.
Qed.

Lemma drop_built w st :
  built (drop_handler (consume (DropTurn w) st)) = built (drop_handler st) ++ made (DropTurn w) st.
Proof.
  pose proof (consume_drop w st) as Hc. simpl. unfold drop_candidate in *.
  destruct (running (drop_handler st)).
  - destruct (cached _ _) as [o c]. rewrite Hc. simpl. by rewrite flush_turn_built, push_opt_built.
  - cbn [cached] in *. rewrite Hc. simpl. by rewrite app_nil_r.
Qed.

Lemma network_keeps_drop w st : drop_handler (consume (NetworkTurn w) st) = drop_handler st.
Proof. pose proof (consume_network w st) as Hc. destruct (cached _ _). by rewrite Hc. Qed.

Lemma drop_keeps_network w st : network_handler (consume (DropTurn w) st) = network_handler st.
Proof. pose proof (consume_drop w st) as Hc. destruct (cached _ _). by rewrite Hc. Qed.

Lemma consume_entries (e : consumer_event) st : entries (consume e st) ≡ₚ entries st ++ made e st.
Proof.
  unfold entries. destruct e as [w|w|inode pod].
  - rewrite network_built, network_keeps_drop, <- !app_assoc.
    by rewrite (Permutation_app_comm (made _ _)).
  - by rewrite drop_built, drop_keeps_network, <- app_assoc.
  - by rewrite app_nil_r.
Qed.

(** Every entry fills the columns of the search. *)
Lemma made_complete (e : consumer_event) st t : t ∈ made e st → complete (wire t).
Proof.
  assert (∀ o c, t ∈ option_list (cached o c).1 → o = Some t) as Hcached.
  { intros [t0|] c; simpl; [|by intros ?%not_elem_of_nil].
    destruct (contains_key _ _); simpl; [by intros ?%not_elem_of_nil|].
    by intros ->%list_elem_of_singleton. }
  destruct e as [w|w|inode pod]; simpl; [..|by intros ?%not_elem_of_nil]; intros Ht%Hcached.
  - unfold network_candidate, candidate in Ht. destruct (running _), (wake w) as [ev u ts| |]; try done.
    destruct (_ !! _) as [pod|]; simpl in Ht; [|done]. unfold network_entry in Ht.
    repeat case_match; simplify_eq; by repeat split.
  - unfold drop_candidate, candidate in Ht. destruct (running _), (wake w) as [ev u ts| |]; try done.
    destruct (_ !! _) as [pod|]; simpl in Ht; [|done]. unfold drop_entry in Ht.
    repeat case_match; simplify_eq; by repeat split.
Qed.

(** *** A batch is part of the history of its task *)

Lemma acked_sublist h : handler_ok h → acked h `sublist_of` built h.
Proof. intros []. etrans; [|done]. by apply sublist_inserts_r. Qed.

Lemma suffix_sublist {A : Type} (l k b : list A) : l ++ k `sublist_of` b → k `sublist_of` b.
Proof. intros Hs. etrans; [|done]. by apply sublist_inserts_l. Qed.

Lemma network_posted_sublist w st :
  batches_ok st →
  network_posted w st `sublist_of` built (network_handler st) ++ made (NetworkTurn w) st.
Proof.
  intros Hb. apply (consume_batches (NetworkTurn (set_post_ok true w))) in Hb as [Hn _].
  apply acked_sublist in Hn. rewrite network_acked, network_built in Hn.
  change (made (NetworkTurn (set_post_ok true w)) st) with (made (NetworkTurn w) st) in Hn.
  by eapply suffix_sublist.
Qed.

Lemma drop_posted_sublist w st :
  batches_ok st → drop_posted w st `sublist_of` built (drop_handler st) ++ made (DropTurn w) st.
Proof.
  intros Hb. apply (consume_batches (DropTurn (set_post_ok true w))) in Hb as [_ Hd].
  apply acked_sublist in Hd. rewrite drop_acked, drop_built in Hd.
  change (made (DropTurn (set_post_ok true w)) st) with (made (DropTurn w) st) in Hd.
  by eapply suffix_sublist.
Qed.

End DeliveryFacts.
