(* ===== verification/DeliveryThms.v ===== *)
(** * Theorems about the delivery of the entries to the broker *)

From stdpp Require Import pretty.
From S2P Require Import Prelude RustStd Traffic TrafficFacts TrafficThms Delivery BrokerFacts.
From S2P Require Import DeliveryFacts.
From S2P Require Broker NetworkProbe NetpolicyDrop.

#[local] Arguments consume : simpl never.
#[local] Arguments Broker.create_pod_traffic_batch : simpl never.

Section Helpers.
Context `{TrafficCacheLaws}.
Implicit Types (t : PodTraffic) (st : consumers) (y : delivery) (tbl : Broker.traffic_table).

Definition acks st : list PodTraffic := acked (network_handler st) ++ acked (drop_handler st).

(** One event, whichever task posts. *)
Inductive delivers (e : delivery_event) y y' : Prop :=
| delivers_post posted a made ok :
    (∀ batch, e ≠ OtherPost batch) →
    api_post_call posted a (pod_traffic y) = (ok, pod_traffic y') →
    entries (tasks y') ≡ₚ entries (tasks y) ++ made →
    (∀ t, t ∈ made → complete (wire t)) →
    posted ⊆+ entries (tasks y') →
    acks (tasks y') ≡ₚ acks (tasks y) ++ (if ok then posted else []) →
    delivers e y y'
| delivers_other batch new :
    e = OtherPost batch → tasks y' = tasks y →
    Broker.create_pod_traffic_batch batch (pod_traffic y) = Some (new, pod_traffic y') →
    delivers e y y'
| delivers_refused batch : e = OtherPost batch → y' = y → delivers e y y'.

Lemma submseteq_entries_network w st (l : list PodTraffic) :
  l `sublist_of` built (network_handler st) ++ made (NetworkTurn w) st →
  l ⊆+ entries st ++ made (NetworkTurn w) st.
Proof.
  intros Hl%sublist_submseteq. etrans; [exact Hl|]. unfold entries.
  rewrite <- app_assoc. apply submseteq_app; [done|]. by apply submseteq_inserts_l.
Qed.

Lemma submseteq_entries_drop w st (l : list PodTraffic) :
  l `sublist_of` built (drop_handler st) ++ made (DropTurn w) st →
  l ⊆+ entries st ++ made (DropTurn w) st.
Proof.
  intros Hl%sublist_submseteq. etrans; [exact Hl|]. unfold entries.
  rewrite <- app_assoc. by apply submseteq_inserts_l.
Qed.

Lemma deliver_event_delivers (e : delivery_event) y :
  batches_ok (tasks y) → delivers e y (deliver_event e y).
Proof.
  intros Hb. destruct e as [w a|w a|inode pod|batch]; simpl.
  - destruct (api_post_call _ a (pod_traffic y)) as [ok tbl] eqn:Hp.
    eapply (delivers_post _ _ _ _ a (made (NetworkTurn w) (tasks y)) ok); simpl; [done|exact Hp|..].
    + apply (consume_entries (NetworkTurn (set_post_ok ok w))).
    + intros t. apply (made_complete (NetworkTurn w)).
    + pose proof (consume_entries (NetworkTurn (set_post_ok ok w)) (tasks y)) as He. rewrite He.
      by apply (submseteq_entries_network w), network_posted_sublist.
    + unfold acks. rewrite network_acked, network_keeps_drop, <- !app_assoc. f_equiv.
      apply Permutation_app_comm.
  - destruct (api_post_call _ a (pod_traffic y)) as [ok tbl] eqn:Hp.
    eapply (delivers_post _ _ _ _ a (made (DropTurn w) (tasks y)) ok); simpl; [done|exact Hp|..].
    + apply (consume_entries (DropTurn (set_post_ok ok w))).
    + intros t. apply (made_complete (DropTurn w)).
    + pose proof (consume_entries (DropTurn (set_post_ok ok w)) (tasks y)) as He. rewrite He.
      by apply (submseteq_entries_drop w), drop_posted_sublist.
    + unfold acks. by rewrite drop_acked, drop_keeps_network, <- !app_assoc.
  - eapply (delivers_post _ _ _ [] Unreached [] false); simpl; try done.
    + by rewrite app_nil_r.
    + by intros t ?%not_elem_of_nil.
    + apply submseteq_nil_l.
    + by rewrite app_nil_r.
  - destruct (Broker.create_pod_traffic_batch batch (pod_traffic y)) as [[new tbl]|] eqn:Hc.
    + by eapply delivers_other.
    + by eapply delivers_refused.
Qed.

Lemma deliver_batches (e : delivery_event) y :
  batches_ok (tasks y) → batches_ok (tasks (deliver_event e y)).
Proof.
  intros Hb. destruct e as [w a|w a|inode pod|batch]; simpl; [| |by apply consume_batches|].
  - destruct (api_post_call _ _ _). by apply consume_batches.
  - destruct (api_post_call _ _ _). by apply consume_batches.
  - by destruct (Broker.create_pod_traffic_batch _ _) as [[? ?]|].
Qed.

(** ** The invariant *)

Record delivery_ok y : Prop := {
  dv_batches : batches_ok (tasks y);
  dv_complete t : t ∈ entries (tasks y) → complete (wire t);
  dv_stored t : t ∈ acks (tasks y) → stored (wire t) (pod_traffic y)
}.

Lemma api_post_call_grows posted a tbl ok tbl' (e : Broker.PodTraffic) :
  api_post_call posted a tbl = (ok, tbl') → stored e tbl → stored e tbl'.
Proof.
  unfold api_post_call. destruct a as [|answered]; [by intros [= _ <-]|].
  destruct (Broker.create_pod_traffic_batch _ _) as [[new tbl1]|] eqn:Hc; intros [= _ <-]; [|done].
  by eapply create_grows.
Qed.

Lemma api_post_call_stores posted a tbl tbl' t :
  api_post_call posted a tbl = (true, tbl') → t ∈ posted → complete (wire t) → stored (wire t) tbl'.
Proof.
  unfold api_post_call. destruct a as [|answered]; [done|].
  destruct (Broker.create_pod_traffic_batch _ _) as [[new tbl1]|] eqn:Hc; [|done].
  intros [= _ <-] Ht Hok. eapply create_stores; [done|done|]. by apply list_elem_of_fmap_2.
Qed.

Lemma deliver_event_ok (e : delivery_event) y : delivery_ok y → delivery_ok (deliver_event e y).
Proof.
  intros [Hb Hc Hs]. pose proof (deliver_event_delivers e y Hb) as Hd.
  pose proof (deliver_batches e y Hb) as Hb'. revert Hd Hb'. generalize (deliver_event e y) as y'.
  intros y' [posted a ms ok _ Hp He Hm Hsub Ha|batch new _ Et Hn|batch _ ->] Hb'; [..|done].
  - assert (∀ t, t ∈ entries (tasks y') → complete (wire t)) as Hc'.
    { intros t. rewrite He. intros [?|?]%elem_of_app; auto. }
    split; [done|done|]. intros t. rewrite Ha. intros [Ht|Ht]%elem_of_app.
    + by eapply api_post_call_grows; [|apply Hs].
    + destruct ok; [|by apply not_elem_of_nil in Ht]. eapply api_post_call_stores; [done|done|].
      apply Hc'. by eapply elem_of_submseteq.
  - split; rewrite Et; [done|done|]. intros t Ht. by eapply create_grows; [|apply Hs].
Qed.

Lemma deliver_events_app (es es' : list delivery_event) y :
  deliver_events (es ++ es') y = deliver_events es' (deliver_events es y).
Proof. apply foldl_app. Qed.

Lemma deliver_events_ok (es : list delivery_event) y : delivery_ok y → delivery_ok (deliver_events es y).
Proof. revert y. induction es as [|e es IH]; intros y Hy; [done|]. by apply IH, deliver_event_ok. Qed.

Definition new_delivery (cm : gmap Z PodInspect) (t0 t1 : Z) tbl : delivery :=
  {| tasks := new_consumers cm t0 t1; pod_traffic := tbl |}.

Lemma new_delivery_ok cm (t0 t1 : Z) tbl : delivery_ok (new_delivery cm t0 t1 tbl).
Proof.
  destruct (new_consumers_ok cm t0 t1) as (Hb&_&_).
  split; [done|by intros t ?%not_elem_of_nil|by intros t ?%not_elem_of_nil].
Qed.

(** ** Where the rows come from *)

(** The events that the other controllers post. *)
Definition others (es : list delivery_event) : list Broker.PodTraffic :=
  e ← es; match e with OtherPost batch => batch | _ => [] end.

Lemma others_elem (es : list delivery_event) batch row :
  OtherPost batch ∈ es → row ∈ batch → row ∈ others es.
Proof. intros He Hr. unfold others. apply list_elem_of_bind. by exists (OtherPost batch). Qed.

Definition rows_known tbl0 (os : list Broker.PodTraffic) y : Prop :=
  ∀ row, row ∈ pod_traffic y → row ∈ tbl0 ∨ row ∈ os ∨ ∃ t, t ∈ entries (tasks y) ∧ row = wire t.

Lemma api_post_call_rows posted a tbl ok tbl' row :
  api_post_call posted a tbl = (ok, tbl') → row ∈ tbl' → row ∈ tbl ∨ ∃ t, t ∈ posted ∧ row = wire t.
Proof.
  unfold api_post_call. destruct a as [|answered]; [intros [= _ <-]; by left|].
  destruct (Broker.create_pod_traffic_batch _ _) as [[new tbl1]|] eqn:Hc; intros [= _ <-]; [|by left].
  apply create_some in Hc as [-> ->]. intros [?|Hr]%elem_of_app; [by left|right].
  apply events_to_insert_sound in Hr as (Hr&_). apply list_elem_of_fmap in Hr as (t&->&?). by exists t.
Qed.

Lemma deliver_event_known tbl0 os (e : delivery_event) y :
  batches_ok (tasks y) → (∀ batch, e = OtherPost batch → ∀ row, row ∈ batch → row ∈ os) →
  rows_known tbl0 os y → rows_known tbl0 os (deliver_event e y).
Proof.
  intros Hb Ho Hk. pose proof (deliver_event_delivers e y Hb) as Hd. revert Hd.
  generalize (deliver_event e y) as y'.
  intros y' [posted a ms ok _ Hp He Hm Hsub Ha|batch new Ee Et Hn|batch _ ->]; [..|done]; intros row Hr.
  - eapply api_post_call_rows in Hr as [Hr|(t&Ht&->)]; [..|done].
    + destruct (Hk row Hr) as [?|[?|(t&Ht&->)]]; [by left|by right; left|]. right. right.
      exists t. split; [|done]. rewrite He. apply elem_of_app. by left.
    + right. right. exists t. split; [|done]. by eapply elem_of_submseteq.
  - rewrite Et. apply create_some in Hn as [-> Htbl]. rewrite Htbl in Hr.
    apply elem_of_app in Hr as [Hr|(Hr&_)%events_to_insert_sound].
    + by apply Hk.
    + right. left. by eapply Ho.
Qed.

Lemma deliver_events_known tbl0 (es : list delivery_event) y :
  delivery_ok y → ∀ os, (∀ row, row ∈ others es → row ∈ os) →
  rows_known tbl0 os y → rows_known tbl0 os (deliver_events es y).
Proof.
  revert y. induction es as [|e es IH]; intros y Hy os Ho Hk; [done|]. apply IH.
  - by apply deliver_event_ok.
  - intros row Hr. apply Ho. unfold others in *. simpl. apply elem_of_app. by right.
  - apply deliver_event_known; [apply Hy| |done]. intros batch -> row Hr. apply Ho. simpl.
    apply elem_of_app. by left.
Qed.

Lemma others_grow (es es' : list delivery_event) row : row ∈ others es → row ∈ others (es ++ es').
Proof. unfold others. rewrite bind_app. intros ?. apply elem_of_app. by left. Qed.

Lemma deliver_events_distinct (es : list delivery_event) y :
  delivery_ok y → Forall complete (others es) → rows_distinct (pod_traffic y) →
  rows_distinct (pod_traffic (deliver_events es y)).
Proof.
  revert y. induction es as [|e es IH]; intros y Hy Ho Hr; [done|].
  unfold others in Ho. simpl in Ho. apply Forall_app in Ho as [He Ho]. apply IH; [|done|].
  { by apply deliver_event_ok. }
  pose proof (deliver_event_delivers e y (dv_batches y Hy)) as Hd.
  pose proof (deliver_event_ok e y Hy) as Hy'. revert Hd Hy'. generalize (deliver_event e y) as y'.
  intros y' [posted a ms ok _ Hp _ _ Hsub _|batch new -> Et Hn|batch _ ->] Hy'; [| |done].
  - unfold api_post_call in Hp. destruct a as [|answered]; [by injection Hp as _ <-|].
    destruct (Broker.create_pod_traffic_batch _ _) as [[new tbl1]|] eqn:Hc; injection Hp as _ <-; [|done].
    eapply create_distinct; [done| |done]. apply Forall_fmap, Forall_forall. intros t Ht.
    apply (dv_complete y' Hy'). by eapply elem_of_submseteq.
  - by eapply create_distinct.
Qed.

(** ** The broker accepts what the controller posts *)

(** The uuids of the entries are new, as those of [Uuid::new_v4] are. *)
Definition fresh tbl0 (os : list Broker.PodTraffic) st : Prop :=
  NoDup (pt_uuid <$> entries st) ∧
  ∀ t row, t ∈ entries st → row ∈ tbl0 ++ os → Broker.uuid row ≠ pt_uuid t.

Lemma entries_uuid st t t' :
  NoDup (pt_uuid <$> entries st) → t ∈ entries st → t' ∈ entries st → pt_uuid t = pt_uuid t' → t = t'.
Proof.
  intros Hn [i Hi]%list_elem_of_lookup [j Hj]%list_elem_of_lookup Heq.
  assert (i = j) as ->; [|congruence].
  eapply NoDup_lookup; [exact Hn|..]; rewrite list_lookup_fmap, ?Hi, ?Hj; simpl; [done|by f_equal].
Qed.

Lemma post_accepted tbl0 os st tbl (posted : list PodTraffic) :
  NoDup (Broker.uuid <$> tbl) → fresh tbl0 os st → (∀ t, t ∈ entries st → complete (wire t)) →
  (∀ row, row ∈ tbl → row ∈ tbl0 ∨ row ∈ os ∨ ∃ t, t ∈ entries st ∧ row = wire t) →
  posted ⊆+ entries st →
  is_Some (Broker.create_pod_traffic_batch (wire <$> posted) tbl).
Proof.
  intros Ht [Hn Hf] Hc Hk Hsub. eexists. apply create_none. rewrite fmap_app. apply NoDup_app.
  split_and!; [done| |].
  - intros u (row&->&Hrow)%list_elem_of_fmap (e&Hu&He)%list_elem_of_fmap.
    apply events_to_insert_sound in He as (He&_&Hns). apply list_elem_of_fmap in He as (t&->&Hin).
    eapply elem_of_submseteq in Hin; [|done]. simpl in Hu.
    destruct (Hk row Hrow) as [H1|[H1|(t'&Hin'&->)]].
    + apply (Hf t row Hin); [apply elem_of_app; by left|done].
    + apply (Hf t row Hin); [apply elem_of_app; by right|done].
    + apply (entries_uuid st t' t) in Hu as ->; [|done..]. apply Hns.
      apply (complete_stored _ (wire t)); [by apply Hc|done|done].
  - eapply sublist_NoDup; [|apply fmap_sublist, events_to_insert_sublist].
    rewrite <- list_fmap_compose.
    assert (NoDup (pt_uuid <$> posted)) as Hp; [|exact Hp].
    apply submseteq_Permutation in Hsub as [rest Hrest]. rewrite Hrest in Hn.
    rewrite fmap_app in Hn. by apply NoDup_app in Hn as (?&_).
Qed.

Lemma deliver_event_uuids (e : delivery_event) y :
  NoDup (Broker.uuid <$> pod_traffic y) → NoDup (Broker.uuid <$> pod_traffic (deliver_event e y)).
Proof.
  intros Hn. assert (∀ posted a ok tbl, api_post_call posted a (pod_traffic y) = (ok, tbl) →
    NoDup (Broker.uuid <$> tbl)) as Hp.
  { intros posted a ok tbl. unfold api_post_call. destruct a as [|answered]; [by intros [= _ <-]|].
    destruct (Broker.create_pod_traffic_batch _ _) as [[? ?]|] eqn:Hc; intros [= _ <-]; [|done].
    by eapply create_uuids. }
  destruct e as [w a|w a|inode pod|batch]; simpl; [| |done|].
  - destruct (api_post_call _ _ _) as [ok tbl] eqn:Hc. by eapply Hp.
  - destruct (api_post_call _ _ _) as [ok tbl] eqn:Hc. by eapply Hp.
  - destruct (Broker.create_pod_traffic_batch _ _) as [[? ?]|] eqn:Hc; [|done]. by eapply create_uuids.
Qed.

Lemma deliver_events_uuids (es : list delivery_event) y :
  NoDup (Broker.uuid <$> pod_traffic y) → NoDup (Broker.uuid <$> pod_traffic (deliver_events es y)).
Proof. revert y. induction es as [|e es IH]; intros y Hn; [done|]. by apply IH, deliver_event_uuids. Qed.

(** The state after a post that is answered: the turn with its post acknowledged. *)
Lemma answered_post y w tbl0 os :
  delivery_ok y → rows_known tbl0 os y → NoDup (Broker.uuid <$> pod_traffic y) →
  fresh tbl0 os (tasks (deliver_event (NetworkPost w (Reached true)) y)) →
  ∃ tbl, deliver_event (NetworkPost w (Reached true)) y =
         {| tasks := consume (NetworkTurn (set_post_ok true w)) (tasks y); pod_traffic := tbl |}.
Proof.
  intros Hy Hk Hn Hf.
  pose proof (consume_entries (NetworkTurn w) (tasks y)) as He.
  assert (∀ ok, entries (consume (NetworkTurn (set_post_ok ok w)) (tasks y)) ≡ₚ
                entries (consume (NetworkTurn w) (tasks y))) as Hok.
  { intros ok. rewrite He. apply (consume_entries (NetworkTurn (set_post_ok ok w))). }
  assert (fresh tbl0 os (consume (NetworkTurn w) (tasks y))) as [Hf1 Hf2].
  { simpl in Hf. destruct (if Broker.create_pod_traffic_batch _ _ is Some (_, tbl) then (true, tbl) else _)
      as [ok tbl]. simpl in Hf. destruct Hf as [Hf1 Hf2]. rewrite (Hok ok) in Hf1. split; [done|].
    intros t row Ht. apply Hf2. by rewrite Hok. }
  destruct (post_accepted tbl0 os (consume (NetworkTurn w) (tasks y)) (pod_traffic y)
    (network_posted w (tasks y))) as [[new tbl] Hc].
  - done.
  - by split.
  - intros t. rewrite He. intros [?|?]%elem_of_app; [by apply Hy|by eapply made_complete].
  - intros row Hrow. destruct (Hk row Hrow) as [?|[?|(t&?&?)]]; [by left|by right; left|].
    right. right. exists t. rewrite He. split; [apply elem_of_app; by left|done].
  - rewrite He. apply (submseteq_entries_network w), network_posted_sublist, Hy.
  - exists tbl. simpl. by rewrite Hc.
Qed.

Lemma due_acked t st w :
  running (network_handler st) = true → t ∈ batch (network_handler st) →
  due NETWORK_BATCH_TIMEOUT (last_flush (network_handler st)) w →
  t ∈ acked (network_handler (consume (NetworkTurn (set_post_ok true w)) st)).
Proof.
  intros Hr Ht Hdue. pose proof (consume_network (set_post_ok true w) st) as Hc.
  destruct (cached _ _) as [o c]. rewrite Hc. simpl. rewrite Hr.
  eapply flush_turn_due; [done|exact Hdue|]. apply push_opt_pending. by right.
Qed.

(** ** Rows that hide others *)

Lemma deliver_event_table (e : delivery_event) y :
  pod_traffic (deliver_event e y) = pod_traffic y ∨
  ∃ batch new, Broker.create_pod_traffic_batch batch (pod_traffic y) =
               Some (new, pod_traffic (deliver_event e y)).
Proof.
  assert (∀ posted a ok tbl, api_post_call posted a (pod_traffic y) = (ok, tbl) →
    tbl = pod_traffic y ∨ ∃ batch new, Broker.create_pod_traffic_batch batch (pod_traffic y) = Some (new, tbl))
    as Hp.
  { intros posted a ok tbl. unfold api_post_call. destruct a as [|answered]; [intros [= _ <-]; by left|].
    destruct (Broker.create_pod_traffic_batch _ _) as [[new tbl1]|] eqn:Hc; intros [= _ <-];
      [right; by exists (wire <$> posted), new|by left]. }
  destruct e as [w a|w a|inode pod|batch]; simpl; [| |by left|].
  - destruct (api_post_call _ _ _) as [ok tbl] eqn:Hc. by eapply Hp.
  - destruct (api_post_call _ _ _) as [ok tbl] eqn:Hc. by eapply Hp.
  - destruct (Broker.create_pod_traffic_batch _ _) as [[new tbl]|] eqn:Hc; [|by left].
    right. by exists batch, new.
Qed.

Lemma deliver_events_shadow (es : list delivery_event) y (e : Broker.PodTraffic) :
  stored e (pod_traffic y) →
  Broker.traffic_content_key e ∉ Broker.traffic_content_key <$> pod_traffic y →
  Broker.traffic_content_key e ∉ Broker.traffic_content_key <$> pod_traffic (deliver_events es y).
Proof.
  revert y. induction es as [|e0 es IH]; intros y Hs Hk; [done|].
  destruct (deliver_event_table e0 y) as [Ht|(batch&new&Hc)].
  - apply IH; by rewrite Ht.
  - apply IH; [by eapply create_grows|by eapply create_shadow].
Qed.

End Helpers.

(** ** Theorems *)

Section Theorems.
Context `{TrafficCacheLaws}.
Implicit Types (t : PodTraffic) (y : delivery) (tbl : Broker.traffic_table).

(** C19: what the broker acknowledges is in its table.  Whatever posts are lost, and whatever answers
    are, each entry that a task counts as acknowledged has a row of the same pod address, direction,
    remote address and decision, and of the same two ports; for UDP one of the two ports is enough. *)
Theorem acked_entry_has_row cm (t0 t1 : Z) tbl (es : list delivery_event) t :
  let y := deliver_events es (new_delivery cm t0 t1 tbl) in
  t ∈ acks (tasks y) →
  ∃ row, row ∈ pod_traffic y ∧ Broker.pod_ip row = Some (pt_pod_ip t) ∧
    Broker.traffic_type row = pt_traffic_type t ∧
    Broker.traffic_in_out_ip row = pt_traffic_in_out_ip t ∧ Broker.decision row = pt_decision t ∧
    (Broker.traffic_in_out_port row = pt_traffic_in_out_port t ∧
     Broker.pod_port row = pt_pod_port t ∨
     pt_ip_protocol t = Some "UDP"%string ∧
     (Broker.traffic_in_out_port row = pt_traffic_in_out_port t ∨
      Broker.pod_port row = pt_pod_port t)).
Proof.
  intros y Ht. apply (stored_columns (wire t)).
  by apply (deliver_events_ok es _ (new_delivery_ok cm t0 t1 tbl)).
Qed.

(** C20: the table holds what was observed, once.  Posts are repeated when their answer is lost; still,
    if the table starts with complete and distinct rows and the other controllers post complete events,
    no two rows have the same content, and each row was there before, or is an event of another
    controller, or an entry that a task of this one has made. *)
Theorem stored_rows_are_entries_once cm (t0 t1 : Z) tbl (es : list delivery_event) :
  let y := deliver_events es (new_delivery cm t0 t1 tbl) in
  rows_distinct tbl → Forall complete (others es) →
  NoDup (Broker.traffic_content_key <$> pod_traffic y) ∧
  ∀ row, row ∈ pod_traffic y →
    row ∈ tbl ∨ row ∈ others es ∨ ∃ t, t ∈ entries (tasks y) ∧ row = wire t.
Proof.
  intros y Hd Ho. pose proof (new_delivery_ok cm t0 t1 tbl) as Hy. split.
  - by apply (deliver_events_distinct es _ Hy Ho Hd).
  - apply (deliver_events_known tbl es _ Hy (others es)); [done|]. intros row Hr. by left.
Qed.

(** a post that arrives is stored.  Uuids being unique, the broker refuses no batch: an entry that
    waits in the network task is acknowledged, and has its row, at the first turn that is due and whose
    post is answered, whatever was lost or repeated before. *)
Theorem answered_post_stores_entry cm (t0 t1 : Z) tbl (es : list delivery_event) t
    (w : loop_wakeup NetworkProbe.network_event) :
  let y := deliver_events es (new_delivery cm t0 t1 tbl) in
  let y' := deliver_event (NetworkPost w (Reached true)) y in
  let h := network_handler (tasks y) in
  NoDup (Broker.uuid <$> tbl) → fresh tbl (others es) (tasks y') →
  running h = true → t ∈ batch h → due NETWORK_BATCH_TIMEOUT (last_flush h) w →
  t ∈ acks (tasks y') ∧ stored (wire t) (pod_traffic y').
Proof.
  intros y y' h Hn Hf Hr Ht Hdue.
  pose proof (deliver_events_ok es _ (new_delivery_ok cm t0 t1 tbl)) as Hy. fold y in Hy.
  assert (rows_known tbl (others es) y) as Hk.
  { apply (deliver_events_known tbl es _ (new_delivery_ok cm t0 t1 tbl)); [done|]. intros row Hrow. by left. }
  pose proof (deliver_events_uuids es (new_delivery cm t0 t1 tbl) Hn) as Hu. fold y in Hu.
  pose proof (deliver_event_ok (NetworkPost w (Reached true)) y Hy) as Hy'. fold y' in Hy'.
  assert (t ∈ acks (tasks y')) as Ha; [|split; [done|by apply Hy']].
  destruct (answered_post y w tbl (others es) Hy Hk Hu Hf) as [tbl' Htbl'].
  unfold acks, y'. rewrite Htbl'. apply elem_of_app. left. simpl. by apply due_acked.
Qed.

(** a batch that arrives twice is stored once.  When the broker has accepted a batch of complete
    events, the same batch posted again, with whatever has been added to it since, inserts no event of
    the first. *)
Theorem repeated_batch_adds_nothing (batch more new new' : list Broker.PodTraffic) tbl tbl' tbl'' :
  Broker.create_pod_traffic_batch batch tbl = Some (new, tbl') → Forall complete batch →
  Broker.create_pod_traffic_batch (batch ++ more) tbl' = Some (new', tbl'') →
  ∀ e, e ∈ new' → e ∈ more ∧
    Broker.traffic_content_key e ∉ Broker.traffic_content_key <$> batch.
Proof.
  intros Hc Hb Hc' e He. rewrite Forall_forall in Hb. apply create_some in Hc' as [-> _].
  apply events_to_insert_sound in He as (He&_&Hs).
  assert (Broker.traffic_content_key e ∉ Broker.traffic_content_key <$> batch) as Hk.
  { intros (e'&Hke&Hin)%list_elem_of_fmap. apply Hs. apply (stored_key e'); [done|].
    eapply create_stores; [done|by apply Hb|done]. }
  split; [|done]. apply elem_of_app in He as [He|?]; [|done].
  destruct Hk. by apply list_elem_of_fmap_2.
Qed.

(** a flow can hide another from the broker for ever.  Once the table has an egress row from the
    pod's address to some address, with the port 0 that the controller gives to the pod's side and with
    the same decision, a later egress flow between the two is never stored if it is UDP, whatever the
    protocol and the port of the row, or if it differs from the row by its protocol only. *)
Theorem hidden_flow_is_never_stored y (es : list delivery_event) (row : Broker.PodTraffic)
    (pod : PodInspect) (protocol : string) (ip port : Z) (decision uuid : string) (time_stamp : Z) :
  let e := wire (entry pod "EGRESS" protocol 0 ip port decision uuid time_stamp) in
  row ∈ pod_traffic y → Broker.pod_ip row = Some (pi_pod_ip (status pod)) →
  Broker.pod_port row = Some "0"%string → Broker.traffic_type row = Some "EGRESS"%string →
  Broker.traffic_in_out_ip row = Some (ipv4_to_string (from_be32 ip)) →
  Broker.decision row = Some decision →
  protocol = "UDP"%string ∨ Broker.traffic_in_out_port row = Some (pretty port) →
  Broker.traffic_content_key e ∉ Broker.traffic_content_key <$> pod_traffic y →
  Broker.traffic_content_key e ∉ Broker.traffic_content_key <$> pod_traffic (deliver_events es y).
Proof.
  intros e Hrow Hip Hpp Htt Hrip Hdec Hport Hk. apply deliver_events_shadow; [|done].
  exists row. split; [done|]. apply found_by_columns; [exact Hip|exact Htt|exact Hrip|exact Hdec|by repeat split|].
  destruct Hport as [->|Hport]; [right|left]; (split; [reflexivity || exact Hport|]).
  - right. exact Hpp.
  - exact Hpp.
Qed.

End Theorems.
