(* ===== verification/DeliveryWitness.v ===== *)
(** * The theorems about the delivery of entries at a concrete run

    The pod of [TrafficWitness.v]: a first post is lost, the answer of the second is lost, the third is
    answered; another controller posts in between; then the pod sends to a second port. *)

From stdpp Require Import pretty.
From S2P Require Import Prelude RustStd Traffic TrafficFacts TrafficThms TrafficWitness Delivery.
From S2P Require Import BrokerFacts DeliveryFacts DeliveryThms.
From S2P Require Broker NetworkProbe.

#[local] Instance content_key_dec (tbl : Broker.traffic_table) (k : Broker.TrafficContentKey) :
  Decision (k ∈ Broker.traffic_content_key <$> tbl).
Proof. apply _. Defined.

#[local] Instance complete_dec (e : Broker.PodTraffic) : Decision (complete e).
Proof. unfold complete. apply _. Defined.

(** *** A run *)

Definition receives (dport : Z) (uuid : string) (t : Z) (a : answer) : delivery_event :=
  NetworkPost (Wakeup (Received (to_port dport) uuid t) t true t) a.
Definition ticks (t : Z) (a : answer) : delivery_event := NetworkPost (Wakeup TimedOut t true t) a.

(** A row of a pod of another node. *)
Definition wit_other : Broker.PodTraffic :=
  Broker.MkPodTraffic "other" (Some "db"%string) (Some "prod"%string) (Some "10.0.1.1"%string)
    (Some "0"%string) (Some "TCP"%string) (Some "EGRESS"%string) (Some "10.0.0.2"%string)
    (Some "53"%string) (Some "ALLOW"%string) 5.

Definition wit_start : delivery := new_delivery wit_pods 0 0 [].

Definition wit_first : list delivery_event :=
  [receives 53 "a" 10 Unreached; ticks (secs 1) Unreached; OtherPost [wit_other; wit_other];
   ticks (secs 2) (Reached false); receives 53 "b" (secs 2 + 5) Unreached].
Definition wit_second : list delivery_event :=
  [receives 8125 "c" (secs 3 + 1) (Reached true); ticks (secs 4) (Reached true)].

Lemma wit_first_state :
  let y := deliver_events wit_first wit_start in
  batch (network_handler (tasks y)) = [entry wit_pod "EGRESS" "UDP" 0 33554442 53 "ALLOW" "a" 10] ∧
  Broker.uuid <$> pod_traffic y = ["other"; "a"]%string ∧ running (network_handler (tasks y)) = true.
Proof. by vm_compute. Qed.

(** Both entries are acknowledged; the second has no row. *)
Lemma wit_second_state :
  let y := deliver_events (wit_first ++ ticks (secs 3) (Reached true) :: wit_second) wit_start in
  pt_uuid <$> acks (tasks y) = ["a"; "c"]%string ∧
  Broker.uuid <$> pod_traffic y = ["other"; "a"]%string.
Proof. by vm_compute. Qed.

Lemma wit_acked :
  entry wit_pod "EGRESS" "UDP" 0 33554442 8125 "ALLOW" "c" (secs 3 + 1) ∈
    acks (tasks (deliver_events (wit_first ++ ticks (secs 3) (Reached true) :: wit_second) wit_start)).
Proof. vm_compute. right. by left. Qed.

Lemma acked_entry_has_row_witness :
  ∃ row,
    row ∈ pod_traffic (deliver_events (wit_first ++ ticks (secs 3) (Reached true) :: wit_second) wit_start) ∧
    Broker.pod_ip row = Some "10.0.0.1"%string.
Proof.
  destruct (acked_entry_has_row wit_pods 0 0 [] (wit_first ++ ticks (secs 3) (Reached true) :: wit_second)
    (entry wit_pod "EGRESS" "UDP" 0 33554442 8125 "ALLOW" "c" (secs 3 + 1)) wit_acked)
    as (row&Hrow&Hip&_).
  exists row. split; [exact Hrow|exact Hip].
Defined.

Lemma wit_distinct : rows_distinct [].
Proof. split; constructor. Qed.

Lemma wit_others : Forall complete (others wit_first).
Proof. apply (bool_decide_eq_true_1 _). by vm_compute. Qed.

Lemma stored_rows_are_entries_once_witness :
  NoDup (Broker.traffic_content_key <$> pod_traffic (deliver_events wit_first wit_start)).
Proof. exact (proj1 (stored_rows_are_entries_once wit_pods 0 0 [] wit_first wit_distinct wit_others)). Defined.

Lemma wit_fresh :
  fresh [] (others wit_first)
    (tasks (deliver_event (ticks (secs 3) (Reached true)) (deliver_events wit_first wit_start))).
Proof.
  split.
  - apply (bool_decide_eq_true_1 _). by vm_compute.
  - assert (others wit_first = [wit_other; wit_other]) as -> by done.
    assert (∀ st, pt_uuid <$> entries st = ["a"%string] →
      ∀ t row, t ∈ entries st → row ∈ [] ++ [wit_other; wit_other] → Broker.uuid row ≠ pt_uuid t) as Hu.
    { intros st Hst t row Ht Hrow.
      apply (list_elem_of_fmap_2 pt_uuid) in Ht. rewrite Hst in Ht.
      apply list_elem_of_singleton in Ht. rewrite Ht. simpl in Hrow.
      by apply elem_of_cons in Hrow as [-> | ->%list_elem_of_singleton]. }
    apply Hu. by vm_compute.
Qed.

Lemma answered_post_stores_entry_witness :
  stored (wire (entry wit_pod "EGRESS" "UDP" 0 33554442 53 "ALLOW" "a" 10))
    (pod_traffic (deliver_event (ticks (secs 3) (Reached true)) (deliver_events wit_first wit_start))).
Proof.
  refine (proj2 (answered_post_stores_entry wit_pods 0 0 [] wit_first
    (entry wit_pod "EGRESS" "UDP" 0 33554442 53 "ALLOW" "a" 10) (Wakeup TimedOut (secs 3) true (secs 3))
    _ wit_fresh (proj2 (proj2 wit_first_state)) _ _)).
  - constructor.
  - change (entry wit_pod "EGRESS" "UDP" 0 33554442 53 "ALLOW" "a" 10 ∈
      batch (network_handler (tasks (deliver_events wit_first wit_start)))).
    rewrite (proj1 wit_first_state). by left.
  - exact I.
Defined.

(** *** A batch posted twice *)

Definition wit_event (uuid port : string) : Broker.PodTraffic :=
  Broker.MkPodTraffic uuid (Some "web"%string) (Some "prod"%string) (Some "10.0.0.1"%string)
    (Some "0"%string) (Some "TCP"%string) (Some "EGRESS"%string) (Some "10.0.0.2"%string) (Some port)
    (Some "ALLOW"%string) 5.

Lemma repeated_batch_adds_nothing_witness :
  ∃ new' tbl'',
    Broker.create_pod_traffic_batch [wit_event "a" "80"; wit_event "b" "443"; wit_event "c" "8080"]
      [wit_event "a" "80"; wit_event "b" "443"] = Some (new', tbl'') ∧
    ∀ e, e ∈ new' → e ∈ [wit_event "c" "8080"] ∧
      Broker.traffic_content_key e ∉
        Broker.traffic_content_key <$> [wit_event "a" "80"; wit_event "b" "443"].
Proof.
  exists [wit_event "c" "8080"],
    [wit_event "a" "80"; wit_event "b" "443"; wit_event "c" "8080"].
  split; [by vm_compute|].
  refine (repeated_batch_adds_nothing [wit_event "a" "80"; wit_event "b" "443"] [wit_event "c" "8080"]
    [wit_event "a" "80"; wit_event "b" "443"] _ [] [wit_event "a" "80"; wit_event "b" "443"]
    [wit_event "a" "80"; wit_event "b" "443"; wit_event "c" "8080"] _ _ _).
  - by vm_compute.
  - apply (bool_decide_eq_true_1 _). by vm_compute.
  - by vm_compute.
Defined.

(** *** A second port over UDP, and the same port over TCP *)

Definition wit_row : Broker.PodTraffic := wire (entry wit_pod "EGRESS" "UDP" 0 33554442 53 "ALLOW" "a" 10).

Lemma wit_row_stored : wit_row ∈ pod_traffic (deliver_events wit_first wit_start).
Proof. vm_compute. right. by left. Qed.

Lemma hidden_flow_is_never_stored_witness :
  let y := deliver_events wit_first wit_start in
  Broker.traffic_content_key (wire (entry wit_pod "EGRESS" "UDP" 0 33554442 8125 "ALLOW" "c" 0)) ∉
    Broker.traffic_content_key <$> pod_traffic (deliver_events wit_second y) ∧
  Broker.traffic_content_key (wire (entry wit_pod "EGRESS" "TCP" 0 33554442 53 "ALLOW" "c" 0)) ∉
    Broker.traffic_content_key <$> pod_traffic (deliver_events wit_second y).
Proof.
  split.
  - refine (hidden_flow_is_never_stored (deliver_events wit_first wit_start) wit_second wit_row wit_pod
      "UDP" 33554442 8125 "ALLOW" "c" 0 wit_row_stored eq_refl eq_refl eq_refl eq_refl eq_refl
      (or_introl eq_refl) _).
    apply (bool_decide_eq_true_1 (_ ∉ _)). by vm_compute.
  - refine (hidden_flow_is_never_stored (deliver_events wit_first wit_start) wit_second wit_row wit_pod
      "TCP" 33554442 53 "ALLOW" "c" 0 wit_row_stored eq_refl eq_refl eq_refl eq_refl eq_refl
      (or_intror eq_refl) _).
    apply (bool_decide_eq_true_1 (_ ∉ _)). by vm_compute.
Defined.

(** Had the two datagrams been posted in one batch, both would have a row. *)
Lemma one_batch_stores_both :
  let rows := [wire (entry wit_pod "EGRESS" "UDP" 0 33554442 53 "ALLOW" "a" 0);
               wire (entry wit_pod "EGRESS" "UDP" 0 33554442 8125 "ALLOW" "c" 0)] in
  Broker.create_pod_traffic_batch rows [] = Some (rows, rows).
Proof. by vm_compute. Qed.
