(* ===== verification/SyscallDelivery.v ===== *)
(** * The system-call tasks and the broker

    The tasks of syscall.rs with the broker that answers their posts, as in [Delivery.v]. *)

From S2P Require Import Prelude RustStd Traffic SyscallRecorder Delivery.
From S2P Require Broker.

(** [json!(SyscallData { .. })] as the broker reads it. *)
Definition wire_syscalls (d : SyscallData) : Broker.PodInputSyscalls :=
  {| Broker.pin_pod_name := sd_pod_name d; Broker.pin_pod_namespace := sd_pod_namespace d;
     Broker.pin_syscalls := sd_syscalls d; Broker.pin_arch := sd_arch d;
     Broker.pin_time_stamp := sd_time_stamp d |}.

Section SyscallDelivery.
Context `{SyscallCache}.
Variable get_name_by_arch : Z → option string.
Variable ARCH : string.

Record syscall_delivery : Type := SyscallDeliveryState {
  rec_tasks : recorder;
  pod_syscalls : Broker.syscalls_table
}.

Inductive syscall_delivery_event : Type :=
| SyscallSeen (event : Z * Z)
| PodSeen (inode_num : Z) (pod_inspect : PodInspect)
| PassBegins (utc_now : string → Z)
| PassPosted (a : answer)
| OtherSyscalls (batch : list Broker.PodInputSyscalls).

(** The table after a post, when the broker accepts it. *)
Definition post_syscalls (batch : list SyscallData) (tbl : Broker.syscalls_table) :
    option Broker.syscalls_table :=
  Broker.create_pod_syscalls (wire_syscalls <$> batch) tbl.

Definition deliver_syscall_event (e : syscall_delivery_event) (y : syscall_delivery) :
    syscall_delivery :=
  let step e := record get_name_by_arch ARCH e (rec_tasks y) in
  match e with
  | SyscallSeen event => {| rec_tasks := step (SyscallReceived event); pod_syscalls := pod_syscalls y |}
  | PodSeen i pod => {| rec_tasks := step (RecorderPodFound i pod); pod_syscalls := pod_syscalls y |}
  | PassBegins utc_now => {| rec_tasks := step (PassStarts utc_now); pod_syscalls := pod_syscalls y |}
  | PassPosted a =>
      match posting (rec_tasks y), a with
      | Some (batch, _), Reached answered =>
          match post_syscalls batch (pod_syscalls y) with
          | Some tbl => {| rec_tasks := step (PassEnds answered); pod_syscalls := tbl |}
          | None => {| rec_tasks := step (PassEnds false); pod_syscalls := pod_syscalls y |}
          end
      | _, _ => {| rec_tasks := step (PassEnds false); pod_syscalls := pod_syscalls y |}
      end
  | OtherSyscalls batch =>
      match Broker.create_pod_syscalls batch (pod_syscalls y) with
      | Some tbl => {| rec_tasks := rec_tasks y; pod_syscalls := tbl |}
      | None => y
      end
  end.

Definition deliver_syscall_events (es : list syscall_delivery_event) (y : syscall_delivery) :
    syscall_delivery :=
  foldl (λ y e, deliver_syscall_event e y) y es.

Definition new_syscall_delivery (cm : gmap Z PodInspect) (tbl : Broker.syscalls_table) :
    syscall_delivery :=
  {| rec_tasks := new_recorder cm; pod_syscalls := tbl |}.

End SyscallDelivery.
