(* ===== verification/SyscallDeliveryThms.v ===== *)
(** * Theorems about the delivery of the system calls to the broker

    With the theorems at concrete runs. *)

From S2P Require Import Prelude RustStd Traffic SyscallRecorder SyscallRecorderFacts SyscallRecorderThms.
From S2P Require Import Broker Delivery SyscallDelivery.

(** ** The table *)

Section Table.
Implicit Types (tbl : syscalls_table) (e : PodInputSyscalls) (row : PodSyscalls) (p : string).

(** Rows are found under their primary key. *)
Definition keyed tbl : Prop := ∀ p row, tbl !! p = Some row → ps_pod_name row = p.

Definition blank p : Prop := trim p = EmptyString.

#[export] Instance blank_dec p : Decision (blank p).
Proof. unfold blank. apply _. Defined.

Lemma get_syscalls_row_some e tbl row :
  get_syscalls_row e tbl = Some row ↔
  tbl !! pin_pod_name e = Some row ∧ ps_pod_namespace row = pin_pod_namespace e ∧
  ps_arch row = pin_arch e.
Proof.
  unfold get_syscalls_row. destruct (tbl !! pin_pod_name e) as [row'|]; [|naive_solver].
  case_bool_decide; naive_solver.
Qed.

(** An entry writes one row: the one of its name, whose namespace and architecture stay. *)
Lemma store_row e tbl tbl' :
  keyed tbl → store_pod_syscalls e tbl = Some tbl' → ¬ blank (pin_pod_name e) →
  ∃ row, tbl' = <[pin_pod_name e := row]> tbl ∧ ps_pod_name row = pin_pod_name e ∧
    ps_syscalls row = String.concat "," (pin_syscalls e) ∧ ps_arch row = pin_arch e ∧
    ps_pod_namespace row = pin_pod_namespace e ∧
    ∀ row0, tbl !! pin_pod_name e = Some row0 → ps_arch row0 = pin_arch e.
Proof.
  intros Hk Hs Hb. unfold store_pod_syscalls in Hs. unfold blank in Hb.
  rewrite bool_decide_eq_false_2 in Hs by done.
  destruct (get_syscalls_row e tbl) as [row|] eqn:Hg.
  - apply get_syscalls_row_some in Hg as (Hr&Hn&Ha). injection Hs as <-. rewrite (Hk _ _ Hr).
    eexists. split_and!; [done|done|done|done|done|]. intros row0 Hr0. congruence.
  - destruct (tbl !! pin_pod_name e) as [row|]; [done|]. injection Hs as <-.
    eexists. by split_and!.
Qed.

Lemma store_keyed e tbl tbl' : keyed tbl → store_pod_syscalls e tbl = Some tbl' → keyed tbl'.
Proof.
  intros Hk Hs. destruct (decide (blank (pin_pod_name e))) as [Hb|Hb].
  { unfold store_pod_syscalls in Hs. rewrite bool_decide_eq_true_2 in Hs by done. by injection Hs as <-. }
  destruct (store_row e tbl tbl' Hk Hs Hb) as (row&->&Hn&_). intros p row'.
  rewrite lookup_insert. case_decide as Hp; [|apply Hk]. intros [= <-]. by subst.
Qed.

(** No entry changes the architecture of a row. *)
Lemma store_arch e tbl tbl' p row :
  keyed tbl → store_pod_syscalls e tbl = Some tbl' → tbl !! p = Some row →
  ∃ row', tbl' !! p = Some row' ∧ ps_arch row' = ps_arch row.
Proof.
  intros Hk Hs Hp. destruct (decide (blank (pin_pod_name e))) as [Hb|Hb].
  { unfold store_pod_syscalls in Hs. rewrite bool_decide_eq_true_2 in Hs by done. injection Hs as <-.
    by exists row. }
  destruct (store_row e tbl tbl' Hk Hs Hb) as (row1&->&_&_&Ha&_&Hold). rewrite lookup_insert.
  case_decide as Hd; [|by exists row]. subst p. exists row1. split; [done|]. rewrite Ha. symmetry. by apply Hold.
Qed.

Lemma create_keyed (w : list PodInputSyscalls) tbl tbl' :
  keyed tbl → create_pod_syscalls w tbl = Some tbl' → keyed tbl'.
Proof.
  revert tbl. induction w as [|e w IH]; intros tbl Hk; simpl; [by intros [= <-]|].
  intros (tbl1&Hs&Hw)%bind_Some. eapply IH; [|done]. by eapply store_keyed.
Qed.

Lemma create_arch (w : list PodInputSyscalls) tbl tbl' p row :
  keyed tbl → create_pod_syscalls w tbl = Some tbl' → tbl !! p = Some row →
  ∃ row', tbl' !! p = Some row' ∧ ps_arch row' = ps_arch row.
Proof.
  revert tbl row. induction w as [|e w IH]; intros tbl row Hk; simpl.
  { intros [= <-] Hp. by exists row. }
  intros (tbl1&Hs&Hw)%bind_Some Hp. destruct (store_arch e tbl tbl1 p row) as (row1&Hp1&<-); [done..|].
  eapply IH; [by eapply store_keyed|done|done].
Qed.

(** The primary key: an entry of another architecture than its row makes the transaction fail. *)
Lemma create_conflict (w : list PodInputSyscalls) e tbl row :
  keyed tbl → e ∈ w → ¬ blank (pin_pod_name e) → tbl !! pin_pod_name e = Some row →
  ps_arch row ≠ pin_arch e → create_pod_syscalls w tbl = None.
Proof.
  intros Hk Hin Hb Hp Ha. destruct (create_pod_syscalls w tbl) as [tbl'|] eqn:Hc; [exfalso|done].
  revert tbl row Hk Hp Ha Hc. induction w as [|e0 w IH]; intros tbl row Hk Hp Ha Hc.
  { by apply not_elem_of_nil in Hin. }
  simpl in Hc. apply bind_Some in Hc as (tbl1&Hs&Hw). apply elem_of_cons in Hin as [->|Hin].
  - destruct (store_row e0 tbl tbl1 Hk Hs Hb) as (_&_&_&_&_&_&Hold). by apply Ha, Hold.
  - destruct (store_arch e0 tbl tbl1 (pin_pod_name e) row) as (row1&Hp1&Ha1); [done..|].
    eapply IH; [done|by eapply store_keyed|exact Hp1|congruence|done].
Qed.

(** Without such entries it succeeds, and the last entry of each name is in its row. *)
Definition agrees tbl e : Prop :=
  ∀ row, tbl !! pin_pod_name e = Some row →
         ps_arch row = pin_arch e ∧ ps_pod_namespace row = pin_pod_namespace e.

Lemma create_accepted (arch ns : string) (w : list PodInputSyscalls) tbl :
  keyed tbl → Forall (λ e, pin_arch e = arch ∧ pin_pod_namespace e = ns ∧ ¬ blank (pin_pod_name e)) w →
  NoDup (pin_pod_name <$> w) → Forall (agrees tbl) w →
  ∃ tbl', create_pod_syscalls w tbl = Some tbl' ∧
    (∀ p, p ∉ pin_pod_name <$> w → tbl' !! p = tbl !! p) ∧
    ∀ e, e ∈ w → ∃ row, tbl' !! pin_pod_name e = Some row ∧
      ps_syscalls row = String.concat "," (pin_syscalls e) ∧ ps_arch row = pin_arch e.
Proof.
  revert tbl. induction w as [|e w IH]; intros tbl Hk Hw Hn Ha.
  { exists tbl. split_and!; [done|done|]. by intros e ?%not_elem_of_nil. }
  apply Forall_cons in Hw as ((Harch&Hns&Hb)&Hw). apply Forall_cons in Ha as [He Ha].
  simpl in Hn. apply NoDup_cons in Hn as [Hp Hn].
  assert (∃ tbl1, store_pod_syscalls e tbl = Some tbl1) as (tbl1&Hs).
  { unfold store_pod_syscalls. rewrite bool_decide_eq_false_2 by done.
    destruct (get_syscalls_row e tbl) as [row|] eqn:Hg; [by eexists|].
    destruct (tbl !! pin_pod_name e) as [row|] eqn:Hr; [exfalso|by eexists].
    destruct (He row Hr) as [H1 H2]. pose proof (proj2 (get_syscalls_row_some e tbl row)). naive_solver. }
  destruct (store_row e tbl tbl1 Hk Hs Hb) as (row&Htbl1&_&Hsys&Hrow&_).
  destruct (IH tbl1) as (tbl'&Hc&Hout&Hin).
  - by eapply store_keyed.
  - done.
  - done.
  - rewrite Forall_forall in Ha |- *. intros e' He' row'. subst tbl1. rewrite lookup_insert_ne.
    + by apply Ha.
    + intros Heq. apply Hp. rewrite Heq. by apply list_elem_of_fmap_2.
  - exists tbl'. simpl. rewrite Hs. simpl. split_and!; [done| |].
    + intros p [Hne Hp']%not_elem_of_cons. rewrite Hout by done. subst tbl1. by rewrite lookup_insert_ne.
    + intros e' [->|He']%elem_of_cons; [|by apply Hin]. exists row. split; [|done].
      rewrite Hout by done. subst tbl1. by rewrite lookup_insert_eq.
Qed.

End Table.

(** ** Runs *)

Section Runs.
Context `{SyscallCacheLaws}.
Variable get_name_by_arch : Z → option string.
Variable ARCH : string.
Implicit Types (st : recorder) (y : syscall_delivery) (p x : string) (tbl : syscalls_table).

#[local] Notation record := (record get_name_by_arch ARCH).
#[local] Notation collect := (collect ARCH).
#[local] Notation deliver_syscall_event := (deliver_syscall_event get_name_by_arch ARCH).
#[local] Notation deliver_syscall_events := (deliver_syscall_events get_name_by_arch ARCH).

(** What the recorder makes of an event: a pass that is not answered ends without success. *)
Definition recorder_part (e : syscall_delivery_event) y : list recorder_event :=
  match e with
  | SyscallSeen event => [SyscallReceived event]
  | PodSeen i pod => [RecorderPodFound i pod]
  | PassBegins utc_now => [PassStarts utc_now]
  | PassPosted a =>
      match posting (rec_tasks y), a with
      | Some (batch, _), Reached answered =>
          match post_syscalls batch (pod_syscalls y) with
          | Some _ => [PassEnds answered]
          | None => [PassEnds false]
          end
      | _, _ => [PassEnds false]
      end
  | OtherSyscalls _ => []
  end.

Lemma deliver_recorder (e : syscall_delivery_event) y :
  rec_tasks (deliver_syscall_event e y) =
  record_all get_name_by_arch ARCH (recorder_part e y) (rec_tasks y).
Proof.
  destruct e as [event|i pod|utc_now|a|batch]; try done;
    unfold SyscallDelivery.deliver_syscall_event, recorder_part.
  - destruct (posting (rec_tasks y)) as [[batch pu]|], a as [|answered]; try done.
    by destruct (post_syscalls _ _).
  - by destruct (create_pod_syscalls _ _).
Qed.

(** *** What is posted *)

Definition well_made (d : SyscallData) : Prop := sd_arch d = ARCH ∧ sd_pod_namespace d = EmptyString.

(** A batch has one entry for each pod. *)
Definition well_made_batch (batch : list SyscallData) : Prop :=
  Forall well_made batch ∧ NoDup (sd_pod_name <$> batch).

Lemma collect_well_made utc_now (l : list (string * gset string)) r :
  Forall well_made r.1.1 → NoDup ((sd_pod_name <$> r.1.1) ++ l.*1) →
  well_made_batch (foldl (λ r entry, collect_one ARCH utc_now entry r) r l).1.1.
Proof.
  revert r. induction l as [|[p s] l IH]; intros [[batch pu] last] Hr Hn.
  { simpl in *. rewrite app_nil_r in Hn. by split. }
  simpl. apply IH; simpl in *; destruct (get_with p last); case_decide; simpl; try done.
  - apply Forall_app. split; [done|]. apply Forall_cons. split; [by split|by apply Forall_nil].
  - eapply sublist_NoDup; [exact Hn|]. apply sublist_app; [done|]. by apply sublist_cons.
  - rewrite fmap_app, <- app_assoc. exact Hn.
Qed.

Definition posting_well_made st : Prop :=
  ∀ batch pu, posting st = Some (batch, pu) → well_made_batch batch.

Lemma record_well_made (e : recorder_event) st : posting_well_made st → posting_well_made (record e st).
Proof.
  intros Hp. destruct e as [event|i pod|utc_now|ok]; simpl; [done|done| |].
  - destruct (posting st) as [q|] eqn:Hq; [done|].
    pose proof (collect_well_made utc_now (sc_iter (SYSCALL_CACHE st)) ([], [], LAST_SENT_CACHE st)
      (Forall_nil_2 _) (sc_iter_keys _)) as Hw.
    unfold collect. destruct (foldl _ _ _) as [[batch pu] last]. simpl in *.
    intros b q. simpl. destruct batch as [|d batch]; [done|]. by intros [= <- <-].
  - destruct (posting st) as [[batch pu]|]; [|done]. by intros b q.
Qed.

Lemma record_all_well_made (es : list recorder_event) st :
  posting_well_made st → posting_well_made (record_all get_name_by_arch ARCH es st).
Proof. revert st. induction es as [|e es IH]; intros st Hp; [done|]. by apply IH, record_well_made. Qed.

(** *** A pod whose row is of another architecture *)

Section Blocked.
Variable names : list string.
Hypothesis names_fit : Z.of_nat (length names) < SYSCALL_CACHE_CAPACITY.
Variable p : string.
Hypothesis p_not_blank : ¬ blank p.

(** The pod has made a system call, of which the broker knows nothing; its row is of a machine of
    another architecture; a post in progress holds its entry. *)
Record blocked st tbl : Prop := {
  bl_room : in_room names st;
  bl_seen : ∃ s x, sc_get p (SYSCALL_CACHE st) = Some s ∧ x ∈ s;
  bl_unsent : holds_only (λ p' _, p' ≠ p) (LAST_SENT_CACHE st);
  bl_made : posting_well_made st;
  bl_posting batch pu : posting st = Some (batch, pu) → ∃ d, d ∈ batch ∧ sd_pod_name d = p;
  bl_keyed : keyed tbl;
  bl_row : ∃ row, tbl !! p = Some row ∧ ps_arch row ≠ ARCH
}.

Lemma record_blocked (e : recorder_event) st tbl :
  finds names e → e ≠ PassEnds true → blocked st tbl →
  blocked (record e st) tbl ∧ acked_syscalls (record e st) = acked_syscalls st.
Proof.
  intros He Hne [Hroom (s&x&Hs&Hx) Hl Hm Hp Hk Hr].
  pose proof (record_room get_name_by_arch ARCH names names_fit e st Hroom He) as Hroom'.
  destruct (record_keeps get_name_by_arch ARCH names names_fit e st p s Hroom Hs) as (s'&Hs'&Hsub).
  pose proof (record_well_made e st Hm) as Hm'.
  assert (∃ s x, sc_get p (SYSCALL_CACHE (record e st)) = Some s ∧ x ∈ s) as Hseen.
  { exists s', x. split; [done|by apply Hsub]. }
  destruct e as [event|i pod|utc_now|ok].
  - by split; [split|].
  - by split; [split|].
  - simpl in *. destruct (posting st) as [q|] eqn:Hq; [by split; [split; rewrite ?Hq|]|].
    destruct (collect_collected ARCH utc_now (λ p' _, p' ≠ p) (λ _ _, True) (sc_iter (SYSCALL_CACHE st))
      ([], [], LAST_SENT_CACHE st)) as ([_ _ Hl']&_&Hall); [done| |].
    { split; simpl; [done|by intros ??? ?%not_elem_of_nil|done]. }
    apply sc_iter_get in Hs. specialize (Hall p s x Hs Hx) as [Hpost|]; [|done].
    unfold SyscallRecorder.collect in *. destruct (foldl _ _ _) as [[batch pu] last]. simpl in *.
    split; [|done]. split; simpl; try done. intros b q. destruct batch as [|d batch]; [done|].
    intros [= <- <-]. destruct Hpost as (d'&?&?&_). by exists d'.
  - destruct ok; [done|]. simpl in *. destruct (posting st) as [[batch pu]|] eqn:Hq.
    + simpl in *. split; [by split|]. by rewrite app_nil_r.
    + split; [|done]. split; try done; by rewrite Hq.
Qed.

Lemma blocked_post batch pu st tbl :
  blocked st tbl → posting st = Some (batch, pu) → post_syscalls batch tbl = None.
Proof.
  intros [_ _ _ Hm Hp Hk (row&Hrow&Harch)] Hq. destruct (Hp batch pu Hq) as (d&Hd&Hn).
  destruct (Hm batch pu Hq) as [Hw _]. rewrite Forall_forall in Hw. destruct (Hw d Hd) as [Ha _].
  apply (create_conflict _ (wire_syscalls d) tbl row); [done|by apply list_elem_of_fmap_2|..]; simpl;
    by rewrite ?Hn, ?Ha.
Qed.

Definition finds_pod (e : syscall_delivery_event) : Prop :=
  match e with PodSeen _ pod => pi_pod_name (status pod) ∈ names | _ => True end.

Lemma deliver_blocked (e : syscall_delivery_event) y :
  finds_pod e → blocked (rec_tasks y) (pod_syscalls y) →
  let y' := deliver_syscall_event e y in
  blocked (rec_tasks y') (pod_syscalls y') ∧
  acked_syscalls (rec_tasks y') = acked_syscalls (rec_tasks y).
Proof.
  intros He Hb. destruct e as [event|i pod|utc_now|a|batch]; cbv zeta.
  - by apply (record_blocked (SyscallReceived event)).
  - by apply (record_blocked (RecorderPodFound i pod)).
  - by apply (record_blocked (PassStarts utc_now)).
  - assert (deliver_syscall_event (PassPosted a) y =
      {| rec_tasks := record (PassEnds false) (rec_tasks y); pod_syscalls := pod_syscalls y |}) as ->.
    { unfold SyscallDelivery.deliver_syscall_event. destruct (posting (rec_tasks y)) as [[batch pu]|] eqn:Hq, a;
        try done. by rewrite (blocked_post batch pu _ _ Hb Hq). }
    by apply (record_blocked (PassEnds false)).
  - simpl. destruct (create_pod_syscalls batch (pod_syscalls y)) as [tbl|] eqn:Hc; [|done].
    split; [|done]. destruct Hb as [? ? ? ? ? Hk (row&Hrow&Harch)]. split; try done; simpl.
    + by eapply create_keyed.
    + destruct (create_arch batch (pod_syscalls y) tbl p row) as (row'&?&?); [done..|].
      exists row'. split; [done|congruence].
Qed.

Lemma deliver_events_blocked (es : list syscall_delivery_event) y :
  Forall finds_pod es → blocked (rec_tasks y) (pod_syscalls y) →
  acked_syscalls (rec_tasks (deliver_syscall_events es y)) = acked_syscalls (rec_tasks y).
Proof.
  intros He. revert y. induction He as [|e es He _ IH]; intros y Hb; [done|].
  destruct (deliver_blocked e y He Hb) as [Hb' Ha]. rewrite <- Ha. by apply IH.
Qed.

End Blocked.
Lemma deliver_all_well_made (es : list syscall_delivery_event) y :
  posting_well_made (rec_tasks y) → posting_well_made (rec_tasks (deliver_syscall_events es y)).
Proof.
  revert y. induction es as [|e es IH]; intros y Hy; [done|]. apply IH.
  rewrite deliver_recorder. by apply record_all_well_made.
Qed.

Lemma deliver_all_keyed (es : list syscall_delivery_event) y :
  keyed (pod_syscalls y) → keyed (pod_syscalls (deliver_syscall_events es y)).
Proof.
  revert y. induction es as [|e es IH]; intros y Hy; [done|]. apply IH.
  destruct e as [event|i pod|utc_now|a|batch]; try done; simpl.
  - destruct (posting (rec_tasks y)) as [[batch pu]|], a as [|answered]; try done.
    destruct (post_syscalls _ _) eqn:Hc; [|done]. by eapply create_keyed.
  - destruct (create_pod_syscalls _ _) eqn:Hc; [|done]. by eapply create_keyed.
Qed.

Lemma new_recorder_well_made cm : posting_well_made (new_recorder cm).
Proof. by intros batch pu. Qed.

(** ** Theorems *)

(** Each pod of the batch has a name, and no row of another machine or of a namespace of its own. *)
Definition accepts_batch y batch : Prop :=
  Forall (λ d, ¬ blank (sd_pod_name d) ∧
               ∀ row, pod_syscalls y !! sd_pod_name d = Some row →
                      ps_arch row = ARCH ∧ ps_pod_namespace row = EmptyString) batch.

Lemma answered_syscalls cm tbl (es : list syscall_delivery_event) batch (pu : list (string * gset string)) :
  let y := deliver_syscall_events es (new_syscall_delivery cm tbl) in
  let y' := deliver_syscall_event (PassPosted (Reached true)) y in
  keyed tbl → posting (rec_tasks y) = Some (batch, pu) → accepts_batch y batch →
  keyed (pod_syscalls y') ∧ acked_syscalls (rec_tasks y') = acked_syscalls (rec_tasks y) ++ [batch] ∧
  (∀ p, p ∉ sd_pod_name <$> batch → pod_syscalls y' !! p = pod_syscalls y !! p) ∧
  ∀ d, d ∈ batch → ∃ row, pod_syscalls y' !! sd_pod_name d = Some row ∧
    ps_syscalls row = String.concat "," (sd_syscalls d) ∧ ps_arch row = ARCH.
Proof.
  intros y y' Hk Hq Hb. unfold accepts_batch in Hb.
  destruct (deliver_all_well_made es (new_syscall_delivery cm tbl) (new_recorder_well_made cm) batch pu Hq)
    as [Hw Hn]. rewrite Forall_forall in Hb, Hw.
  assert (pin_pod_name <$> (wire_syscalls <$> batch) = sd_pod_name <$> batch) as Hnames
    by by rewrite <- list_fmap_compose.
  destruct (create_accepted ARCH EmptyString (wire_syscalls <$> batch) (pod_syscalls y)) as (tbl'&Hc&Ho&Hi).
  - by apply deliver_all_keyed.
  - apply Forall_fmap, Forall_forall. intros d Hd. destruct (Hw d Hd) as [Ha Hns].
    by destruct (Hb d Hd) as [Hbl _].
  - by rewrite Hnames.
  - apply Forall_fmap, Forall_forall. intros d Hd row. simpl. destruct (Hw d Hd) as [-> ->].
    by apply (Hb d Hd).
  - assert (y' = {| rec_tasks := record (PassEnds true) (rec_tasks y); pod_syscalls := tbl' |}) as ->.
    { unfold y', SyscallDelivery.deliver_syscall_event, post_syscalls. by rewrite Hq, Hc. }
    rewrite Hnames in Ho. split_and!; simpl; [|by rewrite Hq|done|].
    { eapply create_keyed; [|exact Hc]. by apply deliver_all_keyed. }
    intros d Hd. destruct (Hi (wire_syscalls d)) as (row&Hr&Hs&Ha); [by apply list_elem_of_fmap_2|].
    exists row. split_and!; [done|done|]. rewrite Ha. by destruct (Hw d Hd).
Qed.

(** a pass that is answered is stored.  While no pod of the batch has a row of another machine or
    of a namespace of its own, and each has a name, the broker accepts the batch, and then the row of
    each pod holds the names posted for it; the other rows are as before. *)
Theorem answered_pass_is_stored cm tbl (es : list syscall_delivery_event) batch
    (pu : list (string * gset string)) :
  let y := deliver_syscall_events es (new_syscall_delivery cm tbl) in
  let y' := deliver_syscall_event (PassPosted (Reached true)) y in
  keyed tbl → posting (rec_tasks y) = Some (batch, pu) →
  Forall (λ d, ¬ blank (sd_pod_name d) ∧
               ∀ row, pod_syscalls y !! sd_pod_name d = Some row →
                      ps_arch row = ARCH ∧ ps_pod_namespace row = EmptyString) batch →
  acked_syscalls (rec_tasks y') = acked_syscalls (rec_tasks y) ++ [batch] ∧
  (∀ p, p ∉ sd_pod_name <$> batch → pod_syscalls y' !! p = pod_syscalls y !! p) ∧
  ∀ d, d ∈ batch → ∃ row, pod_syscalls y' !! sd_pod_name d = Some row ∧
    ps_syscalls row = String.concat "," (sd_syscalls d).
Proof.
  intros y y' Hk Hq Hb. destruct (answered_syscalls cm tbl es batch pu Hk Hq Hb) as (_&Ha&Ho&Hi).
  split_and!; [done|done|]. intros d Hd. destruct (Hi d Hd) as (row&?&?&_). by exists row.
Qed.

(** one pod can silence a node.  A pod has made a system call that the broker does not know of, and
    its row is of another architecture, as when it was rescheduled; [pod_name] being the primary key,
    every batch fails as a whole.  From then on no post of this controller is accepted, about any
    pod, however many passes there are, as long as the caches forget nothing. *)
Theorem rescheduled_pod_silences_node (names : list string) p y (es : list syscall_delivery_event)
    row s x :
  Z.of_nat (length names) < SYSCALL_CACHE_CAPACITY →
  in_room names (rec_tasks y) → Forall (finds_pod names) es →
  ¬ blank p → keyed (pod_syscalls y) → pod_syscalls y !! p = Some row → ps_arch row ≠ ARCH →
  sc_get p (SYSCALL_CACHE (rec_tasks y)) = Some s → x ∈ s →
  (∀ s', sc_get p (LAST_SENT_CACHE (rec_tasks y)) = Some s' → s' = ∅) →
  posting (rec_tasks y) = None →
  acked_syscalls (rec_tasks (deliver_syscall_events es y)) = acked_syscalls (rec_tasks y).
Proof.
  intros Hn Hroom He Hb Hk Hrow Ha Hs Hx Hl Hq.
  apply (deliver_events_blocked names Hn p Hb es y He). split; try done.
  - by exists s, x.
  - intros p' s' x' Hs' Hx' ->. by rewrite (Hl s' Hs') in Hx'.
  - intros batch pu. by rewrite Hq.
  - intros batch pu. by rewrite Hq.
  - by exists row.
Qed.

End Runs.

(** * At concrete runs *)

#[local] Notation run es y := (deliver_syscall_events wit_name "x86_64" es y).

(** Another pod has a row; the first post of web is lost; then web makes one more system call. *)
Definition wit_rows : syscalls_table :=
  {["db"%string := MkPodSyscalls "db" EmptyString "read" "aarch64" 5]}.
Definition wit_passes : list syscall_delivery_event :=
  [SyscallSeen (7, 59); PassBegins wit_clock; PassPosted Unreached; SyscallSeen (7, 0);
   PassBegins wit_clock].

Definition wit_batch : list SyscallData :=
  [MkSyscallData "web" EmptyString ["execve"; "read"]%string "x86_64" 20].
Definition wit_pending : list (string * gset string) :=
  [("web"%string, {["execve"%string; "read"%string]})].

Lemma wit_posting :
  posting (rec_tasks (run wit_passes (new_syscall_delivery wit_pods wit_rows))) =
    Some (wit_batch, wit_pending).
Proof. by vm_compute. Qed.

Lemma wit_keyed (p arch : string) (row : PodSyscalls) : ps_pod_name row = p → keyed {[p := row]}.
Proof. intros Hp p' row'. rewrite lookup_singleton. case_decide; [|done]. intros [= <-]. by subst. Qed.

Lemma wit_web_absent :
  pod_syscalls (run wit_passes (new_syscall_delivery wit_pods wit_rows)) !! "web"%string = None.
Proof. by vm_compute. Qed.

Lemma answered_pass_is_stored_witness :
  ∃ row,
    pod_syscalls (deliver_syscall_event wit_name "x86_64" (PassPosted (Reached true))
      (run wit_passes (new_syscall_delivery wit_pods wit_rows))) !! "web"%string = Some row ∧
    ps_syscalls row = "execve,read"%string.
Proof.
  refine (proj2 (proj2 (answered_pass_is_stored wit_name "x86_64" wit_pods wit_rows wit_passes wit_batch
    wit_pending _ wit_posting _)) (MkSyscallData "web" EmptyString ["execve"; "read"]%string "x86_64" 20) _).
  - by apply (wit_keyed "db" "aarch64").
  - apply Forall_cons. split; [|by apply Forall_nil]. split; [by intros ?|]. intros row.
    change (sd_pod_name _) with "web"%string. rewrite wit_web_absent. done.
  - by left.
Defined.

(** The pod web has moved here from a machine of another architecture. *)
Definition wit_moved_rows : syscalls_table :=
  {["web"%string := MkPodSyscalls "web" EmptyString "read" "aarch64" 5]}.
Definition wit_moved : syscall_delivery :=
  run [SyscallSeen (7, 59)] (new_syscall_delivery wit_pods wit_moved_rows).

(** Another pod is found and makes a system call; it is not told either. *)
Definition wit_db : PodInspect :=
  MkPodInspect None (MkPodInfo "db" (Some "prod"%string) "10.0.0.9")
    (MkInfo (MkConfig (MkMetadata EmptyString EmptyString EmptyString))) None None None (Some 9).
Definition wit_silenced : list syscall_delivery_event :=
  [PodSeen 9 wit_db; SyscallSeen (9, 59); PassBegins wit_clock; PassPosted (Reached true);
   PassBegins wit_clock; PassPosted (Reached true)].

Lemma wit_moved_room : in_room ["web"; "db"]%string (rec_tasks wit_moved).
Proof.
  apply (record_room wit_name "x86_64" ["web"; "db"]%string ltac:(done) (SyscallReceived (7, 59))
    (new_recorder wit_pods)); [|done].
  apply new_recorder_room. intros i pod. unfold wit_pods. rewrite lookup_singleton.
  case_decide; [|done]. intros [= <-]. by left.
Qed.

Lemma wit_moved_seen :
  sc_get "web" (SYSCALL_CACHE (rec_tasks wit_moved)) = Some {["execve"%string]} ∧
  sc_get "web" (LAST_SENT_CACHE (rec_tasks wit_moved)) = None.
Proof. by vm_compute. Qed.

Lemma rescheduled_pod_silences_node_witness :
  acked_syscalls (rec_tasks (run wit_silenced wit_moved)) = [] ∧
  posting (rec_tasks (run (take 3 wit_silenced) wit_moved)) ≠ None.
Proof.
  split; [|by vm_compute].
  refine (rescheduled_pod_silences_node wit_name "x86_64" ["web"; "db"]%string "web" wit_moved
    wit_silenced (MkPodSyscalls "web" EmptyString "read" "aarch64" 5) {["execve"%string]} "execve"
    _ wit_moved_room _ _ _ _ _ (proj1 wit_moved_seen) _ _ _).
  - done.
  - repeat (apply Forall_cons; split; [try exact I|]); [|by apply Forall_nil].
    right. by left.
  - by intros ?.
  - by apply (wit_keyed "web" "aarch64").
  - by vm_compute.
  - done.
  - set_solver.
  - intros s'. rewrite (proj2 wit_moved_seen). done.
  - by vm_compute.
Defined.
