(* ===== verification/PodDetails.v ===== *)
(** * broker: the table of the pods

    The handlers of [/pod/spec], [/pod/mark_dead] and [/svc/spec] (add.rs), the query of
    [/pod/list/<node>], and the compaction of the manifests (get.rs). *)

From S2P Require Import Prelude RustStd.

(** ** [serde_json::Value] *)

(** The fields of an object, each key once. *)
Inductive value : Type :=
| Null
| Bool (b : bool)
| Number (n : Z)
| Text (s : string)
| Array (l : list value)
| Object (fields : list (string * value)).

Fixpoint field (k : string) (fields : list (string * value)) : option value :=
  match fields with
  | [] => None
  | (k', v) :: fields => if decide (k' = k) then Some v else field k fields
  end.

Definition get (k : string) (v : value) : option value :=
  match v with Object fields => field k fields | _ => None end.

(** [insert] of a key that is present. *)
Definition replace_field (k : string) (v : value) (fields : list (string * value)) :
    list (string * value) :=
  (λ kv, if decide (kv.1 = k) then (k, v) else kv) <$> fields.

Definition remove_field (k : string) (fields : list (string * value)) : list (string * value) :=
  filter (λ kv, kv.1 ≠ k) fields.

(** [if let Some(meta) = obj.get_mut(..)]: an object under the key loses a field. *)
Definition remove_in (k sub : string) (fields : list (string * value)) : list (string * value) :=
  (λ kv, if decide (kv.1 = k)
         then (kv.1, match kv.2 with Object meta => Object (remove_field sub meta) | v => v end)
         else kv) <$> fields.

Definition is_null (v : value) : bool := match v with Null => true | _ => false end.

Definition compact_pod_obj (v : value) : value :=
  match v with
  | Object obj =>
      let host_network :=
        match field "spec" obj ≫= get "hostNetwork" with
        | Some hn => if is_null hn then None else Some hn
        | None => None
        end in
      let obj :=
        match host_network with
        | Some hn => replace_field "spec" (Object [("hostNetwork"%string, hn)]) obj
        | None => remove_field "spec" obj
        end in
      let obj := remove_field "status" obj in
      Object (remove_in "metadata" "managedFields" obj)
  | _ => v
  end.

Definition compact_svc_spec (v : value) : value :=
  match v with
  | Object obj => Object (remove_in "metadata" "managedFields" (remove_field "status" obj))
  | _ => v
  end.

(** ** pod_details *)

Record PodDetail : Type := MkPodDetail {
  pod_name : string;
  pod_ip : string;
  pod_namespace : option string;
  pod_obj : option value;
  time_stamp : Z;
  node_name : string;
  is_dead : bool;
  pod_identity : option string;
  workload_selector_labels : option value
}.

(** [pod_details]; [pod_name] is its primary key. *)
Abbreviation details_table := (gmap string PodDetail).

(** [.set(&w)]: a field that is [None] leaves its column as it is. *)
Definition changeset {A : Type} (new old : option A) : option A :=
  match new with Some _ => new | None => old end.

Definition upsert_pod_details (w : PodDetail) (pod_details : details_table) : details_table :=
  let w := {|
    pod_name := pod_name w; pod_ip := pod_ip w; pod_namespace := pod_namespace w;
    pod_obj := compact_pod_obj <$> pod_obj w; time_stamp := time_stamp w;
    node_name := node_name w; is_dead := is_dead w; pod_identity := pod_identity w;
    workload_selector_labels := workload_selector_labels w |} in
  match pod_details !! pod_name w with
  | None => <[pod_name w := w]> pod_details
  | Some row =>
      <[pod_name w := {|
        pod_name := pod_name row; pod_ip := pod_ip w;
        pod_namespace := changeset (pod_namespace w) (pod_namespace row);
        pod_obj := changeset (pod_obj w) (pod_obj row); time_stamp := time_stamp w;
        node_name := node_name w; is_dead := is_dead w;
        pod_identity := changeset (pod_identity w) (pod_identity row);
        workload_selector_labels :=
          changeset (workload_selector_labels w) (workload_selector_labels row) |}]> pod_details
  end.

Definition add_pod_details (form : PodDetail) (pod_details : details_table) : details_table :=
  if bool_decide (trim (pod_name form) = EmptyString) then pod_details
  else upsert_pod_details form pod_details.

Definition set_dead (row : PodDetail) : PodDetail :=
  {| pod_name := pod_name row; pod_ip := pod_ip row; pod_namespace := pod_namespace row;
     pod_obj := pod_obj row; time_stamp := time_stamp row; node_name := node_name row;
     is_dead := true; pod_identity := pod_identity row;
     workload_selector_labels := workload_selector_labels row |}.

(** The number of rows updated, and the table. *)
Definition mark_pod_as_dead (pod : string) (ip : option string) (pod_details : details_table) :
    nat * details_table :=
  let pod := trim pod in
  if bool_decide (pod = EmptyString) then (0%nat, pod_details) else
  let ip := match trim <$> ip with
            | Some s => if bool_decide (s = EmptyString) then None else Some s
            | None => None
            end in
  match pod_details !! pod with
  | None => (0%nat, pod_details)
  | Some row =>
      match ip with
      | Some precise_ip =>
          if bool_decide (pod_ip row = precise_ip)
          then (1%nat, <[pod := set_dead row]> pod_details)
          else (0%nat, pod_details)
      | None => (1%nat, <[pod := set_dead row]> pod_details)
      end
  end.

(** The rows of a node that are not dead; their order is left open. *)
Definition pods_by_node (node : string) (pod_details : details_table) : list PodDetail :=
  filter (λ row, node_name row = node ∧ is_dead row = false) (snd <$> map_to_list pod_details).

(** ** svc_details *)

Record SvcDetail : Type := MkSvcDetail {
  svc_ip : string;
  svc_name : option string;
  svc_namespace : option string;
  service_spec : option value;
  svc_time_stamp : Z
}.

Abbreviation svc_table := (gmap string SvcDetail).

Definition is_routable_svc_ip (s : string) : bool :=
  negb (bool_decide (s = EmptyString)) && negb (bool_decide (s = "None"%string)).

Definition upsert_svc_details (w : SvcDetail) (svc_details : svc_table) : svc_table :=
  let w := {| svc_ip := svc_ip w; svc_name := svc_name w; svc_namespace := svc_namespace w;
              service_spec := compact_svc_spec <$> service_spec w;
              svc_time_stamp := svc_time_stamp w |} in
  match svc_details !! svc_ip w with
  | None => <[svc_ip w := w]> svc_details
  | Some row =>
      <[svc_ip w := {|
        svc_ip := svc_ip row; svc_name := changeset (svc_name w) (svc_name row);
        svc_namespace := changeset (svc_namespace w) (svc_namespace row);
        service_spec := changeset (service_spec w) (service_spec row);
        svc_time_stamp := svc_time_stamp w |}]> svc_details
  end.

Definition add_svc_details (form : SvcDetail) (svc_details : svc_table) : svc_table :=
  if is_routable_svc_ip (svc_ip form) then upsert_svc_details form svc_details else svc_details.
