(* ===== verification/Reconciler.v ===== *)
(** * controller/src/pod_reconciler.rs

    The task of each node that marks dead the rows of the pods that are gone, with the cluster, the
    watchers that write the rows, and the table of the broker: everything between two requests may
    interleave. *)

From S2P Require Import Prelude RustStd PodDetails.

Definition PodIdent : Type := option string * string.

Definition ident (p : PodDetail) : PodIdent := (pod_namespace p, pod_name p).

Definition find_dead_pod_details (db_pods : list PodDetail) (running : gset PodIdent) :
    list PodDetail :=
  filter (λ p, ident p ∉ running) db_pods.

(** A pod that has an address. *)
Record pod : Type := MkPod {
  metadata_namespace : option string;
  metadata_name : string;
  status_pod_ip : string;
  spec_node_name : string
}.

#[export] Instance pod_eq_dec : EqDecision pod.
Proof. solve_decision. Defined.

(** [pods_api.list(spec.nodeName=node)]: names and namespaces. *)
Definition running_pods (node : string) (live : list pod) : gset PodIdent :=
  list_to_set ((λ p, (metadata_namespace p, metadata_name p)) <$>
               filter (λ p, spec_node_name p = node) live).

(** Where the task of a node is in its pass. *)
Inductive phase : Type :=
| Waiting
| Fetched (db_pods : list PodDetail)
| Marking (dead : list PodDetail).

(** [started]: the pods that have ever had an address. *)
Record cluster : Type := Cluster {
  live : list pod;
  started : list pod;
  pod_details : details_table;
  reconciler : gmap string phase
}.

Definition phase_of (node : string) (y : cluster) : phase := default Waiting (reconciler y !! node).

Definition set_phase (node : string) (ph : phase) (y : cluster) : cluster :=
  {| live := live y; started := started y; pod_details := pod_details y;
     reconciler := <[node := ph]> (reconciler y) |}.

Definition set_details (tbl : details_table) (y : cluster) : cluster :=
  {| live := live y; started := started y; pod_details := tbl; reconciler := reconciler y |}.

(** [update_pods_details] (pod_watcher.rs): what is posted about a pod with an address. *)
Definition details_of (p : pod) (pod_obj : value) (time_stamp : Z) (pod_identity : option string)
    (workload_selector_labels : option value) : PodDetail :=
  {| pod_name := metadata_name p; pod_ip := status_pod_ip p; pod_namespace := metadata_namespace p;
     PodDetails.pod_obj := Some pod_obj; PodDetails.time_stamp := time_stamp;
     node_name := spec_node_name p; is_dead := false;
     PodDetails.pod_identity := pod_identity;
     PodDetails.workload_selector_labels := workload_selector_labels |}.

Inductive cluster_event : Type :=
| PodStarts (p : pod)
| PodStops (p : pod)
| PodPosted (p : pod) (pod_obj : value) (time_stamp : Z) (pod_identity : option string)
    (workload_selector_labels : option value)
| RowsFetched (node : string)
| PodsListed (node : string)
| DeadPosted (node : string) (arrives : bool)
| PassOver (node : string)
| RowPruned (name : string).

(** A pod has a namespace, and a name and an address that trimming leaves as they are. *)
Definition proper (p : pod) : Prop :=
  is_Some (metadata_namespace p) ∧ trim (metadata_name p) = metadata_name p ∧
  metadata_name p ≠ EmptyString ∧ trim (status_pod_ip p) = status_pod_ip p ∧
  status_pod_ip p ≠ EmptyString.

#[export] Instance proper_dec (p : pod) : Decision (proper p).
Proof. unfold proper. apply _. Defined.

(** [None]: the event cannot happen.  A watcher may post a pod that has stopped since; a pass may end
    at any request that fails; the retention task of the broker deletes rows that are dead. *)
Definition cluster_step (e : cluster_event) (y : cluster) : option cluster :=
  match e with
  | PodStarts p =>
      if bool_decide (proper p)
      then Some {| live := p :: live y; started := p :: started y; pod_details := pod_details y;
                   reconciler := reconciler y |}
      else None
  | PodStops p =>
      Some {| live := filter (λ q, q ≠ p) (live y); started := started y;
              pod_details := pod_details y; reconciler := reconciler y |}
  | PodPosted p pod_obj time_stamp pod_identity workload_selector_labels =>
      if bool_decide (p ∈ started y)
      then Some (set_details
        (add_pod_details (details_of p pod_obj time_stamp pod_identity workload_selector_labels)
           (pod_details y)) y)
      else None
  | RowsFetched node =>
      match phase_of node y with
      | Waiting => Some (set_phase node (Fetched (pods_by_node node (pod_details y))) y)
      | _ => None
      end
  | PodsListed node =>
      match phase_of node y with
      | Fetched db_pods =>
          Some (set_phase node
            (Marking (find_dead_pod_details db_pods (running_pods node (live y)))) y)
      | _ => None
      end
  | DeadPosted node arrives =>
      match phase_of node y with
      | Marking (db_pod :: dead) =>
          let y := set_phase node (Marking dead) y in
          Some (if arrives : bool
                then set_details
                  (mark_pod_as_dead (pod_name db_pod) (Some (pod_ip db_pod)) (pod_details y)).2 y
                else y)
      | _ => None
      end
  | PassOver node => Some (set_phase node Waiting y)
  | RowPruned name =>
      match pod_details y !! name with
      | Some row => if is_dead row then Some (set_details (delete name (pod_details y)) y) else None
      | None => None
      end
  end.

Fixpoint cluster_run (es : list cluster_event) (y : cluster) : option cluster :=
  match es with
  | [] => Some y
  | e :: es => y ← cluster_step e y; cluster_run es y
  end.

Definition new_cluster : cluster := Cluster [] [] ∅ ∅.
