(* ===== verification/ReconcilerThms.v ===== *)
(** * Theorems about the reconciler

    With the theorems at concrete runs. *)

From S2P Require Import Prelude RustStd PodDetails Reconciler.

Implicit Types (y : cluster) (p q : pod) (d row : PodDetail) (tbl : details_table) (node : string).

(** ** The handlers *)

(** What a row or a message says is that of a pod. *)
Definition of_pod p d : Prop :=
  pod_name d = metadata_name p ∧ pod_ip d = status_pod_ip p ∧ pod_namespace d = metadata_namespace p ∧
  node_name d = spec_node_name p.

Lemma add_details_row p (obj : value) (t : Z) (i : option string) (l : option value) tbl :
  proper p →
  ∃ row, add_pod_details (details_of p obj t i l) tbl = <[metadata_name p := row]> tbl ∧
    pod_ip row = status_pod_ip p ∧ pod_namespace row = metadata_namespace p ∧
    node_name row = spec_node_name p ∧ is_dead row = false ∧
    pod_name row = default (metadata_name p) (pod_name <$> tbl !! metadata_name p).
Proof.
  intros ([ns Hns]&Ht&Hne&_). unfold add_pod_details. simpl. rewrite Ht, bool_decide_eq_false_2 by done.
  unfold upsert_pod_details. simpl. destruct (tbl !! metadata_name p) as [row|]; simpl.
  - eexists. split; [done|]. simpl. by rewrite Hns.
  - eexists. by split_and!.
Qed.

Lemma mark_row p tbl :
  proper p →
  (mark_pod_as_dead (metadata_name p) (Some (status_pod_ip p)) tbl).2 =
  match tbl !! metadata_name p with
  | Some row => if bool_decide (pod_ip row = status_pod_ip p)
                then <[metadata_name p := set_dead row]> tbl else tbl
  | None => tbl
  end.
Proof.
  intros (_&Hn&Hn'&Hi&Hi'). unfold mark_pod_as_dead. simpl. rewrite Hn, Hi.
  rewrite !bool_decide_eq_false_2 by done. destruct (tbl !! metadata_name p) as [row|]; [|done].
  by case_bool_decide.
Qed.

(** ** The invariant *)

(** Each row is that of a pod that has started. *)
Definition rows_ok y : Prop :=
  ∀ k row, pod_details y !! k = Some row → pod_name row = k ∧ ∃ p, p ∈ started y ∧ of_pod p row.

(** A reconciler holds rows of its own node, and is about to mark pods that have stopped. *)
Definition phase_ok y node (ph : phase) : Prop :=
  match ph with
  | Waiting => True
  | Fetched db_pods => ∀ d, d ∈ db_pods → node_name d = node ∧ ∃ p, p ∈ started y ∧ of_pod p d
  | Marking dead => ∀ d, d ∈ dead → ∃ p, p ∈ started y ∧ of_pod p d ∧ p ∉ live y
  end.

Record cluster_ok y : Prop := {
  ck_proper p : p ∈ started y → proper p;
  ck_live p : p ∈ live y → p ∈ started y;
  ck_rows : rows_ok y;
  ck_phase node : phase_ok y node (phase_of node y);
  ck_alive p row :
    p ∈ live y → pod_details y !! metadata_name p = Some row → pod_ip row = status_pod_ip p →
    is_dead row = false
}.

(** No two pods that have ever started share their name and address. *)
Definition addresses_fresh y : Prop :=
  NoDup ((λ p, (metadata_name p, status_pod_ip p)) <$> started y).

Lemma fresh_unique y p q :
  addresses_fresh y → p ∈ started y → q ∈ started y → metadata_name p = metadata_name q →
  status_pod_ip p = status_pod_ip q → p = q.
Proof.
  intros Hf [i Hi]%list_elem_of_lookup [j Hj]%list_elem_of_lookup Hn Hip.
  assert (i = j) as ->; [|congruence].
  eapply NoDup_lookup; [exact Hf|..]; rewrite list_lookup_fmap, ?Hi, ?Hj; simpl; [done|].
  by rewrite Hn, Hip.
Qed.

Lemma phase_of_set node node' (ph : phase) y :
  phase_of node' (set_phase node ph y) = if decide (node = node') then ph else phase_of node' y.
Proof. unfold phase_of. simpl. rewrite lookup_insert. by case_decide. Qed.

Lemma set_phase_ok node (ph : phase) y :
  cluster_ok y → phase_ok y node ph → cluster_ok (set_phase node ph y).
Proof.
  intros [H1 H2 H3 H4 H5] Hp. split; try done. intros node'. rewrite phase_of_set.
  case_decide; [by subst|exact (H4 node')].
Qed.

Lemma pods_by_node_elem node tbl d :
  d ∈ pods_by_node node tbl ↔ ∃ k, tbl !! k = Some d ∧ node_name d = node ∧ is_dead d = false.
Proof.
  unfold pods_by_node. rewrite list_elem_of_filter, list_elem_of_fmap. split.
  - intros ([? ?]&[k d']&->&Hin%elem_of_map_to_list). by exists k.
  - intros (k&Hk&?&?). split; [done|]. exists (k, d). split; [done|]. by apply elem_of_map_to_list.
Qed.

Lemma starts_ok p y :
  proper p → cluster_ok y →
  addresses_fresh {| live := p :: live y; started := p :: started y; pod_details := pod_details y;
                     reconciler := reconciler y |} →
  cluster_ok {| live := p :: live y; started := p :: started y; pod_details := pod_details y;
                reconciler := reconciler y |}.
Proof.
  intros Hp [H1 H2 H3 H4 H5] Hf. unfold addresses_fresh in Hf. simpl in Hf.
  apply NoDup_cons in Hf as [Hnew _].
  assert (∀ q, q ∈ started y → metadata_name q = metadata_name p → status_pod_ip q = status_pod_ip p →
    False) as Hother.
  { intros q Hq Hn Hi. apply Hnew. apply list_elem_of_fmap. exists q. by rewrite Hn, Hi. }
  split; simpl.
  - intros q [->|?]%elem_of_cons; auto.
  - intros q [->|?]%elem_of_cons; [by left|right; auto].
  - intros k row Hk. destruct (H3 k row Hk) as (?&q&?&?). split; [done|]. exists q. split; [by right|done].
  - intros node. specialize (H4 node). unfold phase_of in *. simpl. destruct (default _ _) as [|db|dead]; [done|..].
    + intros d Hd. destruct (H4 d Hd) as (?&q&?&?). split; [done|]. exists q. split; [by right|done].
    + intros d Hd. destruct (H4 d Hd) as (q&Hq&Hof&Hl). exists q. split_and!; [by right|done|].
      intros [->|?]%elem_of_cons; [|done]. by eapply (Hother p).
  - intros q row [->|Hq]%elem_of_cons Hr Hi; [|by eapply H5].
    destruct (H3 _ _ Hr) as (Hn&q&Hq&Hof). exfalso. destruct Hof as (Hn'&Hi'&_).
    apply (Hother q Hq); congruence.
Qed.

Lemma stops_ok p y :
  cluster_ok y →
  cluster_ok {| live := filter (λ q, q ≠ p) (live y); started := started y;
                pod_details := pod_details y; reconciler := reconciler y |}.
Proof.
  intros [H1 H2 H3 H4 H5]. split; simpl; [done| |done| |].
  - intros q [_ ?]%list_elem_of_filter. auto.
  - intros node. specialize (H4 node). unfold phase_of in *. simpl. destruct (default _ _) as [|db|dead]; [done|done|].
    intros d Hd. destruct (H4 d Hd) as (q&?&?&Hl). exists q. split_and!; [done|done|].
    by intros [_ ?]%list_elem_of_filter.
  - intros q row [_ ?]%list_elem_of_filter. by apply H5.
Qed.

Lemma posted_ok p (obj : value) (t : Z) (i : option string) (l : option value) y :
  p ∈ started y → cluster_ok y →
  cluster_ok (set_details (add_pod_details (details_of p obj t i l) (pod_details y)) y).
Proof.
  intros Hp [H1 H2 H3 H4 H5].
  destruct (add_details_row p obj t i l (pod_details y) (H1 p Hp)) as (row&->&Hi&Hns&Hnode&Hd&Hn).
  split; simpl; [done|done| |done|].
  - intros k row'. simpl. rewrite lookup_insert. case_decide as Hk; [|by apply H3].
    intros [= <-]. subst k.
    assert (pod_name row = metadata_name p) as Hn'.
    { rewrite Hn. destruct (pod_details y !! metadata_name p) as [row0|] eqn:Hr; [|done].
      simpl. by destruct (H3 _ _ Hr). }
    split; [done|]. exists p. split; [done|]. by split_and!.
  - intros q row' Hq. rewrite lookup_insert. case_decide; [by intros [= <-]|by apply H5].
Qed.

Lemma marked_ok p y :
  addresses_fresh y → p ∈ started y → p ∉ live y → cluster_ok y →
  cluster_ok (set_details
    (mark_pod_as_dead (metadata_name p) (Some (status_pod_ip p)) (pod_details y)).2 y).
Proof.
  intros Hf Hp Hl [H1 H2 H3 H4 H5]. rewrite mark_row by auto.
  destruct (pod_details y !! metadata_name p) as [row|] eqn:Hr; [|by split].
  case_bool_decide as Hi; [|by split]. split; simpl; [done|done| |done|].
  - intros k row'. simpl. rewrite lookup_insert. case_decide as Hk; [|by apply H3].
    intros [= <-]. subst k. exact (H3 _ _ Hr).
  - intros q row' Hq. rewrite lookup_insert. case_decide as Hk; [|by apply H5].
    intros [= <-] Hi'. exfalso. apply Hl. assert (p = q) as ->; [|done].
    apply (fresh_unique y); auto. by rewrite <- Hi'.
Qed.

Lemma pruned_ok (k : string) y :
  cluster_ok y → cluster_ok (set_details (delete k (pod_details y)) y).
Proof.
  intros [H1 H2 H3 H4 H5]. split; simpl; [done|done| |done|].
  - intros k' row. simpl. rewrite lookup_delete. case_decide; [done|]. by apply H3.
  - intros p row Hp. rewrite lookup_delete. case_decide; [done|]. by apply H5.
Qed.

Lemma cluster_step_ok (e : cluster_event) y y' :
  cluster_step e y = Some y' → addresses_fresh y' → cluster_ok y → cluster_ok y'.
Proof.
  intros He Hf Hy. destruct e as [p|p|p obj t i l|node|node|node arrives|node|k]; simpl in He.
  - case_bool_decide; [|done]. injection He as <-. by apply starts_ok.
  - injection He as <-. by apply stops_ok.
  - case_bool_decide; [|done]. injection He as <-. by apply posted_ok.
  - destruct (phase_of node y); try done. injection He as <-. apply set_phase_ok; [done|].
    intros d (k&Hk&Hn&_)%pods_by_node_elem. split; [done|]. by destruct (ck_rows y Hy k d Hk) as [_ ?].
  - pose proof (ck_phase y Hy node) as Hph. destruct (phase_of node y) as [|db|]; try done.
    injection He as <-. apply set_phase_ok; [done|]. intros d [Hd Hin]%list_elem_of_filter.
    destruct (Hph d Hin) as (Hn&p&Hp&Hof). exists p. split_and!; [done|done|]. intros Hl. apply Hd.
    destruct Hof as (H1&_&H3&H4). unfold running_pods, ident. rewrite H1, H3.
    apply elem_of_list_to_set, list_elem_of_fmap. exists p. split; [done|].
    apply list_elem_of_filter. split; [congruence|done].
  - pose proof (ck_phase y Hy node) as Hph. destruct (phase_of node y) as [| |[|d dead]]; try done.
    injection He as <-. destruct (Hph d) as (p&Hp&(Hn&Hi&_)&Hl); [by left|].
    assert (cluster_ok (set_phase node (Marking dead) y)) as Hy1.
    { apply set_phase_ok; [done|]. intros d' Hd'. apply Hph. by right. }
    destruct arrives; [|done]. rewrite Hn, Hi in *. by apply (marked_ok p (set_phase node (Marking dead) y)).
  - injection He as <-. by apply set_phase_ok.
  - destruct (pod_details y !! k) as [row|]; [|done]. destruct (is_dead row); [|done].
    injection He as <-. by apply pruned_ok.
Qed.

(** What has started never changes but at the front. *)
Lemma cluster_step_started (e : cluster_event) y y' :
  cluster_step e y = Some y' → addresses_fresh y' → addresses_fresh y.
Proof.
  unfold addresses_fresh. intros He Hf.
  assert (started y' = started y ∨ ∃ p, started y' = p :: started y) as [Hs|[p Hs]].
  { destruct e as [p|p|p obj t i l|node|node|node arrives|node|k]; simpl in He; repeat case_match;
      simplify_eq; simpl; eauto. }
  - by rewrite Hs in Hf.
  - rewrite Hs in Hf. simpl in Hf. by apply NoDup_cons in Hf as [_ ?].
Qed.

Lemma cluster_run_fresh (es : list cluster_event) y y' :
  cluster_run es y = Some y' → addresses_fresh y' → addresses_fresh y.
Proof.
  revert y. induction es as [|e es IH]; intros y; simpl; [by intros [= ->]|].
  intros (y1&He&Hes)%bind_Some Hf. eapply cluster_step_started; [done|]. by eapply IH.
Qed.

Lemma cluster_run_ok (es : list cluster_event) y y' :
  cluster_run es y = Some y' → addresses_fresh y' → cluster_ok y → cluster_ok y'.
Proof.
  revert y. induction es as [|e es IH]; intros y; simpl; [by intros [= ->]|].
  intros (y1&He&Hes)%bind_Some Hf Hy. eapply IH; [done|done|]. eapply cluster_step_ok; [done| |done].
  by eapply cluster_run_fresh.
Qed.

Lemma new_cluster_ok : cluster_ok new_cluster.
Proof.
  split; simpl.
  - by intros p ?%not_elem_of_nil.
  - by intros p ?%not_elem_of_nil.
  - intros k row. simpl. by rewrite lookup_empty.
  - intros node. unfold phase_of. simpl. by rewrite lookup_empty.
  - by intros p row ?%not_elem_of_nil.
Qed.

(** ** A pass that nothing disturbs *)

Lemma marks_rows y node (dead : list PodDetail) :
  cluster_ok y → addresses_fresh y → phase_of node y = Marking dead → NoDup (pod_name <$> dead) →
  (∀ d, d ∈ dead → pod_details y !! pod_name d = Some d) →
  ∃ y', cluster_run (replicate (length dead) (DeadPosted node true)) y = Some y' ∧
    ∀ k, pod_details y' !! k =
         if decide (k ∈ pod_name <$> dead) then set_dead <$> pod_details y !! k else pod_details y !! k.
Proof.
  revert y. induction dead as [|d dead IH]; intros y Hy Hf Hph Hn Hrows.
  { exists y. split; [done|]. intros k. by rewrite decide_False by by intros ?%not_elem_of_nil. }
  simpl in Hn. apply NoDup_cons in Hn as [Hd Hn].
  pose proof (ck_phase y Hy node) as Hp. rewrite Hph in Hp.
  destruct (Hp d) as (p&Hst&(Hname&Hip&_)&Hl); [by left|].
  pose proof (Hrows d ltac:(by left)) as Hr.
  set (y1 := set_details (<[pod_name d := set_dead d]> (pod_details y)) (set_phase node (Marking dead) y)).
  assert (cluster_step (DeadPosted node true) y = Some y1) as Hstep.
  { unfold cluster_step. rewrite Hph, Hname, Hip, mark_row by by apply (ck_proper y Hy). unfold y1. simpl.
    rewrite Hname in *. by rewrite Hr, bool_decide_eq_true_2. }
  destruct (IH y1) as (y'&Hrun&Hrows').
  - by eapply cluster_step_ok.
  - done.
  - unfold y1. change (phase_of node (set_phase node (Marking dead) y) = Marking dead).
    by rewrite phase_of_set, decide_True.
  - done.
  - intros d' Hd'. simpl. rewrite lookup_insert_ne; [apply Hrows; by right|]. intros Heq. apply Hd.
    rewrite Heq. by apply list_elem_of_fmap_2.
  - exists y'. split; [by cbn [length replicate cluster_run]; rewrite Hstep|].
    intros k. rewrite Hrows'. unfold y1. simpl. rewrite lookup_insert.
    destruct (decide (pod_name d = k)) as [<-|Hne].
    + rewrite decide_False by done. rewrite decide_True by by left. by rewrite Hr.
    + destruct (decide (k ∈ pod_name <$> dead)) as [Hin|Hin].
      * by rewrite decide_True by by right.
      * rewrite decide_False; [done|]. by intros [?|?]%elem_of_cons.
Qed.

Lemma pods_by_node_nodup node y :
  rows_ok y → NoDup (pod_name <$> pods_by_node node (pod_details y)).
Proof.
  intros Hr. unfold pods_by_node.
  assert (pod_name <$> (snd <$> map_to_list (pod_details y)) = (map_to_list (pod_details y)).*1) as Hn.
  { rewrite <- list_fmap_compose. apply list_fmap_ext. intros i [k row] Hi. simpl.
    apply list_elem_of_lookup_2, elem_of_map_to_list in Hi. by destruct (Hr k row Hi). }
  eapply sublist_NoDup; [|apply fmap_sublist, sublist_filter]. rewrite Hn. apply NoDup_fst_map_to_list.
Qed.

Lemma run_step (e : cluster_event) (es : list cluster_event) y y1 y' :
  cluster_step e y = Some y1 → cluster_run es y1 = Some y' → cluster_run (e :: es) y = Some y'.
Proof. intros He Hes. simpl. by rewrite He. Qed.

Lemma starts_step p y :
  proper p →
  cluster_step (PodStarts p) y =
  Some (Cluster (p :: live y) (p :: started y) (pod_details y) (reconciler y)).
Proof. intros Hp. simpl. by rewrite bool_decide_eq_true_2. Qed.

Lemma posted_step p (obj : value) (t : Z) (i : option string) (l : option value) y :
  p ∈ started y →
  cluster_step (PodPosted p obj t i l) y =
  Some (set_details (add_pod_details (details_of p obj t i l) (pod_details y)) y).
Proof. intros Hp. unfold cluster_step. by rewrite bool_decide_eq_true_2. Qed.

Lemma fetch_step node y :
  phase_of node y = Waiting →
  cluster_step (RowsFetched node) y =
  Some (set_phase node (Fetched (pods_by_node node (pod_details y))) y).
Proof. intros Hp. unfold cluster_step. by rewrite Hp. Qed.

Lemma list_step node y (db : list PodDetail) :
  phase_of node y = Fetched db →
  cluster_step (PodsListed node) y =
  Some (set_phase node (Marking (find_dead_pod_details db (running_pods node (live y)))) y).
Proof. intros Hp. unfold cluster_step. by rewrite Hp. Qed.

Lemma dead_step node y d (dead : list PodDetail) :
  phase_of node y = Marking (d :: dead) →
  cluster_step (DeadPosted node true) y =
  Some (set_details (mark_pod_as_dead (pod_name d) (Some (pod_ip d)) (pod_details y)).2
          (set_phase node (Marking dead) y)).
Proof. intros Hp. unfold cluster_step. by rewrite Hp. Qed.

(** ** Theorems *)

(** C22: a pod that is alive is not marked dead.  Whatever the interleaving of the starts and stops of
    pods, the posts of the watchers, late ones included, the passes of the reconcilers of all the nodes,
    cut at every request, the failures and the pruning of old rows: while a pod is alive, the row that
    has its name and address is alive too, if no two pods have ever had the same name and address. *)
Theorem live_pod_is_not_marked_dead (es : list cluster_event) y p row :
  cluster_run es new_cluster = Some y → addresses_fresh y →
  p ∈ live y → pod_details y !! metadata_name p = Some row → pod_ip row = status_pod_ip p →
  is_dead row = false.
Proof. intros Hrun Hf. apply (ck_alive y). eapply cluster_run_ok; [done|done|apply new_cluster_ok]. Qed.

(** a pass marks the rows of the pods that are gone, and nothing else.  In any reachable state, a
    pass of the reconciler of a node, when every request succeeds and nothing happens in between, sets
    [is_dead] in the rows of the node that are alive and whose name and namespace no pod of the node
    has; every other row is left as it is. *)
Theorem undisturbed_pass_marks_exactly (es : list cluster_event) y node :
  cluster_run es new_cluster = Some y → addresses_fresh y → phase_of node y = Waiting →
  ∃ n y', cluster_run (RowsFetched node :: PodsListed node :: replicate n (DeadPosted node true)) y =
          Some y' ∧
    ∀ k, pod_details y' !! k =
         (λ row, if decide (node_name row = node ∧ is_dead row = false ∧
                            ident row ∉ running_pods node (live y))
                 then set_dead row else row) <$> pod_details y !! k.
Proof.
  intros Hrun Hf Hph.
  assert (cluster_ok y) as Hy by (eapply cluster_run_ok; [done|done|apply new_cluster_ok]).
  set (dead := find_dead_pod_details (pods_by_node node (pod_details y)) (running_pods node (live y))).
  set (y1 := set_phase node (Fetched (pods_by_node node (pod_details y))) y).
  set (y2 := set_phase node (Marking dead) y1).
  assert (cluster_step (RowsFetched node) y = Some y1) as Hs1 by (unfold cluster_step; by rewrite Hph).
  assert (cluster_step (PodsListed node) y1 = Some y2) as Hs2.
  { unfold cluster_step, y1. by rewrite phase_of_set, decide_True. }
  assert (cluster_ok y2) as Hy2.
  { eapply cluster_step_ok; [exact Hs2|exact Hf|]. by eapply cluster_step_ok. }
  destruct (marks_rows y2 node dead) as (y'&Hmarks&Hrows).
  - done.
  - exact Hf.
  - unfold y2. by rewrite phase_of_set, decide_True.
  - unfold dead, find_dead_pod_details.
    eapply sublist_NoDup; [by apply (pods_by_node_nodup node y), Hy|apply fmap_sublist, sublist_filter].
  - intros d [_ (k&Hk&_)%pods_by_node_elem]%list_elem_of_filter. change (pod_details y !! pod_name d = Some d).
    by destruct (ck_rows y Hy k d Hk) as [-> _].
  - exists (length dead), y'. split.
    { cbn [cluster_run]. rewrite Hs1. cbn [mbind option_bind cluster_run]. by rewrite Hs2. }
    intros k. rewrite Hrows. change (pod_details y2) with (pod_details y).
    destruct (pod_details y !! k) as [row|] eqn:Hk; [|by case_decide]. simpl.
    destruct (ck_rows y Hy k row Hk) as [Hname _].
    assert (k ∈ pod_name <$> dead ↔ node_name row = node ∧ is_dead row = false ∧
            ident row ∉ running_pods node (live y)) as Hiff.
    { unfold dead, find_dead_pod_details. rewrite list_elem_of_fmap. split.
      - intros (d&Hkd&[Hd (k'&Hk'&?&?)%pods_by_node_elem]%list_elem_of_filter).
        assert (d = row) as ->; [|done]. destruct (ck_rows y Hy k' d Hk') as [Hn' _]. congruence.
      - intros (?&?&?). exists row. split; [done|]. apply list_elem_of_filter. split; [done|].
        apply pods_by_node_elem. by exists k. }
    destruct (decide (k ∈ pod_name <$> dead)) as [Hin|Hin].
    + by rewrite decide_True by by apply Hiff.
    + rewrite decide_False by by rewrite <- Hiff. done.
Qed.

(** a pod that comes back with its old address can be marked dead while it is alive.  It restarts,
    and is posted again, between the moment at which the reconciler lists the pods and the one at which
    it posts the dead ones: as a pod of the network of its host, which keeps its address. *)
Theorem restart_with_same_address_is_marked_dead p (obj : value) (t : Z) (i : option string)
    (l : option value) :
  let node := spec_node_name p in
  proper p →
  ∃ y row,
    cluster_run [PodStarts p; PodPosted p obj t i l; RowsFetched node; PodStops p; PodsListed node;
                 PodStarts p; PodPosted p obj t i l; DeadPosted node true] new_cluster = Some y ∧
    p ∈ live y ∧ pod_details y !! metadata_name p = Some row ∧ is_dead row = true ∧
    pod_ip row = status_pod_ip p.
Proof.
  intros node Hp.
  destruct (add_details_row p obj t i l ∅ Hp) as (row1&E1&Hip1&Hns1&Hn1&Hd1&Hname1).
  rewrite lookup_empty in Hname1. simpl in Hname1. rewrite insert_empty in E1.
  set (tbl1 := {[metadata_name p := row1]} : details_table).
  destruct (add_details_row p obj t i l tbl1 Hp) as (row2&E2&Hip2&Hns2&Hn2&Hd2&Hname2).
  unfold tbl1 in *. rewrite insert_singleton_eq in E2. clear Hname2.
  assert (pods_by_node node {[metadata_name p := row1]} = [row1]) as Hrows.
  { unfold pods_by_node. rewrite map_to_list_singleton. simpl. by rewrite filter_cons, decide_True. }
  assert (find_dead_pod_details [row1] (running_pods node []) = [row1]) as Hdead.
  { unfold find_dead_pod_details. rewrite filter_cons, decide_True; [done|]. apply not_elem_of_empty. }
  eexists _, (set_dead row2). split.
  - eapply run_step. { by apply starts_step. }
    eapply run_step. { apply posted_step. by left. }
    cbn [live started pod_details reconciler new_cluster set_details set_phase]. rewrite E1.
    eapply run_step. { apply fetch_step. unfold phase_of. simpl. by rewrite lookup_empty. }
    cbn [live started pod_details reconciler new_cluster set_details set_phase]. rewrite Hrows.
    eapply run_step. { done. }
    cbn [live started pod_details reconciler new_cluster set_details set_phase]. rewrite filter_cons, decide_False by auto. rewrite filter_nil.
    eapply run_step. { apply (list_step node _ [row1]). unfold phase_of. simpl. by rewrite lookup_insert_eq. }
    cbn [live started pod_details reconciler new_cluster set_details set_phase]. rewrite Hdead.
    eapply run_step. { by apply starts_step. }
    eapply run_step. { apply posted_step. by left. }
    cbn [live started pod_details reconciler new_cluster set_details set_phase]. rewrite E2.
    eapply run_step.
    { apply (dead_step node _ row1 []). unfold phase_of. simpl. by rewrite lookup_insert_eq. }
    cbn [cluster_run]. cbn [live started pod_details reconciler new_cluster set_details set_phase]. rewrite Hname1, Hip1, mark_row by done.
    by rewrite lookup_singleton_eq, bool_decide_eq_true_2, insert_singleton_eq by done.
  - split_and!; simpl; [by left|by rewrite lookup_singleton_eq|done|done].
Qed.

(** * At concrete runs *)

(** A pod of a stateful set, before and after it is replaced, and a pod of another node. *)
Definition wit_old : pod := MkPod (Some "prod"%string) "web-0" "10.0.0.1" "node-a".
Definition wit_new : pod := MkPod (Some "prod"%string) "web-0" "10.0.0.7" "node-a".
Definition wit_far : pod := MkPod (Some "prod"%string) "db-0" "10.0.1.1" "node-b".
Definition wit_gone : pod := MkPod (Some "test"%string) "job-1" "10.0.0.2" "node-a".

Definition posts (p : pod) : cluster_event := PodPosted p Null 5 None None.

(** The old pod stops between the two requests of a pass; the new one is posted before the pass marks
    the old one. *)
Definition wit_replaced : list cluster_event :=
  [PodStarts wit_old; posts wit_old; PodStarts wit_far; posts wit_far; PodStarts wit_gone;
   posts wit_gone; RowsFetched "node-b"; RowsFetched "node-a"; PodStops wit_old; PodsListed "node-a";
   PodStarts wit_new; posts wit_new; DeadPosted "node-a" true; PassOver "node-a"; PodStops wit_gone].

Definition cluster_after (es : list cluster_event) : cluster :=
  default new_cluster (cluster_run es new_cluster).

Lemma cluster_after_run (es : list cluster_event) :
  is_Some (cluster_run es new_cluster) →
  cluster_run es new_cluster = Some (cluster_after es).
Proof. unfold cluster_after. by intros [y ->]. Qed.

Lemma wit_replaced_run : cluster_run wit_replaced new_cluster = Some (cluster_after wit_replaced).
Proof. apply cluster_after_run. apply (bool_decide_eq_true_1 (is_Some _)). by vm_compute. Qed.

Lemma wit_replaced_fresh : addresses_fresh (cluster_after wit_replaced).
Proof. apply (bool_decide_eq_true_1 (NoDup _)). by vm_compute. Qed.

Lemma wit_replaced_live : wit_new ∈ live (cluster_after wit_replaced).
Proof. apply (bool_decide_eq_true_1 (_ ∈ _)). by vm_compute. Qed.

Lemma wit_replaced_row :
  pod_details (cluster_after wit_replaced) !! "web-0"%string =
    Some (MkPodDetail "web-0" "10.0.0.7" (Some "prod"%string) (Some Null) 5 "node-a" false None None).
Proof. by vm_compute. Qed.

Lemma live_pod_is_not_marked_dead_witness :
  ∃ row, pod_details (cluster_after wit_replaced) !! "web-0"%string = Some row ∧ is_dead row = false.
Proof.
  eexists. split; [exact wit_replaced_row|].
  refine (live_pod_is_not_marked_dead wit_replaced (cluster_after wit_replaced) wit_new _
    wit_replaced_run wit_replaced_fresh wit_replaced_live wit_replaced_row _).
  reflexivity.
Defined.

Lemma wit_replaced_waiting : phase_of "node-a" (cluster_after wit_replaced) = Waiting.
Proof. by vm_compute. Qed.

Definition wit_gone_detail : PodDetail :=
  MkPodDetail "job-1" "10.0.0.2" (Some "test"%string) (Some Null) 5 "node-a" false None None.

Lemma wit_gone_row :
  pod_details (cluster_after wit_replaced) !! "job-1"%string = Some wit_gone_detail.
Proof. by vm_compute. Qed.

Lemma wit_gone_ident :
  ident wit_gone_detail ∉ running_pods "node-a" (live (cluster_after wit_replaced)).
Proof. apply (bool_decide_eq_true_1 (_ ∉ _)). by vm_compute. Qed.

(** The next pass marks the pod of test. *)
Lemma undisturbed_pass_marks_exactly_witness :
  ∃ y' row, pod_details y' !! "job-1"%string = Some row ∧ is_dead row = true ∧
    ∃ n, cluster_run (RowsFetched "node-a" :: PodsListed "node-a" ::
                      replicate n (DeadPosted "node-a" true)) (cluster_after wit_replaced) = Some y'.
Proof.
  destruct (undisturbed_pass_marks_exactly wit_replaced (cluster_after wit_replaced) "node-a"
    wit_replaced_run wit_replaced_fresh wit_replaced_waiting) as (n&y'&Hrun&Hrows).
  exists y', (set_dead wit_gone_detail). split; [|split; [reflexivity|exists n; exact Hrun]].
  rewrite Hrows, wit_gone_row. cbn [fmap option_fmap option_map].
  rewrite decide_True; [reflexivity|].
  split; [reflexivity|]. split; [reflexivity|exact wit_gone_ident].
Defined.

Lemma wit_old_proper : proper wit_old.
Proof. apply (bool_decide_eq_true_1 _). by vm_compute. Qed.

Lemma restart_with_same_address_is_marked_dead_witness :
  ∃ y row, wit_old ∈ live y ∧ pod_details y !! "web-0"%string = Some row ∧ is_dead row = true.
Proof.
  destruct (restart_with_same_address_is_marked_dead wit_old Null 5 None None wit_old_proper)
    as (y&row&_&Hl&Hr&Hd&_).
  exists y, row. split; [exact Hl|]. split; [exact Hr|exact Hd].
Defined.
