(* ===== verification/RustText.v ===== *)
(** * Splitting, joining and matching of ASCII text

    [str::split], [join], [to_ascii_lowercase] and [trim_matches] of the Rust standard library, with the
    laws that parsers of settings rely on. *)

From Stdlib Require Import Ascii.
From S2P Require Import Prelude RustStd.

#[local] Arguments String.append : simpl nomatch.

(** ** Definitions *)

(** [s.split(sep)]. *)
Fixpoint split (sep : ascii) (s : string) : list string :=
  match s with
  | EmptyString => [EmptyString]
  | String a s =>
      if Ascii.eqb a sep then EmptyString :: split sep s
      else match split sep s with
           | w :: ws => String a w :: ws
           | [] => [String a EmptyString]
           end
  end.

Fixpoint join (sep : string) (ws : list string) : string :=
  match ws with
  | [] => EmptyString
  | [w] => w
  | w :: ws => w +:+ sep +:+ join sep ws
  end.

Definition ascii_lowercase (a : ascii) : ascii :=
  let n := N_of_ascii a in if ((65 <=? n) && (n <=? 90))%N then ascii_of_N (n + 32) else a.

Fixpoint to_ascii_lowercase (s : string) : string :=
  match s with
  | EmptyString => EmptyString
  | String a s => String (ascii_lowercase a) (to_ascii_lowercase s)
  end.

Fixpoint trim_start_matches (c : ascii) (s : string) : string :=
  match s with
  | String a s' => if Ascii.eqb a c then trim_start_matches c s' else s
  | EmptyString => EmptyString
  end.

Fixpoint trim_end_matches (c : ascii) (s : string) : string :=
  match s with
  | String a s' =>
      match trim_end_matches c s' with
      | EmptyString => if Ascii.eqb a c then EmptyString else String a EmptyString
      | t => String a t
      end
  | EmptyString => EmptyString
  end.

Fixpoint strip_prefix (p s : string) : option string :=
  match p, s with
  | EmptyString, _ => Some s
  | String a p, String b s => if Ascii.eqb a b then strip_prefix p s else None
  | String _ _, EmptyString => None
  end.

(** The longest prefix of characters that satisfy [f]. *)
Fixpoint take_while (f : ascii → bool) (s : string) : string :=
  match s with
  | String a s => if f a then String a (take_while f s) else EmptyString
  | EmptyString => EmptyString
  end.

(** ** Predicates on characters *)

Fixpoint all_chars (f : ascii → bool) (s : string) : bool :=
  match s with EmptyString => true | String a s => f a && all_chars f s end.

Definition without (sep : ascii) : string → bool := all_chars (λ a, negb (Ascii.eqb a sep)).

Definition head_char (s : string) : option ascii :=
  match s with EmptyString => None | String a _ => Some a end.

Fixpoint last_char (s : string) : option ascii :=
  match s with
  | EmptyString => None
  | String a EmptyString => Some a
  | String _ s => last_char s
  end.

(** ** Laws *)

Lemma app_assoc_str (a b c : string) : (a +:+ b) +:+ c = a +:+ (b +:+ c).
Proof. induction a as [|x a IH]; simpl; [done|]. by rewrite IH. Qed.

Lemma app_nil_r_str (a : string) : a +:+ "" = a.
Proof. induction a as [|x a IH]; simpl; [done|]. by rewrite IH. Qed.

Lemma all_chars_app (f : ascii → bool) (a b : string) :
  all_chars f (a +:+ b) = all_chars f a && all_chars f b.
Proof. induction a as [|x a IH]; simpl; [done|]. by rewrite IH, andb_assoc. Qed.

Lemma split_nonempty (sep : ascii) (s : string) : split sep s ≠ [].
Proof. destruct s as [|a s]; simpl; [done|]. destruct (Ascii.eqb a sep); [done|]. by destruct (split sep s). Qed.

Lemma split_one (sep : ascii) (w : string) : without sep w = true → split sep w = [w].
Proof.
  unfold without. induction w as [|a w IH]; simpl; [done|]. destruct (Ascii.eqb a sep); simpl; [done|].
  intros Hw. by rewrite IH.
Qed.

Lemma split_app (sep : ascii) (w s : string) :
  without sep w = true → split sep (w +:+ String sep s) = w :: split sep s.
Proof.
  unfold without. induction w as [|a w IH]; simpl; [by rewrite Ascii.eqb_refl|].
  destruct (Ascii.eqb a sep); simpl; [done|]. intros Hw. by rewrite IH.
Qed.

(** [split] undoes [join], and [join] undoes [split]. *)
Lemma split_join (sep : ascii) (ws : list string) :
  ws ≠ [] → Forall (λ w, without sep w = true) ws →
  split sep (join (String sep EmptyString) ws) = ws.
Proof.
  intros Hne Hws. induction Hws as [|w ws Hw Hws IH]; [done|].
  destruct ws as [|w' ws]; [by apply split_one|].
  change (split sep (w +:+ String sep (join (String sep EmptyString) (w' :: ws))) = w :: w' :: ws).
  by rewrite split_app, IH.
Qed.

Lemma join_split (sep : ascii) (s : string) : join (String sep EmptyString) (split sep s) = s.
Proof.
  induction s as [|a s IH]; simpl; [done|]. pose proof (split_nonempty sep s).
  destruct (Ascii.eqb_spec a sep) as [->|]; destruct (split sep s) as [|w ws]; try done.
  - change (String sep (join (String sep EmptyString) (w :: ws)) = String sep s). by rewrite IH.
  - destruct ws; simpl in IH |- *; by rewrite <- IH.
Qed.

Lemma split_without (sep : ascii) (s : string) : Forall (λ w, without sep w = true) (split sep s).
Proof.
  unfold without. induction s as [|a s IH]; simpl; [by repeat constructor|].
  destruct (Ascii.eqb a sep) eqn:E; [by constructor|].
  destruct (split sep s) as [|w ws]; [by repeat constructor; simpl; rewrite E|].
  apply Forall_cons in IH as [Hw Hws]. constructor; [|done]. simpl. by rewrite E, Hw.
Qed.

(** ** Trimming *)

Definition starts_clean (s : string) : bool :=
  match head_char s with Some a => negb (is_whitespace a) | None => true end.
Definition ends_clean (s : string) : bool :=
  match last_char s with Some a => negb (is_whitespace a) | None => true end.

(** No blank at either end. *)
Definition trimmed (s : string) : bool := starts_clean s && ends_clean s.

Lemma trim_start_clean (s : string) : starts_clean (trim_start s) = true.
Proof. induction s as [|a s IH]; simpl; [done|]. destruct (is_whitespace a) eqn:E; [done|]. unfold starts_clean. simpl. by rewrite E. Qed.

Lemma trim_start_id (s : string) : starts_clean s = true → trim_start s = s.
Proof. unfold starts_clean. destruct s as [|a s]; simpl; [done|]. by destruct (is_whitespace a). Qed.

Lemma trim_end_clean (s : string) : ends_clean (trim_end s) = true.
Proof.
  induction s as [|a s IH]; simpl; [done|]. destruct (trim_end s) as [|b t] eqn:E.
  - destruct (is_whitespace a) eqn:W; [done|]. unfold ends_clean. simpl. by rewrite W.
  - exact IH.
Qed.

Lemma trim_end_id (s : string) : ends_clean s = true → trim_end s = s.
Proof.
  induction s as [|a s IH]; [done|]. intros Hs. destruct (decide (s = EmptyString)) as [->|Hne].
  - unfold ends_clean in Hs. simpl in *. by destruct (is_whitespace a).
  - cbn [trim_end]. rewrite IH by (by destruct s). by destruct s.
Qed.

Lemma trim_end_starts (s : string) : starts_clean s = true → starts_clean (trim_end s) = true.
Proof.
  unfold starts_clean. destruct s as [|a s]; simpl; [done|]. intros Ha. destruct (trim_end s); simpl; [|done].
  pose proof Ha as Ha'. apply negb_true_iff in Ha' as ->. done.
Qed.

Lemma trim_trimmed (s : string) : trimmed (trim s) = true.
Proof.
  unfold trimmed, trim. by rewrite trim_end_clean, trim_end_starts by apply trim_start_clean.
Qed.

Lemma trim_id (s : string) : trimmed s = true → trim s = s.
Proof.
  unfold trimmed, trim. intros [Hs He]%andb_true_iff. rewrite trim_start_id by done. by apply trim_end_id.
Qed.

Lemma trim_idemp (s : string) : trim (trim s) = trim s.
Proof. apply trim_id, trim_trimmed. Qed.

Definition blank : string → bool := all_chars is_whitespace.

Lemma trim_start_blank (b s : string) : blank b = true → trim_start (b +:+ s) = trim_start s.
Proof.
  unfold blank. induction b as [|a b IH]; simpl; [done|]. intros [Ha Hb]%andb_true_iff. rewrite Ha.
  exact (IH Hb).
Qed.

Lemma trim_end_blank (b s : string) : blank b = true → trim_end (s +:+ b) = trim_end s.
Proof.
  unfold blank. intros Hb. induction s as [|a s IH]; simpl.
  - induction b as [|a b IH]; simpl; [done|]. simpl in Hb. apply andb_true_iff in Hb as [Ha Hb].
    rewrite (IH Hb). by rewrite Ha.
  - by rewrite IH.
Qed.

(** Blanks around a word are trimmed off. *)
Lemma trim_pad (b s b' : string) :
  blank b = true → blank b' = true → s ≠ EmptyString → trimmed s = true → trim (b +:+ s +:+ b') = s.
Proof.
  intros Hb Hb' Hne [Hs He]%andb_true_iff. unfold trim. rewrite trim_start_blank by done.
  rewrite trim_start_id, trim_end_blank by (destruct s; done). by apply trim_end_id.
Qed.

Lemma trim_blank (b : string) : blank b = true → trim b = EmptyString.
Proof.
  intros Hb. unfold trim. rewrite <- (app_nil_r_str b), trim_start_blank by done. done.
Qed.

Lemma trim_start_all (f : ascii → bool) (s : string) : all_chars f s = true → all_chars f (trim_start s) = true.
Proof.
  induction s as [|a s IH]; simpl; [done|]. intros [Ha Hs]%andb_true_iff.
  destruct (is_whitespace a); simpl; [auto|]. by rewrite Ha, Hs.
Qed.

Lemma trim_end_all (f : ascii → bool) (s : string) : all_chars f s = true → all_chars f (trim_end s) = true.
Proof.
  induction s as [|a s IH]; simpl; [done|]. intros [Ha Hs]%andb_true_iff. specialize (IH Hs).
  destruct (trim_end s) as [|b t]; [|by simpl in *; rewrite Ha].
  destruct (is_whitespace a); simpl; [done|]. by rewrite Ha.
Qed.

Lemma trim_all (f : ascii → bool) (s : string) : all_chars f s = true → all_chars f (trim s) = true.
Proof. intros Hs. by apply trim_end_all, trim_start_all. Qed.

(** ** Slashes, and other repeated characters, at the ends *)

Definition ends_with (c : ascii) (s : string) : bool :=
  match last_char s with Some a => Ascii.eqb a c | None => false end.
Definition starts_with (c : ascii) (s : string) : bool :=
  match head_char s with Some a => Ascii.eqb a c | None => false end.

Lemma trim_end_matches_ends (c : ascii) (s : string) : ends_with c (trim_end_matches c s) = false.
Proof.
  induction s as [|a s IH]; simpl; [done|]. destruct (trim_end_matches c s) as [|b t] eqn:E; [|exact IH].
  destruct (Ascii.eqb a c) eqn:Ha; [done|]. unfold ends_with. simpl. by rewrite Ha.
Qed.

Lemma trim_start_matches_starts (c : ascii) (s : string) : starts_with c (trim_start_matches c s) = false.
Proof.
  induction s as [|a s IH]; simpl; [done|]. destruct (Ascii.eqb a c) eqn:Ha; [done|]. unfold starts_with.
  simpl. by rewrite Ha.
Qed.

Lemma trim_end_matches_id (c : ascii) (s : string) : ends_with c s = false → trim_end_matches c s = s.
Proof.
  induction s as [|a s IH]; [done|]. intros Hs. destruct (decide (s = EmptyString)) as [->|Hne].
  - unfold ends_with in Hs. simpl in *. by rewrite Hs.
  - cbn [trim_end_matches]. rewrite IH by (by destruct s). by destruct s.
Qed.

Lemma trim_start_matches_id (c : ascii) (s : string) : starts_with c s = false → trim_start_matches c s = s.
Proof. unfold starts_with. destruct s as [|a s]; simpl; [done|]. intros Ha. by rewrite Ha. Qed.

(** ** Prefixes *)

Lemma strip_prefix_app (p s : string) : strip_prefix p (p +:+ s) = Some s.
Proof. induction p as [|a p IH]; simpl; [done|]. by rewrite Ascii.eqb_refl. Qed.

Lemma strip_prefix_some (p s t : string) : strip_prefix p s = Some t → s = p +:+ t.
Proof.
  revert s. induction p as [|a p IH]; intros s; simpl; [by intros [= ->]|].
  destruct s as [|b s]; [done|]. destruct (Ascii.eqb_spec a b) as [->|]; [|done].
  intros Hs. simpl. by rewrite (IH _ Hs).
Qed.

Lemma take_while_all (f : ascii → bool) (s : string) : all_chars f (take_while f s) = true.
Proof. induction s as [|a s IH]; simpl; [done|]. destruct (f a) eqn:E; simpl; [by rewrite E|done]. Qed.

Lemma take_while_app (f : ascii → bool) (s t : string) :
  all_chars f s = true → (∀ a, head_char t = Some a → f a = false) → take_while f (s +:+ t) = s.
Proof.
  intros Hs Ht. induction s as [|a s IH]; simpl in *.
  - destruct t as [|a t]; simpl; [done|]. by rewrite (Ht a).
  - apply andb_true_iff in Hs as [-> Hs]. by rewrite IH.
Qed.

Lemma take_while_rest (f : ascii → bool) (s : string) :
  ∃ t, s = take_while f s +:+ t ∧ ∀ a, head_char t = Some a → f a = false.
Proof.
  induction s as [|a s (t&Hs&Ht)]; simpl; [by exists EmptyString|]. destruct (f a) eqn:E.
  - exists t. simpl. by rewrite <- Hs.
  - exists (String a s). split; [done|]. by intros a' [= <-].
Qed.

Lemma lowercase_twice (s : string) : to_ascii_lowercase (to_ascii_lowercase s) = to_ascii_lowercase s.
Proof.
  induction s as [|a s IH]; simpl; [done|]. rewrite IH. f_equal.
  destruct a as [[] [] [] [] [] [] [] []]; by vm_compute.
Qed.

Lemma lowercase_whitespace (a : ascii) : is_whitespace (ascii_lowercase a) = is_whitespace a.
Proof. destruct a as [[] [] [] [] [] [] [] []]; by vm_compute. Qed.
