(* ===== verification/PodWatcher.v ===== *)
(** * controller/src/pod_watcher.rs, container.rs

    Which pods of the node are processed, and what is done with one: its details are posted, its
    address may be ignored, and the network namespace of its containers is registered. *)

From Stdlib Require Import Ascii.
From S2P Require Import Prelude RustStd RustText System Traffic PodDetails.

(** ** What the code reads of the Kubernetes objects *)

Record OwnerReference : Type := MkOwnerReference { owner_kind : string; owner_name : string }.

Abbreviation labels := (gmap string string).

Record ObjectMeta : Type := MkObjectMeta {
  meta_name : option string;
  meta_namespace : option string;
  meta_labels : option labels;
  owner_references : option (list OwnerReference)
}.

Record PodCondition : Type := MkPodCondition {
  type_ : string;
  condition_status : string;
  message : option string
}.

Record ContainerStatus : Type := MkContainerStatus { status_container_id : option string }.

Record PodStatus : Type := MkPodStatus {
  conditions : option (list PodCondition);
  container_statuses : option (list ContainerStatus);
  status_pod_ip : option string
}.

Record Pod : Type := MkPod { metadata : ObjectMeta; pod_status : option PodStatus }.

(** A Deployment, a StatefulSet or a DaemonSet: [spec.selector.match_labels]. *)
Record Workload : Type := MkWorkload { workload_match_labels : option (option labels) }.
Record ReplicaSet : Type := MkReplicaSet { replicaset_owners : option (list OwnerReference) }.

(** ** What the code calls *)

(** kube, serde_json and regex.  A name is the pod's own when it has one.  [container_id_capture] is the
    group of a match of [REGEX_CONTAINERD], the prefix [containerd://] and then letters and digits: the
    leftmost match, and as long as it gets. *)
Class KubeLibs := {
  name_any : ObjectMeta → string;
  json_of_pod : Pod → value;
  container_id_capture : string → option string
}.

Definition ID_PREFIX : string := "containerd://".

Definition is_alphanumeric (a : ascii) : bool :=
  let n := N_of_ascii a in
  ((48 <=? n) && (n <=? 57) || (65 <=? n) && (n <=? 90) || (97 <=? n) && (n <=? 122))%N.

(** No match starts before the end of [pre]. *)
Definition leftmost (pre s : string) : Prop :=
  ∀ a b t, pre = a +:+ b → b ≠ EmptyString → b +:+ s ≠ ID_PREFIX +:+ t.

Class KubeLibsLaws `{KubeLibs} := {
  name_any_name (m : ObjectMeta) (n : string) : meta_name m = Some n → name_any m = n;
  capture_found (pre id post : string) :
    leftmost pre (ID_PREFIX +:+ id +:+ post) → all_chars is_alphanumeric id = true →
    (∀ a, head_char post = Some a → is_alphanumeric a = false) →
    container_id_capture (pre +:+ ID_PREFIX +:+ id +:+ post) = Some id;
  capture_none (s : string) : (∀ pre post, s ≠ pre +:+ ID_PREFIX +:+ post) → container_id_capture s = None
}.

(** What the API server answers: namespace, then name. *)
Record api_server : Type := ApiServer {
  api_deployment : string → string → option Workload;
  api_statefulset : string → string → option Workload;
  api_daemonset : string → string → option Workload;
  api_replicaset : string → string → option ReplicaSet
}.

(** containerd ([task_get]: the process of the container, if the answer is not an error) and [/proc]. *)
Record container_runtime : Type := ContainerRuntime {
  connect : string → bool;
  task_get : string → option (option Z);
  process_namespaces : Z → option (gmap string Z)
}.

(** What one invocation meets. *)
Record surroundings : Type := Surroundings {
  api : api_server;
  runtime : container_runtime;
  CONTAINERD_SOCK : option string;
  utc_now : Z
}.

(** A loop that returns at the first element for which [f] gives a result. *)
Fixpoint find_map {A B : Type} (f : A → option B) (l : list A) : option B :=
  match l with
  | [] => None
  | a :: l => match f a with Some b => Some b | None => find_map f l end
  end.

(** ** Settings *)

Definition parse_excluded_namespaces (s : string) : list string :=
  filter (λ p, p ≠ EmptyString) (trim <$> split "," s).

Definition parse_lenient_bool (s : string) (default : bool) : bool :=
  let s := to_ascii_lowercase (trim s) in
  if bool_decide (s ∈ ["true"%string; "1"%string; "yes"%string; "on"%string]) then true
  else if bool_decide (s ∈ ["false"%string; "0"%string; "no"%string; "off"%string]) then false
  else default.

Definition should_process_pod (namespace : option string) (excluded_namespaces : list string) : bool :=
  negb (match namespace with Some ns => bool_decide (ns ∈ excluded_namespaces) | None => false end).

(** ** Reading a pod *)

(** The identifiers of the containers of a pod that is ready, despite the name. *)
Definition pod_unready (p : Pod) : option (list string) :=
  status ← pod_status p;
  let failed :=
    match conditions status with
    | Some conds =>
        join "," ((λ c, default EmptyString (message c)) <$>
          filter (λ c, type_ c = "Ready"%string ∧ condition_status c = "False"%string) conds)
    | None => EmptyString
    end in
  if bool_decide (failed = EmptyString) then
    match container_statuses status with
    | Some con_status => Some (omap status_container_id con_status)
    | None => None
    end
  else None.

Definition is_backed_by_daemonset (p : Pod) : bool :=
  match owner_references (metadata p) with
  | Some owners => existsb (λ owner, String.eqb (owner_kind owner) "DaemonSet") owners
  | None => false
  end.

(** ** Workloads *)

Definition get_deployment_selector (deployment_name namespace : string) (a : api_server) :
    option labels :=
  match api_deployment a namespace deployment_name with
  | Some deployment => mjoin (workload_match_labels deployment)
  | None => None
  end.

Definition get_statefulset_selector (statefulset_name namespace : string) (a : api_server) :
    option labels :=
  match api_statefulset a namespace statefulset_name with
  | Some statefulset => mjoin (workload_match_labels statefulset)
  | None => None
  end.

Definition get_daemonset_selector (daemonset_name namespace : string) (a : api_server) :
    option labels :=
  match api_daemonset a namespace daemonset_name with
  | Some daemonset => mjoin (workload_match_labels daemonset)
  | None => None
  end.

Definition get_deployment_selector_from_replicaset (replicaset_name namespace : string)
    (a : api_server) : option labels :=
  match api_replicaset a namespace replicaset_name with
  | Some replicaset =>
      match replicaset_owners replicaset with
      | Some owners =>
          mjoin (find_map (λ owner,
            if String.eqb (owner_kind owner) "Deployment"
            then Some (get_deployment_selector (owner_name owner) namespace a) else None) owners)
      | None => None
      end
  | None => None
  end.

Definition get_deployment_name_and_selector_from_replicaset (replicaset_name namespace : string)
    (a : api_server) : option (string * labels) :=
  match api_replicaset a namespace replicaset_name with
  | Some replicaset =>
      match replicaset_owners replicaset with
      | Some owners =>
          find_map (λ owner,
            if String.eqb (owner_kind owner) "Deployment"
            then match get_deployment_selector (owner_name owner) namespace a with
                 | Some selectors => Some (owner_name owner, selectors)
                 | None => None
                 end
            else None) owners
      | None => None
      end
  | None => None
  end.

Definition trace_owner_to_workload_with_selectors (p : Pod) (a : api_server) : option labels :=
  owners ← owner_references (metadata p);
  namespace ← meta_namespace (metadata p);
  find_map (λ owner,
    let kind := owner_kind owner in
    let name := owner_name owner in
    if String.eqb kind "ReplicaSet" then get_deployment_selector_from_replicaset name namespace a
    else if String.eqb kind "Deployment" then get_deployment_selector name namespace a
    else if String.eqb kind "StatefulSet" then get_statefulset_selector name namespace a
    else if String.eqb kind "DaemonSet" then get_daemonset_selector name namespace a
    else None) owners.

Definition trace_owner_to_workload_with_selectors_and_name (p : Pod) (a : api_server) :
    option string * option labels :=
  match owner_references (metadata p), meta_namespace (metadata p) with
  | Some owners, Some namespace =>
      default (None, None) (find_map (λ owner,
        let kind := owner_kind owner in
        let name := owner_name owner in
        if String.eqb kind "ReplicaSet" then
          match get_deployment_name_and_selector_from_replicaset name namespace a with
          | Some (name, selectors) => Some (Some name, Some selectors)
          | None => None
          end
        else if String.eqb kind "Deployment" then
          Some (Some name, get_deployment_selector name namespace a)
        else if String.eqb kind "StatefulSet" then
          Some (Some name, get_statefulset_selector name namespace a)
        else if String.eqb kind "DaemonSet" then
          Some (Some name, get_daemonset_selector name namespace a)
        else None) owners)
  | _, _ => (None, None)
  end.

Definition extract_pod_identity_and_selectors (p : Pod) (a : api_server) :
    option string * option labels :=
  let by_label k := meta_labels (metadata p) ≫= lookup k in
  match by_label "app.kubernetes.io/name"%string with
  | Some name => (Some name, trace_owner_to_workload_with_selectors p a)
  | None =>
  match by_label "app.kubernetes.io/component"%string with
  | Some component => (Some component, trace_owner_to_workload_with_selectors p a)
  | None =>
  match by_label "k8s-app"%string with
  | Some k8s_app => (Some k8s_app, trace_owner_to_workload_with_selectors p a)
  | None =>
  match by_label "app"%string with
  | Some k8s_app => (Some k8s_app, trace_owner_to_workload_with_selectors p a)
  | None => trace_owner_to_workload_with_selectors_and_name p a
  end end end end.

(** ** container.rs *)

Definition default_inspect (info : PodInfo) : PodInspect :=
  {| container_id := None; status := info;
     info := MkInfo (MkConfig (MkMetadata EmptyString EmptyString EmptyString));
     if_index := None; namespace_pid := None; pid := None; inode_num := None |}.

Definition set_container_id (id : string) (self : PodInspect) : PodInspect :=
  {| container_id := Some id; status := status self; info := info self; if_index := if_index self;
     namespace_pid := namespace_pid self; pid := pid self; inode_num := inode_num self |}.

Definition set_pid (n : option Z) (self : PodInspect) : PodInspect :=
  {| container_id := container_id self; status := status self; info := info self;
     if_index := if_index self; namespace_pid := namespace_pid self; pid := n;
     inode_num := inode_num self |}.

Definition set_inode_num (n : Z) (self : PodInspect) : PodInspect :=
  {| container_id := container_id self; status := status self; info := info self;
     if_index := if_index self; namespace_pid := namespace_pid self; pid := pid self;
     inode_num := Some n |}.

Definition get_pid (r : container_runtime) (self : PodInspect) : PodInspect :=
  match container_id self with
  | None => self
  | Some id =>
      match task_get r id with
      | Some process => set_pid process self
      | None => set_pid None self
      end
  end.

(** [pid as i32]. *)
Definition as_i32 (z : Z) : Z := let z := u32_of z in if z <? 2 ^ 31 then z else z - 2 ^ 32.

Definition get_net_namespace_id (r : container_runtime) (self : PodInspect) : PodInspect :=
  match pid self with
  | None => self
  | Some n =>
      match process_namespaces r (as_i32 n) ≫= lookup "net"%string with
      | Some identifier => set_inode_num identifier self
      | None => self
      end
  end.

Definition sock_path (e : surroundings) : string :=
  match CONTAINERD_SOCK e with
  | Some s => trim s
  | None => "/run/containerd/containerd.sock"
  end.

(** ** Processing a pod *)

(** A closed channel refuses what is sent, and the error is only logged. *)
Definition send {A : Type} (a : A) (ch : channel A) : channel A :=
  if ch_open ch then {| ch_sent := ch_sent ch ++ [a]; ch_open := true |} else ch.

(** [posted]: the messages sent to [pod/spec]; the answers are only logged.  [tx] and [sender_ip] lead to
    the poll loop. *)
Record watcher : Type := Watcher {
  posted : list PodDetail;
  sender_ip : channel string;
  tx : channel Z;
  containers : gmap Z PodInspect
}.

Definition new_watcher : watcher := Watcher [] (Channel [] true) (Channel [] true) ∅.

Definition post_details (z : PodDetail) (w : watcher) : watcher :=
  {| posted := posted w ++ [z]; sender_ip := sender_ip w; tx := tx w; containers := containers w |}.

Definition send_ip (ip : string) (w : watcher) : watcher :=
  {| posted := posted w; sender_ip := send ip (sender_ip w); tx := tx w; containers := containers w |}.

Definition send_inum (inum : Z) (w : watcher) : watcher :=
  {| posted := posted w; sender_ip := sender_ip w; tx := send inum (tx w); containers := containers w |}.

Definition insert_container (inum : Z) (pod_inspect : PodInspect) (w : watcher) : watcher :=
  {| posted := posted w; sender_ip := sender_ip w; tx := tx w;
     containers := <[inum := pod_inspect]> (containers w) |}.

(** A JSON object; the order of the fields is left open. *)
Definition json_of_labels (l : labels) : value := Object (prod_map id Text <$> map_to_list l).

Section Watcher.
Context `{KubeLibs}.
Variable excluded_namespaces : list string.
Variable ignore_daemonset_traffic : bool.
Variable node_name : string.

Definition parse_container_id (s : string) : option string :=
  match container_id_capture s with
  | Some id => if bool_decide (id = EmptyString) then None else Some id
  | None => None
  end.

Definition get_pod_inspect (e : surroundings) (container_id : string) (self : PodInspect) :
    option PodInspect :=
  match parse_container_id container_id with
  | Some container_id =>
      if connect (runtime e) (sock_path e)
      then Some (get_net_namespace_id (runtime e)
                   (get_pid (runtime e) (set_container_id container_id self)))
      else None
  | None => None
  end.

Definition create_pod_info (p : Pod) (pod_ip : string) : PodInfo :=
  {| pi_pod_name := name_any (metadata p); pi_pod_namespace := meta_namespace (metadata p);
     pi_pod_ip := pod_ip |}.

Definition update_pods_details (e : surroundings) (p : Pod) (w : watcher) : option string * watcher :=
  match pod_status p with
  | None => (None, w)
  | Some pod_status =>
      match status_pod_ip pod_status with
      | None => (None, w)
      | Some pod_ip =>
          let '(pod_identity, workload_selector_labels) :=
            extract_pod_identity_and_selectors p (api e) in
          let z := {|
            pod_ip := pod_ip; pod_name := name_any (metadata p);
            pod_namespace := meta_namespace (metadata p); pod_obj := Some (json_of_pod p);
            time_stamp := utc_now e; PodDetails.node_name := node_name; is_dead := false;
            pod_identity := pod_identity;
            workload_selector_labels := json_of_labels <$> workload_selector_labels |} in
          (Some pod_ip, post_details z w)
      end
  end.

Fixpoint process_container_ids (e : surroundings) (con_ids : list string) (p : Pod) (pod_ip : string)
    (w : watcher) : option Z * watcher :=
  match con_ids with
  | [] => (None, w)
  | con_id :: con_ids =>
      let pod_inspect := default_inspect (create_pod_info p pod_ip) in
      match get_pod_inspect e con_id pod_inspect with
      | Some pod_inspect =>
          match inode_num pod_inspect with
          | Some inode_num => (Some inode_num, insert_container inode_num pod_inspect w)
          | None => process_container_ids e con_ids p pod_ip w
          end
      | None => process_container_ids e con_ids p pod_ip w
      end
  end.

Definition process_pod (e : surroundings) (p : Pod) (w : watcher) : option Z * watcher :=
  match pod_unready p with
  | Some con_ids =>
      match update_pods_details e p w with
      | (Some pod_ip, w) =>
          let w := if ignore_daemonset_traffic && is_backed_by_daemonset p then send_ip pod_ip w
                   else w in
          if should_process_pod (meta_namespace (metadata p)) excluded_namespaces
          then process_container_ids e con_ids p pod_ip w
          else (None, w)
      | (None, w) => (None, w)
      end
  | None => (None, w)
  end.

(** What is done with a pod, by the watch and by the periodic list. *)
Definition watch_pod (e : surroundings) (p : Pod) (w : watcher) : watcher :=
  match process_pod e p w with
  | (Some inum, w) => send_inum inum w
  | (None, w) => w
  end.

(** One pass over the pods listed. *)
Definition resync_pods (items : list (surroundings * Pod)) (w : watcher) : watcher :=
  foldl (λ w '(e, p), watch_pod e p w) w items.

End Watcher.
