(* ===== verification/PodWatcherThms.v ===== *)
(** * Theorems about the pod watcher

    What is done with a pod, what a pass over the pods of the node achieves, and the parsers of the
    settings. *)

From Stdlib Require Import Ascii.
From S2P Require Import Prelude RustStd System Traffic PodDetails RustText PodWatcher.
From S2P Require Reconciler.

Implicit Types (e : surroundings) (p : Pod) (w : watcher).

Lemma find_map_some {A B : Type} (f : A → option B) (l : list A) (b : B) :
  find_map f l = Some b ↔
  ∃ pre a post, l = pre ++ a :: post ∧ Forall (λ a, f a = None) pre ∧ f a = Some b.
Proof.
  induction l as [|a l IH]; simpl.
  - split; [done|]. by intros ([|]&?&?&?&_).
  - destruct (f a) as [b'|] eqn:Ha.
    + split; [intros [= <-]; by exists [], a, l|]. intros ([|a' pre]&a''&post&[= -> ->]&Hpre&Hf).
      * congruence.
      * apply Forall_cons in Hpre as [? _]. congruence.
    + rewrite IH. split.
      * intros (pre&a'&post&->&Hpre&Hf). exists (a :: pre), a', post. by repeat constructor.
      * intros ([|a' pre]&a''&post&[= -> ->]&Hpre&Hf); [congruence|]. apply Forall_cons in Hpre as [_ ?].
        by exists pre, a'', post.
Qed.

Lemma find_map_none {A B : Type} (f : A → option B) (l : list A) :
  find_map f l = None ↔ Forall (λ a, f a = None) l.
Proof.
  induction l as [|a l IH]; simpl; [done|]. rewrite Forall_cons. destruct (f a); [|by rewrite IH; tauto].
  split; [done|]. by intros [? _].
Qed.

Lemma find_map_ext {A B : Type} (f g : A → option B) (l : list A) :
  (∀ a, f a = g a) → find_map f l = find_map g l.
Proof. intros Hfg. induction l as [|a l IH]; simpl; [done|]. by rewrite Hfg, IH. Qed.

(** ** Channels *)

Lemma send_open {A : Type} (a : A) (ch : channel A) : ch_open (send a ch) = ch_open ch.
Proof. unfold send. destruct (ch_open ch) eqn:E; [done|exact E]. Qed.

Lemma send_sent {A : Type} (a : A) (ch : channel A) :
  ch_open ch = true → ch_sent (send a ch) = ch_sent ch ++ [a].
Proof. intros Ho. unfold send. by rewrite Ho. Qed.

Lemma sent_prefix {A : Type} (a : A) (ch : channel A) : ch_sent ch `prefix_of` ch_sent (send a ch).
Proof. unfold send. destruct (ch_open ch); [by apply prefix_app_r|done]. Qed.

Lemma elem_of_sent {A : Type} (a b : A) (ch : channel A) :
  b ∈ ch_sent (send a ch) → b = a ∨ b ∈ ch_sent ch.
Proof.
  unfold send. destruct (ch_open ch); simpl; [|by right].
  rewrite elem_of_app, list_elem_of_singleton. tauto.
Qed.

Section Watcher.
Context `{KubeLibs}.
Variable excluded_namespaces : list string.
Variable ignore_daemonset_traffic : bool.
Variable node_name : string.

Abbreviation process_pod := (process_pod excluded_namespaces ignore_daemonset_traffic node_name).
Abbreviation watch_pod := (watch_pod excluded_namespaces ignore_daemonset_traffic node_name).
Abbreviation resync_pods := (resync_pods excluded_namespaces ignore_daemonset_traffic node_name).

(** ** A container *)

(** The network namespace of the process of a container. *)
Definition container_inode e (con_id : string) : option Z :=
  id ← parse_container_id con_id;
  if connect (runtime e) (sock_path e) then
    process ← task_get (runtime e) id;
    n ← process;
    namespaces ← process_namespaces (runtime e) (as_i32 n);
    namespaces !! "net"%string
  else None.

Definition inspected (info : PodInfo) (id : string) (pid inode : Z) : PodInspect :=
  set_inode_num inode (set_pid (Some pid) (set_container_id id (default_inspect info))).

Lemma inspect_inode e (con_id : string) (info : PodInfo) :
  get_pod_inspect e con_id (default_inspect info) ≫= inode_num = container_inode e con_id.
Proof.
  unfold get_pod_inspect, container_inode. destruct (parse_container_id con_id) as [id|]; [|done]. simpl.
  destruct (connect _ _); [|done]. unfold get_pid. simpl.
  destruct (task_get _ _) as [[n|]|]; simpl; [|done..]. unfold get_net_namespace_id. simpl.
  by destruct (process_namespaces _ _ ≫= _) eqn:E; destruct (process_namespaces _ _).
Qed.

Lemma inspect_result e (con_id : string) (info : PodInfo) (i : PodInspect) (inode : Z) :
  get_pod_inspect e con_id (default_inspect info) = Some i → inode_num i = Some inode →
  ∃ id pid m, parse_container_id con_id = Some id ∧ connect (runtime e) (sock_path e) = true ∧
    task_get (runtime e) id = Some (Some pid) ∧ process_namespaces (runtime e) (as_i32 pid) = Some m ∧
    m !! "net"%string = Some inode ∧ i = inspected info id pid inode.
Proof.
  unfold get_pod_inspect. destruct (parse_container_id con_id) as [id|]; [|done].
  destruct (connect _ _); [|done]. unfold get_pid. simpl. intros [= <-].
  destruct (task_get _ _) as [[n|]|] eqn:Et; simpl; [|done..]. unfold get_net_namespace_id. simpl.
  destruct (process_namespaces _ _) as [m|] eqn:Em; simpl; [|done].
  destruct (m !! "net"%string) as [n'|] eqn:En; simpl; [|done]. intros [= ->]. by exists id, n, m.
Qed.

(** ** A pod *)

Definition pod_address p : option string := st ← pod_status p; status_pod_ip st.

Definition inspect_first e (info : PodInfo) : list string → option (Z * PodInspect) :=
  find_map (λ con_id,
    i ← get_pod_inspect e con_id (default_inspect info); n ← inode_num i; Some (n, i)).

(** What the pod is registered as. *)
Definition registration e p : option (Z * PodInspect) :=
  con_ids ← pod_unready p;
  ip ← pod_address p;
  if should_process_pod (meta_namespace (metadata p)) excluded_namespaces
  then inspect_first e (create_pod_info p ip) con_ids else None.

(** The message about the pod. *)
Definition details e p (ip : string) : PodDetail :=
  {| pod_ip := ip; pod_name := name_any (metadata p); pod_namespace := meta_namespace (metadata p);
     pod_obj := Some (json_of_pod p); time_stamp := utc_now e; PodDetails.node_name := node_name;
     is_dead := false; pod_identity := (extract_pod_identity_and_selectors p (api e)).1;
     workload_selector_labels :=
       json_of_labels <$> (extract_pod_identity_and_selectors p (api e)).2 |}.

(** Its address, when it is ready and has one. *)
Definition ready_address p : option string := pod_unready p ≫= λ _, pod_address p.

Definition ignored_address p : option string :=
  if ignore_daemonset_traffic && is_backed_by_daemonset p then ready_address p else None.

Lemma process_containers_eq e (con_ids : list string) p (ip : string) w :
  process_container_ids e con_ids p ip w =
  match inspect_first e (create_pod_info p ip) con_ids with
  | Some (n, i) => (Some n, insert_container n i w)
  | None => (None, w)
  end.
Proof.
  unfold inspect_first. induction con_ids as [|c cs IH]; simpl; [done|].
  destruct (get_pod_inspect _ _ _) as [i|]; simpl; [|done]. by destruct (inode_num i).
Qed.

Lemma update_details_eq e p w :
  update_pods_details node_name e p w =
  match pod_address p with
  | Some ip => (Some ip, post_details (details e p ip) w)
  | None => (None, w)
  end.
Proof.
  unfold update_pods_details, pod_address, details. destruct (pod_status p) as [st|]; simpl; [|done].
  destruct (status_pod_ip st); [|done]. by destruct (extract_pod_identity_and_selectors _ _).
Qed.

Lemma process_pod_eq e p w :
  process_pod e p w =
  (fst <$> registration e p,
   {| posted := posted w ++ match ready_address p with Some ip => [details e p ip] | None => [] end;
      sender_ip := match ignored_address p with
                   | Some ip => send ip (sender_ip w) | None => sender_ip w end;
      tx := tx w;
      containers := match registration e p with
                    | Some (n, i) => <[n := i]> (containers w) | None => containers w end |}).
Proof.
  unfold PodWatcher.process_pod, registration, ignored_address, ready_address.
  destruct (pod_unready p) as [cs|]; simpl.
  2:{ rewrite app_nil_r. destruct w. by destruct (_ && _). }
  rewrite update_details_eq. destruct (pod_address p) as [ip|]; simpl.
  2:{ rewrite app_nil_r. destruct w. by destruct (_ && _). }
  rewrite process_containers_eq. destruct (should_process_pod _ _); simpl.
  - destruct (inspect_first _ _ _) as [[n i]|]; simpl; by destruct (_ && _).
  - by destruct (_ && _).
Qed.

Lemma watch_pod_eq e p w :
  watch_pod e p w =
  {| posted := posted w ++ match ready_address p with Some ip => [details e p ip] | None => [] end;
     sender_ip := match ignored_address p with
                  | Some ip => send ip (sender_ip w) | None => sender_ip w end;
     tx := match registration e p with Some (n, _) => send n (tx w) | None => tx w end;
     containers := match registration e p with
                   | Some (n, i) => <[n := i]> (containers w) | None => containers w end |}.
Proof.
  unfold PodWatcher.watch_pod. rewrite process_pod_eq. by destruct (registration e p) as [[n i]|].
Qed.

Lemma registration_some e p (n : Z) (i : PodInspect) :
  registration e p = Some (n, i) →
  ∃ con_ids ip, pod_unready p = Some con_ids ∧ pod_address p = Some ip ∧
    should_process_pod (meta_namespace (metadata p)) excluded_namespaces = true ∧
    status i = create_pod_info p ip ∧ inode_num i = Some n.
Proof.
  unfold registration. intros (cs&Hcs&(ip&Hip&Hr)%bind_Some)%bind_Some. exists cs, ip.
  destruct (should_process_pod _ _); [|done]. split_and!; try done.
  - apply find_map_some in Hr as (_&c&_&_&_&(j&Hj&(m&Hm&[= -> ->])%bind_Some)%bind_Some).
    by destruct (inspect_result _ _ _ _ _ Hj Hm) as (?&?&?&_&_&_&_&_&->).
  - by apply find_map_some in Hr as (_&c&_&_&_&(j&Hj&(m&Hm&[= -> ->])%bind_Some)%bind_Some).
Qed.

Lemma not_excluded (ns : option string) :
  should_process_pod ns excluded_namespaces = true ↔ ∀ s, ns = Some s → s ∉ excluded_namespaces.
Proof.
  unfold should_process_pod. destruct ns as [s|]; [|done].
  rewrite negb_true_iff, bool_decide_eq_false. naive_solver.
Qed.

Lemma excluded_no_registration e p (ns : string) :
  meta_namespace (metadata p) = Some ns → ns ∈ excluded_namespaces → registration e p = None.
Proof.
  intros Hns Hin. destruct (registration e p) as [[n i]|] eqn:E; [|done].
  apply registration_some in E as (?&?&_&_&Hs&_). rewrite not_excluded in Hs. by destruct (Hs ns).
Qed.

End Watcher.

(** * Theorems *)


(** ** Settings *)

Lemma split_padded (names words : list string) :
  Forall2 (λ n x, n ≠ EmptyString ∧ trimmed n = true ∧
                  ∃ b b', blank b = true ∧ blank b' = true ∧ x = b +:+ n +:+ b') names words →
  trim <$> words = names ∧ Forall (λ n, n ≠ EmptyString) names.
Proof.
  intros Hw. induction Hw as [|n x names words (Hne&Ht&b&b'&Hb&Hb'&->) _ [IH1 IH2]]; [done|].
  split; [|by constructor]. by rewrite fmap_cons, trim_pad, IH1.
Qed.

Lemma filter_all {A : Type} (P : A → Prop) `{!∀ x, Decision (P x)} (l : list A) :
  Forall P l → filter P l = l.
Proof. intros Hl. induction Hl as [|x l Hx _ IH]; [done|]. by rewrite filter_cons_True, IH. Qed.

Lemma parsed_namespaces_clean (s n : string) :
  n ∈ parse_excluded_namespaces s → n ≠ EmptyString ∧ trimmed n = true ∧ without "," n = true.
Proof.
  intros [Hn (x&->&Hin)%list_elem_of_fmap]%list_elem_of_filter. split_and!; [done|apply trim_trimmed|].
  apply trim_all. pose proof (split_without "," s) as Hs. rewrite Forall_forall in Hs. by apply Hs.
Qed.

(** the list of excluded namespaces is read back as it was written.  Whatever blanks surround the
    names and the commas, the names themselves are found, in order; and whatever the text, each name
    found is trimmed, is not empty and has no comma. *)
Theorem excluded_namespaces_roundtrip (names words : list string) (s : string) :
  words ≠ [] →
  Forall (λ x, without "," x = true) words →
  Forall2 (λ n x, n ≠ EmptyString ∧ trimmed n = true ∧
                  ∃ b b', blank b = true ∧ blank b' = true ∧ x = b +:+ n +:+ b') names words →
  parse_excluded_namespaces (join "," words) = names ∧
  ∀ n, n ∈ parse_excluded_namespaces s →
    n ≠ EmptyString ∧ trimmed n = true ∧ without "," n = true.
Proof.
  intros Hne Hc Hw. unfold parse_excluded_namespaces. split.
  - rewrite split_join by done. apply split_padded in Hw as [-> Hn]. by apply filter_all.
  - intros n. apply parsed_namespaces_clean.
Qed.

(** What [parse_lenient_bool] makes of a text depends neither on blanks around it nor on its case. *)
Lemma lenient_bool_ignores (b b' s : string) (d : bool) :
  blank b = true → blank b' = true → s ≠ EmptyString → trimmed s = true →
  parse_lenient_bool (b +:+ s +:+ b') d = parse_lenient_bool s d ∧
  parse_lenient_bool (to_ascii_lowercase s) d = parse_lenient_bool s d.
Proof.
  intros Hb Hb' Hne Ht. unfold parse_lenient_bool. rewrite trim_pad, trim_id by done. split; [done|].
  rewrite trim_id; [by rewrite lowercase_twice|].
  unfold trimmed, starts_clean, ends_clean in *. apply andb_true_iff in Ht as [Hs He].
  assert (last_char (to_ascii_lowercase s) = ascii_lowercase <$> last_char s) as ->.
  { clear. induction s as [|a s IH]; [done|]. destruct s as [|c s]; [done|]. exact IH. }
  apply andb_true_iff. split.
  - destruct s as [|a s]; simpl in *; [done|]. by rewrite lowercase_whitespace.
  - destruct (last_char s); simpl in *; [|done]. by rewrite lowercase_whitespace.
Qed.

(** ** Readiness *)

Lemma join_empty (sep : ascii) (ws : list string) :
  join (String sep EmptyString) ws = EmptyString ↔ ws = [] ∨ ws = [EmptyString].
Proof.
  destruct ws as [|w [|w' ws]]; simpl; [naive_solver..|]. split; [|naive_solver].
  destruct w; by intros ?.
Qed.

(** The messages of the conditions [Ready=False]. *)
Definition not_ready (st : PodStatus) : list string :=
  match conditions st with
  | Some conds => (λ c, default EmptyString (message c)) <$>
      filter (λ c, type_ c = "Ready"%string ∧ condition_status c = "False"%string) conds
  | None => []
  end.

(** which pods count as ready.  A pod has containers to inspect exactly when its status lists their
    statuses, and it has no condition [Ready=False], or a single one that carries no message.  So a pod
    that says that it is not ready, without saying why, is processed as a ready one. *)
Theorem pod_unready_exact p (con_ids : list string) :
  pod_unready p = Some con_ids ↔
  ∃ st statuses, pod_status p = Some st ∧ container_statuses st = Some statuses ∧
    con_ids = omap status_container_id statuses ∧
    (not_ready st = [] ∨ not_ready st = [EmptyString]).
Proof.
  unfold pod_unready. destruct (pod_status p) as [st|]; simpl; [|naive_solver].
  assert (∀ failed, failed = join "," (not_ready st) →
    (if bool_decide (failed = EmptyString)
     then match container_statuses st with Some cs => Some (omap status_container_id cs) | None => None end
     else None) = Some con_ids ↔
    ∃ st' statuses, Some st = Some st' ∧ container_statuses st' = Some statuses ∧
      con_ids = omap status_container_id statuses ∧
      (not_ready st' = [] ∨ not_ready st' = [EmptyString])) as H.
  { intros ? ->. case_bool_decide as Hj; rewrite join_empty in Hj.
    - destruct (container_statuses st) eqn:E; naive_solver.
    - naive_solver. }
  apply H. unfold not_ready. by destruct (conditions st).
Qed.

(** ** Owners *)

Definition single_owners (a : api_server) : Prop :=
  ∀ ns n rs os, api_replicaset a ns n = Some rs → replicaset_owners rs = Some os → (length os ≤ 1)%nat.

Lemma replicaset_traces_agree (name ns : string) (a : api_server) :
  single_owners a →
  snd <$> get_deployment_name_and_selector_from_replicaset name ns a =
  get_deployment_selector_from_replicaset name ns a.
Proof.
  intros Ha. unfold get_deployment_name_and_selector_from_replicaset, get_deployment_selector_from_replicaset.
  destruct (api_replicaset a ns name) as [rs|] eqn:Hrs; [|done].
  destruct (replicaset_owners rs) as [os|] eqn:Hos; [|done]. specialize (Ha _ _ _ _ Hrs Hos).
  destruct os as [|o [|]]; simpl in *; [done| |lia]. destruct (String.eqb _ _); [|done].
  by destruct (get_deployment_selector _ _ _).
Qed.

(** the two searches for the selector of a workload agree.  While each ReplicaSet has at most one
    owner, the selector found along with the name of the workload (for a pod without identity labels)
    is the one found for a pod with such labels; and if the pod has at most one owner too, the two
    searches have the same result. *)
Theorem owner_traces_agree p (a : api_server) :
  single_owners a →
  (∀ selectors, (trace_owner_to_workload_with_selectors_and_name p a).2 = Some selectors →
                trace_owner_to_workload_with_selectors p a = Some selectors) ∧
  ((∀ owners, owner_references (metadata p) = Some owners → (length owners ≤ 1)%nat) →
   (trace_owner_to_workload_with_selectors_and_name p a).2 = trace_owner_to_workload_with_selectors p a).
Proof.
  intros Ha. unfold trace_owner_to_workload_with_selectors_and_name, trace_owner_to_workload_with_selectors.
  destruct (owner_references (metadata p)) as [os|]; [|by split].
  destruct (meta_namespace (metadata p)) as [ns|]; [|by split]. simpl.
  assert (∀ name, get_deployment_selector_from_replicaset name ns a =
    snd <$> get_deployment_name_and_selector_from_replicaset name ns a) as Hrs
    by (intros; by rewrite replicaset_traces_agree).
  split.
  - intros s. induction os as [|o os IH]; simpl; [done|]. rewrite Hrs.
    destruct (String.eqb (owner_kind o) "ReplicaSet").
    { destruct (get_deployment_name_and_selector_from_replicaset (owner_name o) ns a) as [[n s']|]; simpl; [done|exact IH]. }
    repeat (destruct (String.eqb (owner_kind o) _); [by simpl; intros ->|]). exact IH.
  - intros Hl. specialize (Hl _ eq_refl). destruct os as [|o [|]]; simpl in *; [done| |lia]. rewrite Hrs.
    destruct (String.eqb (owner_kind o) "ReplicaSet").
    { by destruct (get_deployment_name_and_selector_from_replicaset (owner_name o) ns a) as [[n s']|]. }
    repeat (destruct (String.eqb (owner_kind o) _); [simpl; by destruct (_ : option labels)|]). done.
Qed.

Section Watcher.
Context `{KubeLibs}.
Variable excluded_namespaces : list string.
Variable ignore_daemonset_traffic : bool.
Variable node_name : string.

Abbreviation process_pod := (process_pod excluded_namespaces ignore_daemonset_traffic node_name).
Abbreviation watch_pod := (watch_pod excluded_namespaces ignore_daemonset_traffic node_name).
Abbreviation resync_pods := (resync_pods excluded_namespaces ignore_daemonset_traffic node_name).
Abbreviation registration := (registration excluded_namespaces).

(** ** One pod *)

(** The first container of a ready, watched pod whose process is found gives the namespace. *)
Definition registers e p (inode : Z) (i : PodInspect) : Prop :=
  ∃ con_ids ip pre con_id post id pid namespaces,
    pod_unready p = Some con_ids ∧ pod_address p = Some ip ∧
    (∀ ns, meta_namespace (metadata p) = Some ns → ns ∉ excluded_namespaces) ∧
    con_ids = pre ++ con_id :: post ∧ Forall (λ c, container_inode e c = None) pre ∧
    parse_container_id con_id = Some id ∧ connect (runtime e) (sock_path e) = true ∧
    task_get (runtime e) id = Some (Some pid) ∧
    process_namespaces (runtime e) (as_i32 pid) = Some namespaces ∧
    namespaces !! "net"%string = Some inode ∧ i = inspected (create_pod_info p ip) id pid inode.

Lemma inspect_none e (c : string) (info : PodInfo) :
  (i ← get_pod_inspect e c (default_inspect info); n ← inode_num i; Some (n, i)) = None ↔
  container_inode e c = None.
Proof.
  rewrite <- (inspect_inode e c info). destruct (get_pod_inspect e c _) as [k|]; simpl; [|done].
  by destruct (inode_num k).
Qed.

Lemma registration_registers e p (inode : Z) (i : PodInspect) :
  registration e p = Some (inode, i) ↔ registers e p inode i.
Proof.
  unfold PodWatcherThms.registration, registers. split.
  - intros (cs&Hcs&(ip&Hip&Hr)%bind_Some)%bind_Some.
    destruct (should_process_pod _ _) eqn:Hex; [|done]. rewrite not_excluded in Hex.
    apply find_map_some in Hr as (pre&c&post&Hsplit&Hpre&(j&Hj&(m&Hm&[= -> ->])%bind_Some)%bind_Some).
    destruct (inspect_result _ _ _ _ _ Hj Hm) as (id&pid&ns&?&?&?&?&?&?).
    exists cs, ip, pre, c, post, id, pid, ns. split_and!; try done.
    eapply Forall_impl; [exact Hpre|]. intros c'. apply inspect_none.
  - intros (cs&ip&pre&c&post&id&pid&ns&Hcs&Hip&Hex&->&Hpre&Hid&Hc&Ht&Hp&Hn&->).
    apply not_excluded in Hex. rewrite Hcs, Hip. simpl. rewrite Hex. apply find_map_some.
    exists pre, c, post. split; [done|]. split.
    + eapply Forall_impl; [exact Hpre|]. intros c'. apply inspect_none.
    + unfold get_pod_inspect. rewrite Hid, Hc. unfold get_pid. simpl. rewrite Ht.
      unfold get_net_namespace_id. simpl. rewrite Hp. simpl. by rewrite Hn.
Qed.

(** C27: what is done with a pod, on every path.  A namespace is registered exactly when the pod is ready,
    has an address, is in no excluded namespace, and one of its containers has a process whose network
    namespace is found: the first such container decides.  The map of the containers then has the pod
    under that namespace, and is otherwise unchanged.  A message is posted exactly when the pod is ready
    and has an address, whatever its namespace; the address is sent to be ignored exactly when, besides,
    the pod is of a DaemonSet and such pods are ignored. *)
Theorem process_pod_exactly e p w :
  let '(r, w') := process_pod e p w in
  (∀ inode, r = Some inode ↔ ∃ i, registers e p inode i) ∧
  (∀ inode, containers w' !! inode ≠ containers w !! inode → r = Some inode) ∧
  (∀ inode i, registers e p inode i → containers w' !! inode = Some i) ∧
  posted w' = posted w ++
    match ready_address p with Some ip => [details node_name e p ip] | None => [] end ∧
  sender_ip w' =
    (if ignore_daemonset_traffic && is_backed_by_daemonset p
     then match ready_address p with Some ip => send ip (sender_ip w) | None => sender_ip w end
     else sender_ip w) ∧
  tx w' = tx w.
Proof.
  rewrite process_pod_eq. simpl. split_and!.
  - intros inode. destruct (registration e p) as [[n i]|] eqn:E; simpl.
    + split; [|intros [j Hj%registration_registers]; congruence].
      intros [= <-]. exists i. by apply registration_registers.
    + split; [done|]. intros [j Hj%registration_registers]. congruence.
  - intros inode. destruct (registration e p) as [[n i]|]; simpl; [|done].
    rewrite lookup_insert. by case_decide; subst.
  - intros inode i Hi%registration_registers. rewrite Hi. apply lookup_insert_eq.
  - done.
  - unfold ignored_address. by destruct (_ && _).
  - done.
Qed.

(** What is posted about a pod is the message of Reconciler.v, for a pod of this node. *)
Lemma details_of_details e p (ip name : string) :
  name_any (metadata p) = name →
  details node_name e p ip =
  Reconciler.details_of (Reconciler.MkPod (meta_namespace (metadata p)) name ip node_name)
    (json_of_pod p) (utc_now e) (extract_pod_identity_and_selectors p (api e)).1
    (json_of_labels <$> (extract_pod_identity_and_selectors p (api e)).2).
Proof. by intros <-. Qed.

(** ** A pass over the pods of the node *)

Definition registrations (items : list (surroundings * Pod)) : list (Z * PodInspect) :=
  omap (λ '(e, p), registration e p) items.

Lemma resync_containers (items : list (surroundings * Pod)) w :
  containers (resync_pods items w) =
  (list_to_map (reverse (registrations items)) : gmap Z PodInspect) ∪ containers w.
Proof.
  revert w. induction items as [|[e p] items IH]; intros w.
  - simpl. by rewrite left_id_L by apply _.
  - cbn [PodWatcher.resync_pods foldl]. change (containers (resync_pods items (watch_pod e p w)) = 
      (list_to_map (reverse (registrations ((e, p) :: items))) : gmap Z PodInspect) ∪ containers w).
    rewrite IH, watch_pod_eq. unfold registrations. simpl.
    destruct (registration e p) as [[n i]|]; [|done]. rewrite reverse_cons, list_to_map_app. simpl.
    by rewrite <- assoc_L, insert_empty, insert_union_singleton_l by apply _.
Qed.

Lemma resync_tx (items : list (surroundings * Pod)) w :
  ch_open (tx w) = true →
  ch_sent (tx (resync_pods items w)) = ch_sent (tx w) ++ (registrations items).*1 ∧
  ch_open (tx (resync_pods items w)) = true.
Proof.
  revert w. induction items as [|[e p] items IH]; intros w Ho; [by rewrite app_nil_r|].
  change (resync_pods ((e, p) :: items) w) with (resync_pods items (watch_pod e p w)).
  assert (ch_open (tx (watch_pod e p w)) = true ∧
    ch_sent (tx (watch_pod e p w)) = ch_sent (tx w) ++ option_list (fst <$> registration e p)) as [Ho' Hs].
  { rewrite watch_pod_eq. simpl. destruct (registration e p) as [[n i]|]; simpl.
    - by rewrite send_open, send_sent.
    - by rewrite app_nil_r. }
  destruct (IH _ Ho') as [-> ->]. split; [|done]. rewrite Hs. unfold registrations. simpl.
  destruct (registration e p) as [[n i]|]; simpl; by rewrite <- app_assoc.
Qed.

(** the periodic list fills the gaps that the watch left.  After a pass, each pod of the list that can
    be registered has its namespace sent to the poll loop and has an entry in the map of the containers,
    its own unless a later pod of the list has the same namespace (as pods on the network of the host
    do); other entries are as they were, and a second pass that meets the same changes nothing. *)
Theorem resync_fills_gaps (items : list (surroundings * Pod)) w :
  ch_open (tx w) = true →
  let w' := resync_pods items w in
  (∀ e p inode i, (e, p) ∈ items → registers e p inode i →
     inode ∈ ch_sent (tx w') ∧
     (∃ e' p' i', (e', p') ∈ items ∧ registers e' p' inode i' ∧ containers w' !! inode = Some i') ∧
     (NoDup (registrations items).*1 → containers w' !! inode = Some i)) ∧
  (∀ inode, (∀ e p i, (e, p) ∈ items → ¬ registers e p inode i) →
     containers w' !! inode = containers w !! inode) ∧
  containers (resync_pods items w') = containers w'.
Proof.
  intros Ho w'. unfold w'. rewrite !resync_containers. split_and!.
  - intros e p inode i Hin Hi%registration_registers.
    assert ((inode, i) ∈ registrations items) as Hr by (apply list_elem_of_omap; by exists (e, p)).
    split_and!.
    + rewrite (proj1 (resync_tx items w Ho)), elem_of_app. right. apply list_elem_of_fmap. by exists (inode, i).
    + destruct ((list_to_map (reverse (registrations items)) : gmap Z PodInspect) !! inode) as [i'|] eqn:E.
      * rewrite lookup_union, E, union_Some_l. apply elem_of_list_to_map_2 in E.
        apply elem_of_reverse, list_elem_of_omap in E as ([e' p']&?&?%registration_registers).
        by exists e', p', i'.
      * apply not_elem_of_list_to_map in E. destruct E. rewrite fmap_reverse, elem_of_reverse.
        apply list_elem_of_fmap. by exists (inode, i).
    + intros Hn. apply lookup_union_Some_l, elem_of_list_to_map_1; [by rewrite fmap_reverse, reverse_Permutation|].
      by apply elem_of_reverse.
  - intros inode Hno. apply lookup_union_r, not_elem_of_list_to_map. rewrite fmap_reverse, elem_of_reverse.
    intros ([n i]&->&([e p]&?&?%registration_registers)%list_elem_of_omap)%list_elem_of_fmap. by eapply Hno.
  - by rewrite assoc_L, map_union_idemp by apply _.
Qed.

End Watcher.

(** ** Container identifiers *)

Section ContainerIds.
Context `{KubeLibsLaws}.

(** Which identifier a text holds: the letters and digits that follow the first [containerd://] of it,
    if there are any; a text without that prefix, as those of other runtimes, holds none. *)
Theorem parse_container_id_exact (pre id post : string) :
  leftmost pre (ID_PREFIX +:+ id +:+ post) → all_chars is_alphanumeric id = true →
  (∀ a, head_char post = Some a → is_alphanumeric a = false) →
  parse_container_id (pre +:+ ID_PREFIX +:+ id +:+ post) =
    (if bool_decide (id = EmptyString) then None else Some id) ∧
  ∀ s, (∀ pre post, s ≠ pre +:+ ID_PREFIX +:+ post) → parse_container_id s = None.
Proof.
  intros Hl Ha Hp. unfold parse_container_id. split; [by rewrite capture_found|].
  intros s Hs. by rewrite capture_none.
Qed.

End ContainerIds.
