(* ===== verification/Node.v ===== *)
(** * The pod watcher and the receiving tasks of a node

    They share the map of the containers: the watcher writes it, the tasks of network.rs look in it
    for the pod of each event. *)

From S2P Require Import Prelude RustStd RustText System Traffic TrafficFacts TrafficThms.
From S2P Require Import PodDetails PodWatcher PodWatcherThms.
From S2P Require NetworkProbe NetpolicyDrop.

(** ** Definitions *)

(** The map is the one of [nd_consumers]; [containers] of the watcher is the same map. *)
Record node `{TrafficCache} : Type := Node {
  nd_watcher : watcher;
  nd_consumers : consumers
}.

Inductive node_event : Type :=
| Watched (e : surroundings) (p : Pod)
| NetworkWakes (w : loop_wakeup NetworkProbe.network_event)
| DropWakes (w : loop_wakeup NetpolicyDrop.policy_drop).

Section Node.
Context `{TrafficCacheLaws} `{KubeLibs}.
Variable excluded_namespaces : list string.
Variable ignore_daemonset_traffic : bool.
Variable node_name : string.

Definition set_container_map (m : gmap Z PodInspect) (st : consumers) : consumers :=
  {| container_map := m; TRAFFIC_CACHE := TRAFFIC_CACHE st; network_handler := network_handler st;
     drop_handler := drop_handler st |}.

Definition node_step (ev : node_event) (nd : node) : node :=
  match ev with
  | Watched e p =>
      let w := watch_pod excluded_namespaces ignore_daemonset_traffic node_name e p (nd_watcher nd) in
      {| nd_watcher := w; nd_consumers := set_container_map (containers w) (nd_consumers nd) |}
  | NetworkWakes w =>
      {| nd_watcher := nd_watcher nd; nd_consumers := consume (NetworkTurn w) (nd_consumers nd) |}
  | DropWakes w =>
      {| nd_watcher := nd_watcher nd; nd_consumers := consume (DropTurn w) (nd_consumers nd) |}
  end.

Definition node_run (evs : list node_event) (nd : node) : node :=
  foldl (λ nd ev, node_step ev nd) nd evs.

Definition new_node (t0 t1 : Z) : node := Node _ new_watcher (new_consumers ∅ t0 t1).

Implicit Types (e : surroundings) (p : Pod) (nd : node) (st : consumers) (t : PodTraffic).

Abbreviation registers := (registers excluded_namespaces).
Abbreviation registration := (registration excluded_namespaces).

(** ** The watcher as a source of events of Traffic.v *)

Definition consumer_view (ev : node_event) : option consumer_event :=
  match ev with
  | Watched e p => (λ '(n, i), PodFound n i) <$> registration e p
  | NetworkWakes w => Some (NetworkTurn w)
  | DropWakes w => Some (DropTurn w)
  end.

Definition in_step nd : Prop := containers (nd_watcher nd) = container_map (nd_consumers nd).

Lemma consume_container_map (ev : consumer_event) st :
  container_map (consume ev st) =
  match ev with PodFound n i => <[n := i]> (container_map st) | _ => container_map st end.
Proof.
  destruct ev as [w|w|n i]; [| |done].
  - pose proof (consume_network w st) as Hc. destruct (cached _ _) as [o c]. by rewrite Hc.
  - pose proof (consume_drop w st) as Hc. destruct (cached _ _) as [o c]. by rewrite Hc.
Qed.

Lemma node_step_view (ev : node_event) nd :
  in_step nd →
  in_step (node_step ev nd) ∧
  nd_consumers (node_step ev nd) = consume_all (option_list (consumer_view ev)) (nd_consumers nd).
Proof.
  unfold in_step. intros Hs. destruct ev as [e p|w|w]; cbn [node_step nd_watcher nd_consumers consumer_view].
  - split; [done|]. rewrite watch_pod_eq. simpl. rewrite Hs.
    destruct (registration e p) as [[n i]|]; [done|]. by destruct (nd_consumers nd).
  - by rewrite consume_container_map.
  - by rewrite consume_container_map.
Qed.

(** A run of the node is a run of the tasks in which the pods found are those that the watcher
    registers. *)
Lemma node_run_view (evs : list node_event) nd :
  in_step nd →
  in_step (node_run evs nd) ∧
  nd_consumers (node_run evs nd) = consume_all (omap consumer_view evs) (nd_consumers nd).
Proof.
  revert nd. induction evs as [|ev evs IH]; intros nd Hs; [done|].
  destruct (node_step_view ev nd Hs) as [Hs' Hc]. destruct (IH _ Hs') as [? Hr]. split; [done|].
  change (node_run (ev :: evs) nd) with (node_run evs (node_step ev nd)). rewrite Hr, Hc.
  rewrite <- consume_all_app. simpl. by destruct (consumer_view ev).
Qed.

Lemma new_node_in_step (t0 t1 : Z) : in_step (new_node t0 t1).
Proof. done. Qed.

(** ** Where entries come from *)

(** What an entry, or a pod of the map, says is about a pod that was watched and may be. *)
Definition watched_as (evs : list node_event) (name : string) (ns : option string) (ip : string) : Prop :=
  ∃ e p, Watched e p ∈ evs ∧ is_Some (pod_unready p) ∧ pod_address p = Some ip ∧
    (∀ s, meta_namespace (metadata p) = Some s → s ∉ excluded_namespaces) ∧
    name = name_any (metadata p) ∧ ns = meta_namespace (metadata p).

Definition entry_of_watched (evs : list node_event) t : Prop :=
  watched_as evs (pt_pod_name t) (pt_pod_namespace t) (pt_pod_ip t).

Definition all_watched (evs : list node_event) st : Prop :=
  (∀ n i, container_map st !! n = Some i →
     let info := status i in watched_as evs (pi_pod_name info) (pi_pod_namespace info) (pi_pod_ip info)) ∧
  (∀ t, t ∈ built (network_handler st) → entry_of_watched evs t) ∧
  (∀ t, t ∈ built (drop_handler st) → entry_of_watched evs t).

Lemma candidate_pod {E : Type} (inum : E → Z) make cm (w : loop_wakeup E) t :
  (∀ event i uuid ts t, make event i uuid ts = Some t →
     pt_pod_name t = pi_pod_name (status i) ∧ pt_pod_namespace t = pi_pod_namespace (status i) ∧
     pt_pod_ip t = pi_pod_ip (status i)) →
  candidate inum make cm w = Some t →
  ∃ n i, cm !! n = Some i ∧ pt_pod_name t = pi_pod_name (status i) ∧
    pt_pod_namespace t = pi_pod_namespace (status i) ∧ pt_pod_ip t = pi_pod_ip (status i).
Proof.
  intros Hm. unfold candidate. destruct (wake w) as [event uuid ts| |]; [|done..].
  intros (i&Hi&Ht)%bind_Some. apply Hm in Ht. by exists (inum event), i.
Qed.

Lemma network_entry_pod (event : NetworkProbe.network_event) (i : PodInspect) (uuid : string) (ts : Z) t :
  network_entry event i uuid ts = Some t →
  pt_pod_name t = pi_pod_name (status i) ∧ pt_pod_namespace t = pi_pod_namespace (status i) ∧
  pt_pod_ip t = pi_pod_ip (status i).
Proof. unfold network_entry. repeat case_match; intros; by simplify_eq. Qed.

Lemma network_candidate_pod (w : loop_wakeup NetworkProbe.network_event) st t :
  network_candidate w st = Some t →
  ∃ n i, container_map st !! n = Some i ∧ pt_pod_name t = pi_pod_name (status i) ∧
    pt_pod_namespace t = pi_pod_namespace (status i) ∧ pt_pod_ip t = pi_pod_ip (status i).
Proof.
  unfold network_candidate. destruct (running _); [|done]. apply candidate_pod.
  intros event i uuid ts t'. apply network_entry_pod.
Qed.

Lemma drop_candidate_pod (w : loop_wakeup NetpolicyDrop.policy_drop) st t :
  drop_candidate w st = Some t →
  ∃ n i, container_map st !! n = Some i ∧ pt_pod_name t = pi_pod_name (status i) ∧
    pt_pod_namespace t = pi_pod_namespace (status i) ∧ pt_pod_ip t = pi_pod_ip (status i).
Proof.
  unfold drop_candidate. destruct (running _); [|done]. apply candidate_pod.
  intros event i uuid ts t'. unfold drop_entry. repeat case_match; intros; by simplify_eq.
Qed.

(** What a turn of a loop adds to its entries. *)
Lemma built_turn {E : Type} (T : Z) (w : loop_wakeup E) (o o' : option PodTraffic) c c' h t :
  cached o c = (o', c') →
  t ∈ built (if running h then flush_turn T w (push_opt o' h) else h) → t ∈ built h ∨ o = Some t.
Proof.
  intros Hc. destruct (running h); [|by left]. rewrite flush_turn_built. unfold cached in Hc.
  destruct o as [t'|]; [|injection Hc as <- <-; by left].
  destruct (contains_key _ _); injection Hc as <- <-; [by left|]. simpl.
  rewrite elem_of_app, list_elem_of_singleton. intros [?| ->]; [by left|by right].
Qed.

Lemma all_watched_turn (evs : list node_event) (ev : consumer_event) st :
  (∀ n i, ev ≠ PodFound n i) → all_watched evs st → all_watched evs (consume ev st).
Proof.
  intros Hev (Hm&Hn&Hd).
  assert (∀ t n i, container_map st !! n = Some i → pt_pod_name t = pi_pod_name (status i) →
    pt_pod_namespace t = pi_pod_namespace (status i) → pt_pod_ip t = pi_pod_ip (status i) →
    entry_of_watched evs t) as Hmap.
  { intros t n i Hi Hname Hns Hip. unfold entry_of_watched. rewrite Hname, Hns, Hip. by apply (Hm n). }
  destruct ev as [w|w|n i]; [| |by edestruct Hev].
  - pose proof (consume_network w st) as Hc. destruct (cached _ _) as [o c] eqn:Ec. rewrite Hc.
    split_and!; [done| |done]. intros t Ht. apply (built_turn _ _ _ _ _ _ _ _ Ec) in Ht as [Ht|Ht]; [by apply Hn|].
    destruct (network_candidate_pod w st t Ht) as (n&i&?&?&?&?). by eapply Hmap.
  - pose proof (consume_drop w st) as Hc. destruct (cached _ _) as [o c] eqn:Ec. rewrite Hc.
    split_and!; [done|done|]. intros t Ht. apply (built_turn _ _ _ _ _ _ _ _ Ec) in Ht as [Ht|Ht]; [by apply Hd|].
    destruct (drop_candidate_pod w st t Ht) as (n&i&?&?&?&?). by eapply Hmap.
Qed.

Lemma watched_as_mono (evs evs' : list node_event) (name ip : string) (ns : option string) :
  evs ⊆ evs' → watched_as evs name ns ip → watched_as evs' name ns ip.
Proof. intros Hs (e&p&?&?). exists e, p. split; [by apply Hs|done]. Qed.

Lemma all_watched_mono (evs evs' : list node_event) st :
  evs ⊆ evs' → all_watched evs st → all_watched evs' st.
Proof.
  intros Hs (Hm&Hn&Hd). split_and!.
  - intros n i Hi. eapply watched_as_mono; [exact Hs|]. by apply (Hm n).
  - intros t Ht. eapply watched_as_mono; [exact Hs|]. by apply Hn.
  - intros t Ht. eapply watched_as_mono; [exact Hs|]. by apply Hd.
Qed.

Lemma all_watched_step (evs : list node_event) (ev : node_event) nd :
  in_step nd → ev ∈ evs → all_watched evs (nd_consumers nd) →
  all_watched evs (nd_consumers (node_step ev nd)).
Proof.
  intros Hs Hin Ha. destruct (node_step_view ev nd Hs) as [_ ->].
  destruct ev as [e p|w|w]; cbn [consumer_view].
  - destruct (registration e p) as [[n i]|] eqn:Hr; simpl; [|done]. destruct Ha as (Hm&Hn&Hd).
    split_and!; [|done|done]. intros n' i'. simpl. rewrite lookup_insert. case_decide; [|apply Hm].
    intros [= <-]. apply registration_some in Hr as (cs&ip&Hcs&Hip&Hex&Hst&_). rewrite Hst. simpl.
    exists e, p. rewrite not_excluded in Hex. by split_and!.
  - by apply all_watched_turn.
  - by apply all_watched_turn.
Qed.

Lemma all_watched_run (evs : list node_event) nd all :
  in_step nd → evs ⊆ all → all_watched all (nd_consumers nd) →
  all_watched all (nd_consumers (node_run evs nd)).
Proof.
  revert nd. induction evs as [|ev evs IH]; intros nd Hs Hsub Ha; [done|].
  change (node_run (ev :: evs) nd) with (node_run evs (node_step ev nd)). apply IH.
  - by apply node_step_view.
  - intros ev' ?. apply Hsub. by right.
  - apply all_watched_step; [done| |done]. apply Hsub. by left.
Qed.

(** ** What is sent is known *)

Definition sent_known nd : Prop :=
  ∀ n, n ∈ ch_sent (tx (nd_watcher nd)) → is_Some (containers (nd_watcher nd) !! n).

Lemma sent_known_step (ev : node_event) nd : sent_known nd → sent_known (node_step ev nd).
Proof.
  intros Hk. destruct ev as [e p|w|w]; [|done..]. intros n. cbn [node_step nd_watcher].
  rewrite watch_pod_eq. simpl. destruct (registration e p) as [[m i]|]; simpl; [|apply Hk].
  rewrite lookup_insert. case_decide as Hm; [by eauto|]. intros [->|Hn]%elem_of_sent; [done|]. by apply Hk.
Qed.

Lemma sent_known_run (evs : list node_event) nd : sent_known nd → sent_known (node_run evs nd).
Proof.
  revert nd. induction evs as [|ev evs IH]; intros nd Hk; [done|].
  apply (IH (node_step ev nd)). by apply sent_known_step.
Qed.

(** Pods of excluded namespaces leave the map as it is. *)
Lemma excluded_keep_pods (n : Z) (evs : list node_event) :
  Forall (λ ev, match ev with
                | Watched _ q => ∃ ns, meta_namespace (metadata q) = Some ns ∧ ns ∈ excluded_namespaces
                | _ => True
                end) evs →
  Forall (keeps_pod n) (omap consumer_view evs).
Proof.
  intros Hex. induction Hex as [|ev evs Hev _ IH]; [done|]. destruct ev as [e q|w|w]; simpl; [|by constructor..].
  destruct Hev as (ns&Hns&Hin). by rewrite (excluded_no_registration _ e q ns Hns Hin).
Qed.

(** ** Theorems *)

(** only the pods that are to be watched appear in what the node reports.  Whatever the watcher sees
    and whatever the tasks receive, in any order, the entry of a flow or of a drop bears the name, the
    namespace and the address of a pod that was seen ready, in a namespace that is not excluded. *)
Theorem entries_are_of_watched_pods (evs : list node_event) (t0 t1 : Z) t :
  let st := nd_consumers (node_run evs (new_node t0 t1)) in
  t ∈ built (network_handler st) ∨ t ∈ built (drop_handler st) →
  ∃ e p ip, Watched e p ∈ evs ∧ is_Some (pod_unready p) ∧ pod_address p = Some ip ∧
    (∀ ns, meta_namespace (metadata p) = Some ns → ns ∉ excluded_namespaces) ∧
    pt_pod_name t = name_any (metadata p) ∧ pt_pod_namespace t = meta_namespace (metadata p) ∧
    pt_pod_ip t = ip.
Proof.
  intros st Ht.
  destruct (all_watched_run evs (new_node t0 t1) evs) as (_&Hn&Hd).
  - apply new_node_in_step.
  - done.
  - split_and!; intros *; by rewrite ?lookup_empty, ?elem_of_nil.
  - destruct Ht as [Ht|Ht]; [apply Hn in Ht|apply Hd in Ht];
      destruct Ht as (e&p&?&?&?&?&?&?); by exists e, p, (pt_pod_ip t).
Qed.

(** a namespace outlives its pod.  The entry of a pod stays in the map when the pod is gone.  Pods of
    excluded namespaces that are seen afterwards, one to which the kernel has given the network
    namespace of the first pod included, leave the map as it is: each flow announced in that network
    namespace still becomes an entry of the first pod. *)
Theorem reused_namespace_is_misattributed (evs evs' : list node_event) (t0 t1 : Z) e p (inode : Z)
    (i : PodInspect) (w : loop_wakeup NetworkProbe.network_event) (event : NetworkProbe.network_event)
    (uuid : string) (ts : Z) t :
  let evs1 := evs ++ Watched e p :: evs' in
  let st := nd_consumers (node_run evs1 (new_node t0 t1)) in
  registers e p inode i →
  Forall (λ ev, match ev with
                | Watched _ q => ∃ ns, meta_namespace (metadata q) = Some ns ∧ ns ∈ excluded_namespaces
                | _ => True
                end) evs' →
  wake w = Received event uuid ts → NetworkProbe.ne_inum event = inode →
  running (network_handler st) = true → network_entry event i uuid ts = Some t →
  pt_pod_name t = name_any (metadata p) ∧ pt_pod_namespace t = meta_namespace (metadata p) ∧
  ∃ t', entry_key t' = entry_key t ∧
    t' ∈ built (network_handler (nd_consumers (node_run (evs1 ++ [NetworkWakes w]) (new_node t0 t1)))).
Proof.
  intros evs1 st Hreg Hex Hw Hev Hrun Ht. apply registration_registers in Hreg as Hr.
  destruct (node_run_view evs1 (new_node t0 t1)) as [_ Hst]; [done|]. fold st in Hst.
  assert (container_map st !! inode = Some i) as Hi.
  { rewrite Hst. unfold evs1. rewrite omap_app, consume_all_app. simpl. rewrite Hr. simpl.
    rewrite consume_all_pod; [apply lookup_insert_eq|]. by eapply excluded_keep_pods. }
  assert (network_candidate w st = Some t) as Hc.
  { unfold network_candidate, candidate. by rewrite Hrun, Hw, Hev, Hi. }
  apply registration_some in Hr as (_&ip&_&_&_&Hinfo&_).
  destruct (network_entry_pod _ _ _ _ _ Ht) as (->&->&_). rewrite Hinfo. split_and!; [done..|].
  destruct (run_ok ∅ t0 t1 (omap consumer_view evs1)) as (_&Hok&_).
  change (new_consumers ∅ t0 t1) with (nd_consumers (new_node t0 t1)) in Hok. rewrite <- Hst in Hok.
  pose proof (consume_candidate w st t Hok Hc) as (t'&->&Hin)%list_elem_of_fmap. exists t'.
  split; [done|]. unfold node_run. by rewrite foldl_app.
Qed.

(** the poll loop is told of no namespace that the tasks do not know.  The map of the containers has
    a pod for each namespace that was sent to be registered in the probes, at every moment. *)
Theorem sent_namespace_is_known (evs : list node_event) (t0 t1 inode : Z) :
  let nd := node_run evs (new_node t0 t1) in
  inode ∈ ch_sent (tx (nd_watcher nd)) → is_Some (container_map (nd_consumers nd) !! inode).
Proof.
  intros nd Hin. destruct (node_run_view evs (new_node t0 t1)) as [Hs _]; [done|]. unfold in_step in Hs.
  fold nd in Hs. rewrite <- Hs. apply (sent_known_run evs (new_node t0 t1)); [|done].
  by intros n ?%elem_of_nil.
Qed.

End Node.
