(* ===== verification/Auth.v ===== *)
(** * Settings, and who may call the broker

    controller/src/client.rs and the settings of main.rs: the URL and the token of a post, and the
    environment variables that the controller reads when it starts.  Then broker/src/auth.rs, and the
    token on the sides of both clients of the broker, with the theorems about it. *)

From Stdlib Require Import Ascii.
From S2P Require Import Prelude RustStd RustText PodWatcher PodWatcherThms.

(** * controller/src/client.rs *)

Definition build_url (api_endpoint path : string) : string :=
  trim_end_matches "/" api_endpoint +:+ "/" +:+ trim_start_matches "/" path.

(** [env::var]. *)
Abbreviation environment := (string → option string).

(** A variable that must be set, to more than blanks. *)
Definition required (env : environment) (key : string) : option string :=
  s ← env key; let s := trim s in if bool_decide (s = EmptyString) then None else Some s.

Definition broker_auth_token (env : environment) : option string := required env "BROKER_AUTH_TOKEN".

(** The URL of [api_post_call]; [None]: an error, nothing is sent. *)
Definition post_url (env : environment) (path : string) : option string :=
  api_endpoint ← required env "API_ENDPOINT"; Some (build_url api_endpoint path).

Record settings : Type := Settings {
  node_name : string;
  broker_url : string;
  excluded_namespaces : list string;
  ignore_daemonset_traffic : bool
}.

(** What [main] reads; [None] when it returns an error. *)
Definition read_settings (env : environment) : option settings :=
  node_name ← required env "CURRENT_NODE";
  broker_url ← required env "API_ENDPOINT";
  Some {|
    node_name := node_name; broker_url := broker_url;
    excluded_namespaces :=
      parse_excluded_namespaces (default "kube-system,kguardian"%string (env "EXCLUDED_NAMESPACES"%string));
    ignore_daemonset_traffic :=
      parse_lenient_bool (default EmptyString (env "IGNORE_DAEMONSET_TRAFFIC"%string)) true |}.

(** ** Properties *)

Lemma required_some (env : environment) (key s : string) :
  required env key = Some s ↔ ∃ s', env key = Some s' ∧ s = trim s' ∧ s ≠ EmptyString.
Proof.
  unfold required. destruct (env key) as [s'|]; simpl; [|naive_solver]. case_bool_decide; naive_solver.
Qed.

(** Slashes at the seam are of no account. *)
Lemma trim_end_matches_app (c : ascii) (s t : string) :
  all_chars (λ a, Ascii.eqb a c) t = true → trim_end_matches c (s +:+ t) = trim_end_matches c s.
Proof.
  intros Ht. induction s as [|a s IH].
  - change ("" +:+ t) with t. induction t as [|a t IH]; [done|]. simpl in *.
    apply andb_true_iff in Ht as [Ha Ht]. by rewrite (IH Ht), Ha.
  - change (String a s +:+ t) with (String a (s +:+ t)). cbn [trim_end_matches]. by rewrite IH.
Qed.

Lemma trim_start_matches_app (c : ascii) (s t : string) :
  all_chars (λ a, Ascii.eqb a c) t = true → trim_start_matches c (t +:+ s) = trim_start_matches c s.
Proof.
  intros Ht. induction t as [|a t IH]; [done|]. change (String a t +:+ s) with (String a (t +:+ s)).
  simpl in *. apply andb_true_iff in Ht as [-> Ht]. auto.
Qed.

(** The endpoint and the path are joined by one slash.  Whatever slashes end the one and start the other,
    the URL is the same; what stands before the joining slash does not end in one, and what stands after
    it does not start with one. *)
Theorem build_url_single_slash (api_endpoint path slashes slashes' : string) :
  all_chars (λ a, Ascii.eqb a "/") slashes = true → all_chars (λ a, Ascii.eqb a "/") slashes' = true →
  build_url (api_endpoint +:+ slashes) (slashes' +:+ path) = build_url api_endpoint path ∧
  ∃ e p, build_url api_endpoint path = e +:+ "/" +:+ p ∧ ends_with "/" e = false ∧
    starts_with "/" p = false.
Proof.
  intros Hs Hs'. unfold build_url. rewrite trim_end_matches_app, trim_start_matches_app by done.
  split; [done|]. exists (trim_end_matches "/" api_endpoint), (trim_start_matches "/" path).
  split_and!; [done|apply trim_end_matches_ends|apply trim_start_matches_starts].
Qed.

(** The settings are clean, and the posts go where [main] says: a controller that starts has a name for
    its node and an endpoint, both trimmed and not empty; each namespace that it excludes is trimmed, is
    not empty and has no comma; and the URL of each post is made of that same endpoint. *)
Theorem settings_are_clean (env : environment) (st : settings) (path : string) :
  read_settings env = Some st →
  (node_name st ≠ EmptyString ∧ trimmed (node_name st) = true) ∧
  (broker_url st ≠ EmptyString ∧ trimmed (broker_url st) = true) ∧
  (∀ ns, ns ∈ excluded_namespaces st → ns ≠ EmptyString ∧ trimmed ns = true ∧ without "," ns = true) ∧
  post_url env path = Some (build_url (broker_url st) path).
Proof.
  unfold read_settings, post_url. intros (n&Hn&(u&Hu&[= <-])%bind_Some)%bind_Some. rewrite Hu. simpl.
  apply required_some in Hn as (n'&_&->&?). apply required_some in Hu as (u'&_&->&?).
  split_and!; try done; [apply trim_trimmed..|]. intros ns. apply parsed_namespaces_clean.
Qed.

(** * broker/src/auth.rs: who may call the broker *)

#[local] Open Scope string_scope.
#[local] Arguments String.append : simpl nomatch.

(** ** The broker *)

(** What is read of a request; a header that is not text is none. *)
Record request : Type := MkRequest {
  rq_method : string;
  rq_path : string;
  rq_authorization : option string
}.

Record AuthConfig : Type := MkAuthConfig { token : option string }.

Definition auth_from_env (env : environment) : AuthConfig :=
  MkAuthConfig
    (t ← trim <$> env "BROKER_AUTH_TOKEN"; if String.eqb t EmptyString then None else Some t).

Definition bytes_of (s : string) : list Z := (λ a, Z.of_N (N_of_ascii a)) <$> String.list_ascii_of_string s.

(** [diff] is a [u8]. *)
Definition ct_eq (a b : string) : bool :=
  if negb (String.length a =? String.length b)%nat then false else
  let diff := foldl (λ diff xy, Z.lor diff (Z.lxor xy.1 xy.2)) 0%Z (zip (bytes_of a) (bytes_of b)) in
  (diff =? 0)%Z.

Definition is_exempt (req : request) : bool :=
  String.eqb (rq_method req) "OPTIONS" || String.eqb (rq_path req) "/health" || String.eqb (rq_path req) "/metrics".

Definition bearer_ok (req : request) (expected : string) : bool :=
  default false ((λ t, ct_eq (trim t) expected) <$> (rq_authorization req ≫= strip_prefix "Bearer ")).

(** Whether the handler is called; else the answer is 401. *)
Definition require_bearer (config : AuthConfig) (req : request) : bool :=
  match token config with
  | Some expected => is_exempt req || bearer_ok req expected
  | None => true
  end.

(** ** The clients *)

(** A post of the controller. *)
Definition controller_request (env : environment) (path : string) : request :=
  MkRequest "POST" path ((λ t, "Bearer " +:+ t) <$> broker_auth_token env).

(** [BrokerAuthToken], which no code of the repository assigns. *)
Definition BrokerAuthToken : string := EmptyString.

Definition brokerGet (path : string) : request :=
  MkRequest "GET" path
    (if negb (String.eqb BrokerAuthToken EmptyString) then Some ("Bearer " +:+ BrokerAuthToken) else None).

(** ** The comparison *)

Lemma to_list_length (s : string) : length (String.list_ascii_of_string s) = String.length s.
Proof. induction s as [|a s IH]; simpl; [done|]. by rewrite IH. Qed.

Lemma bytes_inj (a b : string) : bytes_of a = bytes_of b → a = b.
Proof.
  unfold bytes_of. revert b. induction a as [|x a IH]; intros [|y b]; simpl; try done.
  intros [= Hxy%(inj Z.of_N) Hab]. f_equal; [|by apply IH].
  rewrite <- (ascii_N_embedding x), <- (ascii_N_embedding y). by rewrite Hxy.
Qed.

Lemma diff_zero (l : list (Z * Z)) (d : Z) :
  foldl (λ diff xy, Z.lor diff (Z.lxor xy.1 xy.2)) d l = 0%Z ↔ d = 0%Z ∧ Forall (λ xy, xy.1 = xy.2) l.
Proof.
  revert d. induction l as [|[x y] l IH]; intros d; simpl; [by split; [|by intros [? _]]|].
  rewrite IH, Forall_cons, Z.lor_eq_0_iff, Z.lxor_eq_0_iff. naive_solver.
Qed.

Lemma zip_equal (l k : list Z) : length l = length k → Forall (λ xy, xy.1 = xy.2) (zip l k) ↔ l = k.
Proof.
  revert k. induction l as [|x l IH]; intros [|y k]; simpl; try done. intros [= Hl].
  rewrite Forall_cons, IH by done. simpl. naive_solver.
Qed.

Lemma ct_eq_spec (a b : string) : ct_eq a b = true ↔ a = b.
Proof.
  unfold ct_eq. destruct (Nat.eqb_spec (String.length a) (String.length b)) as [E|E]; simpl.
  - rewrite Z.eqb_eq, diff_zero, zip_equal by (unfold bytes_of; by rewrite !length_fmap, !to_list_length).
    split; [intros [_ ?]; by apply bytes_inj|by intros ->].
  - split; [done|]. by intros ->.
Qed.

(** ** Who is let in *)

Lemma auth_token_trimmed (env : environment) (t : string) :
  token (auth_from_env env) = Some t → trim t = t ∧ t ≠ EmptyString ∧ broker_auth_token env = Some t.
Proof.
  unfold auth_from_env, broker_auth_token, required. simpl. destruct (env "BROKER_AUTH_TOKEN") as [s|]; simpl; [|done].
  destruct (String.eqb_spec (trim s) EmptyString) as [E|E]; [done|]. intros [= <-].
  rewrite trim_idemp, bool_decide_eq_false_2 by done. done.
Qed.

(** C33: the token guards the interface.  When the broker has a token, a request reaches a handler exactly
    when its method is OPTIONS, whatever its path, when it is for one of the two paths that are open,
    /health and /metrics, or when it bears the token, with any blanks around it; and without a token, every
    request does. *)
Theorem token_guards_exactly (env : environment) (req : request) :
  require_bearer (auth_from_env env) req = true ↔
  token (auth_from_env env) = None ∨
  rq_method req = "OPTIONS" ∨ rq_path req = "/health" ∨ rq_path req = "/metrics" ∨
  ∃ t, rq_authorization req = Some ("Bearer " +:+ t) ∧ token (auth_from_env env) = Some (trim t).
Proof.
  unfold require_bearer. destruct (token (auth_from_env env)) as [expected|]; [|split; [by left|done]].
  unfold is_exempt, bearer_ok. rewrite !orb_true_iff, !String.eqb_eq.
  assert (default false ((λ t, ct_eq (trim t) expected) <$> (rq_authorization req ≫= strip_prefix "Bearer ")) = true ↔
    ∃ t, rq_authorization req = Some ("Bearer " +:+ t) ∧ Some expected = Some (trim t)) as ->; [|naive_solver].
  destruct (rq_authorization req) as [h|]; cbn [mbind option_bind]; [|split; [done|by intros (?&?&_)]].
  destruct (strip_prefix "Bearer " h) as [t|] eqn:Hs; cbn [fmap option_fmap option_map default].
  - apply strip_prefix_some in Hs as ->. unfold id. rewrite ct_eq_spec. split.
    + intros <-. by exists t.
    + intros (t'&[= Ht]&[= ->]). by rewrite Ht.
  - split; [done|]. intros (t&[= ->]&_). by assert (Some t = None) by exact (eq_trans (eq_sym (strip_prefix_app "Bearer " t)) Hs).
Qed.

(** the controller is let in and the advisor is not.  A controller whose setting differs from the
    broker's by blanks around it at most reaches every handler; while the broker has a token, the
    advisor, which never sends one, is refused at every path that it reads. *)
Theorem advisor_is_shut_out (env env' : environment) (path name : string) :
  trim <$> env "BROKER_AUTH_TOKEN" = trim <$> env' "BROKER_AUTH_TOKEN" →
  is_Some (token (auth_from_env env)) →
  require_bearer (auth_from_env env) (controller_request env' path) = true ∧
  require_bearer (auth_from_env env) (brokerGet ("/pod/traffic/" +:+ name)) = false ∧
  require_bearer (auth_from_env env) (brokerGet ("/pod/ip/" +:+ name)) = false ∧
  require_bearer (auth_from_env env) (brokerGet ("/svc/ip/" +:+ name)) = false ∧
  require_bearer (auth_from_env env) (brokerGet ("/pod/syscalls/" +:+ name)) = false.
Proof.
  intros Henv [t Ht]. split.
  - assert (token (auth_from_env env') = Some t) as Ht'.
    { unfold auth_from_env in *. simpl in *. by rewrite <- Henv. }
    destruct (auth_token_trimmed env' t Ht') as (Htt&_&Hb).
    unfold require_bearer. rewrite Ht. unfold bearer_ok, controller_request. rewrite Hb. simpl.
    unfold id. rewrite Htt. apply orb_true_iff. right. by apply ct_eq_spec.
  - unfold require_bearer. rewrite Ht. by split_and!.
Qed.

(** ** At concrete settings *)

Definition wit_env : environment := λ key, if String.eqb key "BROKER_AUTH_TOKEN" then Some "s3cret" else None.
Definition wit_padded : environment := λ key, if String.eqb key "BROKER_AUTH_TOKEN" then Some " s3cret " else None.

Lemma advisor_is_shut_out_witness :
  require_bearer (auth_from_env wit_env) (controller_request wit_padded "pod/traffic/batch") = true ∧
  require_bearer (auth_from_env wit_env) (brokerGet "/pod/traffic/web") = false.
Proof.
  pose proof (advisor_is_shut_out wit_env wit_padded "pod/traffic/batch" "web" eq_refl (ex_intro _ "s3cret" eq_refl))
    as (Hc&Ha&_).
  exact (conj Hc Ha).
Defined.
