(* ===== verification/GoStd.v ===== *)
(** * What the Go sources use of the Go standard library

    Numbers in text ([strconv.Atoi]), [strings.EqualFold] and [strings.Cut], [sort], and the addresses
    of package [net] ([ParseIP], [ParseCIDR], [IPNet.Contains]), of both families. *)

From Stdlib Require Import Ascii.
From stdpp Require Import pretty sorting.
From S2P Require Import Prelude RustStd RustText.

(** ** strconv *)

Definition unsigned_digits (s : string) : option Z :=
  match s with EmptyString => None | _ => parse_digits 0 s end.

Definition signed_digits (s : string) : option Z :=
  match s with
  | String "-" t => Z.opp <$> unsigned_digits t
  | String "+" t => unsigned_digits t
  | _ => unsigned_digits s
  end.

Definition Atoi (s : string) : option Z :=
  n ← signed_digits s;
  if (- 2 ^ 63 <=? n) && (n <? 2 ^ 63) then Some n else None.

Definition Itoa (n : Z) : string := pretty n.

(** A conversion to [int32]. *)
Definition i32_of (z : Z) : Z := (z + 2 ^ 31) `mod` 2 ^ 32 - 2 ^ 31.

(** ** strings *)

Definition EqualFold (s t : string) : bool := String.eqb (to_ascii_lowercase s) (to_ascii_lowercase t).

(** What precedes the first [sep], and what follows it. *)
Fixpoint Cut (sep : ascii) (s : string) : option (string * string) :=
  match s with
  | EmptyString => None
  | String a s =>
      if Ascii.eqb a sep then Some (EmptyString, s)
      else '(before, after) ← Cut sep s; Some (String a before, after)
  end.

(** [s < t], byte by byte. *)
Definition string_less (s t : string) : bool := negb (bool_decide (String.le t s)).

(** ** sort *)

Definition sort_Strings (l : list string) : list string := merge_sort String.le l.

(** Elements that [less] does not tell apart keep their order here; Go promises nothing for them. *)
Definition not_after {A} (less : A → A → bool) (x y : A) : Prop := less y x = false.

#[export] Instance not_after_dec {A} (less : A → A → bool) : RelDecision (not_after less).
Proof. intros x y. unfold not_after. apply _. Defined.

Definition sort_Slice {A} (less : A → A → bool) (l : list A) : list A := merge_sort (not_after less) l.

(** ** net: addresses *)

(** A [netip.Addr] without a zone. *)
Inductive Addr : Type := Is4 (z : Z) | Is6 (z : Z).

Definition v4InV6 (z : Z) : Z := 0xffff * 2 ^ 32 + z.

Definition As16 (a : Addr) : Z := match a with Is4 z => v4InV6 z | Is6 z => z end.
Definition BitLen (a : Addr) : Z := match a with Is4 _ => 32 | Is6 _ => 128 end.

Definition hex_digit (a : ascii) : option Z :=
  let n := Z.of_N (N_of_ascii a) in
  if (48 <=? n) && (n <=? 57) then Some (n - 48)
  else if (97 <=? n) && (n <=? 102) then Some (n - 87)
  else if (65 <=? n) && (n <=? 70) then Some (n - 55)
  else None.

(** The digits at the head of [s], at most four: their value, how many, and what follows. *)
Fixpoint hex_group (acc : Z) (off : nat) (s : string) : option (Z * nat * string) :=
  match s with
  | EmptyString => Some (acc, off, s)
  | String a s' =>
      match hex_digit a with
      | Some d => if (3 <? off)%nat then None else hex_group (16 * acc + d) (S off) s'
      | None => Some (acc, off, s)
      end
  end.

(** The loop of [parseIPv6]: [room] groups of 16 bits are missing; [ellipsis] is where [::] stood. *)
Fixpoint ip6_groups (room : nat) (s : string) (groups : list Z) (ellipsis : option nat) :
    option (list Z * option nat * string) :=
  match room with
  | O => Some (groups, ellipsis, s)
  | S room' =>
      '(acc, off, t) ← hex_group 0 0 s;
      if (off =? 0)%nat then None else
      match t with
      | EmptyString => Some (groups ++ [acc], ellipsis, EmptyString)
      | String "." _ =>
          if (bool_decide (ellipsis = None) && negb (room =? 2)%nat) || (room <? 2)%nat then None else
          v ← parse_ipv4 s;
          Some (groups ++ [v / 2 ^ 16; v `mod` 2 ^ 16], ellipsis, EmptyString)
      | String ":" EmptyString => None
      | String ":" (String ":" u) =>
          match ellipsis with
          | Some _ => None
          | None =>
              let groups := groups ++ [acc] in
              match u with
              | EmptyString => Some (groups, Some (length groups), u)
              | _ => ip6_groups room' u groups (Some (length groups))
              end
          end
      | String ":" u => ip6_groups room' u (groups ++ [acc]) ellipsis
      | _ => None
      end
  end.

Definition parse_ipv6 (s : string) : option Z :=
  if negb (without "%" s) then None else
  let '(leading, t) :=
    match s with String ":" (String ":" t) => (Some 0%nat, t) | _ => (None, s) end in
  match leading, t with
  | Some _, EmptyString => Some 0
  | _, _ =>
      '(groups, ellipsis, rest) ← ip6_groups 8 t [] leading;
      if negb (String.eqb rest EmptyString) then None else
      let n := (8 - length groups)%nat in
      groups ←
        match ellipsis with
        | None => if (n =? 0)%nat then Some groups else None
        | Some e => if (n =? 0)%nat then None else Some (take e groups ++ replicate n 0 ++ drop e groups)
        end;
      Some (foldl (λ z g, z * 2 ^ 16 + g) 0 groups)
  end.

(** The first of the three characters tells the family. *)
Fixpoint parse_by (s rest : string) : option Addr :=
  match rest with
  | EmptyString => None
  | String "." _ => Is4 <$> parse_ipv4 s
  | String ":" _ => Is6 <$> parse_ipv6 s
  | String "%" _ => None
  | String _ rest => parse_by s rest
  end.

Definition ParseAddr (s : string) : option Addr := parse_by s s.

(** A [net.IP] of 16 bytes. *)
Definition ParseIP (s : string) : option Z := As16 <$> ParseAddr s.

Definition To4 (ip : Z) : option Z :=
  if ip / 2 ^ 32 =? 0xffff then Some (ip `mod` 2 ^ 32) else None.

(** ** net: networks *)

Definition CIDRMask (ones bits : Z) : Z := (2 ^ ones - 1) * 2 ^ (bits - ones).

(** [net_bits] is the length of the address and of the mask. *)
Record IPNet : Type := MkIPNet { net_ip : Z; net_mask : Z; net_bits : Z }.

Definition ParseCIDR (s : string) : option IPNet :=
  '(addr, mask) ← Cut "/" s;
  ipAddr ← ParseAddr addr;
  n ← unsigned_digits mask;
  if BitLen ipAddr <? n then None else
  let m := CIDRMask n (BitLen ipAddr) in
  Some (MkIPNet (Z.land (match ipAddr with Is4 z | Is6 z => z end) m) m (BitLen ipAddr)).

(** Four bytes where there are four. *)
Definition networkNumberAndMask (n : IPNet) : Z * Z * Z :=
  if net_bits n =? 32 then (net_ip n, net_mask n, 32) else
  match To4 (net_ip n) with
  | Some ip => (ip, net_mask n `mod` 2 ^ 32, 32)
  | None => (net_ip n, net_mask n, 128)
  end.

Definition Contains (n : IPNet) (ip : Z) : bool :=
  let '(nn, m, l) := networkNumberAndMask n in
  let '(ip, len) := match To4 ip with Some x => (x, 32) | None => (ip, 128) end in
  if negb (len =? l) then false else Z.land nn m =? Z.land ip m.

(** ** Laws *)

Definition is_digit (a : ascii) : bool := match digit a with Some _ => true | None => false end.

Lemma parse_digits_pretty_go (n : N) (s : string) :
  parse_digits 0 (pretty_N_go n s) = parse_digits (Z.of_N n) s.
Proof.
  revert s. induction (N.lt_wf_0 n) as [n _ IH]; intros s.
  destruct (decide (n = 0)%N) as [->|Hn]; [by rewrite pretty_N_go_0|].
  rewrite pretty_N_go_step by lia. rewrite IH by (apply N.div_lt; lia).
  pose proof (N.mod_lt n 10 ltac:(done)) as Hm.
  cbn [parse_digits]. pose proof (N.div_mod n 10 ltac:(done)) as Hd. revert Hm Hd.
  generalize (n `div` 10)%N (n `mod` 10)%N. intros q r Hr Hd.
  assert (Z.of_N n = 10 * Z.of_N q + Z.of_N r) as -> by lia.
  destruct r as [|[[[[]|[]|]|[[]|[]|]|]|[[[]|[]|]|[[]|[]|]|]|]]; by try lia.
Qed.

(** All digits, and at least one. *)
Definition numeral (s : string) : bool := negb (String.eqb s EmptyString) && all_chars is_digit s.

Lemma pretty_go_digits (n : N) (s : string) :
  all_chars is_digit s = true → all_chars is_digit (pretty_N_go n s) = true.
Proof.
  revert s. induction (N.lt_wf_0 n) as [n _ IH]; intros s Hs.
  destruct (decide (n = 0)%N) as [->|Hn]; [by rewrite pretty_N_go_0|].
  rewrite pretty_N_go_step by lia. apply IH; [apply N.div_lt; lia|]. simpl. rewrite Hs, andb_true_r.
  unfold pretty_N_char. by repeat case_match.
Qed.

Lemma pretty_go_nonempty (n : N) (s : string) : s ≠ EmptyString → pretty_N_go n s ≠ EmptyString.
Proof.
  revert s. induction (N.lt_wf_0 n) as [n _ IH]; intros s Hs.
  destruct (decide (n = 0)%N) as [->|Hn]; [by rewrite pretty_N_go_0|].
  rewrite pretty_N_go_step by lia. apply IH; [apply N.div_lt; lia|done].
Qed.

Lemma pretty_Z_N (n : Z) : 0 ≤ n → pretty n = pretty (Z.to_N n).
Proof. by destruct n. Qed.

Lemma pretty_numeral (n : Z) : 0 ≤ n → numeral (pretty n) = true.
Proof.
  intros Hn. rewrite pretty_Z_N by done. unfold numeral. rewrite andb_true_iff, negb_true_iff, String.eqb_neq.
  unfold pretty, pretty_N. case_decide; [done|]. split; [|by apply pretty_go_digits].
  rewrite pretty_N_go_step by lia. by apply pretty_go_nonempty.
Qed.

Lemma unsigned_digits_pretty (n : Z) : 0 ≤ n → unsigned_digits (pretty n) = Some n.
Proof.
  intros Hn. assert (parse_digits 0 (pretty n) = Some n) as Hp.
  { rewrite pretty_Z_N by done. unfold pretty, pretty_N. case_decide as H0.
    - simpl. f_equal. lia.
    - rewrite parse_digits_pretty_go. simpl. f_equal. lia. }
  pose proof (pretty_numeral n Hn) as Hd. unfold unsigned_digits. rewrite Hp.
  by destruct (pretty n).
Qed.

Lemma signed_digits_pretty (n : Z) : 0 ≤ n → signed_digits (pretty n) = Some n.
Proof.
  intros Hn. pose proof (unsigned_digits_pretty n Hn) as Hp. pose proof (pretty_numeral n Hn) as Hd.
  unfold signed_digits. rewrite Hp.
  destruct (pretty n) as [|[[] [] [] [] [] [] [] []] t]; by try discriminate Hd.
Qed.

Lemma Atoi_pretty (n : Z) : 0 ≤ n < 2 ^ 63 → Atoi (pretty n) = Some n.
Proof.
  intros [Hn Hlt]. unfold Atoi. rewrite signed_digits_pretty by done. simpl.
  assert ((- 2 ^ 63 <=? n) = true) as -> by lia. simpl. by assert ((n <? 2 ^ 63) = true) as -> by lia.
Qed.

(** ** sort *)

(** A sorted list is determined by its members, when the order tells them apart. *)
Lemma sorted_by_members {A} (R : relation A) `{!Transitive R} (l l' : list A) :
  Sorted R l → Sorted R l' → NoDup l → NoDup l' → (∀ x, x ∈ l ↔ x ∈ l') →
  (∀ x y, x ∈ l → y ∈ l → R x y → R y x → x = y) → l = l'.
Proof.
  intros Hs Hs' Hn Hn' Hin Ha. apply (Sorted_unique_strong R); [|done|done|by apply NoDup_Permutation].
  intros x y Hx Hy. apply Ha; [done|by apply Hin].
Qed.

Lemma sort_Strings_sorted (l : list string) : Sorted String.le (sort_Strings l).
Proof. apply Sorted_merge_sort. apply _. Qed.

Lemma sort_Strings_perm (l : list string) : sort_Strings l ≡ₚ l.
Proof. apply merge_sort_Permutation. Qed.

Lemma sort_Slice_perm {A} (less : A → A → bool) (l : list A) : sort_Slice less l ≡ₚ l.
Proof. apply merge_sort_Permutation. Qed.

Lemma sort_Strings_unique (l l' : list string) :
  NoDup l → NoDup l' → (∀ x, x ∈ l ↔ x ∈ l') → sort_Strings l = sort_Strings l'.
Proof.
  intros Hn Hn' Hin. eapply (sorted_by_members String.le); try apply sort_Strings_sorted.
  - by rewrite sort_Strings_perm.
  - by rewrite sort_Strings_perm.
  - intros x. by rewrite !sort_Strings_perm.
  - intros x y _ _. apply (anti_symm String.le).
Qed.

(** ** net *)

Lemma Cut_app (sep : ascii) (w s : string) :
  without sep w = true → Cut sep (w +:+ String sep s) = Some (w, s).
Proof.
  unfold without. induction w as [|a w IH]; simpl; [by rewrite Ascii.eqb_refl|].
  destruct (Ascii.eqb a sep); simpl; [done|]. intros Hw. by rewrite IH.
Qed.

Lemma all_chars_impl (f g : ascii → bool) (s : string) :
  (∀ a, f a = true → g a = true) → all_chars f s = true → all_chars g s = true.
Proof.
  intros Hfg. induction s as [|a s IH]; simpl; [done|]. intros [Ha Hs]%andb_true_iff.
  by rewrite Hfg, IH.
Qed.

Lemma numeral_digits (s : string) : numeral s = true → all_chars is_digit s = true.
Proof. by intros [_ ?]%andb_true_iff. Qed.

(** Digits and dots. *)
Definition dotted (a : ascii) : bool := is_digit a || is_dot a.

Lemma pretty_dotted (n : Z) : 0 ≤ n → all_chars dotted (pretty n) = true.
Proof.
  intros Hn. eapply all_chars_impl; [|by apply numeral_digits, pretty_numeral].
  intros a Ha. unfold dotted. by rewrite Ha.
Qed.

Lemma ipv4_dotted (z : Z) : all_chars dotted (ipv4_to_string z) = true.
Proof.
  unfold ipv4_to_string. rewrite !all_chars_app.
  rewrite !pretty_dotted by apply octet_range. done.
Qed.

Lemma ipv4_without_slash (z : Z) : without "/" (ipv4_to_string z) = true.
Proof.
  eapply all_chars_impl; [|apply ipv4_dotted]. intros [[] [] [] [] [] [] [] []]; by vm_compute.
Qed.

Lemma parse_by_dotted (s d t : string) :
  all_chars is_digit d = true → parse_by s (d +:+ String "." t) = Is4 <$> parse_ipv4 s.
Proof.
  induction d as [|a d IH]; simpl; [done|]. intros [Ha Hd]%andb_true_iff. specialize (IH Hd).
  destruct a as [[] [] [] [] [] [] [] []]; try discriminate Ha; exact IH.
Qed.

Lemma ParseAddr_ipv4 (z : Z) : 0 ≤ z < 2 ^ 32 → ParseAddr (ipv4_to_string z) = Some (Is4 z).
Proof.
  intros Hz. unfold ParseAddr. unfold ipv4_to_string at 2.
  change ("." +:+ pretty (octet 2 z) +:+ "." +:+ pretty (octet 1 z) +:+ "." +:+ pretty (octet 0 z))
    with (String "." (pretty (octet 2 z) +:+ "." +:+ pretty (octet 1 z) +:+ "." +:+ pretty (octet 0 z))).
  rewrite parse_by_dotted by (apply numeral_digits, pretty_numeral, octet_range).
  by rewrite parse_ipv4_to_string.
Qed.

Lemma ParseIP_ipv4 (z : Z) : 0 ≤ z < 2 ^ 32 → ParseIP (ipv4_to_string z) = Some (v4InV6 z).
Proof. intros Hz. unfold ParseIP. by rewrite ParseAddr_ipv4. Qed.

Lemma To4_v4InV6 (z : Z) : 0 ≤ z < 2 ^ 32 → To4 (v4InV6 z) = Some z.
Proof.
  intros Hz. unfold To4, v4InV6. rewrite Z.div_add_l, Z.div_small by lia. simpl.
  by rewrite Z.add_comm, Z.mod_add, Z.mod_small by lia.
Qed.

(** The network of one address. *)
Lemma ParseCIDR_host (z : Z) :
  0 ≤ z < 2 ^ 32 → ParseCIDR (ipv4_to_string z +:+ "/32") = Some (MkIPNet z (2 ^ 32 - 1) 32).
Proof.
  intros Hz. unfold ParseCIDR. change "/32"%string with (String "/" "32").
  rewrite Cut_app by apply ipv4_without_slash. cbn [mbind option_bind].
  rewrite ParseAddr_ipv4 by done. change (unsigned_digits "32") with (Some 32).
  cbn -[Z.land CIDRMask]. change (CIDRMask 32 32) with (Z.ones 32). rewrite Z.land_ones by lia. by rewrite Z.mod_small.
Qed.

Lemma Contains_host (z z' : Z) :
  0 ≤ z < 2 ^ 32 → 0 ≤ z' < 2 ^ 32 →
  Contains (MkIPNet z (2 ^ 32 - 1) 32) (v4InV6 z') = (z =? z').
Proof.
  intros Hz Hz'. unfold Contains. cbn [networkNumberAndMask net_bits net_ip net_mask].
  rewrite To4_v4InV6 by done. cbn -[Z.land]. change (2 ^ 32 - 1) with (Z.ones 32).
  by rewrite !Z.land_ones, !Z.mod_small by lia.
Qed.
