(* ===== verification/KubePolicy.v ===== *)
(** * The Kubernetes objects that the advisor and the evaluator share

    The fields of the API types (networking.k8s.io/v1, core/v1) that the Go sources read or write, the
    custom resources of evaluator/pkg/v1alpha1, and label selectors: what apimachinery makes of one is
    a class, with the documented meaning of [matchLabels] as its law. *)

From S2P Require Import Prelude.

(** ** Labels and selectors *)

Abbreviation labels := (gmap string string).

Record LabelSelectorRequirement : Type := MkLabelSelectorRequirement {
  req_Key : string;
  req_Operator : string;
  req_Values : list string
}.

Record LabelSelector : Type := MkLabelSelector {
  MatchLabels : labels;
  MatchExpressions : list LabelSelectorRequirement
}.

(** [metav1.LabelSelectorAsSelector], [Selector.Matches], and the syntax of labels. *)
Class Selectors := {
  Selector : Type;
  LabelSelectorAsSelector : LabelSelector → option Selector;
  Matches : Selector → labels → bool;
  valid_label : string → string → bool
}.

Definition valid_labels `{Selectors} (m : labels) : Prop :=
  ∀ k v, m !! k = Some v → valid_label k v = true.

Class SelectorLaws `{Selectors} := {
  (* labels of valid syntax, and no expression: each is required *)
  selector_of_labels (m : labels) :
    valid_labels m →
    ∃ s, LabelSelectorAsSelector (MkLabelSelector m []) = Some s ∧
         ∀ lbls, Matches s lbls = bool_decide (m ⊆ lbls)
}.

(** ** networking.k8s.io/v1 *)

Record IPBlock : Type := MkIPBlock { CIDR : string; Except : list string }.

Record NetworkPolicyPeer : Type := MkPeer {
  peer_PodSelector : option LabelSelector;
  peer_NamespaceSelector : option LabelSelector;
  peer_IPBlock : option IPBlock
}.

Inductive IntOrString : Type := IntVal (z : Z) | StrVal (s : string).

Record NetworkPolicyPort : Type := MkPort {
  port_Protocol : option string;
  port_Port : option IntOrString;
  port_EndPort : option Z
}.

#[export] Instance IntOrString_eq_dec : EqDecision IntOrString.
Proof. solve_decision. Defined.

#[export] Instance NetworkPolicyPort_eq_dec : EqDecision NetworkPolicyPort.
Proof. solve_decision. Defined.

Record NetworkPolicyIngressRule : Type := MkIngressRule {
  in_Ports : list NetworkPolicyPort;
  From : list NetworkPolicyPeer
}.

Record NetworkPolicyEgressRule : Type := MkEgressRule {
  eg_Ports : list NetworkPolicyPort;
  To : list NetworkPolicyPeer
}.

Definition PolicyTypeIngress : string := "Ingress".
Definition PolicyTypeEgress : string := "Egress".

Record NetworkPolicySpec : Type := MkSpec {
  PodSelector : LabelSelector;
  PolicyTypes : list string;
  Ingress : list NetworkPolicyIngressRule;
  Egress : list NetworkPolicyEgressRule
}.

Record ObjectMeta : Type := MkObjectMeta {
  meta_Name : string;
  meta_Namespace : string;
  meta_UID : string;
  meta_Generation : Z;
  meta_Labels : labels
}.

Record NetworkPolicy : Type := MkNetworkPolicy {
  np_meta : ObjectMeta;
  np_Spec : NetworkPolicySpec
}.

Definition ProtocolTCP : string := "TCP".
Definition ProtocolUDP : string := "UDP".
Definition ProtocolSCTP : string := "SCTP".

(** ** core/v1 *)

Record ContainerPort : Type := MkContainerPort {
  cp_Name : string;
  cp_Protocol : string;
  cp_ContainerPort : Z
}.

(** [pod_Containers]: the ports of each container. *)
Record Pod : Type := MkPod {
  pod_Name : string;
  pod_Namespace : string;
  pod_Labels : labels;
  pod_Containers : list (list ContainerPort)
}.

(** ** evaluator/pkg/v1alpha1/types.go *)

Record AuditNetworkPolicy : Type := MkAuditNetworkPolicy {
  anp_meta : ObjectMeta;
  anp_Spec : NetworkPolicySpec
}.

Record ClusterNetworkPolicySpec : Type := MkClusterSpec {
  cs_NamespaceSelector : option LabelSelector;
  cs_PodSelector : LabelSelector;
  cs_PolicyTypes : list string;
  cs_Ingress : list NetworkPolicyIngressRule;
  cs_Egress : list NetworkPolicyEgressRule
}.

Record AuditClusterNetworkPolicy : Type := MkAuditClusterNetworkPolicy {
  acnp_meta : ObjectMeta;
  acnp_Spec : ClusterNetworkPolicySpec
}.
