(* ===== verification/Matcher.v ===== *)
(** * evaluator/pkg/matcher: would this policy deny this flow?

    One definition for each function of matcher.go.  A pointer that may be nil is an [option]; a loop
    that returns at the first match is [existsb]. *)

From S2P Require Import Prelude GoStd KubePolicy.

(** ** types.go *)

Definition DirectionIngress : string := "Ingress".
Definition DirectionEgress : string := "Egress".

Record Flow : Type := MkFlow {
  SrcPodNamespace : string;
  SrcPodName : string;
  DstPodNamespace : string;
  DstPodName : string;
  SrcIP : string;
  DstIP : string;
  DstPort : Z;
  Protocol : string
}.

Definition VerdictNotApplicable : string := "NotApplicable".
Definition VerdictAllow : string := "Allow".
Definition VerdictWouldDeny : string := "WouldDeny".

Record Result : Type := MkResult {
  PolicyNamespace : string;
  PolicyName : string;
  PolicyUID : string;
  PolicyGeneration : Z;
  Direction : string;
  Verdict : string;
  Reason : string
}.

Record Lookup : Type := MkLookup {
  GetPod : string → string → option Pod;
  GetNamespaceLabels : string → option labels
}.

Section Matcher.
Context `{Selectors}.
Implicit Types (flow : Flow) (dir : string) (lookup : Lookup).

Definition selectorMatchesLabels (sel : LabelSelector) (lbls : labels) : bool :=
  match LabelSelectorAsSelector sel with
  | None => false
  | Some s => Matches s lbls
  end.

(** ** The directions of a policy *)

Fixpoint dedup_loop (sawIngress sawEgress : bool) (l : list string) : list string :=
  match l with
  | [] => []
  | t :: l =>
      if String.eqb t PolicyTypeIngress then
        if sawIngress then dedup_loop sawIngress sawEgress l else t :: dedup_loop true sawEgress l
      else if String.eqb t PolicyTypeEgress then
        if sawEgress then dedup_loop sawIngress sawEgress l else t :: dedup_loop sawIngress true l
      else t :: dedup_loop sawIngress sawEgress l
  end.

Definition dedupPolicyTypes (l : list string) : list string :=
  if (length l <=? 1)%nat then l else dedup_loop false false l.

Definition effectivePolicyTypes (spec : NetworkPolicySpec) : list string :=
  if (0 <? length (PolicyTypes spec))%nat then dedupPolicyTypes (PolicyTypes spec)
  else [PolicyTypeIngress] ++ (if (0 <? length (Egress spec))%nat then [PolicyTypeEgress] else []).

Definition effectivePolicyTypesCluster (spec : ClusterNetworkPolicySpec) : list string :=
  if (0 <? length (cs_PolicyTypes spec))%nat then dedupPolicyTypes (cs_PolicyTypes spec)
  else [PolicyTypeIngress] ++ (if (0 <? length (cs_Egress spec))%nat then [PolicyTypeEgress] else []).

(** ** The two ends of a flow *)

Definition subjectPod flow dir lookup : option Pod :=
  if String.eqb dir DirectionIngress then GetPod lookup (DstPodNamespace flow) (DstPodName flow)
  else if String.eqb dir DirectionEgress then GetPod lookup (SrcPodNamespace flow) (SrcPodName flow)
  else None.

Definition peerPod flow dir lookup : option Pod :=
  if String.eqb dir DirectionIngress then GetPod lookup (SrcPodNamespace flow) (SrcPodName flow)
  else if String.eqb dir DirectionEgress then GetPod lookup (DstPodNamespace flow) (DstPodName flow)
  else None.

Definition portTargetPod flow dir lookup : option Pod :=
  GetPod lookup (DstPodNamespace flow) (DstPodName flow).

Definition peerIP flow dir : string :=
  if String.eqb dir DirectionIngress then SrcIP flow
  else if String.eqb dir DirectionEgress then DstIP flow
  else EmptyString.

(** ** Peers *)

Definition ipBlockMatches (ip : string) (block : IPBlock) : bool :=
  if String.eqb ip EmptyString then false else
  match ParseIP ip with
  | None => false
  | Some addr =>
      match ParseCIDR (CIDR block) with
      | None => false
      | Some allow =>
          if negb (Contains allow addr) then false
          else negb (existsb (λ exStr,
            match ParseCIDR exStr with Some ex => Contains ex addr | None => false end) (Except block))
      end
  end.

Definition peerEntryMatches (peer : option Pod) flow dir (p : NetworkPolicyPeer) lookup : bool :=
  match peer_IPBlock p with
  | Some block => ipBlockMatches (peerIP flow dir) block
  | None =>
      match peer with
      | None => false
      | Some peer =>
          let namespace_gate :=
            match peer_NamespaceSelector p with
            | Some sel =>
                match GetNamespaceLabels lookup (pod_Namespace peer) with
                | None => false
                | Some nsLabels => selectorMatchesLabels sel nsLabels
                end
            | None =>
                let subjectNs :=
                  if String.eqb dir DirectionIngress then DstPodNamespace flow
                  else if String.eqb dir DirectionEgress then SrcPodNamespace flow
                  else EmptyString in
                String.eqb (pod_Namespace peer) subjectNs
            end in
          if negb namespace_gate then false else
          match peer_PodSelector p with
          | Some sel => selectorMatchesLabels sel (pod_Labels peer)
          | None => true
          end
      end
  end.

Definition peerListMatches flow dir (peers : list NetworkPolicyPeer) lookup : bool :=
  if (length peers =? 0)%nat then true else
  let peerObj := peerPod flow dir lookup in
  existsb (λ p, peerEntryMatches peerObj flow dir p lookup) peers.

(** ** Ports *)

Definition namedPortMatches (name proto : string) (observed : Z) (pod : option Pod) : bool :=
  match pod with
  | None => false
  | Some pod =>
      if String.eqb name EmptyString then false else
      existsb (existsb (λ cp,
        String.eqb (cp_Name cp) name &&
        (let cpProto := if String.eqb (cp_Protocol cp) EmptyString then ProtocolTCP else cp_Protocol cp in
         String.eqb cpProto proto) &&
        (cp_ContainerPort cp =? observed))) (pod_Containers pod)
  end.

Definition portEntryMatches flow (p : NetworkPolicyPort) (dstPod : option Pod) : bool :=
  let wantProto := default ProtocolTCP (port_Protocol p) in
  if negb (String.eqb wantProto (Protocol flow)) then false else
  match port_Port p with
  | None => true
  | Some (IntVal port) =>
      match port_EndPort p with
      | Some endPort => (port <=? DstPort flow) && (DstPort flow <=? endPort)
      | None => DstPort flow =? port
      end
  | Some (StrVal name) => namedPortMatches name wantProto (DstPort flow) dstPod
  end.

Definition portsMatch flow (ports : list NetworkPolicyPort) (dstPod : option Pod) : bool :=
  if (length ports =? 0)%nat then true else existsb (λ p, portEntryMatches flow p dstPod) ports.

(** ** Rules *)

Definition evaluateIngress flow (rules : list NetworkPolicyIngressRule) dir lookup : bool * string :=
  let portPod := portTargetPod flow dir lookup in
  if (length rules =? 0)%nat then (false, "policy has no ingress rules — default-deny"%string)
  else if existsb (λ rule, peerListMatches flow dir (From rule) lookup &&
                           portsMatch flow (in_Ports rule) portPod) rules
  then (true, EmptyString)
  else (false, "no ingress rule matched both peer and port"%string).

Definition evaluateEgress flow (rules : list NetworkPolicyEgressRule) dir lookup : bool * string :=
  let portPod := portTargetPod flow dir lookup in
  if (length rules =? 0)%nat then (false, "policy has no egress rules — default-deny"%string)
  else if existsb (λ rule, peerListMatches flow dir (To rule) lookup &&
                           portsMatch flow (eg_Ports rule) portPod) rules
  then (true, EmptyString)
  else (false, "no egress rule matched both peer and port"%string).

Definition evaluateRules flow (policy : AuditNetworkPolicy) dir lookup : bool * string :=
  if String.eqb dir DirectionIngress then evaluateIngress flow (Ingress (anp_Spec policy)) dir lookup
  else if String.eqb dir DirectionEgress then evaluateEgress flow (Egress (anp_Spec policy)) dir lookup
  else (false, "unknown direction"%string).

Definition evaluateRulesCluster flow (policy : AuditClusterNetworkPolicy) dir lookup : bool * string :=
  if String.eqb dir DirectionIngress then evaluateIngress flow (cs_Ingress (acnp_Spec policy)) dir lookup
  else if String.eqb dir DirectionEgress then evaluateEgress flow (cs_Egress (acnp_Spec policy)) dir lookup
  else (false, "unknown direction"%string).

(** ** Policies *)

Definition result_of (namespace : string) (meta : ObjectMeta) dir (verdict reason : string) : Result :=
  MkResult namespace (meta_Name meta) (meta_UID meta) (meta_Generation meta) dir verdict reason.

(** The body of the loop of [Match]. *)
Definition match_direction flow (policy : AuditNetworkPolicy) lookup dir : Result :=
  let result := result_of (meta_Namespace (anp_meta policy)) (anp_meta policy) dir in
  match subjectPod flow dir lookup with
  | None => result VerdictNotApplicable EmptyString
  | Some subject =>
      if negb (String.eqb (pod_Namespace subject) (meta_Namespace (anp_meta policy)))
      then result VerdictNotApplicable EmptyString
      else if negb (selectorMatchesLabels (PodSelector (anp_Spec policy)) (pod_Labels subject))
      then result VerdictNotApplicable EmptyString
      else
        let '(allowed, reason) := evaluateRules flow policy dir lookup in
        if allowed then result VerdictAllow EmptyString else result VerdictWouldDeny reason
  end.

Definition Match flow (policy : AuditNetworkPolicy) lookup : list Result :=
  match_direction flow policy lookup <$> effectivePolicyTypes (anp_Spec policy).

Definition match_direction_cluster flow (policy : AuditClusterNetworkPolicy) lookup dir : Result :=
  let result := result_of EmptyString (acnp_meta policy) dir in
  match subjectPod flow dir lookup with
  | None => result VerdictNotApplicable EmptyString
  | Some subject =>
      let namespace_gate :=
        match cs_NamespaceSelector (acnp_Spec policy) with
        | None => true
        | Some sel =>
            match GetNamespaceLabels lookup (pod_Namespace subject) with
            | None => false
            | Some nsLabels => selectorMatchesLabels sel nsLabels
            end
        end in
      if negb namespace_gate then result VerdictNotApplicable EmptyString
      else if negb (selectorMatchesLabels (cs_PodSelector (acnp_Spec policy)) (pod_Labels subject))
      then result VerdictNotApplicable EmptyString
      else
        let '(allowed, reason) := evaluateRulesCluster flow policy dir lookup in
        if allowed then result VerdictAllow EmptyString else result VerdictWouldDeny reason
  end.

Definition MatchCluster flow (policy : AuditClusterNetworkPolicy) lookup : list Result :=
  match_direction_cluster flow policy lookup <$> effectivePolicyTypesCluster (acnp_Spec policy).

End Matcher.
