(* ===== verification/MatcherThms.v ===== *)
(** * Theorems about the matcher

    The semantics of NetworkPolicy, as the header of types.go words it, in logic; and that [Match]
    implements it. *)

From S2P Require Import Prelude GoStd KubePolicy Matcher.

Section Matcher.
Context `{Selectors}.
Implicit Types (flow : Flow) (dir : string) (lookup : Lookup).

(** ** The semantics *)

(** A block has the address, and none of its exceptions has it. *)
Definition in_block (ip : string) (block : IPBlock) : Prop :=
  ip ≠ EmptyString ∧
  ∃ addr allow, ParseIP ip = Some addr ∧ ParseCIDR (CIDR block) = Some allow ∧
    Contains allow addr = true ∧
    ∀ except ex, except ∈ Except block → ParseCIDR except = Some ex → Contains ex addr = false.

(** The namespace of the side of the flow that the policy is about. *)
Definition subject_namespace flow dir : string :=
  if String.eqb dir DirectionIngress then DstPodNamespace flow else SrcPodNamespace flow.

Definition in_namespace flow dir lookup (sel : option LabelSelector) (namespace : string) : Prop :=
  match sel with
  | Some sel => ∃ ns, GetNamespaceLabels lookup namespace = Some ns ∧ selectorMatchesLabels sel ns = true
  | None => namespace = subject_namespace flow dir
  end.

Definition admits_peer flow dir lookup (p : NetworkPolicyPeer) : Prop :=
  match peer_IPBlock p with
  | Some block => in_block (peerIP flow dir) block
  | None =>
      ∃ peer, peerPod flow dir lookup = Some peer ∧
        in_namespace flow dir lookup (peer_NamespaceSelector p) (pod_Namespace peer) ∧
        ∀ sel, peer_PodSelector p = Some sel → selectorMatchesLabels sel (pod_Labels peer) = true
  end.

(** A port that names no protocol is a TCP port. *)
Definition protocol_of (cp : ContainerPort) : string :=
  if decide (cp_Protocol cp = EmptyString) then ProtocolTCP else cp_Protocol cp.

Definition exposes (pod : Pod) (name proto : string) (number : Z) : Prop :=
  ∃ c cp, c ∈ pod_Containers pod ∧ cp ∈ c ∧ cp_Name cp = name ∧ protocol_of cp = proto ∧
    cp_ContainerPort cp = number.

Definition admits_port flow lookup (p : NetworkPolicyPort) : Prop :=
  default ProtocolTCP (port_Protocol p) = Protocol flow ∧
  match port_Port p with
  | None => True
  | Some (IntVal first) => first ≤ DstPort flow ≤ default first (port_EndPort p)
  | Some (StrVal name) =>
      name ≠ EmptyString ∧
      ∃ pod, GetPod lookup (DstPodNamespace flow) (DstPodName flow) = Some pod ∧
        exposes pod name (Protocol flow) (DstPort flow)
  end.

(** The rules of a direction: their peers and their ports. *)
Definition rules_of (ingress : list NetworkPolicyIngressRule) (egress : list NetworkPolicyEgressRule)
    dir : list (list NetworkPolicyPeer * list NetworkPolicyPort) :=
  if String.eqb dir DirectionIngress then (λ r, (From r, in_Ports r)) <$> ingress
  else if String.eqb dir DirectionEgress then (λ r, (To r, eg_Ports r)) <$> egress
  else [].

Definition permits flow dir lookup (rule : list NetworkPolicyPeer * list NetworkPolicyPort) : Prop :=
  (rule.1 = [] ∨ ∃ p, p ∈ rule.1 ∧ admits_peer flow dir lookup p) ∧
  (rule.2 = [] ∨ ∃ p, p ∈ rule.2 ∧ admits_port flow lookup p).

Definition permitted flow (policy : AuditNetworkPolicy) dir lookup : Prop :=
  ∃ rule, rule ∈ rules_of (Ingress (anp_Spec policy)) (Egress (anp_Spec policy)) dir ∧
          permits flow dir lookup rule.

Definition applies flow (policy : AuditNetworkPolicy) dir lookup : Prop :=
  ∃ subject, subjectPod flow dir lookup = Some subject ∧
    pod_Namespace subject = meta_Namespace (anp_meta policy) ∧
    selectorMatchesLabels (PodSelector (anp_Spec policy)) (pod_Labels subject) = true.

(** ** Each test decides its meaning *)

Lemma existsb_elem {A} (f : A → bool) (l : list A) : existsb f l = true ↔ ∃ x, x ∈ l ∧ f x = true.
Proof.
  rewrite existsb_exists. split; intros (x&Hx&Hf); exists x; (split; [|done]); by apply list_elem_of_In.
Qed.

Lemma existsb_none {A} (f : A → bool) (l : list A) : existsb f l = false ↔ ∀ x, x ∈ l → f x = false.
Proof.
  rewrite <- not_true_iff_false, existsb_elem. split.
  - intros Hn x Hx. apply not_true_is_false. intros Hf. apply Hn. by exists x.
  - intros Hall (x&Hx&Hf). by rewrite Hall in Hf.
Qed.

Lemma ipBlockMatches_spec (ip : string) (block : IPBlock) :
  ipBlockMatches ip block = true ↔ in_block ip block.
Proof.
  unfold ipBlockMatches, in_block. destruct (String.eqb_spec ip EmptyString); [naive_solver|].
  destruct (ParseIP ip) as [addr|]; [|naive_solver]. destruct (ParseCIDR (CIDR block)) as [allow|]; [|naive_solver].
  destruct (Contains allow addr) eqn:Ha; simpl; [|naive_solver congruence].
  rewrite negb_true_iff, existsb_none. split.
  - intros Hx. split; [done|]. exists addr, allow. split_and!; [done..|].
    intros ex net Hex Hp. specialize (Hx _ Hex). by rewrite Hp in Hx.
  - intros (_&?&?&[= <-]&[= <-]&_&Hx) ex Hex. destruct (ParseCIDR ex) as [net|] eqn:Hp; [|done].
    by eapply Hx.
Qed.

(** [dir] is one of the two directions. *)
Definition direction dir : Prop := dir = DirectionIngress ∨ dir = DirectionEgress.

Lemma peerEntryMatches_spec flow dir (p : NetworkPolicyPeer) lookup :
  direction dir →
  peerEntryMatches (peerPod flow dir lookup) flow dir p lookup = true ↔ admits_peer flow dir lookup p.
Proof.
  intros Hdir. unfold peerEntryMatches, admits_peer. destruct (peer_IPBlock p) as [block|].
  { apply ipBlockMatches_spec. }
  destruct (peerPod flow dir lookup) as [peer|]; [|naive_solver].
  assert (∀ g : bool, (if negb g then false else
      match peer_PodSelector p with
      | Some sel => selectorMatchesLabels sel (pod_Labels peer) | None => true end) = true ↔
    g = true ∧ ∀ sel, peer_PodSelector p = Some sel → selectorMatchesLabels sel (pod_Labels peer) = true) as ->.
  { intros [|]; simpl; [|split; [done|by intros [? _]]].
    destruct (peer_PodSelector p) as [sel|]; split; [|intros [_ Hs]; by apply Hs|intros _; by split|done].
    intros ?. split; [done|]. by intros ? [= <-]. }
  unfold in_namespace. destruct (peer_NamespaceSelector p) as [sel|].
  - destruct (GetNamespaceLabels lookup (pod_Namespace peer)) as [ns|] eqn:Hl; split.
    + intros [Hn Hs]. exists peer. split; [done|]. split; [by exists ns|done].
    + intros (?&[= <-]&(ns'&Hl'&?)&?). rewrite Hl in Hl'. by injection Hl' as <-.
    + by intros [? _].
    + intros (?&[= <-]&(?&Hl'&_)&_). by rewrite Hl in Hl'.
  - rewrite String.eqb_eq. unfold subject_namespace. destruct Hdir as [-> | ->]; simpl.
    all: split; [by intros [? ?]; exists peer|by intros (?&[= <-]&?&?)].
Qed.

Lemma peerListMatches_spec flow dir (peers : list NetworkPolicyPeer) lookup :
  direction dir →
  peerListMatches flow dir peers lookup = true ↔
  peers = [] ∨ ∃ p, p ∈ peers ∧ admits_peer flow dir lookup p.
Proof.
  intros Hdir. unfold peerListMatches. destruct peers as [|p peers]; [by naive_solver|].
  simpl length. cbn [Nat.eqb]. rewrite existsb_elem.
  split; [intros (q&Hq&Hm); right|intros [?|(q&Hq&Hm)]; [done|]];
    exists q; (split; [done|]); by apply peerEntryMatches_spec.
Qed.

Lemma namedPortMatches_spec (name proto : string) (observed : Z) (pod : option Pod) :
  namedPortMatches name proto observed pod = true ↔
  name ≠ EmptyString ∧ ∃ pod', pod = Some pod' ∧ exposes pod' name proto observed.
Proof.
  unfold namedPortMatches, exposes. destruct pod as [pod|]; [|naive_solver].
  destruct (String.eqb_spec name EmptyString); [naive_solver|]. rewrite existsb_elem.
  setoid_rewrite existsb_elem. split.
  - intros (c&Hc&cp&Hcp&[[Hn Hpr]%andb_true_iff Ho]%andb_true_iff). split; [done|]. exists pod.
    split; [done|]. exists c, cp. apply String.eqb_eq in Hn, Hpr. apply Z.eqb_eq in Ho.
    split_and!; [done..| |done]. rewrite <- Hpr. unfold protocol_of.
    by destruct (String.eqb_spec (cp_Protocol cp) EmptyString); case_decide.
  - intros (_&?&[= <-]&c&cp&Hc&Hcp&Hn&Hpr&Ho). exists c. split; [done|]. exists cp. split; [done|].
    apply String.eqb_eq in Hn as ->. apply Z.eqb_eq in Ho as ->. rewrite andb_true_r. apply String.eqb_eq.
    rewrite <- Hpr. unfold protocol_of.
    by destruct (String.eqb_spec (cp_Protocol cp) EmptyString); case_decide.
Qed.

Lemma portEntryMatches_spec flow dir (p : NetworkPolicyPort) lookup :
  portEntryMatches flow p (portTargetPod flow dir lookup) = true ↔ admits_port flow lookup p.
Proof.
  unfold portEntryMatches, admits_port, portTargetPod.
  destruct (String.eqb_spec (default ProtocolTCP (port_Protocol p)) (Protocol flow)) as [E|E]; simpl; [|naive_solver].
  destruct (port_Port p) as [[first|name]|]; [| |naive_solver].
  - destruct (port_EndPort p) as [last|]; simpl; [rewrite andb_true_iff, !Z.leb_le|rewrite Z.eqb_eq]; naive_solver lia.
  - rewrite namedPortMatches_spec, E. naive_solver.
Qed.

Lemma portsMatch_spec flow dir (ports : list NetworkPolicyPort) lookup :
  portsMatch flow ports (portTargetPod flow dir lookup) = true ↔
  ports = [] ∨ ∃ p, p ∈ ports ∧ admits_port flow lookup p.
Proof.
  unfold portsMatch. destruct ports as [|p ports]; [by naive_solver|].
  simpl length. cbn [Nat.eqb]. rewrite existsb_elem. setoid_rewrite portEntryMatches_spec. naive_solver.
Qed.

Lemma rule_spec flow dir (peers : list NetworkPolicyPeer) (ports : list NetworkPolicyPort) lookup :
  direction dir →
  peerListMatches flow dir peers lookup && portsMatch flow ports (portTargetPod flow dir lookup) = true ↔
  permits flow dir lookup (peers, ports).
Proof. intros Hdir. by rewrite andb_true_iff, peerListMatches_spec, portsMatch_spec. Qed.

Lemma evaluateIngress_spec flow (rules : list NetworkPolicyIngressRule) lookup :
  (evaluateIngress flow rules DirectionIngress lookup).1 = true ↔
  ∃ r, r ∈ rules ∧ permits flow DirectionIngress lookup (From r, in_Ports r).
Proof.
  setoid_rewrite <- rule_spec; [|by left]. rewrite <- existsb_elem. unfold evaluateIngress.
  destruct rules as [|r rules]; [done|]. simpl length. cbn [Nat.eqb]. by case_match.
Qed.

Lemma evaluateEgress_spec flow (rules : list NetworkPolicyEgressRule) lookup :
  (evaluateEgress flow rules DirectionEgress lookup).1 = true ↔
  ∃ r, r ∈ rules ∧ permits flow DirectionEgress lookup (To r, eg_Ports r).
Proof.
  setoid_rewrite <- rule_spec; [|by right]. rewrite <- existsb_elem. unfold evaluateEgress.
  destruct rules as [|r rules]; [done|]. simpl length. cbn [Nat.eqb]. by case_match.
Qed.

Lemma evaluateRules_spec flow policy dir lookup :
  direction dir → (evaluateRules flow policy dir lookup).1 = true ↔ permitted flow policy dir lookup.
Proof.
  unfold evaluateRules, permitted, rules_of. intros [-> | ->]; simpl.
  - rewrite evaluateIngress_spec. setoid_rewrite list_elem_of_fmap. naive_solver.
  - rewrite evaluateEgress_spec. setoid_rewrite list_elem_of_fmap. naive_solver.
Qed.

(** ** A direction of a policy *)

(** What [Match] answers for one direction. *)
Inductive verdict_of flow (policy : AuditNetworkPolicy) lookup dir : string → Prop :=
| verdict_skips : ¬ applies flow policy dir lookup → verdict_of flow policy lookup dir VerdictNotApplicable
| verdict_allows :
    applies flow policy dir lookup → permitted flow policy dir lookup →
    verdict_of flow policy lookup dir VerdictAllow
| verdict_denies :
    applies flow policy dir lookup → ¬ permitted flow policy dir lookup →
    verdict_of flow policy lookup dir VerdictWouldDeny.

Lemma match_direction_verdict flow policy lookup dir :
  direction dir → verdict_of flow policy lookup dir (Verdict (match_direction flow policy lookup dir)).
Proof.
  intros Hdir. unfold match_direction.
  destruct (subjectPod flow dir lookup) as [subject|] eqn:Hs.
  2:{ apply verdict_skips. intros (?&?&_). congruence. }
  destruct (String.eqb_spec (pod_Namespace subject) (meta_Namespace (anp_meta policy))) as [Hn|Hn]; simpl.
  2:{ apply verdict_skips. intros (?&?&?&_). congruence. }
  destruct (selectorMatchesLabels _ _) eqn:Hl; simpl.
  2:{ apply verdict_skips. intros (?&?&_&?). congruence. }
  assert (applies flow policy dir lookup) as Ha by (by exists subject).
  pose proof (evaluateRules_spec flow policy dir lookup Hdir) as He.
  destruct (evaluateRules flow policy dir lookup) as [[] reason]; simpl in *.
  - apply verdict_allows; [done|by apply He].
  - apply verdict_denies; [done|]. by rewrite <- He.
Qed.

Lemma verdict_unique flow policy lookup dir (v v' : string) :
  verdict_of flow policy lookup dir v → verdict_of flow policy lookup dir v' → v = v'.
Proof. by intros [] []. Qed.

(** ** The directions *)

Lemma dedup_loop_elem (i e : bool) (l : list string) (t : string) :
  t ∈ dedup_loop i e l ↔
  t ∈ l ∧ (t = PolicyTypeIngress → i = false) ∧ (t = PolicyTypeEgress → e = false).
Proof.
  revert i e. induction l as [|u l IH]; intros i e; simpl.
  { split; [by intros ?%not_elem_of_nil|by intros [?%not_elem_of_nil _]]. }
  assert (PolicyTypeIngress ≠ PolicyTypeEgress) as Hne by done.
  destruct (decide (t = PolicyTypeIngress)), (decide (t = PolicyTypeEgress)).
  all: destruct (String.eqb_spec u PolicyTypeIngress) as [->|Hi]; [|destruct (String.eqb_spec u PolicyTypeEgress) as [->|He]].
  all: try destruct i; try destruct e; rewrite ?elem_of_cons, IH; clear IH; intuition congruence.
Qed.

Lemma dedup_loop_nodup (i e : bool) (l : list string) :
  Forall direction l → NoDup (dedup_loop i e l).
Proof.
  revert i e. induction l as [|u l IH]; intros i e Hl; simpl; [constructor|].
  apply Forall_cons in Hl as [[-> | ->] Hl]; simpl.
  - destruct i; [by apply IH|]. constructor; [|by apply IH]. rewrite dedup_loop_elem. naive_solver.
  - destruct e; [by apply IH|]. constructor; [|by apply IH]. rewrite dedup_loop_elem. naive_solver.
Qed.

Lemma dedupPolicyTypes_elem (l : list string) (t : string) : t ∈ dedupPolicyTypes l ↔ t ∈ l.
Proof.
  unfold dedupPolicyTypes. destruct (_ <=? _)%nat; [done|]. rewrite dedup_loop_elem. naive_solver.
Qed.

Lemma dedupPolicyTypes_nodup (l : list string) : Forall direction l → NoDup (dedupPolicyTypes l).
Proof.
  intros Hl. unfold dedupPolicyTypes. destruct l as [|t [|u l]]; simpl.
  - constructor.
  - apply NoDup_singleton.
  - by apply (dedup_loop_nodup false false (t :: u :: l)).
Qed.

(** The directions that a policy with these types is about. *)
Definition about (types : list string) (egress : list NetworkPolicyEgressRule) dir : Prop :=
  match types with
  | [] => dir = DirectionIngress ∨ dir = DirectionEgress ∧ egress ≠ []
  | _ :: _ => dir ∈ types
  end.

Lemma effective_elem (spec : NetworkPolicySpec) dir :
  dir ∈ effectivePolicyTypes spec ↔ about (PolicyTypes spec) (Egress spec) dir.
Proof.
  unfold effectivePolicyTypes, about. destruct (PolicyTypes spec) as [|t l]; simpl.
  - destruct (Egress spec) as [|r rules]; simpl; set_unfold; naive_solver.
  - apply (dedupPolicyTypes_elem (t :: l)).
Qed.

Lemma effective_nodup (spec : NetworkPolicySpec) :
  Forall direction (PolicyTypes spec) → NoDup (effectivePolicyTypes spec).
Proof.
  intros Hl. unfold effectivePolicyTypes. destruct (0 <? _)%nat; [by apply dedupPolicyTypes_nodup|].
  destruct (0 <? _)%nat; [|apply NoDup_singleton]. simpl. apply NoDup_cons. split; [|apply NoDup_singleton].
  by intros ?%list_elem_of_singleton.
Qed.

(** ** Results *)

Lemma match_direction_dir flow policy lookup dir : Direction (match_direction flow policy lookup dir) = dir.
Proof. unfold match_direction. by repeat case_match. Qed.

Lemma match_direction_policy flow policy lookup dir :
  let r := match_direction flow policy lookup dir in
  PolicyNamespace r = meta_Namespace (anp_meta policy) ∧ PolicyName r = meta_Name (anp_meta policy).
Proof. unfold match_direction. by repeat case_match. Qed.

Lemma match_elem flow policy lookup (r : Result) :
  r ∈ Match flow policy lookup ↔
  about (PolicyTypes (anp_Spec policy)) (Egress (anp_Spec policy)) (Direction r) ∧
  r = match_direction flow policy lookup (Direction r).
Proof.
  unfold Match. rewrite list_elem_of_fmap. split.
  - intros (dir&->&Hd). rewrite match_direction_dir. split; [by apply effective_elem|done].
  - intros [Ha Hr]. exists (Direction r). split; [done|by apply effective_elem].
Qed.

Lemma about_direction policy dir :
  Forall direction (PolicyTypes (anp_Spec policy)) →
  about (PolicyTypes (anp_Spec policy)) (Egress (anp_Spec policy)) dir → direction dir.
Proof.
  intros Ht Ha%effective_elem. revert Ha. unfold effectivePolicyTypes.
  destruct (0 <? _)%nat; [rewrite dedupPolicyTypes_elem; by apply Forall_forall|].
  destruct (0 <? _)%nat; rewrite ?elem_of_app, ?list_elem_of_singleton; intros [->|Hx];
    [by left|by right|by left|by apply not_elem_of_nil in Hx].
Qed.

(** A rule permits the flow by what the flow carries of its peer: the peers of the rule are anyone, or one
    of them is a block with the address. *)
Definition permitted_by_address flow (policy : AuditNetworkPolicy) dir lookup : Prop :=
  ∃ rule, rule ∈ rules_of (Ingress (anp_Spec policy)) (Egress (anp_Spec policy)) dir ∧
    (rule.1 = [] ∨ ∃ p block, p ∈ rule.1 ∧ peer_IPBlock p = Some block ∧ in_block (peerIP flow dir) block) ∧
    (rule.2 = [] ∨ ∃ p, p ∈ rule.2 ∧ admits_port flow lookup p).

Lemma permitted_unknown_peer flow policy dir lookup :
  peerPod flow dir lookup = None →
  permitted flow policy dir lookup ↔ permitted_by_address flow policy dir lookup.
Proof.
  intros Hp. assert (∀ p, admits_peer flow dir lookup p ↔
    ∃ block, peer_IPBlock p = Some block ∧ in_block (peerIP flow dir) block) as Ha.
  { intros p. unfold admits_peer. rewrite Hp. destruct (peer_IPBlock p); naive_solver. }
  unfold permitted, permitted_by_address, permits. setoid_rewrite Ha. naive_solver.
Qed.

(** C8: the answer to a flow and a policy is that of the semantics: one verdict for each direction that
    the policy is about, which skips a policy that does not select the pod on that side, allows what one
    of its rules permits, and denies everything else.  A pod that is selected is judged also when the
    lookup does not know its peer: a rule then permits the flow by its address or its ports alone. *)
Theorem match_implements_semantics flow policy lookup :
  Forall direction (PolicyTypes (anp_Spec policy)) →
  NoDup (Direction <$> Match flow policy lookup) ∧
  (∀ dir v,
    (∃ r, r ∈ Match flow policy lookup ∧ Direction r = dir ∧ Verdict r = v) ↔
    about (PolicyTypes (anp_Spec policy)) (Egress (anp_Spec policy)) dir ∧
    verdict_of flow policy lookup dir v) ∧
  ∀ dir,
    about (PolicyTypes (anp_Spec policy)) (Egress (anp_Spec policy)) dir →
    applies flow policy dir lookup → peerPod flow dir lookup = None →
    ∃ r, r ∈ Match flow policy lookup ∧ Direction r = dir ∧
      (Verdict r = VerdictAllow ∧ permitted_by_address flow policy dir lookup ∨
       Verdict r = VerdictWouldDeny ∧ ¬ permitted_by_address flow policy dir lookup).
Proof.
  intros Ht. split; [|split].
  { unfold Match. rewrite <- list_fmap_compose. erewrite list_fmap_ext; [|intros i dir _; apply match_direction_dir].
    rewrite list_fmap_id. by apply effective_nodup. }
  - intros dir v. split.
    + intros (r&[Ha Hr]%match_elem&<-&<-). split; [done|]. rewrite Hr at 2.
      by apply match_direction_verdict, about_direction with (1 := Ht).
    + intros [Ha Hv]. exists (match_direction flow policy lookup dir). rewrite match_elem, match_direction_dir.
      split_and!; [done..|]. eapply verdict_unique; [|done].
      by apply match_direction_verdict, about_direction with (1 := Ht).
  - intros dir Ha Hs Hp. exists (match_direction flow policy lookup dir). rewrite match_elem, match_direction_dir.
    split_and!; [done..|]. rewrite <- permitted_unknown_peer by done.
    pose proof (match_direction_verdict flow policy lookup dir (about_direction policy dir Ht Ha)) as Hv.
    inversion Hv; [done|by left|by right].
Qed.

(** ** Cluster-scoped policies *)

(** The policy that a cluster-scoped one amounts to in a namespace. *)
Definition in_scope (policy : AuditClusterNetworkPolicy) (namespace : string) : AuditNetworkPolicy :=
  let spec := acnp_Spec policy in
  MkAuditNetworkPolicy
    (MkObjectMeta (meta_Name (acnp_meta policy)) namespace (meta_UID (acnp_meta policy))
       (meta_Generation (acnp_meta policy)) (meta_Labels (acnp_meta policy)))
    (MkSpec (cs_PodSelector spec) (cs_PolicyTypes spec) (cs_Ingress spec) (cs_Egress spec)).

Definition covers (policy : AuditClusterNetworkPolicy) lookup (namespace : string) : Prop :=
  ∀ sel, cs_NamespaceSelector (acnp_Spec policy) = Some sel →
    ∃ ns, GetNamespaceLabels lookup namespace = Some ns ∧ selectorMatchesLabels sel ns = true.

(** a cluster-scoped policy answers what the same policy written in the namespace of the pod
    would answer, in the namespaces that its selector covers, and nothing elsewhere. *)
Theorem cluster_policy_agrees flow policy lookup dir (subject : Pod) :
  subjectPod flow dir lookup = Some subject →
  (covers policy lookup (pod_Namespace subject) →
   Verdict (match_direction_cluster flow policy lookup dir) =
   Verdict (match_direction flow (in_scope policy (pod_Namespace subject)) lookup dir) ∧
   Reason (match_direction_cluster flow policy lookup dir) =
   Reason (match_direction flow (in_scope policy (pod_Namespace subject)) lookup dir)) ∧
  (¬ covers policy lookup (pod_Namespace subject) →
   Verdict (match_direction_cluster flow policy lookup dir) = VerdictNotApplicable).
Proof.
  intros Hs. unfold match_direction_cluster, match_direction, covers. rewrite Hs. simpl.
  rewrite String.eqb_refl. simpl.
  change (evaluateRules flow (in_scope policy (pod_Namespace subject)) dir lookup)
    with (evaluateRulesCluster flow policy dir lookup).
  destruct (cs_NamespaceSelector (acnp_Spec policy)) as [sel|].
  2:{ split; [|intros []; by intros]. intros _. simpl. by repeat case_match. }
  destruct (GetNamespaceLabels lookup (pod_Namespace subject)) as [ns|]; simpl.
  2:{ split; [|done]. intros Hc. by destruct (Hc sel eq_refl) as (?&?&?). }
  destruct (selectorMatchesLabels sel ns) eqn:Hm; simpl.
  - split; [by intros _; repeat case_match|]. intros []. intros ? [= <-]. by exists ns.
  - split; [|done]. intros Hc. destruct (Hc sel eq_refl) as (?&[= <-]&?). congruence.
Qed.

End Matcher.
