(* ===== verification/StandardPolicy.v ===== *)
(** * advisor/pkg/network: a NetworkPolicy from the traffic of a pod

    standard_policy.go, types.go, generator.go and the read interface of brokerdata.go: the rows that
    the broker returns for a pod are grouped by direction and peer, and become a policy that allows
    them.  A function that may fail returns a sum, whose left side is the error. *)

From S2P Require Import Prelude GoStd KubePolicy.

(** ** advisor/pkg/api/pod_traffic.go *)

Record PodTraffic : Type := MkPodTraffic {
  tr_UUID : string;
  tr_SrcPodName : string;
  tr_SrcIP : string;
  tr_SrcNamespace : string;
  tr_SrcPodPort : string;
  tr_TrafficType : string;
  tr_DstIP : string;
  tr_DstPort : string;
  tr_Protocol : string
}.

Record PodDetail : Type := MkPodDetail {
  pd_PodIP : string;
  pd_Name : string;
  pd_Namespace : string;
  pd_Labels : labels
}.

Record SvcDetail : Type := MkSvcDetail {
  sd_SvcIp : string;
  sd_SvcName : string;
  sd_SvcNamespace : string;
  sd_Selector : labels
}.

(** ** brokerdata.go *)

Record BrokerData : Type := MkBrokerData {
  PodTrafficByName : string → string + list PodTraffic;
  PodByIP : string → string + option PodDetail;
  ServiceByIP : string → string + option SvcDetail
}.

(** ** types.go *)

Record NetworkPolicyRule : Type := MkRule {
  PeerIP : string;
  Ports : list NetworkPolicyPort
}.

(** The protocol behind the pointer. *)
Definition protocolPtr (protocol : string) : string :=
  if String.eqb protocol "TCP" then ProtocolTCP
  else if String.eqb protocol "UDP" then ProtocolUDP
  else if String.eqb protocol "SCTP" then ProtocolSCTP
  else ProtocolTCP.

(** [intstr.IntOrString.String]. *)
Definition port_string (p : IntOrString) : string :=
  match p with IntVal z => Itoa z | StrVal s => s end.

(** [intstr.FromInt]. *)
Definition FromInt (z : Z) : IntOrString := IntVal (i32_of z).

Definition same_port (port : IntOrString) (protocol : string) (existingPort : NetworkPolicyPort) : bool :=
  match port_Port existingPort, port_Protocol existingPort with
  | Some p, Some q => String.eqb (port_string p) (port_string port) && String.eqb q protocol
  | _, _ => false
  end.

Fixpoint mergeOrAppendRule (rules : list NetworkPolicyRule) (peer : string) (port : IntOrString)
    (protocolStr : string) : list NetworkPolicyRule :=
  let protocol := protocolPtr protocolStr in
  let new := MkPort (Some protocol) (Some port) None in
  match rules with
  | [] => [MkRule peer [new]]
  | r :: rules =>
      if String.eqb (PeerIP r) peer then
        if existsb (same_port port protocol) (Ports r) then r :: rules
        else MkRule (PeerIP r) (Ports r ++ [new]) :: rules
      else r :: mergeOrAppendRule rules peer port protocolStr
  end.

Definition GetPolicyName (podName policyType : string) : string := podName +:+ "-" +:+ policyType.

Definition CreateStandardLabels (podName resourceType : string) : labels :=
  <["app.kubernetes.io/name" := podName]>
  (<["app.kubernetes.io/component" := resourceType]>
  (<["app.kubernetes.io/part-of" := "kguardian"]> ∅))%string.

Definition CreateObjectMeta (name namespace : string) (lbls : labels) : ObjectMeta :=
  MkObjectMeta name namespace EmptyString 0 lbls.

Definition IsIngressTraffic (traffic : PodTraffic) : bool := EqualFold (tr_TrafficType traffic) "INGRESS".
Definition IsEgressTraffic (traffic : PodTraffic) : bool := EqualFold (tr_TrafficType traffic) "EGRESS".

(** ** standard_policy.go: rules *)

Definition parsePort (portStr : string) : option Z :=
  portInt ← Atoi portStr;
  if (portInt <=? 0) || (65535 <? portInt) then None else Some portInt.

(** One row: the rules of the two directions. *)
Definition process_row (podDetail : PodDetail) (rules : list NetworkPolicyRule * list NetworkPolicyRule)
    (traffic : PodTraffic) : list NetworkPolicyRule * list NetworkPolicyRule :=
  let '(ingressRules, egressRules) := rules in
  if IsIngressTraffic traffic then
    let peer := tr_DstIP traffic in
    if String.eqb peer EmptyString then rules
    else if String.eqb peer (pd_PodIP podDetail) then rules
    else match parsePort (tr_SrcPodPort traffic) with
         | None => rules
         | Some portInt =>
             (mergeOrAppendRule ingressRules peer (FromInt portInt) (tr_Protocol traffic), egressRules)
         end
  else if IsEgressTraffic traffic then
    let peer := tr_DstIP traffic in
    if String.eqb peer EmptyString then rules
    else if String.eqb peer (pd_PodIP podDetail) then rules
    else match parsePort (tr_DstPort traffic) with
         | None => rules
         | Some portInt =>
             (ingressRules, mergeOrAppendRule egressRules peer (FromInt portInt) (tr_Protocol traffic))
         end
  else rules.

Definition processTrafficRules (podTraffic : list PodTraffic) (podDetail : PodDetail) :
    list NetworkPolicyRule * list NetworkPolicyRule :=
  foldl (process_row podDetail) ([], []) podTraffic.

(** ** standard_policy.go: ports *)

Definition port_key (port : IntOrString) (protocol : string) : string :=
  port_string port +:+ "-" +:+ protocol.

(** The loop: [uniquePorts] holds the keys met so far. *)
Fixpoint dedup_ports (uniquePorts : gset string) (ports : list NetworkPolicyPort) : list NetworkPolicyPort :=
  match ports with
  | [] => []
  | port :: ports =>
      match port_Port port, port_Protocol port with
      | Some p, Some q =>
          let key := port_key p q in
          if decide (key ∈ uniquePorts) then dedup_ports uniquePorts ports
          else port :: dedup_ports ({[key]} ∪ uniquePorts) ports
      | _, _ => dedup_ports uniquePorts ports
      end
  end.

(** The comparison passed to [sort.Slice]; the pointers are not nil there. *)
Definition port_less (i j : NetworkPolicyPort) : bool :=
  let by_protocol := string_less (default EmptyString (port_Protocol i)) (default EmptyString (port_Protocol j)) in
  match port_Port i, port_Port j with
  | Some (IntVal pi), Some (IntVal pj) => if negb (pi =? pj) then pi <? pj else by_protocol
  | Some (StrVal pi), Some (StrVal pj) => if negb (String.eqb pi pj) then string_less pi pj else by_protocol
  | Some (IntVal _), Some (StrVal _) => true
  | _, _ => false
  end.

Definition deduplicatePorts (ports : list NetworkPolicyPort) : list NetworkPolicyPort :=
  sort_Slice port_less (dedup_ports ∅ ports).

(** ** standard_policy.go: peers *)

Definition namespace_label : string := "kubernetes.io/metadata.name".

Definition selector_peer (lbls : labels) (namespace : string) : NetworkPolicyPeer :=
  MkPeer (Some (MkLabelSelector lbls [])) (Some (MkLabelSelector {[namespace_label := namespace]} [])) None.

Definition createNetworkPolicyPeer (data : BrokerData) (peerIP : string) : option NetworkPolicyPeer :=
  let of_pod :=
    let of_ip := Some (MkPeer None None (Some (MkIPBlock (peerIP +:+ "/32") []))) in
    match PodByIP data peerIP with
    | inr (Some podSpec) =>
        if decide (pd_Labels podSpec = ∅) then of_ip
        else Some (selector_peer (pd_Labels podSpec) (pd_Namespace podSpec))
    | _ => of_ip
    end in
  match ServiceByIP data peerIP with
  | inr (Some svcSpec) =>
      if decide (sd_Selector svcSpec = ∅) then of_pod
      else Some (selector_peer (sd_Selector svcSpec) (sd_SvcNamespace svcSpec))
  | _ => of_pod
  end.

(** The rules grouped by the address of their peer. *)
Definition group_rule (peerRules : gmap string (list NetworkPolicyPort)) (rule : NetworkPolicyRule) :
    gmap string (list NetworkPolicyPort) :=
  <[PeerIP rule := default [] (peerRules !! PeerIP rule) ++ Ports rule]> peerRules.

Definition group_rules (rules : list NetworkPolicyRule) : gmap string (list NetworkPolicyPort) :=
  foldl group_rule ∅ rules.

Definition sortedKeys (m : gmap string (list NetworkPolicyPort)) : list string :=
  sort_Strings (map_to_list m).*1.

(** The peer and the ports of each address, in the order of the addresses. *)
Definition transform_rules (data : BrokerData) (rules : list NetworkPolicyRule) :
    list (NetworkPolicyPeer * list NetworkPolicyPort) :=
  let peerRules := group_rules rules in
  omap (λ peerIP,
    let ports := default [] (peerRules !! peerIP) in
    peerPolicy ← createNetworkPolicyPeer data peerIP;
    Some (peerPolicy, deduplicatePorts ports)) (sortedKeys peerRules).

Definition transformToNetworkPolicyIngressRules (data : BrokerData) (rules : list NetworkPolicyRule) :
    list NetworkPolicyIngressRule :=
  (λ '(peer, ports), MkIngressRule ports [peer]) <$> transform_rules data rules.

Definition transformToNetworkPolicyEgressRules (data : BrokerData) (rules : list NetworkPolicyRule) :
    list NetworkPolicyEgressRule :=
  (λ '(peer, ports), MkEgressRule ports [peer]) <$> transform_rules data rules.

(** ** standard_policy.go: the policy *)

Definition generateDefaultDenyPolicy (podDetail : PodDetail) : NetworkPolicy :=
  MkNetworkPolicy
    (CreateObjectMeta (GetPolicyName (pd_Name podDetail) "standard-policy-deny-all")
       (pd_Namespace podDetail) (CreateStandardLabels (pd_Name podDetail) "standard-policy-deny-all"))
    (MkSpec (MkLabelSelector (pd_Labels podDetail) []) [PolicyTypeIngress; PolicyTypeEgress] [] []).

Definition Generate (data : BrokerData) (podName : string) (podTraffic : list PodTraffic)
    (podDetail : option PodDetail) : string + NetworkPolicy :=
  match podDetail with
  | None => inl ("pod detail is nil for pod " +:+ podName)
  | Some podDetail =>
      match podTraffic with
      | [] => inr (generateDefaultDenyPolicy podDetail)
      | _ :: _ =>
          let '(ingressRules, egressRules) := processTrafficRules podTraffic podDetail in
          let has_ingress := (0 <? length ingressRules)%nat in
          let has_egress := (0 <? length egressRules)%nat in
          let types := (if has_ingress then [PolicyTypeIngress] else []) ++
                       (if has_egress then [PolicyTypeEgress] else []) in
          let ingress :=
            if has_ingress then transformToNetworkPolicyIngressRules data ingressRules else [] in
          let egress :=
            if has_egress then transformToNetworkPolicyEgressRules data egressRules else [] in
          if (length types =? 0)%nat then inr (generateDefaultDenyPolicy podDetail)
          else inr (MkNetworkPolicy
            (CreateObjectMeta (GetPolicyName (pd_Name podDetail) "standard-policy")
               (pd_Namespace podDetail) (CreateStandardLabels (pd_Name podDetail) "standard-policy"))
            (MkSpec (MkLabelSelector (pd_Labels podDetail) []) types ingress egress))
      end
  end.
