(* ===== verification/StandardPolicyFacts.v ===== *)
(** * Lemmas about the policy generator

    The rules of a policy as a relation between peers, ports and protocols, and what each step of the
    generation does to it; two sets of rules that agree on the relation give the same policy. *)

From Stdlib Require Import Ascii.
From stdpp Require Import sorting pretty.
From S2P Require Import Prelude RustText GoStd KubePolicy StandardPolicy.

(** ** Ports *)

(** The ports that the generator makes: a number and a protocol. *)
Definition number_port (n : Z) (protocol : string) : NetworkPolicyPort :=
  MkPort (Some protocol) (Some (IntVal n)) None.

Definition numbered (p : NetworkPolicyPort) : Prop := ∃ n protocol, p = number_port n protocol.

Lemma string_less_asym (s t : string) : string_less s t = true → string_less t s = false.
Proof.
  unfold string_less. rewrite negb_true_iff, negb_false_iff, bool_decide_eq_false, bool_decide_eq_true.
  intros Hn. by destruct (total String.le s t).
Qed.

Lemma not_less_le (s t : string) : string_less t s = false ↔ String.le s t.
Proof. unfold string_less. by rewrite negb_false_iff, bool_decide_eq_true. Qed.

#[export] Instance port_less_total : Total (not_after port_less).
Proof.
  intros [[q|] [[n|s]|] e] [[q'|] [[n'|s']|] e']; unfold not_after, port_less; simpl; auto.
  all: first [destruct (Z.eqb_spec n n') as [->|Hn] | destruct (String.eqb_spec s s') as [->|Hn]].
  all: rewrite ?Z.eqb_refl, ?String.eqb_refl, ?(proj2 (Z.eqb_neq _ _)), ?(proj2 (String.eqb_neq _ _)) by congruence.
  all: simpl; rewrite ?not_less_le, ?Z.ltb_ge; try apply (total String.le); lia.
Qed.

Definition port_le (p p' : NetworkPolicyPort) : Prop :=
  match port_Port p, port_Port p' with
  | Some (IntVal n), Some (IntVal n') =>
      n < n' ∨ n = n' ∧ String.le (default EmptyString (port_Protocol p)) (default EmptyString (port_Protocol p'))
  | Some (IntVal _), _ => True
  | _, Some (IntVal _) => False
  | _, _ => True
  end.

#[export] Instance port_le_trans : Transitive port_le.
Proof.
  intros p1 p2 p3. unfold port_le.
  destruct (port_Port p1) as [[n1|]|], (port_Port p2) as [[n2|]|], (port_Port p3) as [[n3|]|]; try done.
  intros [?|[-> ?]] [?|[-> ?]]; try (left; lia). right. split; [done|]. by etrans.
Qed.

Lemma numbered_not_after (p p' : NetworkPolicyPort) :
  numbered p → numbered p' → not_after port_less p p' → port_le p p'.
Proof.
  intros (n&q&->) (n'&q'&->). unfold not_after, port_less, port_le. simpl.
  destruct (Z.eqb_spec n' n) as [->|Hn]; simpl; [rewrite not_less_le; by right|rewrite Z.ltb_ge; left; lia].
Qed.

Lemma numbered_antisym (p p' : NetworkPolicyPort) :
  numbered p → numbered p' → port_le p p' → port_le p' p → p = p'.
Proof.
  intros (n&q&->) (n'&q'&->). unfold port_le. simpl. intros [?|[Hn Hq]] [?|[Hn' Hq']]; try lia. subst n'.
  unfold number_port. do 2 f_equal. by apply (anti_symm String.le).
Qed.

Lemma pretty_no_dash (n : Z) : 0 ≤ n → without "-"%char (pretty n) = true.
Proof.
  intros Hn. eapply all_chars_impl; [|by apply numeral_digits, pretty_numeral].
  intros [[] [] [] [] [] [] [] []]; by vm_compute.
Qed.

Lemma port_key_inj (n n' : Z) (q q' : string) :
  0 ≤ n → 0 ≤ n' → port_key (IntVal n) q = port_key (IntVal n') q' → n = n' ∧ q = q'.
Proof.
  unfold port_key, port_string, Itoa. intros Hn Hn' Hk. apply (f_equal (Cut "-"%char)) in Hk.
  change ("-" +:+ q)%string with (String "-"%char q) in Hk. change ("-" +:+ q')%string with (String "-"%char q') in Hk.
  rewrite !Cut_app in Hk by by apply pretty_no_dash.
  injection Hk as Hp ->. split; [|done]. apply (f_equal unsigned_digits) in Hp.
  rewrite !unsigned_digits_pretty in Hp by done. by injection Hp.
Qed.

(** Ports of this kind whose numbers are not negative. *)
Definition regular (p : NetworkPolicyPort) : Prop := ∃ n protocol, 0 ≤ n ∧ p = number_port n protocol.

Lemma regular_numbered (p : NetworkPolicyPort) : regular p → numbered p.
Proof. intros (n&q&_&->). by exists n, q. Qed.

Lemma dedup_ports_elem (seen : gset string) (ports : list NetworkPolicyPort) (p : NetworkPolicyPort) :
  Forall regular ports →
  p ∈ dedup_ports seen ports ↔
  p ∈ ports ∧ ∃ n q, p = number_port n q ∧ port_key (IntVal n) q ∉ seen.
Proof.
  revert seen. induction ports as [|p' ports IH]; intros seen Hp; simpl.
  { split; [by intros ?%not_elem_of_nil|by intros [?%not_elem_of_nil _]]. }
  apply Forall_cons in Hp as [(n'&q'&Hn'&->) Hp]. simpl. case_decide as Hs.
  - rewrite IH, elem_of_cons by done. split; [naive_solver|].
    intros [[->|?] (n&q&Heq&Hk)]; [|naive_solver]. by injection Heq as <- <-.
  - rewrite !elem_of_cons, IH by done. split.
    + intros [->|(Hin&n&q&->&Hk)]; [split; [by left|]; by exists n', q'|].
      split; [by right|]. exists n, q. split; [done|]. set_solver.
    + intros [[->|Hin] (n&q&Heq&Hk)]; [by left|]. subst p.
      destruct (decide (number_port n q = number_port n' q')) as [->|Hne]; [by left|]. right.
      split; [done|]. exists n, q. split; [done|]. intros [Hin'%elem_of_singleton|?]%elem_of_union; [|done].
      apply Hne. rewrite Forall_forall in Hp. destruct (Hp _ Hin) as (n1&q1&Hn1&[= <- <-]).
      apply port_key_inj in Hin' as [<- <-]; [done..|lia|lia].
Qed.

Lemma dedup_ports_nodup (seen : gset string) (ports : list NetworkPolicyPort) :
  Forall regular ports → NoDup (dedup_ports seen ports).
Proof.
  revert seen. induction ports as [|p' ports IH]; intros seen Hp; simpl; [constructor|].
  apply Forall_cons in Hp as [(n'&q'&Hn'&->) Hp]. simpl. case_decide as Hs; [by apply IH|].
  constructor; [|by apply IH]. rewrite dedup_ports_elem by done.
  intros (_&n&q&[= <- <-]&Hk). set_solver.
Qed.

Lemma deduplicatePorts_elem (ports : list NetworkPolicyPort) (p : NetworkPolicyPort) :
  Forall regular ports → p ∈ deduplicatePorts ports ↔ p ∈ ports.
Proof.
  intros Hp. unfold deduplicatePorts. rewrite sort_Slice_perm, dedup_ports_elem by done.
  split; [by intros [? _]|]. intros Hin. split; [done|]. rewrite Forall_forall in Hp.
  destruct (Hp _ Hin) as (n&q&_&->). exists n, q. split; [done|set_solver].
Qed.

Lemma deduplicatePorts_sorted (ports : list NetworkPolicyPort) :
  Forall regular ports → Sorted port_le (deduplicatePorts ports).
Proof.
  intros Hp. assert (Forall numbered (deduplicatePorts ports)) as Hn.
  { apply Forall_forall. intros p. rewrite deduplicatePorts_elem by done. rewrite Forall_forall in Hp.
    intros Hin. by apply regular_numbered, Hp. }
  pose proof (Sorted_merge_sort (not_after port_less) (dedup_ports ∅ ports)) as Hs. revert Hs Hn.
  unfold deduplicatePorts, sort_Slice. induction 1 as [|p l Hs IH Hhd]; intros Hn; [constructor|].
  apply Forall_cons in Hn as [Hpn Hn]. constructor; [by apply IH|].
  destruct Hhd as [|p' l Hr]; constructor. apply Forall_cons in Hn as [? _]. by apply numbered_not_after.
Qed.

(** The result depends on the members only. *)
Lemma deduplicatePorts_unique (ports ports' : list NetworkPolicyPort) :
  Forall regular ports → Forall regular ports' → (∀ p, p ∈ ports ↔ p ∈ ports') →
  deduplicatePorts ports = deduplicatePorts ports'.
Proof.
  intros Hp Hp' Hin. apply (sorted_by_members port_le); try by apply deduplicatePorts_sorted.
  - unfold deduplicatePorts. rewrite sort_Slice_perm. by apply dedup_ports_nodup.
  - unfold deduplicatePorts. rewrite sort_Slice_perm. by apply dedup_ports_nodup.
  - intros p. by rewrite !deduplicatePorts_elem.
  - intros p p'. rewrite !deduplicatePorts_elem by done. rewrite Forall_forall in Hp.
    intros ??. by apply numbered_antisym; apply regular_numbered, Hp.
Qed.

(** ** Rules *)

(** A rule for [peer] holds the port. *)
Definition rule_has (rules : list NetworkPolicyRule) (peer : string) (n : Z) (protocol : string) : Prop :=
  ∃ r, r ∈ rules ∧ PeerIP r = peer ∧ number_port n protocol ∈ Ports r.

Record rules_ok (rules : list NetworkPolicyRule) : Prop := {
  ro_regular r : r ∈ rules → Forall regular (Ports r);
  ro_nonempty r : r ∈ rules → Ports r ≠ []
}.

Lemma rules_ok_nil : rules_ok [].
Proof. split; by intros r ?%not_elem_of_nil. Qed.

Lemma rules_ok_cons (r : NetworkPolicyRule) (rules : list NetworkPolicyRule) :
  rules_ok (r :: rules) ↔ (Forall regular (Ports r) ∧ Ports r ≠ []) ∧ rules_ok rules.
Proof.
  split.
  - intros [Hr Hn]. split; [split; [apply Hr|apply Hn]; by left|].
    split; intros r' ?; [apply Hr|apply Hn]; by right.
  - intros [[Hr Hn] [Hr' Hn']]. split; intros r' [->|?]%elem_of_cons; auto.
Qed.

Lemma rule_has_cons (r : NetworkPolicyRule) (rules : list NetworkPolicyRule) (peer : string) (n : Z) (q : string) :
  rule_has (r :: rules) peer n q ↔ PeerIP r = peer ∧ number_port n q ∈ Ports r ∨ rule_has rules peer n q.
Proof. unfold rule_has. setoid_rewrite elem_of_cons. naive_solver. Qed.

Lemma same_port_spec (n : Z) (q : string) (ports : list NetworkPolicyPort) :
  Forall regular ports → 0 ≤ n → existsb (same_port (IntVal n) q) ports = true ↔ number_port n q ∈ ports.
Proof.
  intros Hp Hn. rewrite existsb_exists. rewrite Forall_forall in Hp. split.
  - intros (p&Hin%list_elem_of_In&Hs). destruct (Hp _ Hin) as (n'&q'&Hn'&->). revert Hs. unfold same_port. simpl.
    intros [Hs%String.eqb_eq ->%String.eqb_eq]%andb_true_iff.
    apply (f_equal unsigned_digits) in Hs. unfold Itoa in Hs. rewrite !unsigned_digits_pretty in Hs by done.
    by injection Hs as ->.
  - intros Hin. exists (number_port n q). split; [by apply list_elem_of_In|]. unfold same_port. simpl.
    by rewrite !String.eqb_refl.
Qed.

Lemma regular_number (n : Z) (q : string) : 0 ≤ n → regular (number_port n q).
Proof. intros ?. by exists n, q. Qed.

Lemma merge_ok (rules : list NetworkPolicyRule) (peer : string) (n : Z) (q : string) :
  rules_ok rules → 0 ≤ n → rules_ok (mergeOrAppendRule rules peer (IntVal n) q).
Proof.
  intros Hr Hn. induction rules as [|r rules IH]; simpl.
  - apply rules_ok_cons. split; [|done]. split; [|done]. constructor; [|done]. by apply regular_number.
  - apply rules_ok_cons in Hr as [[Hp Hne] Hr]. destruct (String.eqb _ _).
    + destruct (existsb _ _); [by apply rules_ok_cons|]. apply rules_ok_cons. split; [|done]. simpl. split.
      * apply Forall_app. split; [done|]. constructor; [|done]. by apply regular_number.
      * by destruct (Ports r).
    + apply rules_ok_cons. split; [done|]. by apply IH.
Qed.

Lemma merge_has (rules : list NetworkPolicyRule) (peer peer' : string) (n n' : Z) (q q' : string) :
  rules_ok rules → 0 ≤ n →
  rule_has (mergeOrAppendRule rules peer (IntVal n) q) peer' n' q' ↔
  rule_has rules peer' n' q' ∨ peer' = peer ∧ n' = n ∧ q' = protocolPtr q.
Proof.
  intros Hr Hn. assert (∀ n' q', number_port n' q' = number_port n (protocolPtr q) ↔ n' = n ∧ q' = protocolPtr q) as Hnp.
  { unfold number_port. intros n1 q1. split; [by intros [= -> ->]|by intros [-> ->]]. }
  induction rules as [|r rules IH]; simpl.
  - rewrite rule_has_cons. simpl. rewrite list_elem_of_singleton. fold (number_port n (protocolPtr q)).
    rewrite Hnp. naive_solver.
  - apply rules_ok_cons in Hr as [[Hp Hne] Hr]. destruct (String.eqb_spec (PeerIP r) peer) as [<-|Hpe].
    + pose proof (same_port_spec n (protocolPtr q) (Ports r) Hp Hn) as Hs.
      destruct (existsb _ _); rewrite !rule_has_cons; simpl.
      * split; [by left|]. intros [?|(->&->&->)]; [done|]. left. split; [done|by apply Hs].
      * rewrite elem_of_app, list_elem_of_singleton. fold (number_port n (protocolPtr q)). rewrite Hnp. naive_solver.
    + rewrite !rule_has_cons, IH by done. naive_solver.
Qed.

(** ** Rows *)

Definition row_direction (t : PodTraffic) : option string :=
  if IsIngressTraffic t then Some PolicyTypeIngress
  else if IsEgressTraffic t then Some PolicyTypeEgress else None.

(** The port that a row is about: that of the pod, or that of its peer. *)
Definition row_port (dir : string) (t : PodTraffic) : string :=
  if String.eqb dir PolicyTypeIngress then tr_SrcPodPort t else tr_DstPort t.

Definition observes (detail : PodDetail) (dir : string) (t : PodTraffic) (peer : string) (n : Z)
    (protocol : string) : Prop :=
  row_direction t = Some dir ∧ tr_DstIP t = peer ∧ peer ≠ EmptyString ∧ peer ≠ pd_PodIP detail ∧
  parsePort (row_port dir t) = Some n ∧ protocolPtr (tr_Protocol t) = protocol.

Definition observed (detail : PodDetail) (rows : list PodTraffic) (dir peer : string) (n : Z)
    (protocol : string) : Prop :=
  ∃ t, t ∈ rows ∧ observes detail dir t peer n protocol.

Lemma parsePort_range (s : string) (n : Z) : parsePort s = Some n → 1 ≤ n ≤ 65535.
Proof.
  unfold parsePort. destruct (Atoi s) as [m|]; simpl; [|done].
  destruct (Z.leb_spec m 0); simpl; [done|]. destruct (Z.ltb_spec 65535 m); simpl; [done|].
  intros [= ->]. lia.
Qed.

Lemma parsePort_pretty (n : Z) : 1 ≤ n ≤ 65535 → parsePort (pretty n) = Some n.
Proof.
  intros Hn. unfold parsePort. rewrite Atoi_pretty by lia. simpl.
  by destruct (Z.leb_spec n 0), (Z.ltb_spec 65535 n); try lia.
Qed.

Lemma FromInt_port (n : Z) : 1 ≤ n ≤ 65535 → FromInt n = IntVal n.
Proof. intros Hn. unfold FromInt, i32_of. rewrite Z.mod_small by lia. f_equal. lia. Qed.

Definition both_ok (rules : list NetworkPolicyRule * list NetworkPolicyRule) : Prop :=
  rules_ok rules.1 ∧ rules_ok rules.2.

(** One row adds what it observes. *)
Lemma process_row_spec (detail : PodDetail) (rules : list NetworkPolicyRule * list NetworkPolicyRule) (t : PodTraffic) :
  both_ok rules →
  both_ok (process_row detail rules t) ∧
  (∀ peer n q, rule_has (process_row detail rules t).1 peer n q ↔
    rule_has rules.1 peer n q ∨ observes detail PolicyTypeIngress t peer n q) ∧
  (∀ peer n q, rule_has (process_row detail rules t).2 peer n q ↔
    rule_has rules.2 peer n q ∨ observes detail PolicyTypeEgress t peer n q).
Proof.
  destruct rules as [ingress egress]. intros [Hi He]. simpl in *.
  unfold process_row, observes, row_direction, row_port.
  assert (∀ P Q : Prop, ¬ Q → P ↔ P ∨ Q) as Hno by (intros P Q ?; split; [by left|by intros [?|?]]).
  destruct (IsIngressTraffic t); [|destruct (IsEgressTraffic t)]; simpl.
  3:{ split; [done|]. by split; intros; apply Hno; intros (?&_). }
  all: destruct (String.eqb_spec (tr_DstIP t) EmptyString) as [E|E];
    [by split; [done|]; split; intros; apply Hno; intros (?&?&?&_); congruence|].
  all: destruct (String.eqb_spec (tr_DstIP t) (pd_PodIP detail)) as [E'|E'];
    [by split; [done|]; split; intros; apply Hno; intros (?&?&_&?&_); congruence|].
  all: destruct (parsePort _) as [n0|] eqn:Hp;
    [|by split; [done|]; split; intros; apply Hno; intros ([=]&_&_&_&?&_); simplify_eq].
  all: apply parsePort_range in Hp as Hn; rewrite FromInt_port by lia; unfold both_ok; simpl.
  - split; [split; [by apply merge_ok; [|lia]|done]|]. split; intros peer n q; [|by apply Hno; intros ([=]&_)].
    rewrite merge_has by (done || lia). f_equiv. split; [|naive_solver].
    intros (->&->&->). naive_solver.
  - split; [split; [done|by apply merge_ok; [|lia]]|]. split; intros peer n q; [by apply Hno; intros ([=]&_)|].
    rewrite merge_has by (done || lia). f_equiv. split; [|naive_solver].
    intros (->&->&->). naive_solver.
Qed.

Lemma process_rules_spec (detail : PodDetail) (rows : list PodTraffic) :
  both_ok (processTrafficRules rows detail) ∧
  (∀ peer n q, rule_has (processTrafficRules rows detail).1 peer n q ↔ observed detail rows PolicyTypeIngress peer n q) ∧
  (∀ peer n q, rule_has (processTrafficRules rows detail).2 peer n q ↔ observed detail rows PolicyTypeEgress peer n q).
Proof.
  unfold processTrafficRules, observed. induction rows as [|t rows IH] using rev_ind; simpl.
  { split; [split; apply rules_ok_nil|]. unfold rule_has. by split; intros; split; intros (?&?%not_elem_of_nil&_). }
  rewrite foldl_app. simpl. destruct IH as (Hok&Hi&He).
  destruct (process_row_spec detail _ t Hok) as (Hok'&Hi'&He'). split; [done|].
  setoid_rewrite elem_of_app. setoid_rewrite list_elem_of_singleton. setoid_rewrite Hi'. setoid_rewrite He'.
  setoid_rewrite Hi. setoid_rewrite He. naive_solver.
Qed.

(** ** Groups *)

Lemma group_rules_spec (rules : list NetworkPolicyRule) (peer : string) :
  (peer ∈ dom (group_rules rules) ↔ ∃ r, r ∈ rules ∧ PeerIP r = peer) ∧
  (∀ p, p ∈ default [] (group_rules rules !! peer) ↔ ∃ r, r ∈ rules ∧ PeerIP r = peer ∧ p ∈ Ports r).
Proof.
  unfold group_rules. induction rules as [|r rules [IHd IHp]] using rev_ind.
  { simpl. rewrite dom_empty_L, lookup_empty. split; [set_solver|]. intros p. simpl. set_solver. }
  rewrite foldl_app. simpl. unfold group_rule at 1 3. setoid_rewrite elem_of_app.
  setoid_rewrite list_elem_of_singleton. rewrite dom_insert_L, elem_of_union, elem_of_singleton, IHd.
  split; [naive_solver|]. intros p. destruct (decide (PeerIP r = peer)) as [<-|Hne].
  - rewrite lookup_insert_eq. simpl. rewrite elem_of_app, IHp. naive_solver.
  - rewrite lookup_insert_ne by done. rewrite IHp. naive_solver.
Qed.

Lemma group_regular (rules : list NetworkPolicyRule) (peer : string) :
  rules_ok rules → Forall regular (default [] (group_rules rules !! peer)).
Proof.
  intros [Hr _]. apply Forall_forall. intros p (r&Hin&_&Hp)%group_rules_spec.
  specialize (Hr _ Hin). rewrite Forall_forall in Hr. by apply Hr.
Qed.

Lemma group_has (rules : list NetworkPolicyRule) (peer : string) (n : Z) (q : string) :
  number_port n q ∈ default [] (group_rules rules !! peer) ↔ rule_has rules peer n q.
Proof. apply group_rules_spec. Qed.

(** A peer has a rule when some port is admitted from it. *)
Lemma group_dom (rules : list NetworkPolicyRule) (peer : string) :
  rules_ok rules → peer ∈ dom (group_rules rules) ↔ ∃ n q, rule_has rules peer n q.
Proof.
  intros [Hr Hn]. rewrite (proj1 (group_rules_spec rules peer)). split.
  - intros (r&Hin&<-). specialize (Hr _ Hin). specialize (Hn _ Hin).
    destruct (Ports r) as [|p ports] eqn:Hp; [done|]. apply Forall_cons in Hr as [(n&q&_&->) _].
    exists n, q, r. rewrite Hp. split_and!; [done..|by left].
  - intros (n&q&r&Hin&<-&_). by exists r.
Qed.

Lemma sortedKeys_elem (m : gmap string (list NetworkPolicyPort)) (k : string) : k ∈ sortedKeys m ↔ k ∈ dom m.
Proof.
  unfold sortedKeys. rewrite sort_Strings_perm, list_elem_of_fmap, elem_of_dom. split.
  - intros ([k' v]&->&Hin%elem_of_map_to_list). by exists v.
  - intros [v Hv]. exists (k, v). split; [done|]. by apply elem_of_map_to_list.
Qed.

Lemma sortedKeys_unique (m m' : gmap string (list NetworkPolicyPort)) :
  dom m = dom m' → sortedKeys m = sortedKeys m'.
Proof.
  intros Hd. unfold sortedKeys. apply sort_Strings_unique; try apply NoDup_fst_map_to_list.
  intros k. rewrite <- (sort_Strings_perm (map_to_list m).*1), <- (sort_Strings_perm (map_to_list m').*1).
  change (k ∈ sortedKeys m ↔ k ∈ sortedKeys m'). by rewrite !sortedKeys_elem, Hd.
Qed.

(** ** Rules of the policy *)

Lemma createPeer_some (data : BrokerData) (peer : string) : is_Some (createNetworkPolicyPeer data peer).
Proof. unfold createNetworkPolicyPeer. by repeat case_match. Qed.

Lemma transform_elem (data : BrokerData) (rules : list NetworkPolicyRule) (e : NetworkPolicyPeer) (ports : list NetworkPolicyPort) :
  rules_ok rules →
  (e, ports) ∈ transform_rules data rules ↔
  ∃ peer, (∃ n q, rule_has rules peer n q) ∧ createNetworkPolicyPeer data peer = Some e ∧
    ports = deduplicatePorts (default [] (group_rules rules !! peer)).
Proof.
  intros Hok. unfold transform_rules. rewrite list_elem_of_omap. setoid_rewrite sortedKeys_elem.
  setoid_rewrite group_dom; [|done]. split.
  - intros (peer&Hd&Hp). exists peer. split; [done|]. destruct (createNetworkPolicyPeer data peer); [|done].
    by injection Hp as -> <-.
  - intros (peer&Hd&Hc&->). exists peer. split; [done|]. by rewrite Hc.
Qed.

Lemma omap_pointwise {A B} (f g : A → option B) (l : list A) : (∀ x, f x = g x) → omap f l = omap g l.
Proof. intros Hfg. induction l as [|x l IH]; csimpl; [done|]. by rewrite Hfg, IH. Qed.

(** The rules of the policy depend on what the rules of the rows hold, and on nothing else. *)
Lemma transform_unique (data : BrokerData) (rules rules' : list NetworkPolicyRule) :
  rules_ok rules → rules_ok rules' → (∀ peer n q, rule_has rules peer n q ↔ rule_has rules' peer n q) →
  transform_rules data rules = transform_rules data rules'.
Proof.
  intros Hok Hok' Heq. unfold transform_rules.
  assert (dom (group_rules rules) = dom (group_rules rules')) as Hd.
  { apply set_eq. intros peer. rewrite !group_dom by done. by setoid_rewrite Heq. }
  rewrite (sortedKeys_unique _ _ Hd). apply omap_pointwise. intros peer.
  rewrite (deduplicatePorts_unique _ (default [] (group_rules rules' !! peer)));
    [done|by apply group_regular|by apply group_regular|].
  assert (∀ r1 r2 p, rules_ok r1 → (∀ n q, rule_has r1 peer n q → rule_has r2 peer n q) →
    p ∈ default [] (group_rules r1 !! peer) → p ∈ default [] (group_rules r2 !! peer)) as Himp.
  { intros r1 r2 p H1 Himp Hin. pose proof (group_regular r1 peer H1) as Hr. rewrite Forall_forall in Hr.
    destruct (Hr _ Hin) as (n&q&_&->). apply group_has, Himp. by apply group_has. }
  intros p. by split; apply Himp; [done| |done|]; intros n q; apply Heq.
Qed.

Lemma rules_nonempty (rules : list NetworkPolicyRule) :
  rules_ok rules → rules ≠ [] → ∃ peer n q, rule_has rules peer n q.
Proof.
  intros [Hr Hn] Hne. destruct rules as [|r rules]; [done|].
  specialize (Hr r ltac:(by left)). specialize (Hn r ltac:(by left)).
  destruct (Ports r) as [|p ports] eqn:Hp; [done|]. apply Forall_cons in Hr as [(n&q&_&->) _].
  exists (PeerIP r), n, q, r. rewrite Hp. split_and!; [by left|done|by left].
Qed.
