(* ===== verification/StandardPolicyThms.v ===== *)
(** * Theorems about the generated policies

    A generated policy, evaluated by the matcher, allows exactly the flows that the rows show; the order
    of the rows does not matter. *)

From stdpp Require Import pretty.
From S2P Require Import Prelude RustStd GoStd KubePolicy Matcher MatcherThms StandardPolicy StandardPolicyFacts.

(** The same specification, audited. *)
Definition audited (policy : NetworkPolicy) : AuditNetworkPolicy :=
  MkAuditNetworkPolicy (np_meta policy) (np_Spec policy).

Section Policies.
Context `{SelectorLaws}.
Implicit Types (flow : Flow) (dir : string) (lookup : Lookup) (data : BrokerData).
Implicit Types (rows : list PodTraffic) (detail : PodDetail) (policy : NetworkPolicy).

(** The peer that the policy names for an address admits the flow. *)
Definition peer_admits data flow dir lookup (address : string) : Prop :=
  ∃ e, createNetworkPolicyPeer data address = Some e ∧ admits_peer flow dir lookup e.

(** ** Ports *)

Lemma admits_number_port flow lookup (n : Z) (q : string) :
  admits_port flow lookup (number_port n q) ↔ n = DstPort flow ∧ q = Protocol flow.
Proof. unfold admits_port, number_port. simpl. split; [intros [<- ?]; split; [lia|done]|intros [-> ->]; split; [done|lia]]. Qed.

Lemma generated_rule flow dir lookup data (rules : list NetworkPolicyRule) (e : NetworkPolicyPeer) (ports : list NetworkPolicyPort) :
  rules_ok rules → (e, ports) ∈ transform_rules data rules → permits flow dir lookup ([e], ports) →
  ∃ peer, rule_has rules peer (DstPort flow) (Protocol flow) ∧ peer_admits data flow dir lookup peer.
Proof.
  intros Hok Hin. apply transform_elem in Hin as (peer&Hh&Hc&->); [|done]. simpl.
  intros [[?|(e'&He'&Ha)] Hp]; [done|]. apply list_elem_of_singleton in He' as ->. exists peer. split; [|by exists e].
  pose proof (group_regular rules peer Hok) as Hr.
  destruct Hp as [Hnil|(p&Hin&Hp)]; simpl in *.
  - destruct Hh as (n&q&Hh%group_has).
    rewrite <- deduplicatePorts_elem, Hnil in Hh by done. by apply not_elem_of_nil in Hh.
  - rewrite deduplicatePorts_elem in Hin by done. rewrite Forall_forall in Hr.
    destruct (Hr _ Hin) as (n&q&_&->). apply admits_number_port in Hp as [-> ->]. by apply group_has.
Qed.

Lemma generated_permits flow dir lookup data (rules : list NetworkPolicyRule) :
  rules_ok rules →
  (∃ e ports, (e, ports) ∈ transform_rules data rules ∧ permits flow dir lookup ([e], ports)) ↔
  ∃ peer, rule_has rules peer (DstPort flow) (Protocol flow) ∧ peer_admits data flow dir lookup peer.
Proof.
  intros Hok. split; [intros (e&ports&Hin&Hp); by eapply generated_rule|].
  intros (peer&Hh&e&Hc&Ha). exists e, (deduplicatePorts (default [] (group_rules rules !! peer))).
  rewrite transform_elem by done. split; [exists peer; split_and!; [by eexists _, _|done|done]|].
  split; right; simpl; [exists e; split; [by left|done]|].
  exists (number_port (DstPort flow) (Protocol flow)). rewrite admits_number_port. split; [|done].
  apply deduplicatePorts_elem; [by apply group_regular|]. by apply group_has.
Qed.

(** ** The policy *)

Lemma rules_of_generated data (ingress egress : list NetworkPolicyRule) dir
    (rule : list NetworkPolicyPeer * list NetworkPolicyPort) :
  direction dir →
  rule ∈ rules_of (transformToNetworkPolicyIngressRules data ingress)
    (transformToNetworkPolicyEgressRules data egress) dir ↔
  ∃ e ports, (e, ports) ∈ transform_rules data (if String.eqb dir DirectionIngress then ingress else egress) ∧
    rule = ([e], ports).
Proof.
  unfold rules_of, transformToNetworkPolicyIngressRules, transformToNetworkPolicyEgressRules.
  intros [-> | ->]; simpl; rewrite list_elem_of_fmap; setoid_rewrite list_elem_of_fmap.
  - split; [intros (r&->&[e ports]&->&Hin); by exists e, ports|].
    intros (e&ports&Hin&->). exists (MkIngressRule ports [e]). split; [done|]. by exists (e, ports).
  - split; [intros (r&->&[e ports]&->&Hin); by exists e, ports|].
    intros (e&ports&Hin&->). exists (MkEgressRule ports [e]). split; [done|]. by exists (e, ports).
Qed.

Lemma transform_nil data : transform_rules data [] = [].
Proof. done. Qed.

(** Some row gives a rule in this direction. *)
Definition shows rows detail dir : Prop := ∃ peer n q, observed detail rows dir peer n q.

(** What the generator makes of rows: one description for all its branches. *)
Record generated data rows detail policy : Prop := {
  gen_namespace : meta_Namespace (np_meta policy) = pd_Namespace detail;
  gen_selector : PodSelector (np_Spec policy) = MkLabelSelector (pd_Labels detail) [];
  gen_ingress : Ingress (np_Spec policy) =
    transformToNetworkPolicyIngressRules data (processTrafficRules rows detail).1;
  gen_egress : Egress (np_Spec policy) =
    transformToNetworkPolicyEgressRules data (processTrafficRules rows detail).2;
  gen_types dir : dir ∈ PolicyTypes (np_Spec policy) ↔
    direction dir ∧ (shows rows detail dir ∨
                     ¬ shows rows detail DirectionIngress ∧ ¬ shows rows detail DirectionEgress)
}.

Lemma shows_nil detail dir : ¬ shows [] detail dir.
Proof. by intros (?&?&?&?&?%not_elem_of_nil&_). Qed.

Lemma deny_all_types dir : dir ∈ [PolicyTypeIngress; PolicyTypeEgress] ↔ direction dir.
Proof. unfold direction. set_unfold. naive_solver. Qed.

Lemma Generate_generated data (name : string) rows detail policy :
  Generate data name rows (Some detail) = inr policy → generated data rows detail policy.
Proof.
  unfold Generate. destruct (process_rules_spec detail rows) as ([Hio Heo]&Hi&He).
  destruct rows as [|t rows'].
  { intros [= <-]. split; [done..|]. intros dir. simpl. rewrite deny_all_types.
    pose proof (shows_nil detail). naive_solver. }
  set (rows := t :: rows') in *. clearbody rows. clear t rows'.
  assert ((processTrafficRules rows detail).1 ≠ [] ↔ shows rows detail DirectionIngress) as Hni.
  { unfold shows. setoid_rewrite <- Hi. split; [by apply rules_nonempty|].
    intros (?&?&?&r&Hr&_) E. rewrite E in Hr. by apply not_elem_of_nil in Hr. }
  assert ((processTrafficRules rows detail).2 ≠ [] ↔ shows rows detail DirectionEgress) as Hne.
  { unfold shows. setoid_rewrite <- He. split; [by apply rules_nonempty|].
    intros (?&?&?&r&Hr&_) E. rewrite E in Hr. by apply not_elem_of_nil in Hr. }
  clear Hi He Hio Heo. destruct (processTrafficRules rows detail) as [ingress egress] eqn:Hp. simpl in *.
  assert (∀ dir, direction dir ↔ dir = DirectionIngress ∨ dir = DirectionEgress) as Hdir by done.
  assert (DirectionIngress ≠ DirectionEgress) as Hneq by done.
  destruct ingress as [|r ingress], egress as [|r' egress]; simpl; intros [= <-].
  all: split; rewrite ?Hp; simpl; [done..|]; intros dir; rewrite Hdir.
  all: unfold PolicyTypeIngress, PolicyTypeEgress; fold DirectionIngress DirectionEgress.
  all: rewrite ?elem_of_cons, ?elem_of_nil.
  - assert (¬ shows rows detail DirectionIngress) by (by rewrite <- Hni; intros []).
    assert (¬ shows rows detail DirectionEgress) by (by rewrite <- Hne; intros []).
    clear Hni Hne Hdir. naive_solver.
  - assert (¬ shows rows detail DirectionIngress) by (by rewrite <- Hni; intros []).
    assert (shows rows detail DirectionEgress) by (by apply Hne).
    clear Hni Hne Hdir. naive_solver.
  - assert (shows rows detail DirectionIngress) by (by apply Hni).
    assert (¬ shows rows detail DirectionEgress) by (by rewrite <- Hne; intros []).
    clear Hni Hne Hdir. naive_solver.
  - assert (shows rows detail DirectionIngress) by (by apply Hni).
    assert (shows rows detail DirectionEgress) by (by apply Hne).
    clear Hni Hne Hdir. naive_solver.
Qed.

(** The labels and the namespace by which an address is named, when it is that of a service or a pod. *)
Definition resolve data (address : string) : option (labels * string) :=
  let of_pod :=
    match PodByIP data address with
    | inr (Some pod) =>
        if decide (pd_Labels pod = ∅) then None else Some (pd_Labels pod, pd_Namespace pod)
    | _ => None
    end in
  match ServiceByIP data address with
  | inr (Some svc) =>
      if decide (sd_Selector svc = ∅) then of_pod else Some (sd_Selector svc, sd_SvcNamespace svc)
  | _ => of_pod
  end.

Lemma createPeer_resolve data (address : string) :
  createNetworkPolicyPeer data address = Some
    match resolve data address with
    | Some (lbls, namespace) => selector_peer lbls namespace
    | None => MkPeer None None (Some (MkIPBlock (address +:+ "/32") []))
    end.
Proof. unfold createNetworkPolicyPeer, resolve. by repeat case_match. Qed.

Lemma selects_labels (m lbls : labels) :
  valid_labels m → selectorMatchesLabels (MkLabelSelector m []) lbls = true ↔ m ⊆ lbls.
Proof.
  intros Hv. unfold selectorMatchesLabels. destruct (selector_of_labels m Hv) as (s&->&Hs).
  by rewrite Hs, bool_decide_eq_true.
Qed.

(** Named by labels: the pods of the namespace that carry them. *)
Lemma admits_resolved data flow dir lookup (address namespace : string) (lbls : labels) :
  resolve data address = Some (lbls, namespace) → valid_labels lbls →
  valid_label namespace_label namespace = true →
  peer_admits data flow dir lookup address ↔
  ∃ peer ns, peerPod flow dir lookup = Some peer ∧ lbls ⊆ pod_Labels peer ∧
    GetNamespaceLabels lookup (pod_Namespace peer) = Some ns ∧ ns !! namespace_label = Some namespace.
Proof.
  intros Hr Hv Hns. unfold peer_admits. rewrite createPeer_resolve, Hr.
  assert (valid_labels {[namespace_label := namespace]}) as Hvn.
  { by intros k v [<- <-]%lookup_singleton_Some. }
  unfold admits_peer, in_namespace, selector_peer. simpl. split.
  - intros (e&[= <-]&peer&Hp&(ns&Hn&Hsn)&Hl). exists peer, ns. split_and!; [done| |done|].
    + apply selects_labels; [done|]. by apply Hl.
    + apply selects_labels, map_singleton_subseteq_l in Hsn; done.
  - intros (peer&ns&Hp&Hl&Hn&Hsn). eexists. split; [done|]. exists peer. split; [done|]. split.
    + exists ns. split; [done|]. apply selects_labels; [done|]. by apply map_singleton_subseteq_l.
    + intros sel [= <-]. by apply selects_labels.
Qed.

(** Named by address: that address. *)
Lemma admits_host data flow dir lookup (a b : Z) :
  resolve data (ipv4_to_string a) = None → peerIP flow dir = ipv4_to_string b →
  0 ≤ a < 2 ^ 32 → 0 ≤ b < 2 ^ 32 → peer_admits data flow dir lookup (ipv4_to_string a) ↔ a = b.
Proof.
  intros Hr Hp Ha Hb. unfold peer_admits. rewrite createPeer_resolve, Hr.
  unfold admits_peer, in_block. simpl. rewrite Hp. split.
  - intros (e&[= <-]&_&addr&allow&Hi&Hc&Hin&_). simpl in *.
    rewrite ParseIP_ipv4 in Hi by done. rewrite ParseCIDR_host in Hc by done. injection Hi as <-.
    injection Hc as <-. rewrite Contains_host in Hin by done. by apply Z.eqb_eq.
  - intros <-. eexists. split; [done|]. simpl. split.
    { intros E. pose proof (ParseIP_ipv4 a Ha) as Hi. by rewrite E in Hi. }
    exists (v4InV6 a), (MkIPNet a (2 ^ 32 - 1) 32). rewrite ParseIP_ipv4, ParseCIDR_host, Contains_host by done.
    rewrite Z.eqb_refl. split_and!; [done..|]. by intros ? ? ?%not_elem_of_nil.
Qed.

(** ** A generated policy, evaluated *)

(** The pod of the policy is the subject of the flow. *)
Definition protects detail flow dir lookup : Prop :=
  ∃ subject, subjectPod flow dir lookup = Some subject ∧
    pod_Namespace subject = pd_Namespace detail ∧ pd_Labels detail ⊆ pod_Labels subject.

Lemma generated_applies data rows detail policy flow dir lookup :
  generated data rows detail policy → valid_labels (pd_Labels detail) →
  protects detail flow dir lookup → applies flow (audited policy) dir lookup.
Proof.
  intros [Hns Hsel _ _ _] Hv (subject&Hs&Hn&Hl). exists subject. simpl. rewrite Hns, Hsel.
  split_and!; [done|done|]. by apply selects_labels.
Qed.

Lemma generated_permitted data rows detail policy flow dir lookup :
  generated data rows detail policy → direction dir →
  permitted flow (audited policy) dir lookup ↔
  ∃ peer, observed detail rows dir peer (DstPort flow) (Protocol flow) ∧
    peer_admits data flow dir lookup peer.
Proof.
  intros [_ _ Hi He _] Hdir. unfold permitted. simpl. rewrite Hi, He.
  destruct (process_rules_spec detail rows) as ([Hio Heo]&Hir&Her).
  setoid_rewrite rules_of_generated; [|done].
  assert (∀ rules, rules_ok rules →
    (∃ rule, (∃ e ports, (e, ports) ∈ transform_rules data rules ∧ rule = ([e], ports)) ∧
             permits flow dir lookup rule) ↔
    ∃ peer, rule_has rules peer (DstPort flow) (Protocol flow) ∧ peer_admits data flow dir lookup peer) as Hg.
  { intros rules Hok. rewrite <- generated_permits by done. naive_solver. }
  destruct Hdir as [-> | ->]; simpl; rewrite Hg by done; [by setoid_rewrite Hir|by setoid_rewrite Her].
Qed.

Lemma generated_about data rows detail policy dir :
  generated data rows detail policy →
  about (PolicyTypes (np_Spec policy)) (Egress (np_Spec policy)) dir ↔
  direction dir ∧ (shows rows detail dir ∨
                   ¬ shows rows detail DirectionIngress ∧ ¬ shows rows detail DirectionEgress).
Proof.
  intros [_ _ _ _ Ht]. rewrite <- Ht. unfold about. destruct (PolicyTypes (np_Spec policy)) as [|t l] eqn:E; [|done].
  exfalso. assert (∀ d, direction d → ¬ shows rows detail d) as Hno.
  { intros d Hd Hs. apply (not_elem_of_nil d), Ht. split; [done|by left]. }
  apply (not_elem_of_nil DirectionIngress), Ht. split; [by left|]. right. split; apply Hno; [by left|by right].
Qed.

(** C9: a generated policy is exact.  It is about a direction when some row shows a flow in it, and about
    both when no row shows any; there it allows a flow of its pod when a row shows that port and protocol
    with a peer that admits the other end, and denies every other flow. *)
Theorem generated_policy_exact data (name : string) rows detail policy flow dir lookup :
  Generate data name rows (Some detail) = inr policy →
  valid_labels (pd_Labels detail) → direction dir → protects detail flow dir lookup →
  let r := match_direction flow (audited policy) lookup dir in
  let allowed := ∃ peer, observed detail rows dir peer (DstPort flow) (Protocol flow) ∧
                         peer_admits data flow dir lookup peer in
  (r ∈ Match flow (audited policy) lookup ↔
   shows rows detail dir ∨ ¬ shows rows detail DirectionIngress ∧ ¬ shows rows detail DirectionEgress) ∧
  (allowed → Verdict r = VerdictAllow) ∧ (¬ allowed → Verdict r = VerdictWouldDeny).
Proof.
  intros Hg%Generate_generated Hv Hdir Hp r allowed.
  pose proof (generated_applies _ _ _ _ _ _ _ Hg Hv Hp) as Ha.
  pose proof (generated_permitted _ _ _ _ flow dir lookup Hg Hdir) as Hperm. fold allowed in Hperm.
  split.
  - subst r. rewrite match_elem, match_direction_dir. simpl. rewrite (generated_about _ _ _ _ _ Hg). naive_solver.
  - rewrite <- Hperm. subst r. by destruct (match_direction_verdict flow (audited policy) lookup dir Hdir).
Qed.

(** The evaluator sees, at the other end of the flow, what the advisor found behind the address. *)
Definition recognises data flow dir lookup (address : string) : Prop :=
  match resolve data address with
  | Some (lbls, namespace) =>
      valid_labels lbls ∧ valid_label namespace_label namespace = true ∧
      ∃ peer ns, peerPod flow dir lookup = Some peer ∧ lbls ⊆ pod_Labels peer ∧
        GetNamespaceLabels lookup (pod_Namespace peer) = Some ns ∧ ns !! namespace_label = Some namespace
  | None => peerIP flow dir = address ∧ ∃ z, 0 ≤ z < 2 ^ 32 ∧ address = ipv4_to_string z
  end.

Lemma recognises_admits data flow dir lookup (address : string) :
  recognises data flow dir lookup address → peer_admits data flow dir lookup address.
Proof.
  unfold recognises. destruct (resolve data address) as [[lbls ns]|] eqn:Hr.
  - intros (Hv&Hn&Hp). by eapply admits_resolved.
  - intros (Hip&z&Hz&->). by apply (admits_host _ _ _ _ z z).
Qed.

Lemma generated_allows_observed data rows detail policy flow dir lookup (peer : string) :
  generated data rows detail policy → valid_labels (pd_Labels detail) → direction dir →
  protects detail flow dir lookup → observed detail rows dir peer (DstPort flow) (Protocol flow) →
  recognises data flow dir lookup peer →
  ∃ r, r ∈ Match flow (audited policy) lookup ∧ Direction r = dir ∧ Verdict r = VerdictAllow.
Proof.
  intros Hg Hv Hdir Hp Hob Hr. exists (match_direction flow (audited policy) lookup dir).
  rewrite match_elem, match_direction_dir. simpl. rewrite (generated_about _ _ _ _ _ Hg).
  split_and!; [done|left; by eexists _, _, _|done|done|].
  eapply verdict_unique; [by apply match_direction_verdict|]. apply verdict_allows.
  - by eapply generated_applies.
  - eapply generated_permitted; [done|done|]. exists peer. split; [done|by apply recognises_admits].
Qed.

(** a flow that a row shows is allowed: the policy generated from the rows does not break what was
    observed, as long as the evaluator recognises the peer. *)
Theorem observed_flow_is_allowed data (name : string) rows detail policy (t : PodTraffic) flow dir lookup
    (peer : string) :
  Generate data name rows (Some detail) = inr policy →
  valid_labels (pd_Labels detail) → protects detail flow dir lookup →
  t ∈ rows → observes detail dir t peer (DstPort flow) (Protocol flow) → direction dir →
  recognises data flow dir lookup peer →
  ∃ r, r ∈ Match flow (audited policy) lookup ∧ Direction r = dir ∧ Verdict r = VerdictAllow.
Proof.
  intros Hg%Generate_generated Hv Hp Ht Ho Hdir Hr. eapply generated_allows_observed; [done..| |done].
  by exists t.
Qed.

(** C30: the policy depends on which rows there are, not on their order or their number: the same policy
    is generated from any two lists with the same members. *)
Theorem policy_ignores_row_order data (name : string) rows rows' (detail : option PodDetail) :
  (∀ t, t ∈ rows ↔ t ∈ rows') → Generate data name rows detail = Generate data name rows' detail.
Proof.
  intros Heq. destruct detail as [detail|]; [|done]. unfold Generate.
  destruct (process_rules_spec detail rows) as ([Hio Heo]&Hi&He).
  destruct (process_rules_spec detail rows') as ([Hio' Heo']&Hi'&He').
  assert (∀ dir peer n q, observed detail rows dir peer n q ↔ observed detail rows' dir peer n q) as Hob.
  { intros dir peer n q. unfold observed. by setoid_rewrite Heq. }
  pose proof (transform_unique data _ _ Hio Hio' ltac:(intros; by rewrite Hi, Hi')) as Hti.
  pose proof (transform_unique data _ _ Heo Heo' ltac:(intros; by rewrite He, He')) as Hte.
  assert (∀ rules rules', rules_ok rules → rules_ok rules' →
    (∀ peer n q, rule_has rules peer n q ↔ rule_has rules' peer n q) →
    (0 <? length rules)%nat = (0 <? length rules')%nat) as Hlen.
  { intros l l' Hl Hl' Hh. destruct l as [|r l], l' as [|r' l']; [done| | |done]; simpl.
    - destruct (rules_nonempty _ Hl' ltac:(done)) as (?&?&?&Hx). apply Hh in Hx as (?&?%not_elem_of_nil&_). done.
    - destruct (rules_nonempty _ Hl ltac:(done)) as (?&?&?&Hx). apply Hh in Hx as (?&?%not_elem_of_nil&_). done. }
  pose proof (Hlen _ _ Hio Hio' ltac:(intros; by rewrite Hi, Hi')) as Hli.
  pose proof (Hlen _ _ Heo Heo' ltac:(intros; by rewrite He, He')) as Hle.
  destruct rows as [|t rows], rows' as [|t' rows']; [done| | |].
  - exfalso. apply (not_elem_of_nil t'), Heq. by left.
  - exfalso. apply (not_elem_of_nil t), Heq. by left.
  - destruct (processTrafficRules (t :: rows) detail) as [i e], (processTrafficRules (t' :: rows') detail) as [i' e'].
    simpl in *. unfold transformToNetworkPolicyIngressRules, transformToNetworkPolicyEgressRules.
    by rewrite Hli, Hle, Hti, Hte.
Qed.

End Policies.
