(* ===== verification/CiliumPolicy.v ===== *)
(** * advisor/pkg/network: a CiliumNetworkPolicy from the traffic of a pod

    cilium_policy.go and cilium_types.go, with the theorems about them.  The rows are processed by the
    same code as in [StandardPolicy.v] (two copies of one text); what differs is how a peer is named and
    how the policy is put together. *)

From stdpp Require Import pretty.
From S2P Require Import Prelude GoStd KubePolicy StandardPolicy StandardPolicyFacts.

#[local] Open Scope string_scope.

(** ** cilium_types.go *)

Record CiliumEndpointSelector : Type := MkEndpointSelector { es_MatchLabels : labels }.

Record CiliumPortProtocol : Type := MkPortProtocol { cpp_Port : string; cpp_Protocol : string }.

Record CiliumPortRule : Type := MkPortRule { cpr_Ports : list CiliumPortProtocol }.

(** [FromEndpoints], [FromCIDR] of an ingress rule; [ToEndpoints], [ToCIDR] of an egress rule. *)
Record CiliumPeerRule : Type := MkPeerRule {
  cr_Endpoints : list CiliumEndpointSelector;
  cr_CIDR : list string;
  cr_ToPorts : list CiliumPortRule
}.

Record CiliumDefaultDeny : Type := MkDefaultDeny { dd_Ingress : option bool; dd_Egress : option bool }.

Record CiliumRule : Type := MkCiliumRule {
  cs_EndpointSelector : CiliumEndpointSelector;
  cs_Description : string;
  cs_Ingress : list CiliumPeerRule;
  cs_Egress : list CiliumPeerRule;
  cs_EnableDefaultDeny : option CiliumDefaultDeny
}.

Record CiliumNetworkPolicy : Type := MkCiliumPolicy { cnp_meta : ObjectMeta; cnp_Spec : CiliumRule }.

(** Keys that differ stay different under the prefix. *)
Definition newCiliumEndpointSelector (lbls : labels) : CiliumEndpointSelector :=
  MkEndpointSelector (kmap (String.append "k8s:") lbls).

(** ** cilium_policy.go *)

Definition createEndpointSelector (podLabels : labels) : CiliumEndpointSelector :=
  newCiliumEndpointSelector podLabels.

Definition cilium_deny_all (podDetail : PodDetail) : CiliumNetworkPolicy :=
  MkCiliumPolicy
    (CreateObjectMeta (GetPolicyName (pd_Name podDetail) "cilium-policy-deny-all")
       (pd_Namespace podDetail) (CreateStandardLabels (pd_Name podDetail) "cilium-policy-deny-all"))
    (MkCiliumRule (createEndpointSelector (pd_Labels podDetail))
       ("Default-deny Cilium network policy for pod " +:+ pd_Name podDetail) [] []
       (Some (MkDefaultDeny (Some true) (Some true)))).

Definition resolvePeerForCilium (data : BrokerData) (peerIP : string) :
    list CiliumEndpointSelector * list string :=
  let of_pod :=
    let of_ip := ([], [peerIP +:+ "/32"]) in
    match PodByIP data peerIP with
    | inr (Some podSpec) =>
        if decide (pd_Labels podSpec = ∅) then of_ip else ([createEndpointSelector (pd_Labels podSpec)], [])
    | _ => of_ip
    end in
  match ServiceByIP data peerIP with
  | inr (Some svcSpec) =>
      if decide (sd_Selector svcSpec = ∅) then of_pod else ([createEndpointSelector (sd_Selector svcSpec)], [])
  | _ => of_pod
  end.

Definition convertPortsToCiliumPortRules (ports : list NetworkPolicyPort) : list CiliumPortRule :=
  omap (λ port,
    p ← port_Port port; q ← port_Protocol port;
    Some (MkPortRule [MkPortProtocol (port_string p) q])) (deduplicatePorts ports).

(** The ingress rule and the egress rule of a peer are made by two copies of one text. *)
Definition createCiliumRuleForPeer (data : BrokerData) (peerIP : string) (ports : list NetworkPolicyPort) :
    option CiliumPeerRule :=
  let '(endpoints, cidr) := resolvePeerForCilium data peerIP in
  if (0 <? length endpoints)%nat then Some (MkPeerRule endpoints [] (convertPortsToCiliumPortRules ports))
  else if (0 <? length cidr)%nat then Some (MkPeerRule [] cidr (convertPortsToCiliumPortRules ports))
  else None.

Definition transformToCiliumRules (data : BrokerData) (rules : list NetworkPolicyRule) : list CiliumPeerRule :=
  let peerRules := group_rules rules in
  omap (λ peerIP, createCiliumRuleForPeer data peerIP (default [] (peerRules !! peerIP))) (sortedKeys peerRules).

Definition cilium_Generate (data : BrokerData) (podName : string) (podTraffic : list PodTraffic)
    (podDetail : option PodDetail) : string + CiliumNetworkPolicy :=
  match podDetail with
  | None => inl ("pod detail is nil for pod " +:+ podName)
  | Some podDetail =>
      match podTraffic with
      | [] => inr (cilium_deny_all podDetail)
      | _ :: _ =>
          let '(ingressRules, egressRules) := processTrafficRules podTraffic podDetail in
          let ingress := if (0 <? length ingressRules)%nat then transformToCiliumRules data ingressRules else [] in
          let egress := if (0 <? length egressRules)%nat then transformToCiliumRules data egressRules else [] in
          if (length ingress =? 0)%nat && (length egress =? 0)%nat then inr (cilium_deny_all podDetail)
          else inr (MkCiliumPolicy
            (CreateObjectMeta (GetPolicyName (pd_Name podDetail) "cilium-policy")
               (pd_Namespace podDetail) (CreateStandardLabels (pd_Name podDetail) "cilium-policy"))
            (MkCiliumRule (createEndpointSelector (pd_Labels podDetail))
               ("Cilium network policy for pod " +:+ pd_Name podDetail +:+ " generated by kguardian")
               ingress egress None))
      end
  end.

(** ** Rules *)

Section Cilium.
Implicit Types (data : BrokerData) (rows : list PodTraffic) (detail : PodDetail) (policy : CiliumNetworkPolicy).

(** Some rule allows this port to a peer that is named so. *)
Definition cilium_allows (rules : list CiliumPeerRule) (named : list CiliumEndpointSelector * list string)
    (n : Z) (protocol : string) : Prop :=
  ∃ r, r ∈ rules ∧ (cr_Endpoints r, cr_CIDR r) = named ∧
    MkPortRule [MkPortProtocol (Itoa n) protocol] ∈ cr_ToPorts r.

Lemma resolve_cilium_named data (peer : string) (ports : list NetworkPolicyPort) :
  ∃ r, createCiliumRuleForPeer data peer ports = Some r ∧
    (cr_Endpoints r, cr_CIDR r) = resolvePeerForCilium data peer ∧
    cr_ToPorts r = convertPortsToCiliumPortRules ports.
Proof.
  unfold createCiliumRuleForPeer, resolvePeerForCilium. repeat case_match; simplify_eq/=; by eexists.
Qed.

Lemma converted_port (ports : list NetworkPolicyPort) (n : Z) (q : string) :
  Forall regular ports →
  MkPortRule [MkPortProtocol (Itoa n) q] ∈ convertPortsToCiliumPortRules ports ↔ number_port n q ∈ ports.
Proof.
  intros Hr. rewrite <- (deduplicatePorts_elem ports) by done. unfold convertPortsToCiliumPortRules.
  rewrite list_elem_of_omap. split.
  - intros (p&Hp&He). pose proof Hp as Hp'. rewrite deduplicatePorts_elem in Hp' by done.
    rewrite Forall_forall in Hr. destruct (Hr p Hp') as (m&q'&_&->). simpl in He. injection He as Hs ->.
    unfold Itoa in Hs. apply (inj pretty) in Hs as ->. done.
  - intros Hp. by exists (number_port n q).
Qed.

Lemma transformed_allows data (rules : list NetworkPolicyRule) (named : list CiliumEndpointSelector * list string)
    (n : Z) (q : string) :
  rules_ok rules →
  cilium_allows (transformToCiliumRules data rules) named n q ↔
  ∃ peer, rule_has rules peer n q ∧ resolvePeerForCilium data peer = named.
Proof.
  intros Hok. unfold cilium_allows, transformToCiliumRules. setoid_rewrite list_elem_of_omap. split.
  - intros (r&(peer&Hd&Hc)&Hn&Hp). exists peer.
    destruct (resolve_cilium_named data peer (default [] (group_rules rules !! peer))) as (r'&Hc'&Hn'&Ht).
    rewrite Hc in Hc'. injection Hc' as <-. rewrite Ht, converted_port in Hp by by apply group_regular.
    split; [by apply group_has|congruence].
  - intros (peer&Hh&Hn).
    destruct (resolve_cilium_named data peer (default [] (group_rules rules !! peer))) as (r&Hc&Hn'&Ht).
    exists r. split_and!; [|congruence|].
    + exists peer. split; [|done]. apply sortedKeys_elem, group_dom; [done|]. by exists n, q.
    + rewrite Ht. apply converted_port; [by apply group_regular|]. by apply group_has.
Qed.

Lemma transform_when data (rules : list NetworkPolicyRule) :
  (if (0 <? length rules)%nat then transformToCiliumRules data rules else []) = transformToCiliumRules data rules.
Proof. by destruct rules. Qed.

Lemma cilium_generated data (name : string) rows detail policy :
  cilium_Generate data name rows (Some detail) = inr policy →
  cs_Ingress (cnp_Spec policy) = transformToCiliumRules data (processTrafficRules rows detail).1 ∧
  cs_Egress (cnp_Spec policy) = transformToCiliumRules data (processTrafficRules rows detail).2.
Proof.
  unfold cilium_Generate. destruct rows as [|t rows]; [by intros [= <-]|].
  destruct (processTrafficRules (t :: rows) detail) as [ingress egress]. rewrite !transform_when. cbn [fst snd].
  destruct (transformToCiliumRules data ingress), (transformToCiliumRules data egress); intros [= <-]; done.
Qed.

(** a Cilium policy allows what the rows show and nothing else: in each direction, a port of a protocol
    is allowed to a peer that is named by labels or by address exactly when a row shows that port with an
    address that resolves to these labels or to this address. *)
Theorem cilium_policy_exact data (name : string) rows detail policy (n : Z) (q : string)
    (named : list CiliumEndpointSelector * list string) :
  cilium_Generate data name rows (Some detail) = inr policy →
  (cilium_allows (cs_Ingress (cnp_Spec policy)) named n q ↔
   ∃ peer, observed detail rows PolicyTypeIngress peer n q ∧ resolvePeerForCilium data peer = named) ∧
  (cilium_allows (cs_Egress (cnp_Spec policy)) named n q ↔
   ∃ peer, observed detail rows PolicyTypeEgress peer n q ∧ resolvePeerForCilium data peer = named).
Proof.
  intros [-> ->]%cilium_generated. destruct (process_rules_spec detail rows) as ([Hi He]&Hin&Heg).
  rewrite !transformed_allows by done. setoid_rewrite Hin. by setoid_rewrite Heg.
Qed.

(** ** Namespaces *)

(** The same pods and services, which may live in other namespaces. *)
Definition same_but_namespaces data data' : Prop :=
  ∀ ip,
    match PodByIP data ip, PodByIP data' ip with
    | inr (Some p), inr (Some p') => pd_Labels p = pd_Labels p'
    | inr (Some _), _ | _, inr (Some _) => False
    | _, _ => True
    end ∧
    match ServiceByIP data ip, ServiceByIP data' ip with
    | inr (Some s), inr (Some s') => sd_Selector s = sd_Selector s'
    | inr (Some _), _ | _, inr (Some _) => False
    | _, _ => True
    end.

Lemma resolve_ignores_namespaces data data' (peer : string) :
  same_but_namespaces data data' → resolvePeerForCilium data peer = resolvePeerForCilium data' peer.
Proof.
  intros Hs. destruct (Hs peer) as [Hp Hv]. unfold resolvePeerForCilium.
  destruct (PodByIP data peer) as [e1|[p|]], (PodByIP data' peer) as [e2|[p'|]]; try done;
    destruct (ServiceByIP data peer) as [e3|[sv|]], (ServiceByIP data' peer) as [e4|[sv'|]]; try done;
    by rewrite ?Hp, ?Hv.
Qed.

(** C37: a Cilium policy does not tell the namespaces of its peers apart: it is the same wherever the pods
    and the services of the addresses live, so that it cannot name a peer of another namespace than its own;
    the standard policy of the same rows names each pod with its namespace. *)
Theorem cilium_policy_ignores_namespaces data data' (name peer : string) rows (detail : option PodDetail)
    (pod pod' : PodDetail) :
  same_but_namespaces data data' →
  ServiceByIP data peer = inr None → ServiceByIP data' peer = inr None →
  PodByIP data peer = inr (Some pod) → PodByIP data' peer = inr (Some pod') →
  pd_Labels pod ≠ ∅ → pd_Namespace pod ≠ pd_Namespace pod' →
  cilium_Generate data name rows detail = cilium_Generate data' name rows detail ∧
  createNetworkPolicyPeer data peer ≠ createNetworkPolicyPeer data' peer.
Proof.
  intros Hs Hv Hv' Hp Hp' Hl Hns. split.
  - assert (∀ rules, transformToCiliumRules data rules = transformToCiliumRules data' rules) as Ht.
    { intros rules. unfold transformToCiliumRules. apply omap_pointwise. intros ip.
      unfold createCiliumRuleForPeer. by rewrite (resolve_ignores_namespaces data data'). }
    unfold cilium_Generate. destruct detail as [detail|]; [|done]. destruct rows as [|t rows]; [done|].
    destruct (processTrafficRules (t :: rows) detail). by rewrite !Ht.
  - destruct (Hs peer) as [Hlab _]. rewrite Hp, Hp' in Hlab.
    unfold createNetworkPolicyPeer. rewrite Hv, Hv', Hp, Hp'.
    rewrite !decide_False by congruence. unfold selector_peer. rewrite Hlab. intros Heq. apply Hns.
    apply (f_equal (λ o, sel ← (p ← o; peer_NamespaceSelector p); MatchLabels sel !! namespace_label)) in Heq.
    cbn [mbind option_bind peer_NamespaceSelector MatchLabels] in Heq. rewrite !lookup_singleton_eq in Heq.
    by injection Heq.
Qed.

End Cilium.
