(* ===== verification/BrokerQueries.v ===== *)
(** * broker/src/get.rs: what the broker answers

    The queries on the tables, with their order, their filters and their limits.  A query is a function
    of the rows in the order in which the table holds them, which an answer without ORDER BY follows;
    the collation by which PostgreSQL orders text is a class.
    Then the theorems: a query with an order and a limit answers with the rows that come first; those
    without an order may answer with any row. *)

From stdpp Require Import sorting.
From S2P Require Import Prelude RustStd PodDetails.
From S2P Require Broker.

(** The order of text: a total preorder. *)
Class Collation := {
  collate : relation string;
  #[global] collate_dec :: RelDecision collate;
  #[global] collate_trans :: Transitive collate;
  #[global] collate_total :: Total collate
}.

(** [i64::clamp], after [unwrap_or]. *)
Definition clamp (n low high : Z) : Z := Z.min (Z.max n low) high.

Definition clamp_pod_traffic_limit (raw : option Z) : Z := clamp (default 5000 raw) 1 20000.

Definition clamp_audit_limit (raw : option Z) : Z := clamp (default 100 raw) 1 500.

Definition normalise_empty_to_none (raw : option string) : option string :=
  match raw with Some s => if String.eqb s EmptyString then None else raw | None => None end.

(** [.limit(n)]. *)
Definition limit {A} (n : Z) (rows : list A) : list A := take (Z.to_nat n) rows.

Section Queries.
Context `{Collation}.

(** ** pod_traffic *)

(** [time_stamp.desc(), uuid.desc()]. *)
Definition recent_first (a b : Broker.PodTraffic) : Prop :=
  Broker.time_stamp b < Broker.time_stamp a ∨
  Broker.time_stamp b = Broker.time_stamp a ∧ collate (Broker.uuid b) (Broker.uuid a).

#[export] Instance recent_first_dec : RelDecision recent_first.
Proof. intros a b. unfold recent_first. apply _. Defined.

Definition pod_traffic (row_limit : Z) (rows : list Broker.PodTraffic) : list Broker.PodTraffic :=
  limit row_limit (merge_sort recent_first rows).

Definition get_pod_traffic (raw_limit : option Z) (rows : list Broker.PodTraffic) : list Broker.PodTraffic :=
  pod_traffic (clamp_pod_traffic_limit raw_limit) rows.

Definition pod_traffic_by_name (name : string) (rows : list Broker.PodTraffic) : list Broker.PodTraffic :=
  merge_sort recent_first (filter (λ row, Broker.pod_name row = Some name) rows).

(** ** pod_details and svc_details *)

(** NULL comes last. *)
Definition nulls_last (a b : option string) : Prop :=
  match a, b with
  | Some a, Some b => collate a b
  | _, None => True
  | None, Some _ => False
  end.

#[export] Instance nulls_last_dec : RelDecision nulls_last.
Proof. intros [a|] [b|]; unfold nulls_last; apply _. Defined.

Definition by_namespace (a b : PodDetail) : Prop :=
  ¬ nulls_last (pod_namespace b) (pod_namespace a) ∨
  nulls_last (pod_namespace a) (pod_namespace b) ∧ collate (pod_name a) (pod_name b).

#[export] Instance by_namespace_dec : RelDecision by_namespace.
Proof. intros a b. unfold by_namespace. apply _. Defined.

Definition all_pod_details (rows : list PodDetail) : list PodDetail := merge_sort by_namespace rows.

Definition get_pod_details (rows : list PodDetail) : list PodDetail :=
  (λ row, {| pod_name := pod_name row; pod_ip := pod_ip row; pod_namespace := pod_namespace row;
             pod_obj := compact_pod_obj <$> pod_obj row; time_stamp := time_stamp row;
             node_name := node_name row; is_dead := is_dead row; pod_identity := pod_identity row;
             workload_selector_labels := workload_selector_labels row |}) <$> all_pod_details rows.

(** [.first()], without an order. *)
Definition pod_by_ip (ip : string) (rows : list PodDetail) : option PodDetail :=
  List.find (λ row, bool_decide (pod_ip row = ip)) rows.

(** [is_dead.asc(), time_stamp.desc()]. *)
Definition alive_first (a b : PodDetail) : Prop :=
  is_dead a = false ∧ is_dead b = true ∨
  is_dead a = is_dead b ∧ time_stamp b ≤ time_stamp a.

#[export] Instance alive_first_dec : RelDecision alive_first.
Proof. intros a b. unfold alive_first. apply _. Defined.

Definition pod_by_name (name : string) (rows : list PodDetail) : option PodDetail :=
  head (merge_sort alive_first (filter (λ row, pod_name row = name) rows)).

(** [svc_namespace.asc(), svc_name.asc(), svc_ip.asc()]. *)
Definition by_service (a b : SvcDetail) : Prop :=
  ¬ nulls_last (svc_namespace b) (svc_namespace a) ∨
  nulls_last (svc_namespace a) (svc_namespace b) ∧
    (¬ nulls_last (svc_name b) (svc_name a) ∨
     nulls_last (svc_name a) (svc_name b) ∧ collate (svc_ip a) (svc_ip b)).

#[export] Instance by_service_dec : RelDecision by_service.
Proof. intros a b. unfold by_service. apply _. Defined.

Definition svc_details_all (rows : list SvcDetail) : list SvcDetail := merge_sort by_service rows.

Definition svc_by_ip (ip : string) (rows : list SvcDetail) : option SvcDetail :=
  List.find (λ row, bool_decide (svc_ip row = ip)) rows.

(** ** pod_syscalls *)

Definition pod_syscalls_by_name (name : string) (rows : list Broker.PodSyscalls) : list Broker.PodSyscalls :=
  filter (λ row, Broker.ps_pod_name row = name) rows.

(** ** audit_verdicts *)

Record AuditVerdict : Type := MkAuditVerdict {
  av_id : Z;
  av_policy_uid : string;
  av_policy_namespace : string;
  av_policy_name : string;
  av_direction : string;
  av_src_namespace : option string;
  av_src_pod : option string;
  av_dst_namespace : option string;
  av_dst_pod : option string;
  av_dst_port : Z;
  av_protocol : string;
  av_reason : option string;
  av_observed_at : Z;
  av_verdict : string
}.

Definition VALID_VERDICTS : list string := ["Allow"; "WouldDeny"]%string.
Definition VALID_DIRECTIONS : list string := ["Ingress"; "Egress"]%string.

Definition validate_enum_filter (value : string) (allowed : list string) : bool := bool_decide (value ∈ allowed).

(** [observed_at.desc(), id.desc()]. *)
Definition verdict_first (a b : AuditVerdict) : Prop :=
  av_observed_at b < av_observed_at a ∨ av_observed_at b = av_observed_at a ∧ av_id b ≤ av_id a.

#[export] Instance verdict_first_dec : RelDecision verdict_first.
Proof. intros a b. unfold verdict_first. apply _. Defined.

(** A filter that is absent lets every row pass. *)
Definition passes (by_ : option string) (column : string) : bool :=
  match by_ with Some v => bool_decide (column = v) | None => true end.

Definition audit_verdicts_query (by_policy by_namespace by_verdict by_direction : option string)
    (row_limit : Z) (rows : list AuditVerdict) : list AuditVerdict :=
  limit row_limit (merge_sort verdict_first (filter (λ row,
    passes by_policy (av_policy_name row) && passes by_namespace (av_policy_namespace row) &&
    passes by_verdict (av_verdict row) && passes by_direction (av_direction row) = true) rows)).

Record AuditVerdictsQuery : Type := MkAuditVerdictsQuery {
  q_policy : option string;
  q_namespace : option string;
  q_verdict : option string;
  q_direction : option string;
  q_limit : option Z
}.

(** [None] is the answer 400. *)
Definition get_audit_verdicts (q : AuditVerdictsQuery) (rows : list AuditVerdict) : option (list AuditVerdict) :=
  let limit := clamp_audit_limit (q_limit q) in
  let policy_name := normalise_empty_to_none (q_policy q) in
  let policy_ns := q_namespace q in
  let verdict_filter := normalise_empty_to_none (q_verdict q) in
  let direction_filter := normalise_empty_to_none (q_direction q) in
  let ok (filter : option string) (allowed : list string) :=
    match filter with Some v => validate_enum_filter v allowed | None => true end in
  if negb (ok verdict_filter VALID_VERDICTS) then None else
  if negb (ok direction_filter VALID_DIRECTIONS) then None else
  Some (audit_verdicts_query policy_name policy_ns verdict_filter direction_filter limit rows).

End Queries.

(** * Theorems about the queries *)

(** ** Windows *)

(** [answer] is the first [n] of [rows], in the order [R]. *)
Record window {A} (R : relation A) (n : Z) (rows answer : list A) : Prop := {
  wi_length : length answer = Nat.min (Z.to_nat n) (length rows);
  wi_rows : ∃ rest, rows ≡ₚ answer ++ rest ∧ ∀ a b, a ∈ answer → b ∈ rest → R a b;
  wi_sorted : StronglySorted R answer
}.

Lemma limit_window {A} (R : relation A) `{!RelDecision R, !Transitive R, !Total R} (n : Z) (rows : list A) :
  window R n rows (limit n (merge_sort R rows)).
Proof.
  pose proof (merge_sort_Permutation R rows) as Hp.
  assert (StronglySorted R (merge_sort R rows)) as Hs by (apply Sorted_StronglySorted, Sorted_merge_sort; apply _).
  set (s := merge_sort R rows) in *. clearbody s. unfold limit.
  rewrite <- (take_drop (Z.to_nat n) s) in Hs. split.
  - by rewrite length_take, Hp.
  - exists (drop (Z.to_nat n) s). split; [by rewrite take_drop|]. intros a b. by apply StronglySorted_app_1_elem_of.
  - by apply StronglySorted_app_1_l in Hs.
Qed.

Section Queries.
Context `{Collation}.

#[export] Instance recent_first_total : Total recent_first.
Proof.
  intros a b. unfold recent_first. destruct (Z.lt_trichotomy (Broker.time_stamp a) (Broker.time_stamp b)) as [?|[E|?]].
  - right. by left.
  - destruct (total collate (Broker.uuid b) (Broker.uuid a)); [left|right]; right; by split.
  - left. by left.
Qed.

#[export] Instance recent_first_transitive : Transitive recent_first.
Proof.
  unfold recent_first. intros a b c [H1|[E1 H1]] [H2|[E2 H2]].
  - left. lia.
  - left. lia.
  - left. lia.
  - right. split; [lia|by transitivity (Broker.uuid b)].
Qed.

#[export] Instance verdict_first_total : Total verdict_first.
Proof. intros a b. unfold verdict_first. lia. Qed.

#[export] Instance verdict_first_transitive : Transitive verdict_first.
Proof. intros a b c. unfold verdict_first. lia. Qed.

#[export] Instance alive_first_total : Total alive_first.
Proof. intros a b. unfold alive_first. destruct (is_dead a), (is_dead b); naive_solver lia. Qed.

Lemma clamp_bounds (n low high : Z) : low ≤ high → low ≤ clamp n low high ≤ high.
Proof. unfold clamp. lia. Qed.


(** ** Rows without an order *)

(** An address may be answered with the row of a pod that is dead, although a pod that lives has it. *)
Lemma dead_pod_answers_for_address (dead live : PodDetail) (before after : list PodDetail) :
  Forall (λ row, pod_ip row ≠ pod_ip live) before → pod_ip dead = pod_ip live → is_dead dead = true →
  is_dead live = false → pod_by_ip (pod_ip live) (before ++ dead :: live :: after) = Some dead.
Proof.
  intros Hb Hip Hd Hl. unfold pod_by_ip. induction Hb as [|row before Hne Hb IH]; simpl.
  - by rewrite bool_decide_eq_true_2.
  - by rewrite bool_decide_eq_false_2.
Qed.

(** A name is answered with the row of a pod that lives, where there is one. *)
Lemma live_pod_answers_for_name (name : string) (rows : list PodDetail) (live row : PodDetail) :
  live ∈ rows → pod_name live = name → is_dead live = false → pod_by_name name rows = Some row →
  is_dead row = false.
Proof.
  intros Hin Hn Hl. unfold pod_by_name.
  pose proof (merge_sort_Permutation alive_first (filter (λ row, pod_name row = name) rows)) as Hp.
  pose proof (Sorted_merge_sort alive_first (filter (λ row, pod_name row = name) rows)) as Hs.
  set (s := merge_sort alive_first _) in *. clearbody s.
  assert (live ∈ s) as Hls by (rewrite Hp; by apply list_elem_of_filter).
  destruct s as [|r s]; [done|]. intros [= ->]. clear Hp.
  apply elem_of_cons in Hls as [->|Hls]; [done|].
  assert (∀ x y l, Sorted alive_first (x :: l) → y ∈ l → is_dead y = false → is_dead x = false) as Hfirst.
  { intros x y l. revert x. induction l as [|z l IHl]; intros x Hx; [by intros ?%not_elem_of_nil|].
    apply Sorted_inv in Hx as [Hz Hhd]. apply HdRel_inv in Hhd. intros Hy Hdead.
    assert (is_dead z = false) as Hzd by (apply elem_of_cons in Hy as [->|Hy]; [done|by apply (IHl z)]).
    destruct Hhd as [[? ?]|[E _]]; congruence. }
  by apply (Hfirst _ live s).
Qed.

End Queries.
