(* ===== verification/PolicyService.v ===== *)
(** * advisor: from the broker's tables to a policy

    generator.go (the service that finds the pod and runs a generator) and pod_traffic.go (the reads of
    the broker), on the tables of the broker.  The generators are records of functions; the YAML of a
    policy is a function that may fail.
    Then the theorems, from a connection that the probes report to the policy that allows it. *)

From stdpp Require Import pretty sorting.
From S2P Require Import Prelude RustStd GoStd KubePolicy Matcher MatcherThms StandardPolicy.
From S2P Require Import StandardPolicyFacts StandardPolicyThms BrokerQueries.
From S2P Require NetworkProbe NetpolicyDrop Traffic Broker Delivery PodDetails.

(** ** pod_traffic.go: what the JSON of a row becomes *)

Definition api_traffic (row : Broker.PodTraffic) : PodTraffic :=
  let text := default EmptyString in
  MkPodTraffic (Broker.uuid row) (text (Broker.pod_name row)) (text (Broker.pod_ip row))
    (text (Broker.pod_namespace row)) (text (Broker.pod_port row)) (text (Broker.traffic_type row))
    (text (Broker.traffic_in_out_ip row)) (text (Broker.traffic_in_out_port row))
    (text (Broker.ip_protocol row)).

(** A member of an object; [null] is no member. *)
Definition member (k : string) (v : PodDetails.value) : option PodDetails.value :=
  match PodDetails.get k v with
  | Some v => if PodDetails.is_null v then None else Some v
  | None => None
  end.

Definition decodes_to_object (v : PodDetails.value) : bool :=
  match v with PodDetails.Object _ | PodDetails.Null => true | _ => false end.

(** A Go map of strings; [None] where decoding fails. *)
Fixpoint string_map (fields : list (string * PodDetails.value)) : option labels :=
  match fields with
  | [] => Some ∅
  | (k, v) :: fields =>
      m ← string_map fields;
      match v with
      | PodDetails.Text s => Some (<[k := s]> m)
      | PodDetails.Null => Some (<[k := EmptyString]> m)
      | _ => None
      end
  end.

(** The map at [path.key], where each object on the way may be missing.  A failure to decode another field
    of the object is not modelled. *)
Definition map_at (path key : string) (v : option PodDetails.value) : option labels :=
  match v with
  | None => Some ∅
  | Some v =>
      if negb (decodes_to_object v) then None else
      match member path v with
      | None => Some ∅
      | Some inner =>
          if negb (decodes_to_object inner) then None else
          match member key inner with
          | None => Some ∅
          | Some (PodDetails.Object fields) => string_map fields
          | Some _ => None
          end
      end
  end.

Definition api_pod (row : PodDetails.PodDetail) : option PodDetail :=
  lbls ← map_at "metadata" "labels" (PodDetails.pod_obj row);
  Some (MkPodDetail (PodDetails.pod_ip row) (PodDetails.pod_name row)
    (default EmptyString (PodDetails.pod_namespace row)) lbls).

Definition api_svc (row : PodDetails.SvcDetail) : option SvcDetail :=
  selector ← map_at "spec" "selector" (PodDetails.service_spec row);
  Some (MkSvcDetail (PodDetails.svc_ip row) (default EmptyString (PodDetails.svc_name row))
    (default EmptyString (PodDetails.svc_namespace row)) selector).

Definition maxBrokerResponseBytes : Z := 10 * 1024 * 1024.

(** The tables of the broker. *)
Record tables : Type := MkTables {
  tb_pod_traffic : list Broker.PodTraffic;
  tb_pod_details : list PodDetails.PodDetail;
  tb_svc_details : list PodDetails.SvcDetail
}.

Section Api.
Context `{Collation}.

(** The length of the JSON text of an answer. *)
Variable body_length : list Broker.PodTraffic → Z.

(** A body that is cut off does not parse. *)
Definition getRealPodTraffic (db : tables) (podName : string) : string + list PodTraffic :=
  let rows := pod_traffic_by_name podName (tb_pod_traffic db) in
  if maxBrokerResponseBytes <? body_length rows then inl "unexpected end of JSON input"%string else
  match rows with
  | [] => inl "GetPodTraffic: No pod traffic found in database"%string
  | _ :: _ => inr (api_traffic <$> rows)
  end.

Definition getRealPodSpec (db : tables) (ip : string) : string + option PodDetail :=
  match pod_by_ip ip (tb_pod_details db) with
  | None => inr None
  | Some row =>
      match api_pod row with
      | Some details => inr (Some details)
      | None => inl "Error decoding JSON"%string
      end
  end.

Definition getRealSvcSpec (db : tables) (svcIp : string) : string + option SvcDetail :=
  match svc_by_ip svcIp (tb_svc_details db) with
  | None => inr None
  | Some row =>
      match api_svc row with
      | Some details => inr (Some details)
      | None => inl "Error decoding JSON"%string
      end
  end.

Definition apiBrokerData (db : tables) : BrokerData :=
  MkBrokerData (getRealPodTraffic db) (getRealPodSpec db) (getRealSvcSpec db).

End Api.

(** ** generator.go *)

Section Service.
Context {Policy : Type}.

Record PolicyGenerator : Type := MkGenerator {
  GetType : string;
  gen_data : BrokerData;
  gen_Generate : BrokerData → string → list PodTraffic → option PodDetail → string + Policy
}.

Definition setBrokerData (data : BrokerData) (g : PolicyGenerator) : PolicyGenerator :=
  MkGenerator (GetType g) data (gen_Generate g).

Record PolicyService : Type := MkService {
  generators : gmap string PolicyGenerator;
  defaultType : string;
  ps_data : BrokerData
}.

Definition NewPolicyService (default_type : string) (data : BrokerData) : PolicyService :=
  MkService ∅ default_type data.

Definition UseBrokerData (data : BrokerData) (s : PolicyService) : PolicyService :=
  MkService (setBrokerData data <$> generators s) (defaultType s) data.

Definition RegisterGenerator (g : PolicyGenerator) (s : PolicyService) : PolicyService :=
  MkService (<[GetType g := setBrokerData (ps_data s) g]> (generators s)) (defaultType s) (ps_data s).

Record PolicyOutput : Type := MkOutput {
  out_Policy : Policy;
  out_YAML : string;
  out_PodName : string;
  out_Namespace : string;
  out_Type : string
}.

(** [yaml.Marshal]. *)
Variable Marshal : Policy → string + string.

Definition lookup_ip (podTraffic : list PodTraffic) : string :=
  match podTraffic with
  | [] => EmptyString
  | t :: _ => if negb (String.eqb (tr_SrcIP t) EmptyString) then tr_SrcIP t else tr_DstIP t
  end.

Definition GeneratePolicy (s : PolicyService) (podName policyType : string) : string + PolicyOutput :=
  match PodTrafficByName (ps_data s) podName with
  | inl err => inl err
  | inr podTraffic =>
      if (length podTraffic =? 0)%nat then inl ("no traffic data found for pod " +:+ podName) else
      let lookupIP := lookup_ip podTraffic in
      if String.eqb lookupIP EmptyString
      then inl ("could not determine IP for pod spec lookup for pod " +:+ podName) else
      match PodByIP (ps_data s) lookupIP with
      | inl err => inl err
      | inr None => inl ("pod details not found using IP " +:+ lookupIP +:+ " for pod " +:+ podName)
      | inr (Some podDetail) =>
          let generator :=
            match generators s !! policyType with
            | Some g => Some g
            | None => generators s !! defaultType s
            end in
          match generator with
          | None => inl ("no generator available for policy type " +:+ policyType)
          | Some g =>
              match gen_Generate g (gen_data g) podName podTraffic (Some podDetail) with
              | inl err => inl err
              | inr policy =>
                  match Marshal policy with
                  | inl err => inl err
                  | inr policyYAML =>
                      inr (MkOutput policy policyYAML (pd_Name podDetail) (pd_Namespace podDetail) (GetType g))
                  end
              end
          end
      end
  end.

(** [HandlePolicyOutput] saves or prints the output; it may fail. *)
Variable HandlePolicyOutput : PolicyOutput → option string.

Definition GenerateAndHandlePolicy (s : PolicyService) (podName policyType : string) :
    option string * option PolicyOutput :=
  match GeneratePolicy s podName policyType with
  | inl err => (Some err, None)
  | inr output => (HandlePolicyOutput output, Some output)
  end.

(** The first error, and the outputs handled. *)
Fixpoint BatchGenerateAndHandlePolicies (s : PolicyService) (podNames : list string) (policyType : string) :
    option string * list PolicyOutput :=
  match podNames with
  | [] => (None, [])
  | podName :: podNames =>
      let '(err, output) := GenerateAndHandlePolicy s podName policyType in
      let '(firstError, outputs) := BatchGenerateAndHandlePolicies s podNames policyType in
      (match err with Some _ => err | None => firstError end, option_list output ++ outputs)
  end.

End Service.

Arguments PolicyGenerator : clear implicits.
Arguments PolicyService : clear implicits.
Arguments PolicyOutput : clear implicits.

Definition NewStandardPolicyGenerator (data : BrokerData) : PolicyGenerator NetworkPolicy :=
  MkGenerator "standard" data Generate.

(** * Theorems about the policy service *)

(** ** The service *)

(** Every generator reads what the service reads. *)
Definition one_source {P} (s : PolicyService P) : Prop :=
  ∀ k g, generators s !! k = Some g → gen_data g = ps_data s ∧ GetType g = k.

Lemma one_source_new {P} (default_type : string) (data : BrokerData) :
  one_source (NewPolicyService (Policy := P) default_type data).
Proof. intros k g. simpl. by rewrite lookup_empty. Qed.

Lemma one_source_register {P} (g : PolicyGenerator P) (s : PolicyService P) :
  one_source s → one_source (RegisterGenerator g s).
Proof.
  intros Hs k g'. simpl. destruct (decide (GetType g = k)) as [<-|Hne].
  - by rewrite lookup_insert_eq; intros [= <-].
  - rewrite lookup_insert_ne by done. apply Hs.
Qed.

Lemma one_source_use {P} (data : BrokerData) (s : PolicyService P) :
  one_source s → one_source (UseBrokerData data s).
Proof.
  intros Hs k g. simpl. rewrite lookup_fmap. destruct (generators s !! k) as [g'|] eqn:E; [|done].
  simpl. intros [= <-]. split; [done|]. by apply (Hs k g').
Qed.

(** The service of the command line: the standard generator only. *)
Definition standard_service (data : BrokerData) : PolicyService NetworkPolicy :=
  RegisterGenerator (NewStandardPolicyGenerator data) (NewPolicyService "standard" data).

(** What an output says of the rows and the pod it was made from. *)
Lemma GeneratePolicy_some (Marshal : NetworkPolicy → string + string) (data : BrokerData) (name : string)
    (out : PolicyOutput NetworkPolicy) :
  GeneratePolicy Marshal (standard_service data) name "standard" = inr out →
  ∃ rows detail, PodTrafficByName data name = inr rows ∧ rows ≠ [] ∧
    PodByIP data (lookup_ip rows) = inr (Some detail) ∧
    Generate data name rows (Some detail) = inr (out_Policy out) ∧
    out_PodName out = pd_Name detail ∧ out_Namespace out = pd_Namespace detail.
Proof.
  unfold GeneratePolicy, standard_service. simpl. rewrite lookup_insert_eq.
  destruct (PodTrafficByName data name) as [?|rows] eqn:Hrows; [done|].
  destruct rows as [|t rows]; [done|]. simpl length. cbn [Nat.eqb].
  destruct (String.eqb _ EmptyString); [done|].
  destruct (PodByIP data (lookup_ip (t :: rows))) as [?|[detail|]] eqn:Hpod; [done| |done].
  cbn -[Generate]. destruct (Generate _ _ _ _) as [?|policy] eqn:Hg; [done|].
  destruct (Marshal policy) as [?|yaml]; [done|]. intros [= <-]. by exists (t :: rows), detail.
Qed.

(** a pod without traffic gets an error and no policy: the default-deny policy of the generator is
    for rows that give no rule. *)
Theorem no_traffic_is_an_error {P} (Marshal : P → string + string) (s : PolicyService P) (name policyType : string) :
  PodTrafficByName (ps_data s) name = inr [] →
  GeneratePolicy Marshal s name policyType = inl ("no traffic data found for pod " +:+ name).
Proof. intros Hn. unfold GeneratePolicy. by rewrite Hn. Qed.

(** a batch stops for no pod: each name is tried once, in order; the outputs are those that were
    generated, and the error is that of the first name that failed. *)
Theorem batch_tries_every_pod {P} (Marshal : P → string + string) (Handle : PolicyOutput P → option string)
    (s : PolicyService P) (names : list string) (policyType : string) :
  BatchGenerateAndHandlePolicies Marshal Handle s names policyType =
  (head (omap (λ name, (GenerateAndHandlePolicy Marshal Handle s name policyType).1) names),
   omap (λ name, match GeneratePolicy Marshal s name policyType with inr out => Some out | inl _ => None end) names).
Proof.
  induction names as [|name names IH]; [done|]. cbn [BatchGenerateAndHandlePolicies]. rewrite IH. csimpl.
  destruct (GenerateAndHandlePolicy Marshal Handle s name policyType) as [err output] eqn:E.
  unfold GenerateAndHandlePolicy in E. destruct (GeneratePolicy Marshal s name policyType) as [e|out]; csimpl.
  - by injection E as <- <-.
  - injection E as <- <-. by destruct (Handle out).
Qed.

(** ** From an event to a policy that allows it *)

Section EndToEnd.
Context `{!Traffic.TrafficCache} `{!Collation} `{SelectorLaws}.
Context (body_length : list Broker.PodTraffic → Z) (Marshal : NetworkPolicy → string + string).
Implicit Types (db : tables) (flow : Flow) (dir : string) (lookup : Lookup) (row : Broker.PodTraffic).
Implicit Types (pod : Traffic.PodInspect) (out : PolicyOutput NetworkPolicy) (detail : PodDetail).

Lemma getRealPodTraffic_elem db (name : string) (rows : list PodTraffic) (t : PodTraffic) :
  getRealPodTraffic body_length db name = inr rows →
  t ∈ rows ↔ ∃ row, row ∈ tb_pod_traffic db ∧ Broker.pod_name row = Some name ∧ t = api_traffic row.
Proof.
  unfold getRealPodTraffic. destruct (_ <? _); [done|].
  assert (∀ row, row ∈ pod_traffic_by_name name (tb_pod_traffic db) ↔
    row ∈ tb_pod_traffic db ∧ Broker.pod_name row = Some name) as Hin.
  { intros row. unfold pod_traffic_by_name. rewrite merge_sort_Permutation, list_elem_of_filter. naive_solver. }
  destruct (pod_traffic_by_name name (tb_pod_traffic db)) as [|r l]; [done|].
  intros E. assert (rows = api_traffic <$> (r :: l)) as -> by (injection E as <-; done).
  rewrite list_elem_of_fmap. setoid_rewrite Hin. naive_solver.
Qed.

(** The pod that the service takes for the one named [name]. *)
Definition found_pod db (name : string) (data : BrokerData) detail : Prop :=
  ∃ rows, PodTrafficByName data name = inr rows ∧ PodByIP data (lookup_ip rows) = inr (Some detail).

Lemma row_flow_is_allowed db (name : string) out detail row flow dir lookup (peer : string) :
  let data := apiBrokerData body_length db in
  GeneratePolicy Marshal (standard_service data) name "standard" = inr out →
  found_pod db name data detail → row ∈ tb_pod_traffic db → Broker.pod_name row = Some name →
  observes detail dir (api_traffic row) peer (DstPort flow) (Protocol flow) → direction dir →
  valid_labels (pd_Labels detail) → protects detail flow dir lookup →
  recognises data flow dir lookup peer →
  ∃ r, r ∈ Match flow (audited (out_Policy out)) lookup ∧ Direction r = dir ∧ Verdict r = VerdictAllow.
Proof.
  intros data Hg (rows&Hrows&Hpod) Hrow Hname Ho Hdir Hv Hp Hr.
  apply GeneratePolicy_some in Hg as (rows'&detail'&Hrows'&_&Hpod'&Hgen&_).
  rewrite Hrows in Hrows'. injection Hrows' as <-. rewrite Hpod in Hpod'. injection Hpod' as <-.
  apply Generate_generated in Hgen. eapply generated_allows_observed; [done..| |done].
  exists (api_traffic row). split; [|done]. eapply getRealPodTraffic_elem; [exact Hrows|]. by exists row.
Qed.

(** What an event of the connection probe is as a flow: direction, port at the destination, protocol. *)
Definition event_flow (e : NetworkProbe.network_event) : option (string * Z * string) :=
  if NetworkProbe.ne_kind e =? Traffic.KIND_INGRESS_TCP
  then Some (DirectionIngress, NetworkProbe.ne_sport e, ProtocolTCP)
  else if NetworkProbe.ne_kind e =? Traffic.KIND_EGRESS_TCP
  then Some (DirectionEgress, NetworkProbe.ne_dport e, ProtocolTCP)
  else if NetworkProbe.ne_kind e =? Traffic.KIND_EGRESS_UDP
  then Some (DirectionEgress, NetworkProbe.ne_dport e, ProtocolUDP)
  else None.

Lemma ipv4_nonempty (z : Z) : ipv4_to_string z ≠ EmptyString.
Proof. intros E. pose proof (ipv4_dotted z). unfold ipv4_to_string in E. by destruct (pretty (octet 3 z)). Qed.

Lemma entry_observes (e : NetworkProbe.network_event) pod (uuid : string) (ts : Z) c c'
    (t : Traffic.PodTraffic) detail dir (port : Z) (protocol : string) :
  Traffic.build_traffic_event e pod uuid ts c = (Some t, c') →
  event_flow e = Some (dir, port, protocol) → 1 ≤ port ≤ 65535 →
  pd_PodIP detail = Traffic.pi_pod_ip (Traffic.status pod) →
  observes detail dir (api_traffic (Delivery.wire t))
    (ipv4_to_string (from_be32 (NetworkProbe.ne_daddr e))) port protocol ∧
  direction dir ∧ Broker.pod_name (Delivery.wire t) = Some (Traffic.pi_pod_name (Traffic.status pod)).
Proof.
  unfold Traffic.build_traffic_event, event_flow. intros Hb He Hport Hip.
  assert (∀ ip : string, String.eqb (Traffic.pi_pod_ip (Traffic.status pod)) ip = false → ip ≠ pd_PodIP detail) as Hne.
  { intros ip Hs%String.eqb_neq. congruence. }
  destruct (NetworkProbe.ne_kind e =? Traffic.KIND_INGRESS_TCP);
    [|destruct (NetworkProbe.ne_kind e =? Traffic.KIND_EGRESS_TCP);
      [|destruct (NetworkProbe.ne_kind e =? Traffic.KIND_EGRESS_UDP); [|done]]].
  all: injection He as <- <- <-; destruct (String.eqb _ _) eqn:Hself; [done|]; apply Hne in Hself.
  all: destruct (Traffic.contains_key _ _); [done|]; injection Hb as <- <-.
  all: (split; [|split; [|done]]); [|by (left + right)].
  all: unfold observes, row_direction, row_port; simpl.
  all: split_and!; [done|done|apply ipv4_nonempty|done|by apply parsePort_pretty|done].
Qed.

(** C4: what the probe reports is what the policy allows: take an event, the entry that the controller
    makes of it, the row that the broker holds, and the policy that the advisor generates for the pod; the
    evaluator allows the flow, as long as it recognises the peer. *)
Theorem reported_flow_is_allowed (e : NetworkProbe.network_event) pod (uuid : string) (ts : Z) c c'
    (t : Traffic.PodTraffic) db out detail flow dir lookup :
  let name := Traffic.pi_pod_name (Traffic.status pod) in
  let data := apiBrokerData body_length db in
  Traffic.build_traffic_event e pod uuid ts c = (Some t, c') →
  Delivery.wire t ∈ tb_pod_traffic db →
  GeneratePolicy Marshal (standard_service data) name "standard" = inr out →
  found_pod db name data detail → pd_PodIP detail = Traffic.pi_pod_ip (Traffic.status pod) →
  event_flow e = Some (dir, DstPort flow, Protocol flow) → 1 ≤ DstPort flow ≤ 65535 →
  valid_labels (pd_Labels detail) → protects detail flow dir lookup →
  recognises data flow dir lookup (ipv4_to_string (from_be32 (NetworkProbe.ne_daddr e))) →
  ∃ r, r ∈ Match flow (audited (out_Policy out)) lookup ∧ Direction r = dir ∧ Verdict r = VerdictAllow.
Proof.
  intros name data Hb Hrow Hg Hf Hip He Hport Hv Hp Hr.
  destruct (entry_observes _ _ _ _ _ _ _ _ _ _ _ Hb He Hport Hip) as (Ho&Hdir&Hname).
  by eapply row_flow_is_allowed.
Qed.

(** C34: a blocked connection is allowed as well: the row of a connection that a network policy dropped
    says so in a column that the advisor does not read, and its policy opens what was closed. *)
Theorem blocked_flow_is_allowed (d : NetpolicyDrop.policy_drop) pod (uuid : string) (ts : Z) c c'
    (t : Traffic.PodTraffic) db out detail flow lookup :
  let name := Traffic.pi_pod_name (Traffic.status pod) in
  let data := apiBrokerData body_length db in
  Traffic.build_policy_drop_event d pod uuid ts c = (Some t, c') →
  Delivery.wire t ∈ tb_pod_traffic db →
  GeneratePolicy Marshal (standard_service data) name "standard" = inr out →
  found_pod db name data detail → pd_PodIP detail = Traffic.pi_pod_ip (Traffic.status pod) →
  NetpolicyDrop.pd_protocol d = 6 → Protocol flow = ProtocolTCP →
  DstPort flow = NetpolicyDrop.pd_dport d → 1 ≤ DstPort flow ≤ 65535 →
  valid_labels (pd_Labels detail) → protects detail flow DirectionEgress lookup →
  recognises data flow DirectionEgress lookup (ipv4_to_string (from_be32 (NetpolicyDrop.pd_daddr d))) →
  Traffic.pt_decision t = Some "DROP"%string ∧
  ∃ r, r ∈ Match flow (audited (out_Policy out)) lookup ∧
    Direction r = DirectionEgress ∧ Verdict r = VerdictAllow.
Proof.
  intros name data Hb Hrow Hg Hf Hip Hproto Hpf Hpd Hport Hv Hp Hr.
  revert Hb. unfold Traffic.build_policy_drop_event.
  destruct (String.eqb _ _) eqn:Hself; [done|]. apply String.eqb_neq in Hself.
  destruct (Traffic.contains_key _ _); [done|]. rewrite Hproto, <- Hpd. intros [= Ht _]. subst t. split; [done|].
  eapply row_flow_is_allowed; [exact Hg|exact Hf|exact Hrow|done| |by right|done|done|exact Hr].
  unfold observes, row_direction, row_port. simpl.
  split_and!; [done|done|apply ipv4_nonempty|congruence|by apply parsePort_pretty|by rewrite Hpf].
Qed.

End EndToEnd.
