(* ===== verification/PolicyStore.v ===== *)
(** * evaluator/pkg/store and pkg/server: which policies a flow is evaluated against

    The cache of the policies, fed by the watch events of the informers, and the handler of
    [POST /evaluate].  The dynamic client hands over untyped objects; what a conversion of one gives is
    a parameter.  A snapshot is a copy, so that no slice is shared.
    Then the theorems about the store and about the evaluation of a flow. *)

From Stdlib Require Import Ascii.
From S2P Require Import Prelude RustText GoStd KubePolicy Matcher MatcherThms.

(** What an informer hands to a handler. *)
Inductive delivery (U : Type) : Type :=
| Delivered (u : U)
| DeletedFinalStateUnknown (u : option U)
| Unexpected.
Arguments Delivered {U}.
Arguments DeletedFinalStateUnknown {U}.
Arguments Unexpected {U}.

(** The stores of the informers, by key; [None] for a namespace without labels. *)
Record informers : Type := MkInformers {
  pod_store : gmap string Pod;
  ns_store : gmap string (option labels)
}.

Record Store : Type := MkStore {
  policiesByNamespace : gmap string (list AuditNetworkPolicy);
  clusterPolicies : list AuditClusterNetworkPolicy
}.

Definition new_store : Store := MkStore ∅ [].

Definition unwrapTombstone {U} (obj : delivery U) : option U :=
  match obj with
  | Delivered u => Some u
  | DeletedFinalStateUnknown u => u
  | Unexpected => None
  end.

Definition anp_name (p : AuditNetworkPolicy) : string := meta_Name (anp_meta p).
Definition anp_namespace (p : AuditNetworkPolicy) : string := meta_Namespace (anp_meta p).
Definition acnp_name (p : AuditClusterNetworkPolicy) : string := meta_Name (acnp_meta p).

Section Store.
(** Untyped objects, and their conversion by a JSON round trip. *)
Context {Unstructured : Type} (GetNamespace GetName : Unstructured → string).
Context (unstructuredToPolicy : Unstructured → option AuditNetworkPolicy).
Context (unstructuredToClusterPolicy : Unstructured → option AuditClusterNetworkPolicy).

(** ** Namespaced policies *)

Definition onPolicyAddOrUpdate (obj : delivery Unstructured) (s : Store) : Store :=
  match obj with
  | Delivered u =>
      match unstructuredToPolicy u with
      | None => s
      | Some policy =>
          let list := default [] (policiesByNamespace s !! anp_namespace policy) in
          let updated := filter (λ p, anp_name p ≠ anp_name policy) list ++ [policy] in
          MkStore (<[anp_namespace policy := updated]> (policiesByNamespace s)) (clusterPolicies s)
      end
  | _ => s
  end.

Definition onPolicyDelete (obj : delivery Unstructured) (s : Store) : Store :=
  match unwrapTombstone obj with
  | None => s
  | Some u =>
      let ns := GetNamespace u in
      let name := GetName u in
      let list := default [] (policiesByNamespace s !! ns) in
      let out := filter (λ p, anp_name p ≠ name) list in
      if (length out =? 0)%nat then MkStore (delete ns (policiesByNamespace s)) (clusterPolicies s)
      else MkStore (<[ns := out]> (policiesByNamespace s)) (clusterPolicies s)
  end.

Definition PoliciesInNamespace (ns : string) (s : Store) : list AuditNetworkPolicy :=
  default [] (policiesByNamespace s !! ns).

(** ** Cluster-scoped policies *)

Definition onClusterPolicyAddOrUpdate (obj : delivery Unstructured) (s : Store) : Store :=
  match obj with
  | Delivered u =>
      match unstructuredToClusterPolicy u with
      | None => s
      | Some policy =>
          MkStore (policiesByNamespace s)
            (filter (λ p, acnp_name p ≠ acnp_name policy) (clusterPolicies s) ++ [policy])
      end
  | _ => s
  end.

Definition onClusterPolicyDelete (obj : delivery Unstructured) (s : Store) : Store :=
  match unwrapTombstone obj with
  | None => s
  | Some u => MkStore (policiesByNamespace s) (filter (λ p, acnp_name p ≠ GetName u) (clusterPolicies s))
  end.

(** ** Events *)

Inductive store_event : Type :=
| PolicyAddOrUpdate (obj : delivery Unstructured)
| PolicyDelete (obj : delivery Unstructured)
| ClusterPolicyAddOrUpdate (obj : delivery Unstructured)
| ClusterPolicyDelete (obj : delivery Unstructured).

Definition store_step (s : Store) (e : store_event) : Store :=
  match e with
  | PolicyAddOrUpdate obj => onPolicyAddOrUpdate obj s
  | PolicyDelete obj => onPolicyDelete obj s
  | ClusterPolicyAddOrUpdate obj => onClusterPolicyAddOrUpdate obj s
  | ClusterPolicyDelete obj => onClusterPolicyDelete obj s
  end.

Definition store_run (es : list store_event) : Store := foldl store_step new_store es.

End Store.

(** ** The lookups of the matcher *)

Definition pod_key (namespace name : string) : string := namespace +:+ "/" +:+ name.

Definition store_GetPod (i : informers) (namespace name : string) : option Pod :=
  if String.eqb namespace EmptyString || String.eqb name EmptyString then None
  else pod_store i !! pod_key namespace name.

(** [None] is nil: a namespace that the cache does not know. *)
Definition store_GetNamespaceLabels (i : informers) (name : string) : option labels :=
  if String.eqb name EmptyString then None else default ∅ <$> ns_store i !! name.

Definition store_lookup (i : informers) : Lookup := MkLookup (store_GetPod i) (store_GetNamespaceLabels i).

(** ** server.go *)

Section Server.
Context `{Selectors}.

Definition policies_for (flow : Flow) (s : Store) : list AuditNetworkPolicy :=
  PoliciesInNamespace (DstPodNamespace flow) s ++
  (if negb (String.eqb (SrcPodNamespace flow) EmptyString) &&
      negb (String.eqb (SrcPodNamespace flow) (DstPodNamespace flow))
   then PoliciesInNamespace (SrcPodNamespace flow) s else []).

(** The results in the response. *)
Definition handleEvaluate (flow : Flow) (s : Store) (i : informers) : list Result :=
  let lookup := store_lookup i in
  (policies_for flow s ≫= λ p, Match flow p lookup) ++
  (clusterPolicies s ≫= λ cp, MatchCluster flow cp lookup).

(** The results that the aggregator is told of. *)
Definition recorded_results (results : list Result) : list Result :=
  filter (λ r, Verdict r ≠ VerdictNotApplicable) results.

(** The process-wide counter. *)
Definition denied_results (results : list Result) : nat :=
  length (filter (λ r, Verdict r = VerdictWouldDeny) results).

End Server.

(** * Theorems about the store and the evaluation *)

Section Store.
Context {Unstructured : Type} (GetNamespace GetName : Unstructured → string).
Context (unstructuredToPolicy : Unstructured → option AuditNetworkPolicy).
Context (unstructuredToClusterPolicy : Unstructured → option AuditClusterNetworkPolicy).

#[local] Abbreviation step := (store_step GetNamespace GetName unstructuredToPolicy unstructuredToClusterPolicy).
#[local] Abbreviation run := (store_run GetNamespace GetName unstructuredToPolicy unstructuredToClusterPolicy).

(** ** What the watch says *)

(** An event shows a policy under its namespace and name, or says that there is none of a namespace and
    name any more: a deletion, of which the informer may have kept only the last known object. *)
Definition shows_policy (e : store_event (Unstructured := Unstructured)) (k : string * string) (p : AuditNetworkPolicy) : Prop :=
  match e with
  | PolicyAddOrUpdate (Delivered u) => unstructuredToPolicy u = Some p ∧ k = (anp_namespace p, anp_name p)
  | _ => False
  end.

Definition hides_policy (e : store_event (Unstructured := Unstructured)) (k : string * string) : Prop :=
  match e with
  | PolicyDelete (Delivered u) | PolicyDelete (DeletedFinalStateUnknown (Some u)) => k = (GetNamespace u, GetName u)
  | _ => False
  end.

Definition shows_cluster_policy (e : store_event (Unstructured := Unstructured)) (name : string)
    (p : AuditClusterNetworkPolicy) : Prop :=
  match e with
  | ClusterPolicyAddOrUpdate (Delivered u) => unstructuredToClusterPolicy u = Some p ∧ name = acnp_name p
  | _ => False
  end.

Definition hides_cluster_policy (e : store_event (Unstructured := Unstructured)) (name : string) : Prop :=
  match e with
  | ClusterPolicyDelete (Delivered u) | ClusterPolicyDelete (DeletedFinalStateUnknown (Some u)) => name = GetName u
  | _ => False
  end.

(** The policies that exist, as far as their events say: a map from namespaces and names. *)
Definition watched_step (m : gmap (string * string) AuditNetworkPolicy) (e : store_event (Unstructured := Unstructured)) :
    gmap (string * string) AuditNetworkPolicy :=
  match e with
  | PolicyAddOrUpdate (Delivered u) =>
      match unstructuredToPolicy u with
      | Some p => <[(anp_namespace p, anp_name p) := p]> m
      | None => m
      end
  | PolicyDelete (Delivered u) | PolicyDelete (DeletedFinalStateUnknown (Some u)) =>
      delete (GetNamespace u, GetName u) m
  | _ => m
  end.

Definition watched (es : list store_event) : gmap (string * string) AuditNetworkPolicy := foldl watched_step ∅ es.

Definition watched_cluster_step (m : gmap string AuditClusterNetworkPolicy) (e : store_event (Unstructured := Unstructured)) :
    gmap string AuditClusterNetworkPolicy :=
  match e with
  | ClusterPolicyAddOrUpdate (Delivered u) =>
      match unstructuredToClusterPolicy u with
      | Some p => <[acnp_name p := p]> m
      | None => m
      end
  | ClusterPolicyDelete (Delivered u) | ClusterPolicyDelete (DeletedFinalStateUnknown (Some u)) =>
      delete (GetName u) m
  | _ => m
  end.

Definition watched_cluster (es : list store_event) : gmap string AuditClusterNetworkPolicy :=
  foldl watched_cluster_step ∅ es.

(** ** The last word on a key *)

(** In [es] an event [show]s [v] under [k], and no later event is about [k]. *)
Definition last_shown {E K V} (show : E → K → V → Prop) (hide : E → K → Prop) (es : list E) (k : K) (v : V) : Prop :=
  ∃ es1 e es2, es = es1 ++ e :: es2 ∧ show e k v ∧
    ∀ e', e' ∈ es2 → (∀ v', ¬ show e' k v') ∧ ¬ hide e' k.

Lemma last_shown_snoc {E K V} (show : E → K → V → Prop) (hide : E → K → Prop) (es : list E) (e : E) (k : K) (v : V) :
  last_shown show hide (es ++ [e]) k v ↔
  show e k v ∨ (last_shown show hide es k v ∧ (∀ v', ¬ show e k v') ∧ ¬ hide e k).
Proof.
  split.
  - intros (es1&e1&es2&He&Hs&Hl). destruct es2 as [|e2 es2 _] using rev_ind.
    + apply app_inj_tail in He as [_ ->]. by left.
    + rewrite app_comm_cons, app_assoc in He. apply app_inj_tail in He as [-> ->].
      right. split; [|apply Hl; set_solver]. exists es1, e1, es2. split_and!; [done..|]. intros e' He'. apply Hl. set_solver.
  - intros [Hs|[(es1&e1&es2&->&Hs&Hl) He]].
    + exists es, e, []. split_and!; [done..|]. by intros e' ?%not_elem_of_nil.
    + exists es1, e1, (es2 ++ [e]). split_and!; [by rewrite <- app_assoc|done|].
      intros e' [He'| ->%list_elem_of_singleton]%elem_of_app; [by apply Hl|done].
Qed.

(** A map changed by each event at the keys it is about holds the last words. *)
Lemma foldl_last_shown {E K V} `{Countable K} (f : gmap K V → E → gmap K V) (show : E → K → V → Prop)
    (hide : E → K → Prop) :
  (∀ m e k v, f m e !! k = Some v ↔ show e k v ∨ (m !! k = Some v ∧ (∀ v', ¬ show e k v') ∧ ¬ hide e k)) →
  ∀ es k v, foldl f ∅ es !! k = Some v ↔ last_shown show hide es k v.
Proof.
  intros Hf es k v. induction es as [|e es IH] using rev_ind.
  - simpl. rewrite lookup_empty. split; [done|]. intros ([]&?&?&?&_); done.
  - by rewrite foldl_app, last_shown_snoc, <- IH, <- Hf.
Qed.

Lemma watched_last_shown (es : list store_event) k p : watched es !! k = Some p ↔ last_shown shows_policy hides_policy es k p.
Proof.
  apply foldl_last_shown. clear. intros m e k p.
  destruct e as [[u|?|]|[u|[u|]|]|?|?]; simpl; try naive_solver.
  - destruct (unstructuredToPolicy u) as [q|]; [|naive_solver]. rewrite lookup_insert. case_decide; naive_solver.
  - rewrite lookup_delete_Some. naive_solver.
  - rewrite lookup_delete_Some. naive_solver.
Qed.

Lemma watched_cluster_last_shown (es : list store_event) name p :
  watched_cluster es !! name = Some p ↔ last_shown shows_cluster_policy hides_cluster_policy es name p.
Proof.
  apply foldl_last_shown. clear. intros m e name p.
  destruct e as [?|?|[u|?|]|[u|[u|]|]]; simpl; try naive_solver.
  - destruct (unstructuredToClusterPolicy u) as [q|]; [|naive_solver]. rewrite lookup_insert. case_decide; naive_solver.
  - rewrite lookup_delete_Some. naive_solver.
  - rewrite lookup_delete_Some. naive_solver.
Qed.

(** ** The store holds what the watch says *)

Record store_ok (s : Store) (m : gmap (string * string) AuditNetworkPolicy)
    (mc : gmap string AuditClusterNetworkPolicy) : Prop := {
  so_nodup ns : NoDup (anp_name <$> PoliciesInNamespace ns s);
  so_elem ns p : p ∈ PoliciesInNamespace ns s ↔ anp_namespace p = ns ∧ m !! (ns, anp_name p) = Some p;
  so_keys ns l : policiesByNamespace s !! ns = Some l → l ≠ [];
  so_cluster_nodup : NoDup (acnp_name <$> clusterPolicies s);
  so_cluster_elem p : p ∈ clusterPolicies s ↔ mc !! acnp_name p = Some p;
  so_names ns name p : m !! (ns, name) = Some p → anp_namespace p = ns ∧ anp_name p = name;
  so_cluster_names name p : mc !! name = Some p → acnp_name p = name
}.

Lemma nodup_filter_fmap {A B} (f : A → B) (P : A → Prop) `{!∀ x, Decision (P x)} (l : list A) :
  NoDup (f <$> l) → NoDup (f <$> filter P l).
Proof. intros Hn. eapply sublist_NoDup; [exact Hn|]. apply fmap_sublist, sublist_filter. Qed.

(** Replacing the element of a name keeps names apart. *)
Lemma nodup_replace {A} (f : A → string) (l : list A) (x : A) :
  NoDup (f <$> l) → NoDup (f <$> filter (λ y, f y ≠ f x) l ++ [x]).
Proof.
  intros Hn. rewrite fmap_app. apply list.NoDup_app. split; [by apply nodup_filter_fmap|]. split.
  - intros k (y&->&[Hy _]%list_elem_of_filter)%list_elem_of_fmap Hk. by apply list_elem_of_singleton in Hk.
  - apply NoDup_singleton.
Qed.

Lemma policy_added_ok (obj : delivery Unstructured) (s : Store) m mc :
  store_ok s m mc → store_ok (onPolicyAddOrUpdate unstructuredToPolicy obj s) (watched_step m (PolicyAddOrUpdate obj)) mc.
Proof.
  intros Hok. pose proof Hok as [Hnd Hel Hk Hcnd Hcel Hn Hcn]. unfold onPolicyAddOrUpdate. simpl.
  destruct obj as [u|?|]; simpl; try done. destruct (unstructuredToPolicy u) as [p|]; [|done].
  assert (∀ ns, PoliciesInNamespace ns
      (MkStore (<[anp_namespace p := filter (λ q, anp_name q ≠ anp_name p) (PoliciesInNamespace (anp_namespace p) s) ++ [p]]>
        (policiesByNamespace s)) (clusterPolicies s)) =
    if decide (ns = anp_namespace p)
    then filter (λ q, anp_name q ≠ anp_name p) (PoliciesInNamespace (anp_namespace p) s) ++ [p]
    else PoliciesInNamespace ns s) as Hlook.
  { intros ns. unfold PoliciesInNamespace at 1. simpl. case_decide as Hd.
    - by rewrite Hd, lookup_insert_eq.
    - by rewrite lookup_insert_ne by done. }
  fold (PoliciesInNamespace (anp_namespace p) s). split; simpl; try done.
  + intros ns. rewrite Hlook. case_decide; [|done]. apply nodup_replace, Hnd.
  + intros ns q. rewrite Hlook. case_decide as Hd.
    * subst ns. rewrite elem_of_app, list_elem_of_filter, list_elem_of_singleton, Hel, lookup_insert.
      case_decide as Hq; [injection Hq as Hq|]; split; [naive_solver| |naive_solver|].
      -- intros [_ [= <-]]. by right.
      -- intros [Hns Hm]. left. split; [|done]. intros Hc. apply Hq. by rewrite Hc.
    * rewrite Hel, lookup_insert_ne by congruence. done.
  + intros ns l. rewrite lookup_insert. case_decide; [|apply Hk]. intros [= <-]. by destruct (filter _ _).
  + intros ns name q. rewrite lookup_insert. case_decide as Hd; [|apply Hn]. by injection Hd as <- <-; intros [= <-].
Qed.

Lemma policy_deleted_ok (obj : delivery Unstructured) (s : Store) m mc :
  store_ok s m mc → store_ok (onPolicyDelete GetNamespace GetName obj s) (watched_step m (PolicyDelete obj)) mc.
Proof.
  intros Hok. pose proof Hok as [Hnd Hel Hk Hcnd Hcel Hn Hcn]. unfold onPolicyDelete.
  assert (∀ u, unwrapTombstone obj = Some u →
    watched_step m (PolicyDelete obj) = delete (GetNamespace u, GetName u) m) as Hw
    by (intros u; destruct obj as [?|[?|]|]; by intros [= <-]).
  assert (unwrapTombstone obj = None → watched_step m (PolicyDelete obj) = m) as Hw'
    by (by destruct obj as [?|[?|]|]).
  destruct (unwrapTombstone obj) as [u|]; [rewrite (Hw u) by done|by rewrite Hw']. clear Hw Hw'.
  set (ns0 := GetNamespace u). set (name0 := GetName u).
  fold (PoliciesInNamespace ns0 s). set (out := filter (λ p, anp_name p ≠ name0) (PoliciesInNamespace ns0 s)).
  set (s' := if (length out =? 0)%nat then _ else _).
  assert (clusterPolicies s' = clusterPolicies s) as Hc by (unfold s'; by destruct (_ =? _)%nat).
  assert (∀ ns, PoliciesInNamespace ns s' = if decide (ns = ns0) then out else PoliciesInNamespace ns s) as Hlook.
  { intros ns. unfold s', PoliciesInNamespace at 1. destruct out as [|o out'] eqn:Ho; simpl; case_decide as Hd.
    - by rewrite Hd, lookup_delete_eq.
    - by rewrite lookup_delete_ne by done.
    - by rewrite Hd, lookup_insert_eq.
    - by rewrite lookup_insert_ne by done. }
  split; rewrite ?Hc; try done.
  + intros ns. rewrite Hlook. case_decide; [|done]. apply nodup_filter_fmap, Hnd.
  + intros ns q. rewrite Hlook. case_decide as Hd.
    * subst ns. unfold out. rewrite list_elem_of_filter, Hel. rewrite lookup_delete_Some. naive_solver congruence.
    * rewrite Hel, lookup_delete_ne by congruence. done.
  + intros ns l. unfold s'. destruct out as [|o out'] eqn:Ho; simpl.
    * intros [_ Hl]%lookup_delete_Some. by eapply Hk.
    * rewrite lookup_insert. case_decide; [by intros [= <-]|apply Hk].
  + intros ns name q [_ Hq]%lookup_delete_Some. by apply Hn.
Qed.

Lemma cluster_policy_added_ok (obj : delivery Unstructured) (s : Store) m mc :
  store_ok s m mc → store_ok (onClusterPolicyAddOrUpdate unstructuredToClusterPolicy obj s) m (watched_cluster_step mc (ClusterPolicyAddOrUpdate obj)).
Proof.
  intros Hok. pose proof Hok as [Hnd Hel Hk Hcnd Hcel Hn Hcn]. unfold onClusterPolicyAddOrUpdate. simpl.
  destruct obj as [u|?|]; simpl; try done. destruct (unstructuredToClusterPolicy u) as [p|]; [|done].
  split; simpl; try done.
  + by apply nodup_replace.
  + intros q. rewrite elem_of_app, list_elem_of_filter, list_elem_of_singleton, Hcel, lookup_insert.
    case_decide as Hq; split; [naive_solver| |naive_solver|].
    * intros [= <-]. by right.
    * intros Hm. left. split; [|done]. congruence.
  + intros name q. rewrite lookup_insert. case_decide; [by intros [= <-]|apply Hcn].
Qed.

Lemma cluster_policy_deleted_ok (obj : delivery Unstructured) (s : Store) m mc :
  store_ok s m mc → store_ok (onClusterPolicyDelete GetName obj s) m (watched_cluster_step mc (ClusterPolicyDelete obj)).
Proof.
  intros Hok. pose proof Hok as [Hnd Hel Hk Hcnd Hcel Hn Hcn]. unfold onClusterPolicyDelete.
  assert (∀ u, unwrapTombstone obj = Some u →
    watched_cluster_step mc (ClusterPolicyDelete obj) = delete (GetName u) mc) as Hw
    by (intros u; destruct obj as [?|[?|]|]; by intros [= <-]).
  assert (unwrapTombstone obj = None → watched_cluster_step mc (ClusterPolicyDelete obj) = mc) as Hw'
    by (by destruct obj as [?|[?|]|]).
  destruct (unwrapTombstone obj) as [u|]; [rewrite (Hw u) by done|by rewrite Hw']. split; simpl; try done.
  + by apply nodup_filter_fmap.
  + intros q. rewrite list_elem_of_filter, Hcel, lookup_delete_Some. naive_solver congruence.
  + intros name q [_ Hq]%lookup_delete_Some. by apply Hcn.
Qed.

Lemma store_step_ok (e : store_event) (s : Store) m mc :
  store_ok s m mc → store_ok (step s e) (watched_step m e) (watched_cluster_step mc e).
Proof.
  destruct e as [obj|obj|obj|obj];
    [apply policy_added_ok|apply policy_deleted_ok|apply cluster_policy_added_ok|apply cluster_policy_deleted_ok].
Qed.

Lemma store_run_ok (es : list store_event) : store_ok (run es) (watched es) (watched_cluster es).
Proof.
  unfold store_run, watched, watched_cluster. induction es as [|e es IH] using rev_ind.
  - split; simpl; try done; unfold PoliciesInNamespace; simpl; intros; rewrite ?lookup_empty; simpl;
      try constructor; set_solver.
  - rewrite !foldl_app. simpl. by apply store_step_ok.
Qed.

(** C28: the store follows the watch.  After any sequence of events a policy is kept for a namespace
    exactly when an event added or changed it there, in that very version, and no later event changed or
    deleted the policy of that namespace and name, where a deletion counts also when the informer delivers
    it as a tombstone with the last known object.  Each name is kept once and no empty list is kept; the
    same holds of the cluster-scoped policies.  An object that cannot be converted shows nothing, so that
    a policy stays in the last version that could be. *)
Theorem store_follows_watch (es : list store_event) :
  (∀ ns p, p ∈ PoliciesInNamespace ns (run es) ↔
     anp_namespace p = ns ∧ last_shown shows_policy hides_policy es (ns, anp_name p) p) ∧
  (∀ ns, NoDup (anp_name <$> PoliciesInNamespace ns (run es))) ∧
  (∀ p, p ∈ clusterPolicies (run es) ↔ last_shown shows_cluster_policy hides_cluster_policy es (acnp_name p) p) ∧
  NoDup (acnp_name <$> clusterPolicies (run es)) ∧
  (∀ ns l, policiesByNamespace (run es) !! ns = Some l → l ≠ []).
Proof.
  destruct (store_run_ok es) as [Hnd Hel Hk Hcnd Hcel _ _]. split_and!; try done.
  - intros ns p. by rewrite Hel, watched_last_shown.
  - intros p. by rewrite Hcel, watched_cluster_last_shown.
Qed.

(** ** The evaluation of a flow *)

Section Evaluation.
Context `{Selectors}.

(** client-go keys a pod by its namespace and its name; a namespace holds no slash. *)
Definition informers_ok (i : informers) : Prop :=
  ∀ k p, pod_store i !! k = Some p →
    k = pod_key (pod_Namespace p) (pod_Name p) ∧ without "/" (pod_Namespace p) = true.

Lemma GetPod_namespace (i : informers) (ns name : string) (p : Pod) :
  informers_ok i → without "/" ns = true → store_GetPod i ns name = Some p →
  pod_Namespace p = ns ∧ ns ≠ EmptyString.
Proof.
  intros Hi Hns. unfold store_GetPod. destruct (String.eqb_spec ns EmptyString) as [|Hne]; simpl; [done|].
  destruct (String.eqb name EmptyString); [done|]. intros [Hk Hp]%Hi. split; [|done].
  apply (f_equal (Cut "/"%char)) in Hk. unfold pod_key in Hk.
  change ("/" +:+ name)%string with (String "/"%char name) in Hk.
  change ("/" +:+ pod_Name p)%string with (String "/"%char (pod_Name p)) in Hk.
  rewrite !Cut_app in Hk by done. by injection Hk as ->.
Qed.

Lemma applicable_subject (flow : Flow) (p : AuditNetworkPolicy) (lookup : Lookup) (r : Result) :
  r ∈ Match flow p lookup → Verdict r ≠ VerdictNotApplicable →
  ∃ subject, subjectPod flow (Direction r) lookup = Some subject ∧ pod_Namespace subject = anp_namespace p.
Proof.
  intros [_ Hr]%match_elem Hv. rewrite Hr in Hv. unfold match_direction in Hv.
  destruct (subjectPod flow (Direction r) lookup) as [subject|]; [|done]. exists subject. split; [done|].
  destruct (String.eqb_spec (pod_Namespace subject) (meta_Namespace (anp_meta p))); [done|by destruct Hv].
Qed.

Lemma evaluation_covers (es : list store_event) (i : informers) (flow : Flow) (p : AuditNetworkPolicy) (r : Result) :
  informers_ok i → without "/" (SrcPodNamespace flow) = true → without "/" (DstPodNamespace flow) = true →
  watched es !! (anp_namespace p, anp_name p) = Some p → r ∈ Match flow p (store_lookup i) →
  Verdict r ≠ VerdictNotApplicable → r ∈ handleEvaluate flow (run es) i.
Proof.
  intros Hi Hsrc Hdst Hw Hr Hv. destruct (store_run_ok es) as [_ Hel _ _ _ _ _].
  unfold handleEvaluate, policies_for. apply elem_of_app. left. apply list_elem_of_bind. exists p. split; [done|].
  apply elem_of_app. assert (p ∈ PoliciesInNamespace (anp_namespace p) (run es)) as Hp by (by apply Hel).
  destruct (applicable_subject _ _ _ _ Hr Hv) as (subject&Hs&Hns). revert Hs. unfold subjectPod. simpl.
  destruct (String.eqb (Direction r) DirectionIngress).
  - intros [Hn _]%GetPod_namespace; [|done|done]. left. by rewrite <- Hn, Hns.
  - destruct (String.eqb (Direction r) DirectionEgress); [|done].
    intros [Hn Hne]%GetPod_namespace; [|done|done].
    destruct (String.eqb_spec (SrcPodNamespace flow) (DstPodNamespace flow)) as [E|E].
    + left. by rewrite <- E, <- Hn, Hns.
    + right. rewrite (proj2 (String.eqb_neq _ _) Hne). simpl. by rewrite <- Hn, Hns.
Qed.

Lemma evaluation_covers_cluster (es : list store_event) (i : informers) (flow : Flow)
    (cp : AuditClusterNetworkPolicy) (r : Result) :
  watched_cluster es !! acnp_name cp = Some cp → r ∈ MatchCluster flow cp (store_lookup i) →
  r ∈ handleEvaluate flow (run es) i.
Proof.
  intros Hw Hr. destruct (store_run_ok es) as [_ _ _ _ Hcel _ _]. unfold handleEvaluate.
  apply elem_of_app. right. apply list_elem_of_bind. exists cp. split; [done|]. by apply Hcel.
Qed.

(** A result is that of a policy that the watch has shown. *)
Lemma evaluation_of_watched (es : list store_event) (i : informers) (flow : Flow) (r : Result) :
  r ∈ handleEvaluate flow (run es) i →
  (∃ q, watched es !! (anp_namespace q, anp_name q) = Some q ∧ r ∈ Match flow q (store_lookup i)) ∨
  (∃ cp, watched_cluster es !! acnp_name cp = Some cp ∧ r ∈ MatchCluster flow cp (store_lookup i)).
Proof.
  destruct (store_run_ok es) as [_ Hel _ _ Hcel _ _]. unfold handleEvaluate, policies_for.
  intros [(q&Hr&Hq)%list_elem_of_bind|(cp&Hr&Hq)%list_elem_of_bind]%elem_of_app; [left|right].
  - exists q. split; [|done]. apply elem_of_app in Hq as [[<- ?]%Hel|Hq]; [done|].
    destruct (negb _ && _); [|by apply not_elem_of_nil in Hq]. by apply Hel in Hq as [<- ?].
  - exists cp. split; [by apply Hcel|done].
Qed.

(** no policy that matters is left out: the response to a flow holds every verdict, other than not
    applicable, of every policy that the watch has shown, and no result of any other policy. *)
Theorem evaluation_is_complete (es : list store_event) (i : informers) (flow : Flow) (p : AuditNetworkPolicy)
    (r : Result) :
  informers_ok i → without "/" (SrcPodNamespace flow) = true → without "/" (DstPodNamespace flow) = true →
  (watched es !! (anp_namespace p, anp_name p) = Some p → r ∈ Match flow p (store_lookup i) →
   Verdict r ≠ VerdictNotApplicable → r ∈ handleEvaluate flow (run es) i) ∧
  (∀ cp, watched_cluster es !! acnp_name cp = Some cp → r ∈ MatchCluster flow cp (store_lookup i) →
   r ∈ handleEvaluate flow (run es) i) ∧
  (r ∈ handleEvaluate flow (run es) i →
   (∃ q, watched es !! (anp_namespace q, anp_name q) = Some q ∧ r ∈ Match flow q (store_lookup i)) ∨
   (∃ cp, watched_cluster es !! acnp_name cp = Some cp ∧ r ∈ MatchCluster flow cp (store_lookup i))).
Proof.
  intros Hi Hsrc Hdst.
  split_and!; [by apply evaluation_covers|intros cp; by apply evaluation_covers_cluster|apply evaluation_of_watched].
Qed.

End Evaluation.

End Store.
