(* ===== verification/Aggregator.v ===== *)
(** * evaluator/pkg/status: the verdicts that a policy reports in its status

    The counters of the aggregator, and the flush that patches the status of each policy, cut at its
    patches, between which verdicts are recorded, policies come and go, and the evaluator may be
    restarted.  What the API server makes of a merge patch is an interface.  Times are at the precision
    of the JSON that carries them.
    Then the lemmas: what the counters say of the verdicts that were recorded; and the order of the
    offenders, which no two of them share a place in, so that the order in which a map is read does not
    matter. *)

From stdpp Require Import sorting.
From S2P Require Import Prelude RustText GoStd KubePolicy Matcher PolicyStore.

(** ** Counters *)

Record policyKey : Type := MkPolicyKey { pk_namespace : string; pk_name : string }.

#[export] Instance policyKey_eq_dec : EqDecision policyKey.
Proof. solve_decision. Defined.

#[export] Instance policyKey_countable : Countable policyKey.
Proof.
  by apply (inj_countable' (λ k, (pk_namespace k, pk_name k)) (λ '(ns, name), MkPolicyKey ns name)); intros [].
Defined.

Record tupleKey : Type := MkTupleKey {
  tk_srcPod : string;
  tk_dstPod : string;
  tk_protocol : string;
  tk_direction : string;
  tk_dstPort : Z
}.

#[export] Instance tupleKey_eq_dec : EqDecision tupleKey.
Proof. solve_decision. Defined.

#[export] Instance tupleKey_countable : Countable tupleKey.
Proof.
  by apply (inj_countable'
    (λ k, (tk_srcPod k, tk_dstPod k, tk_protocol k, tk_direction k, tk_dstPort k))
    (λ '(s, d, p, dir, port), MkTupleKey s d p dir port)); intros [].
Defined.

Record policyAgg : Type := MkAgg {
  flowsEvaluated : Z;
  flowsWouldDeny : Z;
  lastEvaluated : Z;
  observedGeneration : Z;
  tuples : gmap tupleKey Z
}.

(** [time.Time{}] is not read before it is set. *)
Definition new_agg : policyAgg := MkAgg 0 0 0 0 ∅.

Definition i64_of (z : Z) : Z := (z + 2 ^ 63) `mod` 2 ^ 64 - 2 ^ 63.

(** [n++] on an [int64]. *)
Definition i64_succ (n : Z) : Z := i64_of (n + 1).

(** The arguments of [Record], and the time it reads. *)
Record verdict : Type := MkVerdict {
  v_key : policyKey;
  v_tuple : tupleKey;
  v_wouldDeny : bool;
  v_generation : Z;
  v_now : Z
}.

Definition record_in (v : verdict) (agg : policyAgg) : policyAgg :=
  let evaluated := i64_succ (flowsEvaluated agg) in
  let generation :=
    if observedGeneration agg <? v_generation v then v_generation v else observedGeneration agg in
  if negb (v_wouldDeny v)
  then MkAgg evaluated (flowsWouldDeny agg) (v_now v) generation (tuples agg)
  else MkAgg evaluated (i64_succ (flowsWouldDeny agg)) (v_now v) generation
    (<[v_tuple v := i64_succ (default 0 (tuples agg !! v_tuple v))]> (tuples agg)).

Abbreviation counters := (gmap policyKey policyAgg).

Definition Record_verdict (v : verdict) (counts : counters) : counters :=
  <[v_key v := record_in v (default new_agg (counts !! v_key v))]> counts.

(** The calls that the handler of [POST /evaluate] makes; [clock] is read at each. *)
Definition verdict_of_result (flow : Flow) (now : Z) (r : Result) : verdict :=
  MkVerdict (MkPolicyKey (PolicyNamespace r) (PolicyName r))
    (MkTupleKey (SrcPodNamespace flow +:+ "/" +:+ SrcPodName flow)
       (DstPodNamespace flow +:+ "/" +:+ DstPodName flow) (Protocol flow) (Direction r) (DstPort flow))
    (String.eqb (Verdict r) VerdictWouldDeny) (PolicyGeneration r) now.

Definition recorded_verdicts (flow : Flow) (clock : nat → Z) (results : list Result) : list verdict :=
  imap (λ i r, verdict_of_result flow (clock i) r) (recorded_results results).

(** ** Offenders *)

Record OffenderSummary : Type := MkOffender {
  of_SrcPod : string;
  of_DstPod : string;
  of_DstPort : Z;
  of_Protocol : string;
  of_Direction : string;
  of_Count : Z
}.

Definition offender_less (i j : tupleKey * Z) : bool :=
  if negb (i.2 =? j.2) then j.2 <? i.2
  else if negb (String.eqb (tk_srcPod i.1) (tk_srcPod j.1)) then string_less (tk_srcPod i.1) (tk_srcPod j.1)
  else if negb (String.eqb (tk_dstPod i.1) (tk_dstPod j.1)) then string_less (tk_dstPod i.1) (tk_dstPod j.1)
  else if negb (tk_dstPort i.1 =? tk_dstPort j.1) then tk_dstPort i.1 <? tk_dstPort j.1
  else if negb (String.eqb (tk_protocol i.1) (tk_protocol j.1))
  then string_less (tk_protocol i.1) (tk_protocol j.1)
  else string_less (tk_direction i.1) (tk_direction j.1).

Definition offender_of (s : tupleKey * Z) : OffenderSummary :=
  MkOffender (tk_srcPod s.1) (tk_dstPod s.1) (tk_dstPort s.1) (tk_protocol s.1) (tk_direction s.1) s.2.

(** [all] is the map as the loop reads it, in some order. *)
Definition top_of (all : list (tupleKey * Z)) (n : Z) : list OffenderSummary :=
  offender_of <$> take (Z.to_nat n) (sort_Slice offender_less all).

(** [None] is nil. *)
Definition topOffenders (m : gmap tupleKey Z) (n : Z) : option (list OffenderSummary) :=
  if (n <=? 0) || (size m =? 0)%nat then None else Some (top_of (map_to_list m) n).

(** ** The patch *)

(** A status as JSON: members that are empty are left out. *)
Record status_json : Type := MkStatus {
  js_observedGeneration : option Z;
  js_lastEvaluated : option Z;
  js_flowsEvaluated : option Z;
  js_flowsWouldDeny : option Z;
  js_topOffenders : option (list OffenderSummary)
}.

Definition empty_status : status_json := MkStatus None None None None None.

Definition omitempty (n : Z) : option Z := if n =? 0 then None else Some n.

Definition status_patch (topN : Z) (agg : policyAgg) : status_json :=
  MkStatus (omitempty (observedGeneration agg)) (Some (lastEvaluated agg))
    (omitempty (flowsEvaluated agg)) (omitempty (flowsWouldDeny agg)) (topOffenders (tuples agg) topN).

(** The API server: what a JSON merge patch makes of a status.  A member that the patch does not have
    keeps its value; the others, which are numbers and arrays, are replaced. *)
Class ApiServer : Type := { merge : status_json → status_json → status_json }.

Definition merged {A} (new old : option A) : option A := match new with Some _ => new | None => old end.

Class ApiServerLaws `{ApiServer} : Prop := {
  merge_generation p old :
    js_observedGeneration (merge p old) = merged (js_observedGeneration p) (js_observedGeneration old);
  merge_last p old : js_lastEvaluated (merge p old) = merged (js_lastEvaluated p) (js_lastEvaluated old);
  merge_evaluated p old :
    js_flowsEvaluated (merge p old) = merged (js_flowsEvaluated p) (js_flowsEvaluated old);
  merge_denied p old :
    js_flowsWouldDeny (merge p old) = merged (js_flowsWouldDeny p) (js_flowsWouldDeny old);
  merge_offenders p old :
    js_topOffenders (merge p old) = merged (js_topOffenders p) (js_topOffenders old)
}.

(** ** Flushes *)

(** The snapshot of the flush under way, with the keys that it has still to patch; and the statuses of
    the policies that exist. *)
Record aggregator : Type := MkAggregator {
  counts : counters;
  flushing : option (counters * list policyKey);
  statuses : gmap policyKey status_json
}.

Definition new_aggregator (statuses : gmap policyKey status_json) : aggregator := MkAggregator ∅ None statuses.

Definition policyKey_less (i j : policyKey) : bool :=
  if negb (String.eqb (pk_namespace i) (pk_namespace j)) then string_less (pk_namespace i) (pk_namespace j)
  else string_less (pk_name i) (pk_name j).

Definition sorted_policies (snapshot : counters) : list policyKey :=
  sort_Slice policyKey_less (map_to_list snapshot).*1.

(** What becomes of a patch: it arrives and is answered, its answer is lost, it is refused, or the
    evaluator is shutting down. *)
Inductive patch_answer : Type := Arrived | AnswerLost | Refused | CtxDone.

Inductive status_event : Type :=
| Recorded (v : verdict)
| Ticked
| Patched (answer : patch_answer)
| PolicyCreated (key : policyKey)
| PolicyDeleted (key : policyKey)
| Restarted.

Definition pending (snapshot : counters) (keys : list policyKey) : option (counters * list policyKey) :=
  match keys with [] => None | _ :: _ => Some (snapshot, keys) end.

Section Flush.
Context `{ApiServer} (topN : Z).

(** The next patch of a flush: of a policy that is gone the counters are dropped. *)
Definition patch_step (answer : patch_answer) (a : aggregator) : option aggregator :=
  match flushing a with
  | Some (snapshot, key :: keys) =>
      match answer with
      | CtxDone => Some (MkAggregator (counts a) None (statuses a))
      | Refused => Some (MkAggregator (counts a) (pending snapshot keys) (statuses a))
      | Arrived | AnswerLost =>
          agg ← snapshot !! key;
          match statuses a !! key with
          | Some old =>
              Some (MkAggregator (counts a) (pending snapshot keys)
                (<[key := merge (status_patch topN agg) old]> (statuses a)))
          | None =>
              Some (MkAggregator (match answer with Arrived => delete key (counts a) | _ => counts a end)
                (pending snapshot keys) (statuses a))
          end
      end
  | _ => None
  end.

Definition status_step (e : status_event) (a : aggregator) : option aggregator :=
  match e with
  | Recorded v => Some (MkAggregator (Record_verdict v (counts a)) (flushing a) (statuses a))
  | Ticked =>
      match flushing a with
      | Some _ => None
      | None =>
          Some (MkAggregator (counts a) (pending (counts a) (sorted_policies (counts a))) (statuses a))
      end
  | Patched answer => patch_step answer a
  | PolicyCreated key =>
      match statuses a !! key with
      | Some _ => None
      | None => Some (MkAggregator (counts a) (flushing a) (<[key := empty_status]> (statuses a)))
      end
  | PolicyDeleted key => Some (MkAggregator (counts a) (flushing a) (delete key (statuses a)))
  | Restarted => Some (MkAggregator ∅ None (statuses a))
  end.

Fixpoint status_run (es : list status_event) (a : aggregator) : option aggregator :=
  match es with
  | [] => Some a
  | e :: es => a ← status_step e a; status_run es a
  end.

End Flush.

(** * Lemmas about the counters and the offenders of a policy *)

(** ** Comparisons *)

Record weak_order {A} (less : A → A → bool) : Prop := {
  wo_asym x y : less x y = true → less y x = false;
  wo_trans x y z : less x y = false → less y z = false → less x z = false
}.

(** First one comparison, and the other where the first finds no difference. *)
Definition then_by {A} (less next : A → A → bool) (x y : A) : bool :=
  if less x y then true else if less y x then false else next x y.

Definition on {A B} (f : A → B) (less : B → B → bool) (x y : A) : bool := less (f x) (f y).

Definition tied {A} (less : A → A → bool) (x y : A) : Prop := less x y = false ∧ less y x = false.

Lemma on_weak {A B} (f : A → B) (less : B → B → bool) : weak_order less → weak_order (on f less).
Proof. intros [Ha Ht]. split; unfold on; [naive_solver|]. intros x y z. apply Ht. Qed.

Lemma then_by_weak {A} (less next : A → A → bool) :
  weak_order less → weak_order next → weak_order (then_by less next).
Proof.
  intros [Ha Ht] [Ha' Ht']. split; unfold then_by.
  - intros x y. destruct (less x y) eqn:E; [by rewrite (Ha _ _ E)|]. destruct (less y x); [done|]. apply Ha'.
  - intros x y z. destruct (less x y) eqn:Exy; [done|]. destruct (less y z) eqn:Eyz; [done|].
    rewrite (Ht _ _ _ Exy Eyz). destruct (less z x) eqn:Ezx; [done|].
    destruct (less y x) eqn:Eyx; [by rewrite (Ht _ _ _ Eyz Ezx) in Eyx|].
    destruct (less z y) eqn:Ezy; [by rewrite (Ht _ _ _ Ezx Exy) in Ezy|]. apply Ht'.
Qed.

Lemma then_by_tied {A} (less next : A → A → bool) (x y : A) :
  tied (then_by less next) x y ↔ tied less x y ∧ tied next x y.
Proof. unfold tied, then_by. destruct (less x y), (less y x); naive_solver. Qed.

(** An ordering whose ties are equal. *)
Definition strict {A} (less : A → A → bool) : Prop := weak_order less ∧ ∀ x y, tied less x y → x = y.

Lemma string_less_strict : strict string_less.
Proof.
  unfold strict, tied, string_less. split; [split|].
  - intros s t. rewrite negb_true_iff, negb_false_iff, bool_decide_eq_false, bool_decide_eq_true.
    intros Hn. by destruct (total String.le s t).
  - intros x y z. rewrite !negb_false_iff, !bool_decide_eq_true. intros Hx Hy. by transitivity y.
  - intros x y. rewrite !negb_false_iff, !bool_decide_eq_true. intros [H1 H2]. by apply (anti_symm String.le).
Qed.

Lemma ltb_strict : strict Z.ltb.
Proof. unfold strict, tied. split; [split|]; intros; lia. Qed.

Lemma gtb_weak : weak_order (λ i j : Z, j <? i).
Proof. split; intros; lia. Qed.

(** An [if] on equality, as the sources write it. *)
Lemma unless_equal {A B} (f : A → B) (eqb less : B → B → bool) (next : A → A → bool) (x y : A) :
  (∀ a b, eqb a b = true ↔ a = b) → weak_order less → (∀ a b, tied less a b → a = b) →
  (if negb (eqb (f x) (f y)) then less (f x) (f y) else next x y) = then_by (on f less) next x y.
Proof.
  intros Hr [Ha _] Ht. unfold then_by, on. destruct (eqb (f x) (f y)) eqn:E; simpl.
  - apply Hr in E. rewrite E. destruct (less (f y) (f y)) eqn:El; [|done]. by rewrite (Ha _ _ El) in El.
  - destruct (less (f x) (f y)) eqn:E1; [done|]. destruct (less (f y) (f x)) eqn:E2; [done|].
    rewrite (proj2 (Hr _ _)) in E; [done|by apply Ht].
Qed.

Lemma weak_total {A} (less : A → A → bool) : weak_order less → Total (not_after less).
Proof. intros [Ha _] x y. unfold not_after. destruct (less x y) eqn:E; [left; by apply Ha|by right]. Qed.

Lemma weak_transitive {A} (less : A → A → bool) : weak_order less → Transitive (not_after less).
Proof. intros [_ Ht] x y z. unfold not_after. intros H1 H2. by eapply Ht. Qed.

(** ** The order of the offenders *)

Definition offender_order : tupleKey * Z → tupleKey * Z → bool :=
  then_by (on snd (λ i j, j <? i))
    (then_by (on (tk_srcPod ∘ fst) string_less)
      (then_by (on (tk_dstPod ∘ fst) string_less)
        (then_by (on (tk_dstPort ∘ fst) Z.ltb)
          (then_by (on (tk_protocol ∘ fst) string_less) (on (tk_direction ∘ fst) string_less))))).

Lemma offender_less_order (i j : tupleKey * Z) : offender_less i j = offender_order i j.
Proof.
  unfold offender_less, offender_order.
  destruct string_less_strict as [Hsw Hst], ltb_strict as [Hzw Hzt].
  rewrite <- (unless_equal snd Z.eqb); [|apply Z.eqb_eq|exact gtb_weak|unfold tied; lia].
  rewrite <- (unless_equal (tk_srcPod ∘ fst) String.eqb); [|apply String.eqb_eq|done..].
  rewrite <- (unless_equal (tk_dstPod ∘ fst) String.eqb); [|apply String.eqb_eq|done..].
  rewrite <- (unless_equal (tk_dstPort ∘ fst) Z.eqb); [|apply Z.eqb_eq|done..].
  rewrite <- (unless_equal (tk_protocol ∘ fst) String.eqb); [|apply String.eqb_eq|done..].
  done.
Qed.

Lemma offender_less_weak : weak_order offender_less.
Proof.
  destruct string_less_strict as [Hsw _], ltb_strict as [Hzw _].
  assert (weak_order offender_order) as [Ha Ht].
  { unfold offender_order. repeat apply then_by_weak; apply on_weak; try done. apply gtb_weak. }
  split; intros *; rewrite !offender_less_order; [apply Ha|apply Ht].
Qed.

#[export] Instance offender_total : Total (not_after offender_less) := weak_total _ offender_less_weak.
#[export] Instance offender_transitive : Transitive (not_after offender_less) :=
  weak_transitive _ offender_less_weak.

(** No two offenders share a place. *)
Lemma offender_less_strict (i j : tupleKey * Z) : tied offender_less i j → i = j.
Proof.
  destruct string_less_strict as [_ Hs]. unfold tied. rewrite !offender_less_order.
  intros Ht. change (tied offender_order i j) in Ht. unfold offender_order in Ht.
  rewrite !then_by_tied in Ht.
  destruct Ht as ([H0 H0']&H1%Hs&H2%Hs&[H3 H3']&H4%Hs&H5%Hs). unfold on in *. simpl in *.
  destruct i as [[? ? ? ? ?] ci], j as [[? ? ? ? ?] cj]. simpl in *. f_equal; [f_equal|]; done || lia.
Qed.

Lemma offenders_sorted (all : list (tupleKey * Z)) :
  StronglySorted (not_after offender_less) (sort_Slice offender_less all).
Proof.
  apply Sorted_StronglySorted; [apply _|]. unfold sort_Slice. apply Sorted_merge_sort. apply _.
Qed.

(** The order in which the map is read does not matter. *)
Lemma top_of_read (all all' : list (tupleKey * Z)) (n : Z) : all ≡ₚ all' → top_of all n = top_of all' n.
Proof.
  intros Hp. unfold top_of. do 2 f_equal.
  apply (Sorted_unique_strong (not_after offender_less)).
  - intros x y _ _ H1 H2. by apply offender_less_strict.
  - apply StronglySorted_Sorted, offenders_sorted.
  - apply StronglySorted_Sorted, offenders_sorted.
  - by rewrite !sort_Slice_perm.
Qed.

(** ** What the counters say *)

Implicit Types (v : verdict) (rs : list verdict) (tk : tupleKey) (agg : policyAgg).

Definition denials tk rs : Z := Z.of_nat (length (filter (λ v, v_wouldDeny v = true ∧ v_tuple v = tk) rs)).

Definition denied rs : Z := Z.of_nat (length (filter (λ v, v_wouldDeny v = true) rs)).

Definition generation rs : Z := foldl Z.max 0 (v_generation <$> rs).

(** The counters of a policy are those of the verdicts [rs], in this order. *)
Record summarises rs agg : Prop := {
  su_evaluated : flowsEvaluated agg = Z.of_nat (length rs);
  su_denied : flowsWouldDeny agg = denied rs;
  su_last v : last rs = Some v → lastEvaluated agg = v_now v;
  su_generation : observedGeneration agg = generation rs;
  su_tuples tk n : tuples agg !! tk = Some n ↔ n = denials tk rs ∧ 0 < n
}.

Lemma i64_of_small (z : Z) : 0 ≤ z < 2 ^ 63 → i64_of z = z.
Proof. intros Hz. unfold i64_of. rewrite Z.mod_small; lia. Qed.

Lemma denials_snoc tk rs v :
  denials tk (rs ++ [v]) = denials tk rs + (if bool_decide (v_wouldDeny v = true ∧ v_tuple v = tk) then 1 else 0).
Proof.
  unfold denials. rewrite filter_app, length_app, Nat2Z.inj_add. f_equal.
  case_bool_decide; [by rewrite filter_cons_True|by rewrite filter_cons_False].
Qed.

Lemma denied_snoc rs v : denied (rs ++ [v]) = denied rs + (if v_wouldDeny v then 1 else 0).
Proof.
  unfold denied. rewrite filter_app, length_app, Nat2Z.inj_add. f_equal.
  destruct (v_wouldDeny v) eqn:E; [by rewrite filter_cons_True|rewrite filter_cons_False; [done|by rewrite E]].
Qed.

Lemma denied_length rs : 0 ≤ denied rs ≤ Z.of_nat (length rs).
Proof. unfold denied. pose proof (length_filter (λ v, v_wouldDeny v = true) rs). lia. Qed.

Lemma denials_denied tk rs : 0 ≤ denials tk rs ≤ denied rs.
Proof.
  unfold denials, denied. split; [lia|]. apply inj_le. induction rs as [|v rs IH]; [done|].
  rewrite !filter_cons. repeat case_decide; simpl; naive_solver lia.
Qed.

Lemma new_agg_summarises : summarises [] new_agg.
Proof. split; try done. intros tk n. simpl. rewrite lookup_empty. split; [done|]. unfold denials. simpl. lia. Qed.

(** One more verdict. *)
Lemma record_summarises rs v agg :
  Z.of_nat (length rs) < 2 ^ 63 - 1 → summarises rs agg → summarises (rs ++ [v]) (record_in v agg).
Proof.
  intros Hl [He Hd Hla Hg Ht]. pose proof (denied_length rs) as Hdl.
  assert (i64_succ (flowsEvaluated agg) = Z.of_nat (length (rs ++ [v]))) as He'.
  { rewrite length_app, He. unfold i64_succ. rewrite i64_of_small; simpl; lia. }
  assert ((if observedGeneration agg <? v_generation v then v_generation v else observedGeneration agg) =
    generation (rs ++ [v])) as Hg'.
  { unfold generation. rewrite fmap_app, foldl_app, Hg. cbn [foldl fmap list_fmap]. fold (generation rs).
    destruct (Z.ltb_spec (generation rs) (v_generation v)); lia. }
  assert (∀ w, last (rs ++ [v]) = Some w → v_now v = v_now w) as Hla' by (intros w; rewrite last_snoc; congruence).
  unfold record_in. destruct (v_wouldDeny v) eqn:E; simpl; split; simpl; try done.
  - rewrite denied_snoc, E, Hd. unfold i64_succ. rewrite i64_of_small; lia.
  - intros tk n. rewrite denials_snoc, E, lookup_insert. pose proof (denials_denied tk rs) as Hr. case_decide as Hk.
    + subst tk. rewrite bool_decide_eq_true_2 by done. assert (default 0 (tuples agg !! v_tuple v) = denials (v_tuple v) rs) as ->.
      { destruct (tuples agg !! v_tuple v) as [m|] eqn:Em; simpl; [by apply Ht in Em as [-> _]|].
        destruct (decide (0 < denials (v_tuple v) rs)); [|lia].
        by rewrite (proj2 (Ht (v_tuple v) (denials (v_tuple v) rs))) in Em. }
      unfold i64_succ. rewrite i64_of_small by lia. split; [intros [= <-]; lia|intros [-> _]; done].
    + rewrite bool_decide_eq_false_2 by (by intros [_ ?]). rewrite Z.add_0_r. apply Ht.
  - rewrite denied_snoc, E. lia.
  - intros tk n. rewrite denials_snoc, E, bool_decide_eq_false_2 by (by intros [? _]). rewrite Z.add_0_r. apply Ht.
Qed.

(** ** What a status reports *)

Definition key_of (o : OffenderSummary) : tupleKey :=
  MkTupleKey (of_SrcPod o) (of_DstPod o) (of_Protocol o) (of_Direction o) (of_DstPort o).

(** The [n] tuples that were denied most often, with how often they were. *)
Record top_offenders (n : Z) rs (l : list OffenderSummary) : Prop := {
  to_once : NoDup (key_of <$> l);
  to_counts o : o ∈ l → of_Count o = denials (key_of o) rs ∧ 0 < of_Count o;
  to_sorted : Sorted (λ o o', of_Count o' ≤ of_Count o) l;
  to_length : Z.of_nat (length l) ≤ n;
  to_top tk : 0 < denials tk rs → tk ∉ key_of <$> l →
    Z.of_nat (length l) = n ∧ ∀ o, o ∈ l → denials tk rs ≤ of_Count o
}.

(** The status [j] tells of the verdicts [rs] and of no others. *)
Record reports (n : Z) rs (j : status_json) : Prop := {
  re_generation : js_observedGeneration j = omitempty (generation rs);
  re_last : js_lastEvaluated j = v_now <$> last rs;
  re_evaluated : js_flowsEvaluated j = omitempty (Z.of_nat (length rs));
  re_denied : js_flowsWouldDeny j = omitempty (denied rs);
  re_offenders : match js_topOffenders j with
    | None => denied rs = 0
    | Some l => 0 < denied rs ∧ top_offenders n rs l
    end
}.

Lemma offender_key (p : tupleKey * Z) : key_of (offender_of p) = p.1.
Proof. by destruct p as [[] c]. Qed.

Lemma offender_less_count (p q : tupleKey * Z) : not_after offender_less p q → q.2 ≤ p.2.
Proof.
  unfold not_after, offender_less. destruct (Z.eqb_spec q.2 p.2) as [E|E]; [lia|]. cbn [negb].
  intros Hl. lia.
Qed.

Lemma top_of_spec (n : Z) rs agg :
  0 ≤ n → summarises rs agg → top_offenders n rs (top_of (map_to_list (tuples agg)) n).
Proof.
  intros Hn [_ _ _ _ Ht]. unfold top_of. set (all := map_to_list (tuples agg)).
  pose proof (sort_Slice_perm offender_less all) as Hp. pose proof (offenders_sorted all) as Hs.
  assert (NoDup (sort_Slice offender_less all).*1) as Hnd by (rewrite Hp; apply NoDup_fst_map_to_list).
  assert (∀ tk c, (tk, c) ∈ sort_Slice offender_less all ↔ c = denials tk rs ∧ 0 < c) as Hin.
  { intros tk c. rewrite Hp. unfold all. rewrite elem_of_map_to_list. apply Ht. }
  set (s := sort_Slice offender_less all) in *. clearbody s. clear Hp.
  set (k := Z.to_nat n). assert (Z.of_nat k = n) as Hk by lia. clearbody k.
  assert (∀ p, p ∈ take k s → p ∈ s) as Hsub.
  { intros p Hp. rewrite <- (take_drop k s). apply elem_of_app. by left. }
  assert (key_of <$> (offender_of <$> take k s) = take k s.*1) as Hkeys.
  { rewrite <- list_fmap_compose, <- fmap_take. apply list_fmap_ext. intros _ p _. apply offender_key. }
  split.
  - rewrite Hkeys. by eapply sublist_NoDup, sublist_take.
  - intros o ([tk c]&->&Hp%Hsub%Hin)%list_elem_of_fmap. rewrite offender_key. exact Hp.
  - apply StronglySorted_Sorted. clear -Hs. revert k. induction Hs as [|p l Hs IH Hf]; intros [|k]; simpl; [constructor..|].
    constructor; [apply IH|]. rewrite Forall_forall in Hf. apply Forall_forall. intros o (q&->&Hq)%list_elem_of_fmap.
    apply offender_less_count, Hf. rewrite <- (take_drop k l). apply elem_of_app. by left.
  - rewrite length_fmap, length_take. lia.
  - intros tk Hd. rewrite Hkeys. intros Hnot.
    assert ((tk, denials tk rs) ∈ drop k s) as Hdrop.
    { assert ((tk, denials tk rs) ∈ s) as Hs' by (by apply Hin). rewrite <- (take_drop k s) in Hs'.
      apply elem_of_app in Hs' as [Hs'|Hs']; [|done]. destruct Hnot. rewrite <- fmap_take.
      by apply (list_elem_of_fmap_2 fst) in Hs'. }
    split.
    + rewrite length_fmap, length_take. destruct (drop k s) as [|q l] eqn:E; [by apply not_elem_of_nil in Hdrop|].
      assert (k < length s)%nat; [|lia]. apply (f_equal length) in E. rewrite length_drop in E. simpl in E. lia.
    + intros o ([tk' c]&->&Hp)%list_elem_of_fmap.
      apply (offender_less_count (tk', c) (tk, denials tk rs)).
      rewrite <- (take_drop k s) in Hs. by eapply StronglySorted_app_1_elem_of.
Qed.

Lemma topOffenders_spec (n : Z) rs agg :
  0 < n → summarises rs agg →
  match topOffenders (tuples agg) n with
  | None => denied rs = 0
  | Some l => 0 < denied rs ∧ top_offenders n rs l
  end.
Proof.
  intros Hn Hs. unfold topOffenders. rewrite (proj2 (Z.leb_gt n 0)) by done. cbn [orb].
  destruct (Nat.eqb_spec (size (tuples agg)) 0) as [E|E].
  - apply map_size_empty_inv in E. destruct (filter (λ v, v_wouldDeny v = true) rs) as [|v l] eqn:Ef.
    { unfold denied. by rewrite Ef. }
    assert (v ∈ filter (λ v, v_wouldDeny v = true) rs) as [Hd Hv]%list_elem_of_filter by (rewrite Ef; by left).
    assert (v ∈ filter (λ w, v_wouldDeny w = true ∧ v_tuple w = v_tuple v) rs) as Hin by (by apply list_elem_of_filter).
    assert (tuples agg !! v_tuple v = Some (denials (v_tuple v) rs)) as Ht; [|by rewrite E, lookup_empty in Ht].
    apply (su_tuples _ _ Hs). split; [done|]. unfold denials.
    destruct (filter (λ w, v_wouldDeny w = true ∧ v_tuple w = v_tuple v) rs); [by apply not_elem_of_nil in Hin|simpl; lia].
  - split; [|apply top_of_spec; [lia|done]].
    destruct (map_choose (tuples agg)) as (tk&c&Ht); [intros Hemp; by rewrite Hemp, map_size_empty in E|].
    apply (su_tuples _ _ Hs) in Ht as [-> ?]. pose proof (denials_denied tk rs). lia.
Qed.

Lemma empty_reports (n : Z) : reports n [] empty_status.
Proof. by split. Qed.

(** ** Merging *)

Lemma denied_mono rs rs' : rs `prefix_of` rs' → denied rs ≤ denied rs'.
Proof. intros [l ->]. unfold denied. rewrite filter_app, length_app. lia. Qed.

Lemma foldl_max_le (l : list Z) (a : Z) : a ≤ foldl Z.max a l.
Proof. revert a. induction l as [|x l IH]; intros a; simpl; [lia|]. specialize (IH (a `max` x)). lia. Qed.

Lemma generation_mono rs rs' : rs `prefix_of` rs' → 0 ≤ generation rs ≤ generation rs'.
Proof.
  intros [l ->]. unfold generation. rewrite fmap_app, foldl_app. split; [apply foldl_max_le|]. apply foldl_max_le.
Qed.

Lemma merged_omitempty (n m : Z) : 0 ≤ m ≤ n → merged (omitempty n) (omitempty m) = omitempty n.
Proof. intros Hm. unfold omitempty, merged. destruct (Z.eqb_spec n 0); [|done]. by replace m with 0 by lia. Qed.

Section Merge.
Context `{ApiServerLaws} (topN : Z) (topN_pos : 0 < topN).

(** A patch on a status that tells of fewer verdicts of the same policy. *)
Lemma merge_reports rs0 rs agg (old : status_json) :
  rs0 `prefix_of` rs → rs ≠ [] → reports topN rs0 old → summarises rs agg →
  reports topN rs (merge (status_patch topN agg) old).
Proof.
  intros Hp Hne [Hg0 _ He0 Hd0 Ho0] Hs. pose proof Hs as [He Hd Hla Hg _].
  pose proof (generation_mono _ _ Hp) as Hgm. pose proof (denied_mono _ _ Hp) as Hdm.
  pose proof (denied_length rs0) as Hl0. pose proof (prefix_length _ _ Hp).
  split; unfold status_patch.
  - rewrite merge_generation, Hg0. simpl. rewrite Hg. by apply merged_omitempty.
  - rewrite merge_last. simpl. destruct (last rs) as [v|] eqn:E; [|by apply last_None in E].
    simpl. by rewrite (Hla v eq_refl).
  - rewrite merge_evaluated, He0. simpl. rewrite He. apply merged_omitempty. lia.
  - rewrite merge_denied, Hd0. simpl. rewrite Hd. apply merged_omitempty. lia.
  - rewrite merge_offenders. simpl. pose proof (topOffenders_spec topN rs agg topN_pos Hs) as Ht.
    destruct (topOffenders (tuples agg) topN) as [l|]; simpl; [done|].
    destruct (js_topOffenders old) as [l|]; [|done]. lia.
Qed.

End Merge.
