(* ===== verification/FlowAudit.v ===== *)
(** * broker/src/audit.rs: the flows that the broker has audited

    Each row that the broker inserts is queued, sent to the evaluator by a bounded number of workers, and
    the verdicts are stored.  The queue, the permits and the workers are one state with its events; what
    the evaluator and the database answer is part of the event that ends a worker.
    Then the theorems: no flow is lost on the way to the evaluator but those shed and counted; the queue
    drains; the stored rows are the answers; and what the audit answers for a policy that the advisor has
    generated. *)

From Stdlib Require Import Ascii.
From S2P Require Import Prelude RustStd RustText GoStd KubePolicy Matcher MatcherThms StandardPolicy.
From S2P Require Import StandardPolicyFacts StandardPolicyThms BrokerQueries PolicyService PolicyStore.
From S2P Require Broker.

(** ** Settings *)

(** [parse::<u64>] and [parse::<usize>]: no sign but a plus. *)
Definition parse_u64 (s : string) : option Z :=
  n ← (match s with String "+" t => unsigned_digits t | _ => unsigned_digits s end);
  if n <? 2 ^ 64 then Some n else None.

Definition parse_i32 (s : string) : option Z :=
  n ← signed_digits s;
  if (- 2 ^ 31 <=? n) && (n <? 2 ^ 31) then Some n else None.

(** A variable of the environment, trimmed, parsed, raised to a minimum; or a default. *)
Definition env_number (v : option string) (minimum default_ : Z) : Z :=
  default default_ (Z.max minimum <$> (v ≫= λ v, parse_u64 (trim v))).

Definition AUDIT_INFLIGHT_PERMITS : Z := 16.
Definition AUDIT_QUEUE_CAPACITY : Z := 2048.
Definition DEFAULT_AUDIT_EVAL_TIMEOUT_MS : Z := 500.
Definition MIN_AUDIT_EVAL_TIMEOUT_MS : Z := 50.

Definition audit_eval_timeout_ms (v : option string) : Z :=
  env_number v MIN_AUDIT_EVAL_TIMEOUT_MS DEFAULT_AUDIT_EVAL_TIMEOUT_MS.

(** ** Flows *)

(** The fields that are absent are left out of the JSON. *)
Record AuditFlow : Type := MkAuditFlow {
  src_pod_namespace : option string;
  src_pod_name : option string;
  dst_pod_namespace : option string;
  dst_pod_name : option string;
  src_ip : option string;
  dst_ip : option string;
  dst_port : Z;
  protocol : string
}.

Definition ascii_uppercase (a : ascii) : ascii :=
  let n := N_of_ascii a in if ((97 <=? n) && (n <=? 122))%N then ascii_of_N (n - 32) else a.

Fixpoint to_ascii_uppercase (s : string) : string :=
  match s with
  | EmptyString => EmptyString
  | String a s => String (ascii_uppercase a) (to_ascii_uppercase s)
  end.

Definition build_flow_for_traffic (traffic : Broker.PodTraffic) : option AuditFlow :=
  let raw_traffic_type := default EmptyString (Broker.traffic_type traffic) in
  let normalised := to_ascii_uppercase (trim raw_traffic_type) in
  let flow src_ns src_name src_ip dst_ns dst_name dst_ip dst_port_str :=
    MkAuditFlow src_ns src_name dst_ns dst_name src_ip dst_ip
      (default 0 (parse_i32 dst_port_str)) (default "TCP"%string (Broker.ip_protocol traffic)) in
  if String.eqb normalised "INGRESS" then
    Some (flow None None (Broker.traffic_in_out_ip traffic)
      (Broker.pod_namespace traffic) (Broker.pod_name traffic) (Broker.pod_ip traffic)
      (default "0"%string (Broker.pod_port traffic)))
  else if String.eqb normalised "EGRESS" then
    Some (flow (Broker.pod_namespace traffic) (Broker.pod_name traffic) (Broker.pod_ip traffic)
      None None (Broker.traffic_in_out_ip traffic)
      (default "0"%string (Broker.traffic_in_out_port traffic)))
  else None.

(** The flow as the evaluator decodes it. *)
Definition decoded (f : AuditFlow) : Flow :=
  let text := default EmptyString in
  MkFlow (text (src_pod_namespace f)) (text (src_pod_name f)) (text (dst_pod_namespace f))
    (text (dst_pod_name f)) (text (src_ip f)) (text (dst_ip f)) (dst_port f) (protocol f).

(** ** Verdicts *)

Definition is_persistable_verdict (verdict : string) : bool :=
  String.eqb verdict "Allow" || String.eqb verdict "WouldDeny".

(** A row without its id, which the table gives. *)
Record AuditVerdictInsert : Type := MkInsert {
  ai_policy_uid : string;
  ai_policy_namespace : string;
  ai_policy_name : string;
  ai_direction : string;
  ai_src_namespace : option string;
  ai_src_pod : option string;
  ai_dst_namespace : option string;
  ai_dst_pod : option string;
  ai_dst_port : Z;
  ai_protocol : string;
  ai_reason : option string;
  ai_observed_at : Z;
  ai_verdict : string
}.

Definition insert_of (flow : AuditFlow) (now : Z) (r : Result) : AuditVerdictInsert :=
  MkInsert (PolicyUID r) (PolicyNamespace r) (PolicyName r) (Direction r)
    (src_pod_namespace flow) (src_pod_name flow) (dst_pod_namespace flow) (dst_pod_name flow)
    (dst_port flow) (protocol flow)
    (if String.eqb (Reason r) EmptyString then None else Some (Reason r)) now (Verdict r).

(** What the evaluator answers: nothing in time, a status, a body that does not decode, or results. *)
Inductive evaluator_answer : Type :=
| EvaluatorUnreachable
| EvaluatorRefused (status : Z)
| Undecodable
| Evaluated (results : list Result).

(** The rows to store; [inserted] tells whether a connection was free and the insertion succeeded. *)
Definition evaluate_and_persist (traffic : Broker.PodTraffic) (answer : evaluator_answer) (now : Z)
    (inserted : bool) : list AuditVerdictInsert :=
  match build_flow_for_traffic traffic with
  | None => []
  | Some flow =>
      match answer with
      | Evaluated results =>
          let to_insert := insert_of flow now <$> filter (λ r, is_persistable_verdict (Verdict r) = true) results in
          if inserted then to_insert else []
      | _ => []
      end
  end.

(** ** The queue and the workers *)

Record AuditClient : Type := MkAuditClient {
  enabled : bool;
  base_url : string;
  permits : nat;
  capacity : option nat;
  queue : list Broker.PodTraffic;
  holding : bool;
  in_flight : list Broker.PodTraffic;
  dropped : list Broker.PodTraffic;
  finished : list Broker.PodTraffic;
  audit_verdicts : list AuditVerdictInsert
}.

(** [from_env], then [start]: a disabled client has no queue.  Histories start empty. *)
Definition from_env (evaluator_url inflight_permits : option string) : AuditClient :=
  let base_url := trim (default EmptyString evaluator_url) in
  MkAuditClient (negb (String.eqb base_url EmptyString)) base_url
    (Z.to_nat (env_number inflight_permits 1 AUDIT_INFLIGHT_PERMITS)) None [] false [] [] [] [].

Definition start (queue_capacity : option string) (c : AuditClient) : AuditClient :=
  if negb (enabled c) then c else
  MkAuditClient (enabled c) (base_url c) (permits c)
    (Some (Z.to_nat (env_number queue_capacity 1 AUDIT_QUEUE_CAPACITY)))
    (queue c) (holding c) (in_flight c) (dropped c) (finished c) (audit_verdicts c).

Definition set_queue (q : list Broker.PodTraffic) (c : AuditClient) : AuditClient :=
  MkAuditClient (enabled c) (base_url c) (permits c) (capacity c) q (holding c) (in_flight c)
    (dropped c) (finished c) (audit_verdicts c).

Definition shed (traffic : Broker.PodTraffic) (c : AuditClient) : AuditClient :=
  MkAuditClient (enabled c) (base_url c) (permits c) (capacity c) (queue c) (holding c) (in_flight c)
    (dropped c ++ [traffic]) (finished c) (audit_verdicts c).

Definition try_enqueue (traffic : Broker.PodTraffic) (c : AuditClient) : AuditClient :=
  match capacity c with
  | None => c
  | Some n => if (length (queue c) <? n)%nat then set_queue (queue c ++ [traffic]) c else shed traffic c
  end.

Definition dropped_count (c : AuditClient) : nat := length (dropped c).

Definition available_permits (c : AuditClient) : nat :=
  permits c - length (in_flight c) - (if holding c then 1 else 0).

(** The handler of a batch: the rows that were inserted are enqueued. *)
Definition enqueue_inserted (inserted : list Broker.PodTraffic) (c : AuditClient) : AuditClient :=
  if enabled c then foldl (λ c traffic, try_enqueue traffic c) c inserted else c.

(** A turn of the dispatcher: it waits for a permit, and then for a flow; the worker at position [i]
    ends with what it was answered. *)
Inductive audit_event : Type :=
| Ingested (inserted : list Broker.PodTraffic)
| Acquire
| Receive
| Finish (i : nat) (answer : evaluator_answer) (now : Z) (inserted : bool).

Definition audit_step (e : audit_event) (c : AuditClient) : option AuditClient :=
  match e with
  | Ingested inserted => Some (enqueue_inserted inserted c)
  | Acquire =>
      if negb (holding c) && (length (in_flight c) <? permits c)%nat && bool_decide (is_Some (capacity c))
      then Some (MkAuditClient (enabled c) (base_url c) (permits c) (capacity c) (queue c) true
        (in_flight c) (dropped c) (finished c) (audit_verdicts c))
      else None
  | Receive =>
      if holding c then
        match queue c with
        | [] => None
        | traffic :: queue =>
            Some (MkAuditClient (enabled c) (base_url c) (permits c) (capacity c) queue false
              (in_flight c ++ [traffic]) (dropped c) (finished c) (audit_verdicts c))
        end
      else None
  | Finish i answer now inserted =>
      match in_flight c !! i with
      | None => None
      | Some traffic =>
          Some (MkAuditClient (enabled c) (base_url c) (permits c) (capacity c) (queue c) (holding c)
            (delete i (in_flight c)) (dropped c) (finished c ++ [traffic])
            (audit_verdicts c ++ evaluate_and_persist traffic answer now inserted))
      end
  end.

Fixpoint audit_run (es : list audit_event) (c : AuditClient) : option AuditClient :=
  match es with
  | [] => Some c
  | e :: es => c ← audit_step e c; audit_run es c
  end.

(** * Theorems about the audit of flows *)

(** ** Settings *)

Lemma env_number_min (v : option string) (minimum default_ : Z) :
  minimum ≤ default_ → minimum ≤ env_number v minimum default_.
Proof. intros Hd. unfold env_number. destruct (v ≫= _); simpl; lia. Qed.

(** ** Conservation *)

(** The flows that the handlers have handed over. *)
Definition ingested (es : list audit_event) : list Broker.PodTraffic :=
  es ≫= λ e, match e with Ingested inserted => inserted | _ => [] end.

Definition held (c : AuditClient) : nat := length (in_flight c) + (if holding c then 1 else 0).

Record audit_ok (c : AuditClient) (handed : list Broker.PodTraffic) : Prop := {
  ao_permits : (held c ≤ permits c)%nat;
  ao_capacity n : capacity c = Some n → (length (queue c) ≤ n)%nat;
  ao_conserved : handed ≡ₚ queue c ++ in_flight c ++ finished c ++ dropped c
}.

(** The settings of a client do not change. *)
Definition same_settings (c c' : AuditClient) : Prop :=
  enabled c' = enabled c ∧ permits c' = permits c ∧ capacity c' = capacity c.

Lemma try_enqueue_ok (traffic : Broker.PodTraffic) (c : AuditClient) (handed : list Broker.PodTraffic) :
  is_Some (capacity c) → audit_ok c handed →
  audit_ok (try_enqueue traffic c) (handed ++ [traffic]) ∧ same_settings c (try_enqueue traffic c).
Proof.
  intros [n Hn] [Hp Hc Hd]. unfold try_enqueue. rewrite Hn. destruct (Nat.ltb_spec (length (queue c)) n).
  - split; [|done]. split; simpl; [done| |].
    + intros m. rewrite Hn. intros [= <-]. rewrite length_app. simpl. lia.
    + rewrite Hd. rewrite <- !app_assoc. f_equiv. symmetry. rewrite Permutation_app_comm. by rewrite <- !app_assoc.
  - split; [|done]. split; simpl; [done|done|]. rewrite Hd. by rewrite <- !app_assoc.
Qed.

Lemma enqueue_ok (inserted : list Broker.PodTraffic) (c : AuditClient) (handed : list Broker.PodTraffic) :
  is_Some (capacity c) → audit_ok c handed →
  audit_ok (foldl (λ c traffic, try_enqueue traffic c) c inserted) (handed ++ inserted) ∧
  same_settings c (foldl (λ c traffic, try_enqueue traffic c) c inserted).
Proof.
  revert c handed. induction inserted as [|t inserted IH]; intros c handed Hs Hok; simpl.
  { rewrite app_nil_r. by split. }
  destruct (try_enqueue_ok t c handed Hs Hok) as [Hok' (He&Hp&Hc)].
  destruct (IH (try_enqueue t c) (handed ++ [t])) as [Hok'' (He'&Hp'&Hc')]; [by rewrite Hc|done|].
  rewrite <- app_assoc in Hok''. split; [done|]. unfold same_settings. by rewrite He', Hp', Hc'.
Qed.

Definition started (c : AuditClient) : Prop := enabled c = true ∧ is_Some (capacity c).

Lemma audit_step_ok (e : audit_event) (c c' : AuditClient) (handed : list Broker.PodTraffic) :
  started c → audit_ok c handed → audit_step e c = Some c' →
  audit_ok c' (handed ++ ingested [e]) ∧ same_settings c c'.
Proof.
  intros [He Hs] Hok. pose proof Hok as [Hp Hc Hd]. destruct e as [inserted| | |i answer now inserted]; simpl.
  - intros [= <-]. unfold enqueue_inserted. rewrite He, app_nil_r. by apply enqueue_ok.
  - unfold held in Hp. destruct (holding c); simpl; [done|].
    destruct (Nat.ltb_spec (length (in_flight c)) (permits c)); [|done]. case_bool_decide; [|done].
    intros [= <-]. rewrite app_nil_r. split; [|done]. split; simpl; [unfold held; simpl; lia|done|done].
  - destruct (holding c) eqn:Hh; [|done]. destruct (queue c) as [|t q] eqn:Hq; [done|]. intros [= <-].
    rewrite app_nil_r. split; [|done]. unfold held in Hp. rewrite Hh in Hp. split; simpl.
    + unfold held. simpl. rewrite length_app. simpl. lia.
    + intros n Hn. specialize (Hc n Hn). simpl in Hc. lia.
    + rewrite Hd. simpl. rewrite <- (app_assoc (in_flight c)). simpl.
      by rewrite <- (Permutation_middle (in_flight c)), <- (Permutation_middle q).
  - destruct (in_flight c !! i) as [t|] eqn:Hi; [|done]. intros [= <-]. rewrite app_nil_r. split; [|done].
    pose proof (delete_Permutation _ _ _ Hi) as Hperm. pose proof (Permutation_length Hperm) as Hl. simpl in Hl.
    unfold held in Hp. split; simpl; [unfold held; simpl; lia|done|].
    clear Hl. set (rest := delete i (in_flight c)) in *. clearbody rest. rewrite Hd, Hperm. simpl.
    rewrite <- !app_assoc. simpl. by rewrite <- (Permutation_middle (finished c)), <- (Permutation_middle rest).
Qed.

Lemma audit_run_ok (es : list audit_event) (c c' : AuditClient) (handed : list Broker.PodTraffic) :
  started c → audit_ok c handed → audit_run es c = Some c' →
  audit_ok c' (handed ++ ingested es) ∧ same_settings c c'.
Proof.
  revert c handed. induction es as [|e es IH]; intros c handed Hs Hok; simpl.
  { intros [= <-]. unfold ingested. simpl. rewrite app_nil_r. by split. }
  destruct (audit_step e c) as [c1|] eqn:He; simpl; [|done]. intros Hr.
  destruct (audit_step_ok _ _ _ _ Hs Hok He) as [Hok1 (H1&H2&H3)].
  destruct (IH c1 _ ltac:(unfold started; by rewrite H1, H3) Hok1 Hr) as [Hok' (H1'&H2'&H3')].
  split; [|unfold same_settings; by rewrite H1', H2', H3'].
  unfold ingested in *. cbn [mbind list_bind] in *. by rewrite app_nil_r, <- app_assoc in Hok'.
Qed.

Definition started_client (url inflight queue_capacity : option string) : AuditClient :=
  start queue_capacity (from_env url inflight).

Lemma started_client_ok (url inflight queue_capacity : option string) :
  enabled (started_client url inflight queue_capacity) = true →
  started (started_client url inflight queue_capacity) ∧
  audit_ok (started_client url inflight queue_capacity) [] ∧
  (1 ≤ permits (started_client url inflight queue_capacity))%nat ∧
  ∃ n, capacity (started_client url inflight queue_capacity) = Some n ∧ (1 ≤ n)%nat.
Proof.
  unfold started_client, start. destruct (enabled (from_env url inflight)) eqn:He; cbn [negb]; [|by rewrite He].
  intros _. pose proof (env_number_min inflight 1 AUDIT_INFLIGHT_PERMITS ltac:(done)).
  pose proof (env_number_min queue_capacity 1 AUDIT_QUEUE_CAPACITY ltac:(done)).
  split; [split; [done|by eexists]|]. split; [|split; [cbn [permits from_env]; lia|eexists; split; [done|lia]]].
  split; [unfold held; simpl; lia|simpl; intros; lia|done].
Qed.

(** in any run of an enabled client, whatever its settings, each flow that was handed over is waiting,
    being evaluated, finished, or was shed and counted; at most as many wait as the queue holds, and at
    most as many are evaluated as there are permits, of which there is at least one. *)
Theorem audit_conserves_flows (url inflight queue_capacity : option string) (es : list audit_event) (c : AuditClient) :
  let c0 := started_client url inflight queue_capacity in
  enabled c0 = true → audit_run es c0 = Some c →
  ingested es ≡ₚ queue c ++ in_flight c ++ finished c ++ dropped c ∧
  dropped_count c = length (dropped c) ∧
  (∃ n, capacity c = Some n ∧ (1 ≤ n)%nat ∧ (length (queue c) ≤ n)%nat) ∧
  (1 ≤ permits c)%nat ∧ (length (in_flight c) + available_permits c ≤ permits c)%nat.
Proof.
  intros c0 He Hr. destruct (started_client_ok _ _ _ He) as (Hs&Hok&Hp&n&Hn&Hn1).
  destruct (audit_run_ok _ _ _ _ Hs Hok Hr) as [[Hp' Hc' Hd'] (H1&H2&H3)]. fold c0 in Hp, Hn, H2, H3.
  split; [done|]. split; [done|]. split; [exists n; rewrite H3 in *; split_and!; [done|done|by apply Hc']|].
  split; [by rewrite H2|]. unfold held in Hp'. unfold available_permits. lia.
Qed.

(** ** The queue drains *)

(** What is left to do: a flow that waits is received and ends, and takes a permit before. *)
Definition work (c : AuditClient) : nat :=
  4 * length (queue c) + 2 * length (in_flight c) + (if holding c then 0 else 1).

Lemma work_decreases (e : audit_event) (c c' : AuditClient) :
  (∀ inserted, e ≠ Ingested inserted) → audit_step e c = Some c' → (work c' < work c)%nat.
Proof.
  intros Hni. unfold work. destruct e as [inserted| | |i answer now inserted]; simpl.
  - by destruct (Hni inserted).
  - destruct (holding c); simpl; [done|]. destruct (_ <? _)%nat; [|done]. case_bool_decide; [|done].
    intros [= <-]. simpl. lia.
  - destruct (holding c); [|done]. destruct (queue c) as [|t q]; [done|]. intros [= <-]. simpl.
    rewrite length_app. simpl. lia.
  - destruct (in_flight c !! i) as [t|] eqn:Hi; [|done]. intros [= <-]. simpl.
    apply delete_Permutation, Permutation_length in Hi. simpl in Hi. lia.
Qed.

Definition quiet (e : audit_event) : Prop := ∀ inserted, e ≠ Ingested inserted.

Lemma quiet_run_short (es : list audit_event) (c c' : AuditClient) :
  Forall quiet es → audit_run es c = Some c' → (length es + work c' ≤ work c)%nat.
Proof.
  revert c. induction es as [|e es IH]; intros c Hq; simpl; [by intros [= <-]|].
  apply Forall_cons in Hq as [He Hq]. destruct (audit_step e c) as [c1|] eqn:Hs; simpl; [|done]. intros Hr.
  specialize (IH _ Hq Hr). assert (work c1 < work c)%nat; [|lia].
  by eapply work_decreases.
Qed.

(** C29: the audit comes to rest.  While nothing new is handed over, a run is no longer than the work that
    was left, whatever the evaluator and the database answer; and where no event is possible any more,
    no flow is waiting and none is being evaluated. *)
Theorem audit_comes_to_rest (url inflight queue_capacity : option string) (before es : list audit_event)
    (c c' : AuditClient) :
  let c0 := started_client url inflight queue_capacity in
  enabled c0 = true → audit_run before c0 = Some c → Forall quiet es → audit_run es c = Some c' →
  (length es ≤ work c)%nat ∧
  ((∀ e, quiet e → audit_step e c' = None) → queue c' = [] ∧ in_flight c' = []).
Proof.
  intros c0 He Hb Hq Hr. split; [pose proof (quiet_run_short _ _ _ Hq Hr); lia|].
  destruct (started_client_ok _ _ _ He) as (Hs&Hok&Hp&n&Hn&_). fold c0 in Hs, Hok, Hp, Hn.
  destruct (audit_run_ok _ _ _ _ Hs Hok Hb) as [Hok1 (H1&H2&H3)].
  destruct (audit_run_ok es c c' _ ltac:(unfold started; rewrite H1, H3; exact Hs) Hok1 Hr) as [_ (H1'&H2'&H3')].
  intros Hstuck. assert (in_flight c' = []) as Hi.
  { destruct (in_flight c') as [|t l] eqn:E; [done|].
    specialize (Hstuck (Finish 0 Undecodable 0 true) ltac:(done)). simpl in Hstuck. by rewrite E in Hstuck. }
  split; [|done]. destruct (holding c') eqn:Hh.
  - specialize (Hstuck Receive ltac:(done)). simpl in Hstuck. rewrite Hh in Hstuck. by destruct (queue c').
  - specialize (Hstuck Acquire ltac:(done)). simpl in Hstuck. rewrite Hh, Hi, H3', H3, Hn, H2', H2 in Hstuck.
    simpl in Hstuck. destruct (Nat.ltb_spec 0 (permits c0)); [done|lia].
Qed.

(** ** The stored rows *)

(** A row that one evaluation of the flow has given. *)
Definition row_of (traffic : Broker.PodTraffic) (row : AuditVerdictInsert) : Prop :=
  ∃ flow (results : list Result) now r,
    build_flow_for_traffic traffic = Some flow ∧ r ∈ results ∧ row = insert_of flow now r ∧
    (Verdict r = VerdictAllow ∨ Verdict r = VerdictWouldDeny).

Lemma evaluate_rows (traffic : Broker.PodTraffic) (answer : evaluator_answer) (now : Z) (inserted : bool)
    (row : AuditVerdictInsert) :
  row ∈ evaluate_and_persist traffic answer now inserted → row_of traffic row.
Proof.
  unfold evaluate_and_persist. destruct (build_flow_for_traffic traffic) as [flow|] eqn:Hf; [|by intros ?%not_elem_of_nil].
  destruct answer as [|?| |results]; try by intros ?%not_elem_of_nil.
  destruct inserted; [|by intros ?%not_elem_of_nil].
  intros (r&->&[Hv Hr]%list_elem_of_filter)%list_elem_of_fmap. exists flow, results, now, r.
  split_and!; [done..|]. unfold is_persistable_verdict in Hv.
  apply orb_true_iff in Hv as [?%String.eqb_eq|?%String.eqb_eq]; [by left|by right].
Qed.

(** the table of verdicts holds only answers to flows that were audited, and of these only what was
    allowed or would be denied; a flow that the evaluator does not answer leaves no row. *)
Theorem stored_verdicts_are_answers (es : list audit_event) (c c' : AuditClient) (row : AuditVerdictInsert) :
  audit_verdicts c = [] → audit_run es c = Some c' → row ∈ audit_verdicts c' →
  ∃ traffic, traffic ∈ finished c' ∧ row_of traffic row.
Proof.
  intros Hc. assert (∀ row, row ∈ audit_verdicts c → ∃ traffic, traffic ∈ finished c ∧ row_of traffic row) as Hinv
    by (rewrite Hc; by intros ? ?%not_elem_of_nil).
  clear Hc. revert c Hinv. induction es as [|e es IH]; intros c Hinv; simpl.
  { intros [= <-]. by apply Hinv. }
  destruct (audit_step e c) as [c1|] eqn:Hs; simpl; [|done]. apply IH. clear IH c' row.
  destruct e as [inserted| | |i answer now inserted]; simpl in Hs.
  - injection Hs as <-. unfold enqueue_inserted. destruct (enabled c); [|exact Hinv].
    revert c Hinv. induction inserted as [|t inserted IH]; intros c Hinv; simpl; [done|]. apply IH.
    unfold try_enqueue. destruct (capacity c); [|done]. by destruct (_ <? _)%nat.
  - destruct (_ && _ && _); [|done]. by injection Hs as <-.
  - destruct (holding c); [|done]. destruct (queue c); [done|]. by injection Hs as <-.
  - destruct (in_flight c !! i) as [t|]; [|done]. injection Hs as <-. simpl. intros row [Hr|Hr]%elem_of_app.
    + destruct (Hinv _ Hr) as (t'&Ht&Hrow). exists t'. split; [|done]. apply elem_of_app. by left.
    + exists t. split; [apply elem_of_app; right; by left|by eapply evaluate_rows].
Qed.

(** ** The audit of a generated policy *)

Section Policies.
Context `{SelectorLaws}.

Definition flow_direction (traffic : Broker.PodTraffic) : option string :=
  let normalised := to_ascii_uppercase (trim (default EmptyString (Broker.traffic_type traffic))) in
  if String.eqb normalised "INGRESS" then Some DirectionIngress
  else if String.eqb normalised "EGRESS" then Some DirectionEgress else None.

(** The audit does not know the pod at the other end. *)
Lemma audit_has_no_peer (traffic : Broker.PodTraffic) (f : AuditFlow) (dir : string) (i : informers) :
  build_flow_for_traffic traffic = Some f → flow_direction traffic = Some dir →
  direction dir ∧ peerPod (decoded f) dir (store_lookup i) = None.
Proof.
  unfold build_flow_for_traffic, flow_direction.
  destruct (String.eqb _ "INGRESS"); [|destruct (String.eqb _ "EGRESS"); [|done]];
    intros [= <-] [= <-]; (split; [by (left + right)|done]).
Qed.

(** C35: the audit rejects what the advisor has learnt.  When the peers of a port are known as pods or
    services, the generated policy names them by their labels, and the flow that the broker audits
    carries the address of its peer only: the verdict is that the policy would deny it, although the
    policy was generated from that very flow. *)
Theorem audit_denies_learnt_flow (data : BrokerData) (name : string) (rows : list PodTraffic)
    (detail : PodDetail) (policy : NetworkPolicy) (traffic : Broker.PodTraffic) (f : AuditFlow)
    (dir peer : string) (i : informers) :
  Generate data name rows (Some detail) = inr policy → valid_labels (pd_Labels detail) →
  build_flow_for_traffic traffic = Some f → flow_direction traffic = Some dir →
  protects detail (decoded f) dir (store_lookup i) →
  api_traffic traffic ∈ rows →
  observes detail dir (api_traffic traffic) peer (dst_port f) (protocol f) →
  (∀ address, observed detail rows dir address (dst_port f) (protocol f) → is_Some (resolve data address)) →
  ∃ r, r ∈ Match (decoded f) (audited policy) (store_lookup i) ∧ Direction r = dir ∧
    Verdict r = VerdictWouldDeny.
Proof.
  intros Hg%Generate_generated Hv Hf Hdir Hp Hin Hobs Hres.
  assert (shows rows detail dir) as Hsh by (eexists _, _, _; by exists (api_traffic traffic)).
  destruct (audit_has_no_peer _ _ _ i Hf Hdir) as [Hd Hnone].
  exists (match_direction (decoded f) (audited policy) (store_lookup i) dir).
  rewrite match_elem, match_direction_dir. simpl. rewrite (generated_about _ _ _ _ _ Hg).
  split_and!; [done|by left|done|done|].
  eapply verdict_unique; [by apply match_direction_verdict|]. apply verdict_denies.
  - by eapply generated_applies.
  - rewrite (generated_permitted _ _ _ _ _ _ _ Hg Hd). intros (address&Ho&e&Hc&Ha).
    destruct (Hres address Ho) as [[lbls ns] Hr]. rewrite createPeer_resolve, Hr in Hc. injection Hc as <-.
    destruct Ha as (other&Hother&_). by rewrite Hnone in Hother.
Qed.

End Policies.
