(* ===== verification/Retention.v ===== *)
(** * broker/src/retention.rs: the pruning of old rows

    The two batched deletions and their passes, on tables as lists of rows with a key.  A pass takes the
    answer of each of its batches, the time at which the batch runs, and what other statements have made
    of the table since the batch before.
    Then the theorems: a pass is bounded, exact when nothing disturbs it, and spares what is alive. *)

From stdpp Require Import sorting.
From S2P Require Import Prelude RustStd PodDetails RustText GoStd BrokerQueries FlowAudit.

(** ** Settings *)

Definition DEFAULT_RETENTION_DAYS : Z := 30.
Definition DEFAULT_INTERVAL_SECS : Z := 3600.
Definition DEFAULT_BATCH_SIZE : Z := 5000.
Definition MIN_BATCH_SIZE : Z := 100.
Definition MAX_BATCH_SIZE : Z := 100000.
Definition MAX_BATCHES_PER_PASS : nat := 200.
Definition DEFAULT_DEAD_POD_RETENTION_DAYS : Z := 7.

Definition parse_u32 (s : string) : option Z :=
  n ← parse_u64 s; if n <? 2 ^ 32 then Some n else None.

Definition parse_i64 (s : string) : option Z :=
  n ← signed_digits s; if (- 2 ^ 63 <=? n) && (n <? 2 ^ 63) then Some n else None.

(** The argument is the variable of the environment, where it is set. *)
Definition retention_days (v : option string) : Z :=
  default DEFAULT_RETENTION_DAYS (v ≫= λ v, parse_u32 (trim v)).

Definition retention_interval (v : option string) : Z :=
  Z.max (default DEFAULT_INTERVAL_SECS (v ≫= λ v, parse_u64 (trim v))) 60.

Definition retention_batch_size (v : option string) : Z :=
  default DEFAULT_BATCH_SIZE
    ((λ n, clamp n MIN_BATCH_SIZE MAX_BATCH_SIZE) <$> (v ≫= λ v, parse_i64 (trim v))).

Definition dead_pod_retention_window (audit_days : Z) : Z :=
  if 0 <? audit_days then audit_days else DEFAULT_DEAD_POD_RETENTION_DAYS.

(** [INTERVAL '<n> days'], in nanoseconds. *)
Definition days (n : Z) : Z := n * 86400 * 10 ^ 9.

(** ** Batches *)

Section Batch.
Context {A K : Type} `{EqDecision K} (key : A → K) (key_le : relation A) `{!RelDecision key_le}.

(** [WITH expired AS (SELECT .. ORDER BY key LIMIT n) DELETE .. WHERE key IN ..]: the number of rows
    deleted, and the table. *)
Definition delete_batch (expired : A → bool) (batch_size : Z) (rows : list A) : nat * list A :=
  let chosen := limit batch_size (merge_sort key_le (filter (λ r, expired r = true) rows)) in
  let kept := filter (λ r, key r ∉ (key <$> chosen)) rows in
  ((length rows - length kept)%nat, kept).

Inductive batch_answer : Type := BatchOk | PoolError | DieselError | Panicked.

Record batch_env : Type := MkBatchEnv {
  be_answer : batch_answer;
  be_now : Z;
  be_others : list A → list A
}.

Inductive pass_end : Type := WindowEmpty | PassFailed | BatchCap.

(** [n] batches are left; the rows deleted so far, how the pass ends, and the table. *)
Fixpoint pass_loop (expired : Z → A → bool) (batch_size : Z) (env : nat → batch_env) (n idx : nat)
    (total_deleted : nat) (rows : list A) : nat * pass_end * list A :=
  match n with
  | O => (total_deleted, BatchCap, rows)
  | S n =>
      let e := env idx in
      let rows := be_others e rows in
      match be_answer e with
      | BatchOk =>
          let '(deleted, rows') := delete_batch (expired (be_now e)) batch_size rows in
          if (deleted =? 0)%nat then (total_deleted, WindowEmpty, rows')
          else pass_loop expired batch_size env n (S idx) (total_deleted + deleted) rows'
      | _ => (total_deleted, PassFailed, rows)
      end
  end.

Definition run_pass_of (expired : Z → A → bool) (batch_size : Z) (env : nat → batch_env) (rows : list A) :
    nat * pass_end * list A :=
  pass_loop expired batch_size env MAX_BATCHES_PER_PASS 0 0 rows.

End Batch.

Arguments batch_env : clear implicits.

(** ** The two tables *)

Definition verdict_expired (n : Z) (now : Z) (row : AuditVerdict) : bool := av_observed_at row <? now - days n.

Definition id_le (a b : AuditVerdict) : Prop := av_id a ≤ av_id b.

#[export] Instance id_le_dec : RelDecision id_le.
Proof. intros a b. unfold id_le. apply _. Defined.

Definition run_pass (n batch_size : Z) : (nat → batch_env AuditVerdict) → list AuditVerdict →
    nat * pass_end * list AuditVerdict :=
  run_pass_of av_id id_le (verdict_expired n) batch_size.

Definition pod_expired (n : Z) (now : Z) (row : PodDetail) : bool :=
  is_dead row && (time_stamp row <? now - days n).

Section Pods.
Context `{Collation}.

Definition pod_name_le (a b : PodDetail) : Prop := collate (pod_name a) (pod_name b).

#[export] Instance pod_name_le_dec : RelDecision pod_name_le.
Proof. intros a b. unfold pod_name_le. apply _. Defined.

Definition run_dead_pod_pass (n batch_size : Z) : (nat → batch_env PodDetail) → list PodDetail →
    nat * pass_end * list PodDetail :=
  run_pass_of pod_name pod_name_le (pod_expired n) batch_size.

(** A turn of the task: what is set in the environment, and the two tables. *)
Definition retention_turn (days_setting batch_setting : option string)
    (verdict_env : nat → batch_env AuditVerdict) (pod_env : nat → batch_env PodDetail)
    (verdicts : list AuditVerdict) (pods : list PodDetail) : list AuditVerdict * list PodDetail :=
  let audit_days := retention_days days_setting in
  let dead_pod_days := dead_pod_retention_window audit_days in
  let batch_size := retention_batch_size batch_setting in
  let verdicts :=
    if 0 <? audit_days then (run_pass audit_days batch_size verdict_env verdicts).2 else verdicts in
  (verdicts, (run_dead_pod_pass dead_pod_days batch_size pod_env pods).2).

End Pods.

(** * Theorems about the pruning of old rows *)

(** ** Settings *)

Lemma clamp_range (n low high : Z) : low ≤ high → low ≤ clamp n low high ≤ high.
Proof. unfold clamp. lia. Qed.

Lemma batch_size_range (v : option string) : MIN_BATCH_SIZE ≤ retention_batch_size v ≤ MAX_BATCH_SIZE.
Proof.
  unfold retention_batch_size. destruct (v ≫= _) as [n|]; simpl; [|done]. by apply clamp_range.
Qed.

Lemma window_positive (n : Z) : 0 < dead_pod_retention_window n.
Proof. unfold dead_pod_retention_window. by destruct (Z.ltb_spec 0 n). Qed.

(** ** Batches *)

Section Batch.
Context {A K : Type} `{EqDecision K} (key : A → K) (key_le : relation A) `{!RelDecision key_le}.
Implicit Types (rows : list A) (expired : A → bool).

#[local] Abbreviation batch := (delete_batch key key_le).

Lemma limit_length (n : Z) rows : (length (limit n rows) ≤ Z.to_nat n)%nat.
Proof. unfold limit. rewrite length_take. lia. Qed.

(** The rows that a batch deletes. *)
Definition chosen expired (n : Z) rows : list A :=
  limit n (merge_sort key_le (filter (λ r, expired r = true) rows)).

Definition unique_keys rows : Prop := NoDup (key <$> rows).

Lemma chosen_elem expired (n : Z) rows (r : A) : r ∈ chosen expired n rows → r ∈ rows ∧ expired r = true.
Proof.
  intros Hr. apply (elem_of_submseteq _ (merge_sort key_le (filter (λ r, expired r = true) rows))) in Hr.
  - rewrite merge_sort_Permutation, list_elem_of_filter in Hr. naive_solver.
  - unfold chosen, limit. apply sublist_submseteq, sublist_take.
Qed.

Lemma chosen_length expired (n : Z) rows :
  length (chosen expired n rows) = Nat.min (Z.to_nat n) (length (filter (λ r, expired r = true) rows)).
Proof.
  unfold chosen, limit. rewrite length_take. f_equal. apply Permutation_length, merge_sort_Permutation.
Qed.

Lemma key_determines rows (r r' : A) : unique_keys rows → r ∈ rows → r' ∈ rows → key r = key r' → r = r'.
Proof.
  intros Hn Hr Hr' Hk. apply list_elem_of_lookup in Hr as [i Hi], Hr' as [j Hj].
  assert (i = j) as ->; [|congruence].
  eapply (NoDup_lookup (key <$> rows)); [done|by rewrite list_lookup_fmap, Hi|by rewrite list_lookup_fmap, Hj, Hk].
Qed.

Lemma unique_nodup rows : unique_keys rows → NoDup rows.
Proof. apply NoDup_fmap_1. Qed.

Lemma chosen_key expired (n : Z) rows (r : A) :
  unique_keys rows → r ∈ rows → key r ∈ key <$> chosen expired n rows ↔ r ∈ chosen expired n rows.
Proof.
  intros Hn Hr. rewrite list_elem_of_fmap. split; [|by exists r]. intros (r'&Hk&Hr').
  by rewrite (key_determines rows r r' Hn Hr (proj1 (chosen_elem _ _ _ _ Hr')) Hk).
Qed.

(** A batch splits the table into the rows chosen and the rows kept. *)
Lemma delete_batch_spec expired (n : Z) rows :
  unique_keys rows →
  rows ≡ₚ chosen expired n rows ++ (batch expired n rows).2 ∧
  (batch expired n rows).1 = length (chosen expired n rows) ∧
  unique_keys (batch expired n rows).2 ∧
  (∀ r, r ∈ (batch expired n rows).2 ↔ r ∈ rows ∧ r ∉ chosen expired n rows).
Proof.
  intros Hn. pose proof (unique_nodup rows Hn) as Hnd.
  assert (∀ r, r ∈ (batch expired n rows).2 ↔ r ∈ rows ∧ r ∉ chosen expired n rows) as Hel.
  { intros r. unfold delete_batch. cbn [snd]. rewrite list_elem_of_filter. fold (chosen expired n rows).
    split; [intros [Hk Hr]; split; [done|]|intros [Hr Hc]; split; [|done]]; by rewrite <- (chosen_key expired n rows) in *. }
  assert (rows ≡ₚ chosen expired n rows ++ (batch expired n rows).2) as Hp.
  { apply NoDup_Permutation; [done| |].
    - apply list.NoDup_app. split; [|split].
      + unfold chosen, limit. eapply sublist_NoDup; [|apply sublist_take].
        rewrite merge_sort_Permutation. by apply NoDup_filter.
      + intros r Hc Hk. by apply Hel in Hk as [_ ?].
      + apply NoDup_filter, Hnd.
    - intros r. rewrite elem_of_app, Hel. pose proof (chosen_elem expired n rows r).
      destruct (decide (key r ∈ key <$> chosen expired n rows)) as [Hk|Hk].
      + split; [intros Hr; left; by apply chosen_key in Hk|naive_solver].
      + split; [intros Hr; right; split; [done|]; intros Hc; apply Hk; by apply chosen_key|naive_solver]. }
  split; [done|]. split; [|split; [|done]].
  - apply Permutation_length in Hp. rewrite length_app in Hp. unfold delete_batch in Hp |- *. simpl in *. lia.
  - unfold unique_keys, delete_batch. cbn [snd]. eapply sublist_NoDup; [exact Hn|].
    apply fmap_sublist, sublist_filter.
Qed.

(** What is left of the expired rows; those that are not expired are all left. *)
Lemma delete_batch_counts expired (n : Z) rows :
  unique_keys rows →
  (length (filter (λ r, expired r = true) (batch expired n rows).2) +
   length (chosen expired n rows) = length (filter (λ r, expired r = true) rows))%nat ∧
  filter (λ r, expired r = false) (batch expired n rows).2 ≡ₚ filter (λ r, expired r = false) rows.
Proof.
  intros Hn. destruct (delete_batch_spec expired n rows Hn) as (Hp&_&_&_).
  set (kept := (batch expired n rows).2) in *. clearbody kept.
  assert (filter (λ r, expired r = true) (chosen expired n rows) = chosen expired n rows) as Hc.
  { apply filter_keep. by intros r [_ ?]%chosen_elem. }
  assert (filter (λ r, expired r = false) (chosen expired n rows) = []) as Hc'.
  { apply filter_none. intros r [_ ->]%chosen_elem. done. }
  set (c := chosen expired n rows) in *. clearbody c. split.
  - apply (filter_Permutation (λ r, expired r = true)), Permutation_length in Hp.
    rewrite filter_app, Hc, length_app in Hp. lia.
  - apply (filter_Permutation (λ r, expired r = false)) in Hp. by rewrite filter_app, Hc' in Hp.
Qed.

(** ** Passes *)

#[local] Abbreviation loop := (pass_loop key key_le).

Definition undisturbed (now : Z) (env : nat → batch_env A) : Prop :=
  ∀ i, be_answer (env i) = BatchOk ∧ be_now (env i) = now ∧ ∀ rows, be_others (env i) rows = rows.

Definition expired_rows expired rows : list A := filter (λ r, expired r = true) rows.

(** An undisturbed pass deletes the expired rows, as many as its batches hold. *)
Lemma pass_loop_exact (expired : Z → A → bool) (now n : Z) (env : nat → batch_env A) (k idx total : nat) rows :
  undisturbed now env → unique_keys rows → 0 < n →
  let '(deleted, _, rest) := loop expired n env k idx total rows in
  let all := length (expired_rows (expired now) rows) in
  deleted = (total + Nat.min all (k * Z.to_nat n))%nat ∧
  length (expired_rows (expired now) rest) = (all - k * Z.to_nat n)%nat ∧
  filter (λ r, expired now r = false) rest ≡ₚ filter (λ r, expired now r = false) rows.
Proof.
  intros Henv Hu Hn. revert idx total rows Hu. induction k as [|k IH]; intros idx total rows Hu; cbn [pass_loop].
  { split_and!; [lia|lia|done]. }
  destruct (Henv idx) as (->&->&->).
  destruct (delete_batch_spec (expired now) n rows Hu) as (_&Hd&Hu'&_).
  destruct (delete_batch_counts (expired now) n rows Hu) as [Hc Hf].
  pose proof (chosen_length (expired now) n rows) as Hl. unfold expired_rows in *.
  destruct (batch (expired now) n rows) as [deleted rest]. cbn [fst snd] in *.
  destruct (Nat.eqb_spec deleted 0) as [E|E].
  { rewrite E in *. split; [lia|split; [lia|exact Hf]]. }
  specialize (IH (S idx) (total + deleted)%nat rest Hu').
  destruct (loop expired n env k (S idx) (total + deleted) rest) as [[deleted' e] rest'].
  destruct IH as (->&->&Hf'). split_and!; [lia|lia|by rewrite Hf', Hf].
Qed.

(** Whatever happens between the batches, a pass deletes at most what its batches hold. *)
Lemma pass_loop_bound (expired : Z → A → bool) (n : Z) (env : nat → batch_env A) (k idx total : nat) rows :
  (∀ i l, unique_keys l → unique_keys (be_others (env i) l)) → unique_keys rows →
  ((loop expired n env k idx total rows).1.1 ≤ total + k * Z.to_nat n)%nat.
Proof.
  intros Henv. revert idx total rows. induction k as [|k IH]; intros idx total rows Hu; cbn [pass_loop]; [simpl; lia|].
  destruct (be_answer (env idx)); try (simpl; lia). set (l := be_others (env idx) rows).
  assert (unique_keys l) as Hl by by apply Henv.
  destruct (delete_batch_spec (expired (be_now (env idx))) n l Hl) as (_&Hd&Hu'&_).
  pose proof (limit_length n (merge_sort key_le (filter (λ r, expired (be_now (env idx)) r = true) l))) as Hlim.
  fold (chosen (expired (be_now (env idx))) n l) in Hlim.
  destruct (batch (expired (be_now (env idx))) n l) as [deleted rest]. cbn [fst snd] in *.
  destruct (deleted =? 0)%nat; simpl; [lia|]. specialize (IH (S idx) (total + deleted)%nat rest Hu'). lia.
Qed.

(** A row that is never expired, and that others leave alone, stays. *)
Lemma pass_loop_spares (expired : Z → A → bool) (n : Z) (env : nat → batch_env A) (k idx total : nat) rows (r : A) :
  (∀ i l, unique_keys l → unique_keys (be_others (env i) l)) →
  (∀ i l, r ∈ l → r ∈ be_others (env i) l) → (∀ i, expired (be_now (env i)) r = false) →
  unique_keys rows → r ∈ rows → r ∈ (loop expired n env k idx total rows).2.
Proof.
  intros Henv Hother Hexp. revert idx total rows. induction k as [|k IH]; intros idx total rows Hu Hr; cbn [pass_loop]; [done|].
  destruct (be_answer (env idx)); try by apply Hother. set (l := be_others (env idx) rows).
  assert (unique_keys l) as Hl by by apply Henv.
  assert (r ∈ l) as Hrl by by apply Hother.
  destruct (delete_batch_spec (expired (be_now (env idx))) n l Hl) as (_&_&Hu'&Hel).
  assert (r ∈ (batch (expired (be_now (env idx))) n l).2) as Hin.
  { apply Hel. split; [done|]. intros [_ Hc]%chosen_elem. by rewrite Hexp in Hc. }
  destruct (batch (expired (be_now (env idx))) n l) as [deleted rest]. cbn [fst snd] in *.
  destruct (deleted =? 0)%nat; [done|]. by apply IH.
Qed.

End Batch.

(** ** The two tables *)

Section Retention.
Context `{Collation}.

Lemma pass_bound {A K} `{EqDecision K} (key : A → K) (key_le : relation A) `{!RelDecision key_le}
    (expired : Z → A → bool) (v : option string) (env : nat → batch_env A) (rows : list A) :
  (∀ i l, unique_keys key l → unique_keys key (be_others (env i) l)) → unique_keys key rows →
  Z.of_nat (run_pass_of key key_le expired (retention_batch_size v) env rows).1.1 ≤ 200 * retention_batch_size v.
Proof.
  intros Henv Hu. pose proof (batch_size_range v) as Hb. unfold MIN_BATCH_SIZE in Hb.
  pose proof (pass_loop_bound key key_le expired (retention_batch_size v) env MAX_BATCHES_PER_PASS 0 0 rows Henv Hu) as Hl.
  unfold run_pass_of. unfold MAX_BATCHES_PER_PASS in *. lia.
Qed.

(** C31: both passes are bounded: whatever the environment is set to, whatever the answers are and
    whatever other statements make of the tables between the batches, a pass over the verdicts and a pass
    over the rows of dead pods each delete no more than two hundred batches, of at most 100000 rows each.
    In each table the keys are unique and stay so, as its primary key demands of every statement. *)
Theorem retention_pass_is_bounded (v : option string) (days window : Z)
    (verdict_env : nat → batch_env AuditVerdict) (pod_env : nat → batch_env PodDetail)
    (verdicts : list AuditVerdict) (pods : list PodDetail) :
  (∀ i l, unique_keys av_id l → unique_keys av_id (be_others (verdict_env i) l)) →
  (∀ i l, unique_keys pod_name l → unique_keys pod_name (be_others (pod_env i) l)) →
  unique_keys av_id verdicts → unique_keys pod_name pods →
  MIN_BATCH_SIZE ≤ retention_batch_size v ≤ MAX_BATCH_SIZE ∧
  Z.of_nat (run_pass days (retention_batch_size v) verdict_env verdicts).1.1 ≤ 200 * retention_batch_size v ∧
  Z.of_nat (run_dead_pod_pass window (retention_batch_size v) pod_env pods).1.1 ≤ 200 * retention_batch_size v.
Proof.
  intros Hv Hp Huv Hup. split; [apply batch_size_range|]. unfold run_pass, run_dead_pod_pass. split.
  - exact (pass_bound av_id id_le (verdict_expired days) v verdict_env verdicts Hv Huv).
  - exact (pass_bound pod_name pod_name_le (pod_expired window) v pod_env pods Hp Hup).
Qed.

(** an undisturbed pass is exact: the dead rows whose time is before the window go, up to the bound
    of the pass, and every other row stays. *)
Theorem undisturbed_pass_is_exact (v : option string) (window now : Z) (env : nat → batch_env PodDetail)
    (rows : list PodDetail) :
  undisturbed now env → unique_keys pod_name rows →
  let '(deleted, _, rest) := run_dead_pod_pass window (retention_batch_size v) env rows in
  let expired := length (expired_rows (pod_expired window now) rows) in
  let bound := (200 * Z.to_nat (retention_batch_size v))%nat in
  deleted = Nat.min expired bound ∧
  length (expired_rows (pod_expired window now) rest) = (expired - bound)%nat ∧
  filter (λ r, pod_expired window now r = false) rest ≡ₚ filter (λ r, pod_expired window now r = false) rows.
Proof.
  intros Henv Hu. pose proof (batch_size_range v) as Hb. unfold MIN_BATCH_SIZE in Hb.
  exact (pass_loop_exact pod_name pod_name_le (pod_expired window) now (retention_batch_size v) env
    MAX_BATCHES_PER_PASS 0 0 rows Henv Hu ltac:(lia)).
Qed.

(** the row of a live pod is never pruned: in a turn of the task, with any settings, any answers and
    any statements of others in between, a row that is not marked dead stays; and the rows of the dead are
    pruned even where the pruning of the verdicts is disabled, since their window is never empty. *)
Theorem live_rows_are_never_pruned (days_setting batch_setting : option string)
    (verdict_env : nat → batch_env AuditVerdict) (pod_env : nat → batch_env PodDetail)
    (verdicts : list AuditVerdict) (pods : list PodDetail) (row : PodDetail) :
  (∀ i l, unique_keys pod_name l → unique_keys pod_name (be_others (pod_env i) l)) →
  (∀ i l, row ∈ l → row ∈ be_others (pod_env i) l) →
  unique_keys pod_name pods → row ∈ pods → is_dead row = false →
  row ∈ (retention_turn days_setting batch_setting verdict_env pod_env verdicts pods).2 ∧
  0 < dead_pod_retention_window (retention_days days_setting).
Proof.
  intros Henv Hother Hu Hr Hd. split; [|apply window_positive]. unfold retention_turn. simpl.
  apply pass_loop_spares; [done|done| |done|done]. intros i. unfold pod_expired. by rewrite Hd.
Qed.

(** a pod that has just died may be pruned at once: marking a row dead leaves its time as it was, and
    the window is measured from there, so that the row of a pod that was last posted before the window is
    deleted by the next pass, however short the time it has been dead. *)
Theorem just_dead_row_is_pruned (v : option string) (window now : Z) (env : nat → batch_env PodDetail)
    (row : PodDetail) (rows : list PodDetail) :
  undisturbed now env → time_stamp row < now - days window → is_dead row = false →
  unique_keys pod_name (set_dead row :: rows) →
  Z.of_nat (length rows) < 200 * retention_batch_size v →
  pod_expired window now row = false ∧
  set_dead row ∉ (run_dead_pod_pass window (retention_batch_size v) env (set_dead row :: rows)).2.
Proof.
  intros Henv Ht Hd Hu Hl. split; [unfold pod_expired; by rewrite Hd|].
  pose proof (batch_size_range v) as Hb. unfold MIN_BATCH_SIZE in Hb.
  pose proof (pass_loop_exact pod_name pod_name_le (pod_expired window) now (retention_batch_size v) env
    MAX_BATCHES_PER_PASS 0 0 (set_dead row :: rows) Henv Hu ltac:(lia)) as Hx.
  unfold run_dead_pod_pass, run_pass_of. destruct (pass_loop _ _ _ _ _ _ _ _ _) as [[deleted e] rest].
  simpl. destruct Hx as (_&Hlen&_). intros Hin.
  assert (set_dead row ∈ expired_rows (pod_expired window now) rest) as He.
  { unfold expired_rows. apply list_elem_of_filter. split; [|done]. unfold pod_expired. simpl. by apply Z.ltb_lt. }
  assert (length (expired_rows (pod_expired window now) (set_dead row :: rows)) ≤ S (length rows))%nat as Hmax.
  { unfold expired_rows. apply (length_filter _ (set_dead row :: rows)). }
  unfold MAX_BATCHES_PER_PASS in Hlen. assert (length (expired_rows (pod_expired window now) rest) = 0)%nat as H0 by lia.
  apply nil_length_inv in H0. rewrite H0 in He. by apply not_elem_of_nil in He.
Qed.

End Retention.
