(* ===== verification/ServiceWatcher.v ===== *)
(** * controller/src/service_watcher.rs

    The services that the watcher posts, and the rows that the broker keeps of them. *)

From S2P Require Import Prelude RustStd RustText PodDetails PodWatcher.

(** ** What the code reads of a service *)

Record Condition : Type := MkCondition {
  cond_type : string;
  cond_status : string;
  cond_message : string
}.

Record ServiceStatus : Type := MkServiceStatus { svc_conditions : option (list Condition) }.
Record ServiceSpec : Type := MkServiceSpec { cluster_ip : option string }.

Record Service : Type := MkService {
  svc_metadata : ObjectMeta;
  svc_spec : option ServiceSpec;
  svc_status : option ServiceStatus
}.

(** [json!(svc)]. *)
Class ServiceJson := { json_of_service : Service → value }.

Definition is_routable_cluster_ip (s : string) : bool :=
  negb (bool_decide (s = EmptyString)) && negb (bool_decide (s = "None"%string)).

Section ServiceWatcher.
Context `{KubeLibs} `{ServiceJson}.

Definition svc_unready (p : Service) : option string :=
  status ← svc_status p;
  conds ← svc_conditions status;
  let failed := join "," (cond_message <$>
    filter (λ c, cond_type c = "Ready"%string ∧ cond_status c = "False"%string) conds) in
  if bool_decide (failed = EmptyString) then None
  else Some ("Unready Service " +:+ name_any (svc_metadata p) +:+ ": " +:+ failed).

(** What is posted to [svc/spec]; the answer is only logged. *)
Definition update_serviceinfo (svc : Service) (utc_now : Z) : option SvcDetail :=
  match svc_spec svc ≫= cluster_ip with
  | None => None
  | Some ip =>
      if negb (is_routable_cluster_ip ip) then None
      else Some {|
        svc_ip := ip; svc_name := Some (name_any (svc_metadata svc));
        svc_namespace := meta_namespace (svc_metadata svc);
        service_spec := Some (json_of_service svc); svc_time_stamp := utc_now |}
  end.

(** One event of the watch. *)
Definition watch_service (svc : Service) (utc_now : Z) : option SvcDetail :=
  match svc_unready svc with
  | Some _ => None
  | None => update_serviceinfo svc utc_now
  end.

(** An event of the watch and, if it posts, whether the post arrives. *)
Record service_event : Type := ServiceEvent {
  se_service : Service;
  se_now : Z;
  se_arrives : bool
}.

Definition received_service (ev : service_event) : option SvcDetail :=
  if se_arrives ev then watch_service (se_service ev) (se_now ev) else None.

Definition service_step (ev : service_event) (svc_details : svc_table) : svc_table :=
  match received_service ev with
  | Some z => add_svc_details z svc_details
  | None => svc_details
  end.

Definition service_run (evs : list service_event) (svc_details : svc_table) : svc_table :=
  foldl (λ tbl ev, service_step ev tbl) svc_details evs.

(** ** Properties *)

Implicit Types (tbl : svc_table) (ev : service_event).

(** What the watcher posts, the broker accepts. *)
Lemma received_routable ev (z : SvcDetail) :
  received_service ev = Some z → is_routable_svc_ip (svc_ip z) = true.
Proof.
  unfold received_service, watch_service, update_serviceinfo. destruct (se_arrives ev); [|done].
  destruct (svc_unready _); [done|]. destruct (svc_spec _ ≫= _) as [ip|]; [|done].
  destruct (is_routable_cluster_ip ip) eqn:Hr; simpl; [|done]. by intros [= <-].
Qed.

Definition stored (z : SvcDetail) (old : option SvcDetail) : SvcDetail :=
  {| svc_ip := default (svc_ip z) (svc_ip <$> old); svc_name := changeset (svc_name z) (old ≫= svc_name);
     svc_namespace := changeset (svc_namespace z) (old ≫= svc_namespace);
     service_spec := changeset (compact_svc_spec <$> service_spec z) (old ≫= service_spec);
     svc_time_stamp := svc_time_stamp z |}.

Lemma add_svc_details_eq (z : SvcDetail) tbl :
  is_routable_svc_ip (svc_ip z) = true →
  add_svc_details z tbl = <[svc_ip z := stored z (tbl !! svc_ip z)]> tbl.
Proof.
  intros Hr. unfold add_svc_details, upsert_svc_details, stored. rewrite Hr. simpl.
  destruct (tbl !! svc_ip z); simpl; [done|]. f_equal. f_equal; [by destruct (svc_name z)|by destruct (svc_namespace z)|].
  by destruct (service_spec z).
Qed.

Lemma service_step_eq ev tbl :
  service_step ev tbl =
  match received_service ev with
  | Some z => <[svc_ip z := stored z (tbl !! svc_ip z)]> tbl
  | None => tbl
  end.
Proof.
  unfold service_step. destruct (received_service ev) as [z|] eqn:E; [|done].
  by rewrite add_svc_details_eq by by eapply received_routable.
Qed.

Lemma service_run_other (evs : list service_event) tbl (ip : string) :
  Forall (λ ev, svc_ip <$> received_service ev ≠ Some ip) evs → service_run evs tbl !! ip = tbl !! ip.
Proof.
  intros Hev. revert tbl. induction Hev as [|ev evs Hev _ IH]; intros tbl; [done|].
  change (service_run (ev :: evs) tbl) with (service_run evs (service_step ev tbl)). rewrite IH, service_step_eq.
  destruct (received_service ev) as [z|]; [|done]. simpl in Hev. rewrite lookup_insert_ne; congruence.
Qed.

(** Each row is under its address. *)
Definition keyed tbl : Prop := ∀ ip row, tbl !! ip = Some row → svc_ip row = ip.

Lemma service_run_keyed (evs : list service_event) tbl : keyed tbl → keyed (service_run evs tbl).
Proof.
  revert tbl. induction evs as [|ev evs IH]; intros tbl Hk; [done|]. apply (IH (service_step ev tbl)).
  rewrite service_step_eq. destruct (received_service ev) as [z|]; [|done]. intros ip row.
  rewrite lookup_insert. case_decide as Hip; [|apply Hk]. intros [= <-]. simpl. subst ip.
  destruct (tbl !! svc_ip z) as [old|] eqn:E; simpl; [by apply Hk|done].
Qed.

(** The last element that satisfies a predicate. *)
Lemma last_with {A : Type} (P : A → Prop) `{!∀ x, Decision (P x)} (l : list A) :
  (∃ x, x ∈ l ∧ P x) → ∃ pre x post, l = pre ++ x :: post ∧ P x ∧ Forall (λ y, ¬ P y) post.
Proof.
  induction l as [|x l IH]; [by intros (?&?%elem_of_nil&_)|]. intros (y&[->|Hy]%elem_of_cons&HP).
  - destruct (decide (Exists P l)) as [Hex|Hno].
    + apply Exists_exists in Hex. destruct (IH Hex) as (pre&z&post&->&?&?). by exists (x :: pre), z, post.
    + exists [], x, l. split_and!; [done|done|]. apply not_Exists_Forall in Hno; [done|apply _].
  - destruct IH as (pre&z&post&->&?&?); [by exists y|]. by exists (x :: pre), z, post.
Qed.

(** the table of the services follows the watch.  From an empty table, the row of an address is that of
    the last service with that address that was seen ready and whose post arrived: its name, its
    manifest without status and managed fields, its time, and its namespace if it has one; each row is
    under its own address; and no row is under the empty address or the word [None] of a headless
    service. *)
Theorem service_rows_follow_watch (evs : list service_event) (ip : string) :
  let tbl := service_run evs ∅ in
  (is_Some (tbl !! ip) ↔ ∃ ev, ev ∈ evs ∧ svc_ip <$> received_service ev = Some ip) ∧
  (∀ row, tbl !! ip = Some row → svc_ip row = ip ∧ ip ≠ EmptyString ∧ ip ≠ "None"%string) ∧
  ∀ pre ev post,
    evs = pre ++ ev :: post → se_arrives ev = true → svc_unready (se_service ev) = None →
    svc_spec (se_service ev) ≫= cluster_ip = Some ip → ip ≠ EmptyString → ip ≠ "None"%string →
    Forall (λ ev', svc_ip <$> received_service ev' ≠ Some ip) post →
    ∃ row, tbl !! ip = Some row ∧
      svc_name row = Some (name_any (svc_metadata (se_service ev))) ∧
      service_spec row = Some (compact_svc_spec (json_of_service (se_service ev))) ∧
      svc_time_stamp row = se_now ev ∧
      (is_Some (meta_namespace (svc_metadata (se_service ev))) →
       svc_namespace row = meta_namespace (svc_metadata (se_service ev))).
Proof.
  intros tbl.
  assert (∀ pre ev post z, evs = pre ++ ev :: post → received_service ev = Some z → svc_ip z = ip →
    Forall (λ ev', svc_ip <$> received_service ev' ≠ Some ip) post →
    tbl !! ip = Some (stored z (service_run pre ∅ !! ip))) as Hlast.
  { intros pre ev post z -> Hz <- Hpost. unfold tbl, service_run. rewrite foldl_app. simpl.
    fold (service_run pre ∅). fold (service_run post (service_step ev (service_run pre ∅))).
    rewrite service_run_other, service_step_eq, Hz by done. apply lookup_insert_eq. }
  assert (is_Some (tbl !! ip) ↔ ∃ ev, ev ∈ evs ∧ svc_ip <$> received_service ev = Some ip) as Hiff.
  { split.
    - intros [row Hrow]. destruct (decide (Exists (λ ev, svc_ip <$> received_service ev = Some ip) evs)) as [Hex|Hno].
      + by apply Exists_exists in Hex.
      + apply not_Exists_Forall in Hno; [|apply _]. unfold tbl in Hrow.
        by rewrite service_run_other, lookup_empty in Hrow.
    - intros (ev&Hin&Hip). destruct (last_with (λ ev, svc_ip <$> received_service ev = Some ip) evs) as (pre&ev'&post&Hs&He&Hp).
      { by exists ev. }
      destruct (received_service ev') as [z|] eqn:Hz; [|done]. injection He as He.
      rewrite (Hlast pre ev' post z); [by eexists|done..]. }
  split_and!; [done| |].
  - intros row Hrow. split; [by eapply (service_run_keyed evs ∅)|].
    assert (is_routable_svc_ip ip = true) as Hr.
    { destruct (proj1 Hiff (ex_intro _ row Hrow)) as (ev&_&Hip).
      destruct (received_service ev) as [z|] eqn:Hz; [|done]. injection Hip as <-. by eapply received_routable. }
    unfold is_routable_svc_ip in Hr. apply andb_true_iff in Hr as [H1 H2]. split.
    + by intros ->.
    + by intros ->.
  - intros pre ev post Hs Ha Hu Hip Hne Hnn Hpost.
    set (z := {| svc_ip := ip; svc_name := Some (name_any (svc_metadata (se_service ev)));
      svc_namespace := meta_namespace (svc_metadata (se_service ev));
      service_spec := Some (json_of_service (se_service ev)); svc_time_stamp := se_now ev |}).
    assert (received_service ev = Some z) as Hz.
    { unfold received_service, watch_service, update_serviceinfo. rewrite Ha, Hu, Hip.
      unfold is_routable_cluster_ip. by rewrite !bool_decide_eq_false_2. }
    eexists. split; [by apply (Hlast pre ev post z)|]. split_and!; try done. intros [ns Hns].
    unfold stored, z. simpl. by rewrite Hns.
Qed.

End ServiceWatcher.
