(* ===== verification/WatcherWitness.v ===== *)
(** * The theorems about the watchers at concrete runs

    An executable search for the identifier of a container, and a node with three pods: one that is
    watched, one of the network of another, and one of an excluded namespace that is given the network
    namespace of the first. *)

From Stdlib Require Import Ascii.
From S2P Require Import Prelude RustStd RustText PodDetails PodWatcher PodWatcherThms.
From S2P Require Import System Traffic TrafficFacts TrafficThms TrafficWitness Node.
From S2P Require Auth ServiceWatcher.
From S2P Require NetworkProbe.

#[local] Arguments String.append : simpl nomatch.

(** ** Executable libraries *)

(** A search from left to right. *)
Fixpoint search_id (s : string) : option string :=
  match strip_prefix ID_PREFIX s with
  | Some rest => Some (take_while is_alphanumeric rest)
  | None => match s with String _ s => search_id s | EmptyString => None end
  end.

#[export] Instance wit_libs : KubeLibs := {
  name_any m := default EmptyString (meta_name m);
  json_of_pod p := Object [("name"%string, Text (default EmptyString (meta_name (metadata p))))];
  container_id_capture := search_id
}.

Lemma search_id_eq (s : string) :
  search_id s =
  match strip_prefix ID_PREFIX s with
  | Some rest => Some (take_while is_alphanumeric rest)
  | None => match s with String _ s => search_id s | EmptyString => None end
  end.
Proof. by destruct s. Qed.

#[export] Instance wit_libs_laws : KubeLibsLaws.
Proof.
  split; unfold name_any, container_id_capture, wit_libs.
  - by intros m n ->.
  - intros pre id post Hl Ha Hp. induction pre as [|a pre IH].
    + change (EmptyString +:+ ?s) with s. rewrite search_id_eq, strip_prefix_app. by rewrite take_while_app.
    + change (String a pre +:+ ?s) with (String a (pre +:+ s)). rewrite search_id_eq.
      destruct (strip_prefix ID_PREFIX _) as [t|] eqn:E.
      * apply strip_prefix_some in E. destruct (Hl EmptyString (String a pre) t); done.
      * apply IH. intros c b t -> Hb Ht. by apply (Hl (String a c) b t).
  - intros s Hs. induction s as [|a s IH]; rewrite search_id_eq.
    + done.
    + destruct (strip_prefix ID_PREFIX (String a s)) as [t|] eqn:E.
      * apply strip_prefix_some in E. by destruct (Hs EmptyString t).
      * apply IH. intros pre post ->. by destruct (Hs (String a pre) post).
Qed.

Lemma parse_container_id_exact_witness :
  parse_container_id "x-containerd://abc1/def" = Some "abc1"%string ∧
  parse_container_id "docker://abc1" = None ∧ parse_container_id "containerd://" = None.
Proof.
  split_and!; [|done|done].
  refine (proj1 (parse_container_id_exact "x-" "abc1" "/def" _ eq_refl _)).
  - intros [|a1 [|a2 [|a3 a]]] b t Hb Hne Ht; cbn in Hb; simplify_eq; done.
  - by intros a [= <-].
Defined.

(** ** A node *)

(** web of prod, with a container that has not started; api of prod; dns of kube-system. *)
Definition wit_meta (name ns : string) (owners : list OwnerReference) : ObjectMeta :=
  MkObjectMeta (Some name) (Some ns) None (Some owners).

Definition wit_status (ip id : string) : PodStatus :=
  MkPodStatus (Some [MkPodCondition "Ready" "True" None])
    (Some [MkContainerStatus None; MkContainerStatus (Some ("containerd://" +:+ id))]) (Some ip).

Definition web : Pod :=
  MkPod (wit_meta "web" "prod" [MkOwnerReference "ReplicaSet" "web-1"]) (Some (wit_status "10.0.0.1" "c1")).
Definition api_pod : Pod :=
  MkPod (wit_meta "api" "prod" [MkOwnerReference "DaemonSet" "api"]) (Some (wit_status "10.0.0.4" "c2")).
Definition dns : Pod :=
  MkPod (wit_meta "dns" "kube-system" []) (Some (wit_status "10.0.0.5" "c3")).

Definition wit_api : api_server := {|
  api_deployment _ name := if String.eqb name "web" then Some (MkWorkload (Some (Some {["app"%string := "web"%string]}))) else None;
  api_statefulset _ _ := None;
  api_daemonset _ _ := None;
  api_replicaset _ name :=
    if String.eqb name "web-1" then Some (MkReplicaSet (Some [MkOwnerReference "Deployment" "web"])) else None |}.

(** The process of container c1 is 101, and so on; [net c] is the namespace of its process. *)
Definition wit_runtime (net : Z → Z) : container_runtime := {|
  connect _ := true;
  task_get id := if String.eqb id "c1" then Some (Some 101) else if String.eqb id "c2" then Some (Some 102)
                 else if String.eqb id "c3" then Some (Some 103) else None;
  process_namespaces pid := Some {["net"%string := net pid]} |}.

Definition wit_env (net : Z → Z) : surroundings := Surroundings wit_api (wit_runtime net) None 5.

(** First c1 has namespace 7 and c2 has 8; later c3 has namespace 7. *)
Definition env1 : surroundings := wit_env (λ pid, pid - 94).
Definition env2 : surroundings := wit_env (λ pid, pid - 96).

Definition wit_excluded : list string := ["kube-system"%string; "kguardian"%string].

Definition web_inspect : PodInspect :=
  inspected (MkPodInfo "web" (Some "prod"%string) "10.0.0.1") "c1" 101 7.

Lemma web_registers : registers wit_excluded env1 web 7 web_inspect.
Proof. apply registration_registers. by vm_compute. Qed.

Lemma api_registers :
  registers wit_excluded env1 api_pod 8
    (inspected (MkPodInfo "api" (Some "prod"%string) "10.0.0.4") "c2" 102 8).
Proof. apply registration_registers. by vm_compute. Qed.

(** dns runs in namespace 7 and is not registered. *)
Lemma dns_not_registered :
  container_inode env2 "containerd://c3" = Some 7 ∧ registration wit_excluded env2 dns = None.
Proof. by vm_compute. Qed.

Lemma process_pod_exactly_witness :
  let '(r, w) := process_pod wit_excluded true "node-1" env1 web new_watcher in
  r = Some 7 ∧ containers w !! 7 = Some web_inspect ∧ length (posted w) = 1%nat ∧
  ch_sent (sender_ip w) = [].
Proof.
  pose proof (process_pod_exactly wit_excluded true "node-1" env1 web new_watcher) as H.
  destruct (process_pod _ _ _ _ _ _) as [r w]. destruct H as (Hr&_&Hc&Hp&Hs&_).
  split_and!.
  - apply Hr. exists web_inspect. exact web_registers.
  - apply Hc. exact web_registers.
  - rewrite Hp. reflexivity.
  - rewrite Hs. reflexivity.
Defined.

Definition wit_items : list (surroundings * Pod) := [(env1, web); (env1, api_pod); (env1, dns)].

Lemma resync_fills_gaps_witness :
  let w := resync_pods wit_excluded true "node-1" wit_items new_watcher in
  8 ∈ ch_sent (tx w) ∧ containers w !! 7 = Some web_inspect ∧
  containers (resync_pods wit_excluded true "node-1" wit_items w) = containers w.
Proof.
  destruct (resync_fills_gaps wit_excluded true "node-1" wit_items new_watcher eq_refl) as (H1&_&H3).
  split_and!; [| |exact H3].
  - refine (proj1 (H1 env1 api_pod 8 _ _ api_registers)). right. by left.
  - refine (proj2 (proj2 (H1 env1 web 7 web_inspect _ web_registers)) _); [by left|].
    apply (bool_decide_eq_true_1 _). by vm_compute.
Defined.

(** ** Readiness, owners, settings *)

(** web says that it is not ready, but not why. *)
Definition unready_status : PodStatus :=
  MkPodStatus (Some [MkPodCondition "Ready" "False" None])
    (Some [MkContainerStatus (Some "containerd://c1"%string)]) (Some "10.0.0.1"%string).

Lemma pod_unready_exact_witness :
  pod_unready (MkPod (metadata web) (Some unready_status)) = Some ["containerd://c1"%string].
Proof.
  apply pod_unready_exact. exists unready_status, [MkContainerStatus (Some "containerd://c1"%string)].
  split_and!; [reflexivity..|]. right. reflexivity.
Defined.

Lemma wit_single_owners : single_owners wit_api.
Proof.
  intros ns n rs os. unfold wit_api. simpl. destruct (String.eqb n "web-1"); [|done].
  intros [= <-] [= <-]. simpl. lia.
Qed.

Lemma owner_traces_agree_witness :
  (trace_owner_to_workload_with_selectors_and_name web wit_api).2 =
    trace_owner_to_workload_with_selectors web wit_api ∧
  trace_owner_to_workload_with_selectors web wit_api = Some {["app"%string := "web"%string]}.
Proof.
  destruct (owner_traces_agree web wit_api wit_single_owners) as [H1 H2]. split.
  - apply H2. intros owners [= <-]. simpl. lia.
  - apply H1. reflexivity.
Defined.

(** With two owners they may not: the first has no selector. *)
Example owner_traces_differ :
  let p := MkPod (wit_meta "x" "prod" [MkOwnerReference "Deployment" "gone";
                                       MkOwnerReference "Deployment" "web"]) None in
  (trace_owner_to_workload_with_selectors_and_name p wit_api).2 = None ∧
  is_Some (trace_owner_to_workload_with_selectors p wit_api).
Proof. split; [done|]. by eexists. Qed.

Lemma excluded_namespaces_roundtrip_witness :
  parse_excluded_namespaces " kube-system, ,kguardian " = ["kube-system"%string; "kguardian"%string] ∧
  parse_excluded_namespaces " kube-system, monitoring" = ["kube-system"%string; "monitoring"%string].
Proof.
  split; [reflexivity|].
  refine (proj1 (excluded_namespaces_roundtrip ["kube-system"%string; "monitoring"%string]
    [" kube-system"%string; " monitoring"%string] EmptyString _ _ _)).
  - done.
  - by repeat constructor.
  - repeat constructor; try done; by exists " "%string, EmptyString.
Defined.

Definition wit_environment : Auth.environment := λ key,
  if String.eqb key "CURRENT_NODE" then Some " node-1 "%string
  else if String.eqb key "API_ENDPOINT" then Some "http://broker:9090/ "%string
  else if String.eqb key "IGNORE_DAEMONSET_TRAFFIC" then Some "False "%string else None.

Definition wit_settings : Auth.settings :=
  Auth.Settings "node-1" "http://broker:9090/" wit_excluded false.

Lemma settings_are_clean_witness :
  Auth.read_settings wit_environment = Some wit_settings ∧
  Auth.post_url wit_environment "pod/spec" = Some "http://broker:9090/pod/spec"%string.
Proof.
  split; [reflexivity|].
  destruct (Auth.settings_are_clean wit_environment wit_settings "pod/spec") as (_&_&_&Hu); [reflexivity|].
  rewrite Hu. reflexivity.
Defined.

Lemma build_url_single_slash_witness :
  Auth.build_url "http://broker/" "//pod" = Auth.build_url "http://broker" "pod".
Proof. exact (proj1 (Auth.build_url_single_slash "http://broker" "pod" "/" "//" eq_refl eq_refl)). Defined.

(** ** The node *)

Definition wit_node (evs : list node_event) : node :=
  node_run wit_excluded true "node-1" evs (new_node 0 0).

(** A datagram of namespace 7, to 10.0.0.2:53. *)
Definition sees_53 : loop_wakeup NetworkProbe.network_event :=
  Wakeup (Received (to_port 53) "id" 20) 20 true 20.

Lemma entries_are_of_watched_pods_witness :
  ∃ t, t ∈ built (network_handler (nd_consumers (wit_node [Watched env1 web; NetworkWakes sees_53]))) ∧
    ∃ e p ip, Watched e p ∈ [Watched env1 web; NetworkWakes sees_53] ∧ is_Some (pod_unready p) ∧
      pod_address p = Some ip ∧
      (∀ ns, meta_namespace (metadata p) = Some ns → ns ∉ wit_excluded) ∧
      pt_pod_name t = name_any (metadata p) ∧ pt_pod_namespace t = meta_namespace (metadata p) ∧
      pt_pod_ip t = ip.
Proof.
  exists (entry web_inspect "EGRESS" "UDP" 0 33554442 53 "ALLOW" "id" 20).
  assert (entry web_inspect "EGRESS" "UDP" 0 33554442 53 "ALLOW" "id" 20 ∈
    built (network_handler (nd_consumers (wit_node [Watched env1 web; NetworkWakes sees_53])))) as Hin
    by by left.
  split; [exact Hin|].
  exact (entries_are_of_watched_pods wit_excluded true "node-1" [Watched env1 web; NetworkWakes sees_53]
    0 0 _ (or_introl Hin)).
Defined.

(** The datagram comes from dns. *)
Lemma reused_namespace_is_misattributed_witness :
  ∃ t, pt_pod_name t = "web"%string ∧
    t ∈ built (network_handler (nd_consumers
      (wit_node ([Watched env1 web; Watched env2 dns] ++ [NetworkWakes sees_53])))).
Proof.
  destruct (reused_namespace_is_misattributed wit_excluded true "node-1" [] [Watched env2 dns] 0 0 env1 web 7
    web_inspect sees_53 (to_port 53) "id" 20 (entry web_inspect "EGRESS" "UDP" 0 33554442 53 "ALLOW" "id" 20)
    web_registers) as (Hn&_&t&Ht&Hin); [|reflexivity..|].
  - repeat constructor. exists "kube-system"%string. split; [reflexivity|by left].
  - exists t. split; [|exact Hin]. by injection Ht.
Defined.

Lemma sent_namespace_is_known_witness :
  is_Some (container_map (nd_consumers (wit_node [Watched env1 web; Watched env2 dns])) !! 7).
Proof.
  apply (sent_namespace_is_known wit_excluded true "node-1" [Watched env1 web; Watched env2 dns] 0 0 7).
  apply (bool_decide_eq_true_1 _). vm_compute. reflexivity.
Defined.

(** ** Services *)

Import ServiceWatcher.

#[export] Instance wit_service_json : ServiceJson := {
  json_of_service svc := Object [("name"%string, Text (default EmptyString (meta_name (svc_metadata svc))));
                                 ("status"%string, Null)]
}.

Definition wit_service (name ip : string) : Service :=
  MkService (MkObjectMeta (Some name) (Some "prod"%string) None None)
    (Some (MkServiceSpec (Some ip))) None.

(** web, then a headless service, then shop under the address of web. *)
Definition wit_services : list service_event :=
  [ServiceEvent (wit_service "web" "10.96.0.7") 1 true; ServiceEvent (wit_service "db" "None") 2 true;
   ServiceEvent (wit_service "shop" "10.96.0.7") 3 true].

Lemma service_rows_follow_watch_witness :
  ∃ row, service_run wit_services ∅ !! "10.96.0.7"%string = Some row ∧
    svc_name row = Some "shop"%string ∧ svc_time_stamp row = 3 ∧
    service_spec row = Some (Object [("name"%string, Text "shop")]).
Proof.
  destruct (proj2 (proj2 (service_rows_follow_watch wit_services "10.96.0.7"))
    (take 2 wit_services) (ServiceEvent (wit_service "shop" "10.96.0.7") 3 true) [])
    as (row&Hrow&Hn&Hs&Ht&_); [reflexivity..|done|done|constructor|].
  exists row. split_and!; [exact Hrow|exact Hn|exact Ht|]. rewrite Hs. reflexivity.
Defined.
