(* ===== verification/WatchedPod.v ===== *)
(** * From a pod seen by the watcher to the broker

    The watcher and the receiving tasks of Node.v with the probes and the poll loop of System.v: the
    namespaces that the watcher sends are those that the turns of the loop register, and the events that
    the loop sends are those that the network task receives. *)

From stdpp Require Import pretty.
From S2P Require Import Prelude CLayout CLayoutFacts VmlinuxBase VmlinuxSock BpfEnv LruKernel RingBuffer.
From S2P Require Import Helper Fixtures RustStd Controller System SystemFacts SystemSpec SystemThms.
From S2P Require Import SystemWitness Traffic TrafficFacts TrafficThms TrafficWitness EndToEnd RustText.
From S2P Require Import PodWatcher PodWatcherThms Node WatcherWitness.
From S2P Require NetworkProbe NetpolicyDrop NetworkProbeFacts NetworkProbeSpec NetworkProbeThms.

(** ** The namespaces of the events *)

Section Namespaces.
Context `{BpfKernelLaws}.
Variable R : Z → Prop.

(** The namespaces that the observer has at hand, but for 0. *)
Definition named (o : NetworkProbeSpec.observer) : Prop :=
  (∀ e, e ∈ NetworkProbeSpec.ob_out o → NetworkProbe.ne_inum e = 0 ∨ R (NetworkProbe.ne_inum e)) ∧
  ∀ tid f cpu, NetworkProbeSpec.ob_accepting o !! tid = Some f → f cpu = 0 ∨ R (f cpu).

Lemma hook_flow_named (h : helper_maps) (hk : NetworkProbe.probe_hook) o fl :
  (∀ k, tracked h k = true → R k) → named o → NetworkProbeSpec.hook_flow h hk o = Some fl →
  NetworkProbe.ne_inum (NetworkProbeFacts.event_of fl) = 0 ∨
  R (NetworkProbe.ne_inum (NetworkProbeFacts.event_of fl)).
Proof.
  intros Hh [_ Ha]. destruct hk as [c sk ? ?|c sk state|c sk|c sk]; simpl; [| |done|].
  - unfold NetworkProbeFacts.udp_flow, socket_tracked. case_match eqn:Hg; [|done]. intros [= <-].
    rewrite !andb_true_iff in Hg. right. apply Hh. tauto.
  - unfold NetworkProbeFacts.tcp_flow, socket_tracked. case_match eqn:Hg; [|done]. intros [= <-].
    rewrite !andb_true_iff in Hg. right. apply Hh. tauto.
  - unfold NetworkProbeSpec.hook_ctx, NetworkProbeFacts.accept_flow.
    destruct (NetworkProbeSpec.ob_accepting o !! _) as [f|] eqn:Hf; simpl; [|done].
    case_match; [|done]. intros [= <-]. exact (Ha _ _ (bpf_get_smp_processor_id c) Hf).
Qed.

Lemma observe_named (h : helper_maps) (d : bool) (hk : NetworkProbe.probe_hook) o :
  (∀ k, tracked h k = true → R k) → named o → named (NetworkProbeSpec.observe h d hk o).
Proof.
  intros Hh Ho. pose proof Ho as [Hout Ha]. rewrite NetworkProbeSpec.observe_eq.
  assert (∀ tid f cpu,
    NetworkProbeSpec.hook_accepting h hk (NetworkProbeSpec.ob_accepting o) !! tid = Some f →
    f cpu = 0 ∨ R (f cpu)) as Hacc.
  { intros tid f cpu. destruct hk as [| |c sk|c sk]; simpl; [apply Ha|apply Ha|..];
      unfold NetworkProbeSpec.hook_ctx.
    - destruct (socket_tracked h c sk) eqn:Ht; [|apply Ha].
      unfold socket_tracked in Ht. apply andb_true_iff in Ht as [_ Ht].
      rewrite lookup_insert. case_decide; [|apply Ha]. intros [= <-]. unfold NetworkProbeSpec.write_slot.
      case_decide; [right; by apply Hh|]. case_match eqn:Hl; [by eapply Ha|by left].
    - rewrite lookup_delete. case_decide; [done|]. apply Ha. }
  destruct (NetworkProbeSpec.hook_flow h hk o) as [fl|] eqn:Hfl; simpl; [|by split].
  unfold NetworkProbeSpec.saw. simpl. case_decide; [by split|]. split; simpl; [|done].
  intros e [He|He]%elem_of_app; [by apply Hout|]. destruct d; [by apply elem_of_nil in He|].
  apply list_elem_of_singleton in He as ->. by eapply hook_flow_named.
Qed.

Definition names (e : event) : Prop :=
  match e with LoopTurn _ (Some inum) _ => R inum | _ => True end.

Lemma spec_events_named (d : bool) (fs : list bool) (es : list event) (σ : sys_spec) :
  Forall names es → run_room d fs es σ →
  (∀ k, tracked (sp_network σ) k = true → R k) → named (sp_observer σ) →
  named (sp_observer (spec_events d fs es σ)).
Proof.
  revert es σ. induction fs as [|f fs IH]; intros [|e es] σ Hes Hroom Hh Ho; simpl in *; try done.
  apply Forall_cons in Hes as [He Hes]. destruct Hroom as [Hr Hroom]. apply IH; [done|done| |].
  - destruct e as [hk|hk|c ctx|ok inum ip| | |]; simpl; try done.
    + destruct (NetpolicySpec.hook_attempt _ hk) as [[]|]; done.
    + intros k. rewrite told_tracked by (intros ->; apply Hr).
      intros [[_ Hk%bool_decide_eq_true_1]%andb_true_iff|Hk]%orb_true_iff; [by subst|by apply Hh].
  - destruct e as [hk|hk|c ctx|ok inum ip| | |]; simpl; try done.
    + by apply observe_named.
    + destruct (NetpolicySpec.hook_attempt _ hk) as [[]|]; done.
Qed.

End Namespaces.

Section Theorems.
Context `{BpfKernelLaws} `{TrafficCacheLaws} `{KubeLibs}.
Variable excluded_namespaces : list string.
Variable ignore_daemonset_traffic : bool.
Variable node_name : string.

Abbreviation registers := (registers excluded_namespaces).
Abbreviation registration := (registration excluded_namespaces).
Abbreviation node_run := (node_run excluded_namespaces ignore_daemonset_traffic node_name).
Abbreviation view := (consumer_view excluded_namespaces).

(** C12: every event is claimed.  When the namespaces that the poll loop registers are those that the
    watcher has sent, each event that the loop sends to the network task is of a namespace that has a
    pod in the map of the containers, unless it is an accept that changed CPU, of namespace 0. *)
Theorem every_event_is_claimed (d : bool) (y y' : system) (es : list event) (evs : list node_event)
    (t0 t1 : Z) (event : NetworkProbe.network_event) :
  let nd := node_run evs (new_node t0 t1) in
  freshly_loaded y → (∀ k, tracked (NetworkProbe.np_helper (network_sk (sys_ctl y))) k = false) →
  exec_events d es y = Some y' → run_room d (refusals d es y) es (loaded_spec y) →
  (∀ ok inum ip, LoopTurn ok (Some inum) ip ∈ es → inum ∈ ch_sent (tx (nd_watcher nd))) →
  ch_open (network_tx y') = true → event ∈ ch_sent (network_tx y') →
  NetworkProbe.ne_inum event = 0 ∨
  is_Some (container_map (nd_consumers nd) !! NetworkProbe.ne_inum event).
Proof.
  intros nd Hl Hnone Hes Hroom Hturns Hopen Hin.
  assert (sent_known nd) as Hk.
  { apply sent_known_run. by intros n ?%elem_of_nil. }
  destruct (node_run_view excluded_namespaces ignore_daemonset_traffic node_name evs (new_node t0 t1))
    as [Hs _]; [done|]. unfold in_step in Hs. fold nd in Hs. rewrite <- Hs.
  destruct (spec_events_named (λ n, is_Some (containers (nd_watcher nd) !! n)) d (refusals d es y) es
    (loaded_spec y)) as [Hout _].
  - apply Forall_forall. intros [hk|hk|c ctx|ok [inum|] ip| | |] Hev; simpl; try done.
    by eapply Hk, Hturns.
  - done.
  - intros k. simpl. by rewrite Hnone.
  - split; simpl; [by intros e ?%elem_of_nil|]. intros tid f cpu. by rewrite lookup_empty.
  - apply Hout. destruct (delivering_steps d y y' [] [] [] (exec_events_steps _ _ _ _ Hes)
      (booted_delivering y (proj1 Hl))) as (net&sys&drp&Hy).
    pose proof (sent_of_open _ _ _ _ (proj1 (delivering_decoded _ _ _ _ Hy)) Hopen) as Hsent.
    pose proof (run_refines d es y y' _ Hes (loaded_sys_refines y Hl) Hroom) as Hr.
    rewrite (NetworkProbeSpec.rf_out _ _ _ (sr_network _ _ Hr)) in Hsent. rewrite Hsent.
    apply elem_of_app. by left.
Qed.

(** C3: from a pod to the broker.  A pod that is ready and not excluded starts while the controller runs;
    the watcher sees it; a turn of the poll loop registers the namespace that it sent; a socket of the
    pod then sends its first datagram of a flow, to an address that is neither ignored nor its own,
    while the ring buffer has room.  Once the loop has polled and the network task has received what
    is on its channel, the task holds an entry for the flow, with the name and the address of the
    pod: acknowledged by the broker, still waiting, or dropped because more than 1000 were waiting. *)
Theorem watched_pod_reaches_broker (d : bool) (y y' : system) (pre mid post : list event)
    (c : kctx) (sk msg len : Z) (ip' ip'' : option string) (inum' : option Z)
    (e : surroundings) (p : Pod) (i : PodInspect) (npre npost : list node_event) (t0 t1 : Z) :
  let inum := sock_inum c sk in
  let skc := read_sock_common c sk in
  let fl := NetworkProbeFacts.skc_flow inum 2 1 skc in
  let event := NetworkProbeFacts.event_of fl in
  let before := pre ++ LoopTurn true (Some inum) ip' :: mid in
  let kernel := before ++ NetworkHook (NetworkProbe.UdpSendmsg c sk msg len) :: post ++
                [LoopTurn true inum' ip''] in
  let σ1 := spec_events d (refusals d before y) before (loaded_spec y) in
  let evs := npre ++ Watched e p :: npost in
  (* the kernel and the poll loop *)
  freshly_loaded y → exec_events d kernel y = Some y' →
  run_room d (refusals d kernel y) kernel (loaded_spec y) →
  sk ≠ 0 → skc_filtered (sp_network σ1) skc = false →
  NetworkProbeFacts.fl_key fl ∉ NetworkProbeSpec.ob_seen (sp_observer σ1) →
  (∀ y1, exec_events d before y = Some y1 →
         ring_full NetworkProbe.network_event_data (network_ring y1) = false) →
  ch_open (network_tx y') = true →
  (* the watcher: the pod is registered, and no other with its namespace later *)
  registers e p inum i →
  Forall (λ ev, match ev with Watched e' p' => ∀ i', ¬ registers e' p' inum i' | _ => True end) npost →
  (* the network task *)
  omap received (omap view evs) = ch_sent (network_tx y') →
  event ∉ omap received (omap view npre) → Forall not_closed (omap view evs) →
  to_itself i (NetworkProbe.ne_daddr event) = false →
  let h := network_handler (nd_consumers (node_run evs (new_node t0 t1))) in
  ∃ t ip, pod_address p = Some ip ∧
    entry_key t = {|
      tk_pod_name := name_any (metadata p); tk_pod_ip := ip; tk_pod_port := pretty 0;
      tk_traffic_in_out_ip := ipv4_to_string (from_be32 (NetworkProbe.ne_daddr event));
      tk_traffic_in_out_port := pretty (NetworkProbe.ne_dport event);
      tk_traffic_type := "EGRESS"; tk_ip_protocol := "UDP"; tk_decision := "ALLOW" |} ∧
    (t ∈ acked h ∨ t ∈ overflowed h ∨ t ∈ batch h).
Proof.
  intros inum skc fl event before kernel σ1 evs Hl Hk Hroom Hsk Hfilt Hnew Hfull Hopen Hreg Hothers Hrcv
    Hearly Hclosed Hself h.
  apply registration_registers in Hreg as Hr.
  pose proof (registered_pod_is_reported d y y' pre mid post c sk msg len ip' ip'' inum' Hl Hk Hroom Hsk
    Hfilt Hnew Hfull Hopen) as Hsent.
  assert (omap view evs = omap view npre ++ PodFound inum i :: omap view npost) as Hview.
  { unfold evs. rewrite omap_app. simpl. by rewrite Hr. }
  rewrite <- Hrcv, Hview, omap_app in Hsent. apply elem_of_app in Hsent as [|Hsent]; [done|].
  change (event ∈ omap received (omap view npost)) in Hsent.
  destruct (received_split _ _ Hsent) as (a&w&uuid&ts&b&Hb&Hw).
  assert (Forall (keeps_pod inum) (omap view npost)) as Hpods.
  { clear -Hothers. induction Hothers as [|ev evs Hev _ IH]; [done|].
    destruct ev as [e' p'|w|w]; simpl; [|by constructor..].
    destruct (registration e' p') as [[n i']|] eqn:E; simpl; [|done]. constructor; [|done].
    intros ->. by apply registration_registers, Hev in E. }
  rewrite Hview, Hb in Hclosed. rewrite Hb in Hpods. apply Forall_app in Hclosed as [Hc1 Hc2].
  apply Forall_cons in Hc2 as [_ Hc2]. apply Forall_app in Hc2 as [Hc2 _].
  apply Forall_app in Hpods as [Hpods _].
  destruct (registration_some _ _ _ _ _ Hr) as (?&ip&_&Hip&_&Hinfo&_).
  destruct (candidate_accounted ∅ t0 t1 (omap view npre ++ PodFound inum i :: a) b w
    (entry i "EGRESS" "UDP" 0 (NetworkProbe.ne_daddr event) (NetworkProbe.ne_dport event) "ALLOW" uuid ts))
    as (t&Et&Hin).
  - set (st := consume_all (omap view npre ++ PodFound inum i :: a) (new_consumers ∅ t0 t1)).
    assert (running (network_handler st) = true) as Hrun.
    { unfold st. rewrite consume_all_running; try done. apply Forall_app. split; [done|by constructor]. }
    assert (container_map st !! inum = Some i) as Hi.
    { unfold st. rewrite consume_all_app. simpl. rewrite consume_all_pod by done. apply lookup_insert_eq. }
    unfold network_candidate, candidate. rewrite Hrun, Hw.
    change (NetworkProbe.ne_inum _) with inum. rewrite Hi. simpl.
    unfold network_entry. fold event. by rewrite Hself.
  - exists t, ip. split; [done|]. split; [rewrite Et; unfold entry_key, entry; simpl; by rewrite Hinfo|].
    unfold h. destruct (node_run_view excluded_namespaces ignore_daemonset_traffic node_name evs
      (new_node t0 t1)) as [_ ->]; [done|]. rewrite Hview, Hb.
    change (nd_consumers (new_node t0 t1)) with (new_consumers ∅ t0 t1).
    by rewrite <- app_assoc in Hin.
Qed.

End Theorems.

(** * At a concrete run *)

#[local] Existing Instance NetpolicyDrop.conn_attempt_eq_dec.
#[local] Existing Instance lru_kernel.
#[local] Existing Instance lru_kernel_laws.

(** The datagram is received after web is registered; the broker acknowledges its entry. *)
Definition wit_node_events : list node_event :=
  [Watched env1 api_pod; Watched env1 web;
   NetworkWakes (Wakeup (Received wit_event "id" 10) 10 true 10);
   NetworkWakes (Wakeup TimedOut (secs 1) true (secs 1))].

Lemma wit_node_received :
  omap received (omap (consumer_view wit_excluded) wit_node_events) = ch_sent (network_tx (run_of wit_run)).
Proof. by vm_compute. Qed.

Lemma wit_node_early : wit_event ∉ omap received (omap (consumer_view wit_excluded) [Watched env1 api_pod]).
Proof. apply not_elem_of_nil. Qed.

Lemma wit_node_open : Forall not_closed (omap (consumer_view wit_excluded) wit_node_events).
Proof.
  assert (omap (consumer_view wit_excluded) wit_node_events =
    [PodFound 8 (inspected (MkPodInfo "api" (Some "prod"%string) "10.0.0.4") "c2" 102 8);
     PodFound 7 web_inspect; NetworkTurn (Wakeup (Received wit_event "id" 10) 10 true 10);
     NetworkTurn (Wakeup TimedOut (secs 1) true (secs 1))]) as -> by by vm_compute.
  by repeat constructor.
Qed.

Lemma wit_node_others :
  Forall (λ ev, match ev with Watched e' p' => ∀ i', ¬ registers wit_excluded e' p' 7 i' | _ => True end)
    [NetworkWakes (Wakeup (Received wit_event "id" 10) 10 true 10);
     NetworkWakes (Wakeup TimedOut (secs 1) true (secs 1))].
Proof. by repeat constructor. Qed.

Lemma watched_pod_reaches_broker_witness :
  let h := network_handler (nd_consumers (wit_node wit_node_events)) in
  ∃ t ip, pod_address web = Some ip ∧
    entry_key t = {|
      tk_pod_name := "web"; tk_pod_ip := ip; tk_pod_port := pretty 0;
      tk_traffic_in_out_ip := ipv4_to_string (from_be32 (NetworkProbe.ne_daddr wit_event));
      tk_traffic_in_out_port := pretty (NetworkProbe.ne_dport wit_event);
      tk_traffic_type := "EGRESS"; tk_ip_protocol := "UDP"; tk_decision := "ALLOW" |} ∧
    (t ∈ acked h ∨ t ∈ overflowed h ∨ t ∈ batch h).
Proof.
  exact (watched_pod_reaches_broker wit_excluded true "node-1" true wit_system (run_of wit_run)
    [datagram; execve] [resend 10; resend 20; execve] wit_after (wit_client 100) 1 1 10 None
    (Some "10.0.0.3"%string) None env1 web web_inspect [Watched env1 api_pod]
    [NetworkWakes (Wakeup (Received wit_event "id" 10) 10 true 10);
     NetworkWakes (Wakeup TimedOut (secs 1) true (secs 1))] 0 0 wit_system_loaded wit_run_exec
    wit_run_room (Z.neq_succ_diag_l 0) wit_run_unfiltered wit_run_new wit_before_ready
    (proj1 wit_run_open) web_registers wit_node_others wit_node_received wit_node_early wit_node_open
    eq_refl).
Defined.

(** ** Every event is claimed *)

Lemma wit_system_untracked (k : Z) :
  tracked (NetworkProbe.np_helper (network_sk (sys_ctl wit_system))) k = false.
Proof. reflexivity. Qed.

Lemma wit_node_sent : ch_sent (tx (nd_watcher (wit_node wit_node_events))) = [8; 7].
Proof. by vm_compute. Qed.

Lemma wit_run_turns (ok : bool) (inum : Z) (ip : option string) :
  LoopTurn ok (Some inum) ip ∈ wit_run → inum ∈ ch_sent (tx (nd_watcher (wit_node wit_node_events))).
Proof.
  rewrite wit_node_sent. unfold wit_run, wit_before, wit_after. simpl.
  rewrite !elem_of_cons, elem_of_nil. intros H. repeat destruct H as [H|H]; simplify_eq; set_solver.
Qed.

Lemma wit_run_sends : wit_event ∈ ch_sent (network_tx (run_of wit_run)).
Proof.
  assert (ch_sent (network_tx (run_of wit_run)) = [wit_event]) as -> by by vm_compute.
  by left.
Qed.

Lemma every_event_is_claimed_witness :
  NetworkProbe.ne_inum wit_event = 0 ∨
  is_Some (container_map (nd_consumers (wit_node wit_node_events)) !! NetworkProbe.ne_inum wit_event).
Proof.
  exact (every_event_is_claimed wit_excluded true "node-1" true wit_system (run_of wit_run) wit_run
    wit_node_events 0 0 wit_event wit_system_loaded wit_system_untracked wit_run_exec wit_run_room
    wit_run_turns (proj1 wit_run_open) wit_run_sends).
Defined.
