(* ===== verification/PolicyWitness.v ===== *)
(** * The theorems about policies at concrete inputs

    Label selectors that are evaluated as apimachinery documents, text ordered by bytes, and a cluster:
    the pod web of namespace prod at 10.0.0.1, which talks to the pod db of the same namespace at
    10.0.0.2. *)

From stdpp Require Import pretty.
From S2P Require Import Prelude RustStd GoStd KubePolicy Matcher MatcherThms.
From S2P Require Import StandardPolicy StandardPolicyFacts StandardPolicyThms CiliumPolicy.
From S2P Require Import BrokerQueries PolicyService TrafficWitness.
From S2P Require Traffic Delivery NetworkProbe NetpolicyDrop Broker PodDetails.

(** ** Label selectors *)

Definition valid_pair (k v : string) : bool :=
  negb (String.eqb k EmptyString) && (String.length v <=? 63)%nat.

Definition requirement_ok (r : LabelSelectorRequirement) : bool :=
  if String.eqb (req_Operator r) "In" || String.eqb (req_Operator r) "NotIn"
  then negb (length (req_Values r) =? 0)%nat
  else if String.eqb (req_Operator r) "Exists" || String.eqb (req_Operator r) "DoesNotExist"
  then (length (req_Values r) =? 0)%nat
  else false.

Definition meets (lbls : labels) (r : LabelSelectorRequirement) : bool :=
  let found := lbls !! req_Key r in
  if String.eqb (req_Operator r) "In"
  then match found with Some v => bool_decide (v ∈ req_Values r) | None => false end
  else if String.eqb (req_Operator r) "NotIn"
  then match found with Some v => negb (bool_decide (v ∈ req_Values r)) | None => true end
  else if String.eqb (req_Operator r) "Exists" then bool_decide (is_Some found)
  else bool_decide (found = None).

#[export] Instance text_selectors : Selectors := {
  Selector := LabelSelector;
  LabelSelectorAsSelector sel :=
    if bool_decide (map_Forall (λ k v, valid_pair k v = true) (MatchLabels sel)) &&
       forallb requirement_ok (MatchExpressions sel)
    then Some sel else None;
  Matches sel lbls := bool_decide (MatchLabels sel ⊆ lbls) && forallb (meets lbls) (MatchExpressions sel);
  valid_label := valid_pair
}.

#[export] Instance text_selector_laws : SelectorLaws.
Proof.
  split. intros m Hm. exists (MkLabelSelector m []). split.
  - cbn. by rewrite bool_decide_eq_true_2.
  - intros lbls. cbn. by rewrite andb_true_r.
Qed.

Lemma check_labels (m : labels) :
  bool_decide (map_Forall (λ k v, valid_pair k v = true) m) = true → valid_labels m.
Proof. apply bool_decide_eq_true_1. Qed.

#[export] Instance byte_collation : Collation := {
  collate := String.le; collate_dec := String.le_dec; collate_trans := _; collate_total := _
}.

(** ** The cluster *)

#[local] Open Scope string_scope.

Definition app_label (v : string) : labels := {["app" := v]}.

Definition pod_json (v : string) : PodDetails.value :=
  PodDetails.Object [("metadata", PodDetails.Object [("labels", PodDetails.Object [("app", PodDetails.Text v)])])].

Definition pod_row (name ip app : string) (dead : bool) : PodDetails.PodDetail :=
  PodDetails.MkPodDetail name ip (Some "prod") (Some (pod_json app)) 1 "n1" dead None None.

Definition wit_flow : Flow := MkFlow "prod" "web" "prod" "db" "10.0.0.1" "10.0.0.2" 53 "UDP".
Definition wit_blocked_flow : Flow := MkFlow "prod" "web" "prod" "db" "10.0.0.1" "10.0.0.2" 443 "TCP".

Definition kube_pod (name app : string) : Pod := MkPod name "prod" (app_label app) [].

Definition wit_lookup : Lookup :=
  MkLookup
    (λ ns name,
      if String.eqb ns "prod" && String.eqb name "web" then Some (kube_pod "web" "web")
      else if String.eqb ns "prod" && String.eqb name "db" then Some (kube_pod "db" "db") else None)
    (λ ns, if String.eqb ns "prod" then Some {[namespace_label := "prod"]} else None).

Definition wit_blocked_entry : Traffic.PodTraffic :=
  Traffic.MkPodTraffic "id2" "web" (Some "prod") "10.0.0.1" (Some "0") (Some "EGRESS") (Some "10.0.0.2")
    (Some "443") (Some "TCP") (Some "DROP") 2.

Definition wit_db : tables :=
  MkTables [Delivery.wire (datagram_entry 53 1); Delivery.wire wit_blocked_entry]
    [pod_row "web" "10.0.0.1" "web" false; pod_row "db" "10.0.0.2" "db" false] [].

(** A row is about 350 bytes long. *)
Definition wit_body_length (rows : list Broker.PodTraffic) : Z := 350 * Z.of_nat (length rows).

Definition wit_data : BrokerData := apiBrokerData wit_body_length wit_db.

Definition wit_rows : list PodTraffic :=
  match PodTrafficByName wit_data "web" with inr rows => rows | inl _ => [] end.

Definition wit_detail : PodDetail := MkPodDetail "10.0.0.1" "web" "prod" (app_label "web").

Definition wit_policy : NetworkPolicy :=
  match Generate wit_data "web" wit_rows (Some wit_detail) with
  | inr policy => policy
  | inl _ => generateDefaultDenyPolicy wit_detail
  end.

Definition wit_marshal (policy : NetworkPolicy) : string + string := inr (meta_Name (np_meta policy)).

Definition wit_out : PolicyOutput NetworkPolicy :=
  MkOutput wit_policy (meta_Name (np_meta wit_policy)) "web" "prod" "standard".

(** The policy: one rule, for the pods of prod with the labels of db. *)
Example wit_policy_is :
  np_Spec wit_policy = MkSpec (MkLabelSelector (app_label "web") []) ["Egress"] []
    [MkEgressRule [number_port 53 "UDP"; number_port 443 "TCP"] [selector_peer (app_label "db") "prod"]].
Proof. vm_compute. reflexivity. Qed.

(** ** Facts about the cluster *)

Lemma wit_generate : Generate wit_data "web" wit_rows (Some wit_detail) = inr wit_policy.
Proof. vm_compute. reflexivity. Qed.

Lemma wit_service :
  GeneratePolicy wit_marshal (standard_service wit_data) "web" "standard" = inr wit_out.
Proof. vm_compute. reflexivity. Qed.

Lemma wit_valid (app : string) : (String.length app <=? 63)%nat = true → valid_labels (app_label app).
Proof. unfold app_label. intros Hl k v [<- <-]%lookup_singleton_Some. exact Hl. Qed.

Lemma wit_found : found_pod wit_db "web" wit_data wit_detail.
Proof. exists wit_rows. split; vm_compute; reflexivity. Qed.

Lemma wit_protects (flow : Flow) :
  SrcPodNamespace flow = "prod" → SrcPodName flow = "web" →
  protects wit_detail flow DirectionEgress wit_lookup.
Proof.
  intros Hns Hn. exists (kube_pod "web" "web"). unfold subjectPod. simpl. by rewrite Hns, Hn.
Qed.

Lemma wit_recognises (flow : Flow) :
  DstPodNamespace flow = "prod" → DstPodName flow = "db" →
  recognises wit_data flow DirectionEgress wit_lookup "10.0.0.2".
Proof.
  intros Hns Hn. unfold recognises.
  assert (resolve wit_data "10.0.0.2" = Some (app_label "db", "prod")) as -> by (vm_compute; reflexivity).
  split; [by apply wit_valid|]. split; [done|]. exists (kube_pod "db" "db"), {[namespace_label := "prod"]}.
  unfold peerPod. simpl. by rewrite Hns, Hn.
Qed.

(** ** The theorems *)

Lemma wit_types : Forall direction (PolicyTypes (anp_Spec (audited wit_policy))).
Proof.
  change (Forall direction (PolicyTypes (np_Spec wit_policy))). rewrite wit_policy_is.
  constructor; [by right|constructor].
Qed.

(** A flow of web to an address that the lookup does not know. *)
Definition wit_stranger_flow : Flow := MkFlow "prod" "web" "" "" "10.0.0.1" "192.0.2.1" 53 "UDP".

Lemma wit_about_egress : about (PolicyTypes (np_Spec wit_policy)) (Egress (np_Spec wit_policy)) DirectionEgress.
Proof. rewrite wit_policy_is. apply list_elem_of_here. Qed.

Lemma wit_stranger_selected : applies wit_stranger_flow (audited wit_policy) DirectionEgress wit_lookup.
Proof. exists (kube_pod "web" "web"). split_and!; vm_compute; reflexivity. Qed.

Lemma wit_stranger : peerPod wit_stranger_flow DirectionEgress wit_lookup = None.
Proof. reflexivity. Qed.

Lemma match_implements_semantics_witness :
  NoDup (Direction <$> Match wit_flow (audited wit_policy) wit_lookup) ∧
  (∀ dir v,
    (∃ r, r ∈ Match wit_flow (audited wit_policy) wit_lookup ∧ Direction r = dir ∧ Verdict r = v) ↔
    about (PolicyTypes (np_Spec wit_policy)) (Egress (np_Spec wit_policy)) dir ∧
    verdict_of wit_flow (audited wit_policy) wit_lookup dir v) ∧
  ∃ r, r ∈ Match wit_stranger_flow (audited wit_policy) wit_lookup ∧ Direction r = DirectionEgress ∧
    (Verdict r = VerdictAllow ∧
       permitted_by_address wit_stranger_flow (audited wit_policy) DirectionEgress wit_lookup ∨
     Verdict r = VerdictWouldDeny ∧
       ¬ permitted_by_address wit_stranger_flow (audited wit_policy) DirectionEgress wit_lookup).
Proof.
  pose proof (match_implements_semantics wit_flow (audited wit_policy) wit_lookup wit_types) as (Hn&Hv&_).
  split; [exact Hn|]. split; [exact Hv|].
  exact (proj2 (proj2 (match_implements_semantics wit_stranger_flow (audited wit_policy) wit_lookup wit_types))
    DirectionEgress wit_about_egress wit_stranger_selected wit_stranger).
Defined.

(** A policy for every namespace that has a name, which allows nothing in. *)
Definition wit_cluster_policy : AuditClusterNetworkPolicy :=
  MkAuditClusterNetworkPolicy (CreateObjectMeta "closed" EmptyString ∅)
    (MkClusterSpec (Some (MkLabelSelector ∅ [MkLabelSelectorRequirement namespace_label "Exists" []]))
       (MkLabelSelector (app_label "db") []) [] [] []).

Lemma cluster_policy_agrees_witness :
  Verdict (match_direction_cluster wit_flow wit_cluster_policy wit_lookup DirectionIngress) = VerdictWouldDeny ∧
  Verdict (match_direction_cluster wit_flow wit_cluster_policy wit_lookup DirectionIngress) =
  Verdict (match_direction wit_flow (in_scope wit_cluster_policy "prod") wit_lookup DirectionIngress).
Proof.
  split; [vm_compute; reflexivity|].
  refine (proj1 (proj1 (cluster_policy_agrees wit_flow wit_cluster_policy wit_lookup DirectionIngress
    (kube_pod "db" "db") eq_refl) _)).
  intros sel [= <-]. exists {[namespace_label := "prod"]}. split; [done|]. vm_compute. reflexivity.
Defined.

Lemma generated_policy_exact_witness :
  let r := match_direction wit_flow (audited wit_policy) wit_lookup DirectionEgress in
  Verdict r = VerdictAllow ∧
  ((∃ peer, observed wit_detail wit_rows DirectionEgress peer 53 "UDP" ∧
            peer_admits wit_data wit_flow DirectionEgress wit_lookup peer) → Verdict r = VerdictAllow).
Proof.
  split; [vm_compute; reflexivity|].
  exact (proj1 (proj2 (generated_policy_exact wit_data "web" wit_rows wit_detail wit_policy wit_flow
    DirectionEgress wit_lookup wit_generate (wit_valid "web" eq_refl) (or_intror eq_refl)
    (wit_protects wit_flow eq_refl eq_refl)))).
Defined.

Lemma wit_row_observed :
  observes wit_detail DirectionEgress (api_traffic (Delivery.wire (datagram_entry 53 1))) "10.0.0.2" 53 "UDP".
Proof. unfold observes. split_and!; by try vm_compute. Qed.

Lemma wit_row_in : api_traffic (Delivery.wire (datagram_entry 53 1)) ∈ wit_rows.
Proof. apply list_elem_of_In. vm_compute. auto. Qed.

Lemma observed_flow_is_allowed_witness :
  ∃ r, r ∈ Match wit_flow (audited wit_policy) wit_lookup ∧
    Direction r = DirectionEgress ∧ Verdict r = VerdictAllow.
Proof.
  exact (observed_flow_is_allowed wit_data "web" wit_rows wit_detail wit_policy
    (api_traffic (Delivery.wire (datagram_entry 53 1))) wit_flow DirectionEgress wit_lookup "10.0.0.2"
    wit_generate (wit_valid "web" eq_refl) (wit_protects wit_flow eq_refl eq_refl) wit_row_in
    wit_row_observed (or_intror eq_refl) (wit_recognises wit_flow eq_refl eq_refl)).
Defined.

Lemma policy_ignores_row_order_witness :
  Generate wit_data "web" (wit_rows ++ wit_rows) (Some wit_detail) =
  Generate wit_data "web" (reverse wit_rows) (Some wit_detail).
Proof.
  refine (policy_ignores_row_order wit_data "web" (wit_rows ++ wit_rows) (reverse wit_rows) (Some wit_detail) _).
  intros t. rewrite elem_of_app, elem_of_reverse. naive_solver.
Defined.

Lemma no_traffic_is_an_error_witness :
  GeneratePolicy wit_marshal
    (NewPolicyService "standard" (MkBrokerData (λ _, inr []) (PodByIP wit_data) (ServiceByIP wit_data)))
    "web" "standard" = inl ("no traffic data found for pod web").
Proof.
  exact (no_traffic_is_an_error wit_marshal
    (NewPolicyService "standard" (MkBrokerData (λ _, inr []) (PodByIP wit_data) (ServiceByIP wit_data)))
    "web" "standard" eq_refl).
Defined.

Lemma wit_built :
  Traffic.build_traffic_event (to_port 53) wit_pod "id" 1 Traffic.cache_new =
  (Some (datagram_entry 53 1), (Traffic.build_traffic_event (to_port 53) wit_pod "id" 1 Traffic.cache_new).2).
Proof. apply injective_projections; [vm_compute; reflexivity|reflexivity]. Qed.

Lemma wit_drop_built :
  Traffic.build_policy_drop_event blocked wit_pod "id2" 2 Traffic.cache_new =
  (Some wit_blocked_entry, (Traffic.build_policy_drop_event blocked wit_pod "id2" 2 Traffic.cache_new).2).
Proof. apply injective_projections; [vm_compute; reflexivity|reflexivity]. Qed.

Lemma wit_peer_address : ipv4_to_string (from_be32 33554442) = "10.0.0.2".
Proof. vm_compute. reflexivity. Qed.

Lemma wit_recognises_event (flow : Flow) :
  DstPodNamespace flow = "prod" → DstPodName flow = "db" →
  recognises wit_data flow DirectionEgress wit_lookup (ipv4_to_string (from_be32 33554442)).
Proof. rewrite wit_peer_address. apply wit_recognises. Qed.

Lemma wit_port_53 : (1 ≤ 53 ≤ 65535)%Z.
Proof. lia. Qed.

Lemma wit_port_443 : (1 ≤ 443 ≤ 65535)%Z.
Proof. lia. Qed.

Lemma reported_flow_is_allowed_witness :
  ∃ r, r ∈ Match wit_flow (audited (out_Policy wit_out)) wit_lookup ∧
    Direction r = DirectionEgress ∧ Verdict r = VerdictAllow.
Proof.
  exact (reported_flow_is_allowed wit_body_length wit_marshal (to_port 53) wit_pod "id" 1 Traffic.cache_new _
    (datagram_entry 53 1) wit_db wit_out wit_detail wit_flow DirectionEgress wit_lookup
    wit_built (list_elem_of_here _ _) wit_service wit_found eq_refl eq_refl wit_port_53
    (wit_valid "web" eq_refl) (wit_protects wit_flow eq_refl eq_refl)
    (wit_recognises_event wit_flow eq_refl eq_refl)).
Defined.

Lemma blocked_flow_is_allowed_witness :
  Traffic.pt_decision wit_blocked_entry = Some "DROP" ∧
  ∃ r, r ∈ Match wit_blocked_flow (audited (out_Policy wit_out)) wit_lookup ∧
    Direction r = DirectionEgress ∧ Verdict r = VerdictAllow.
Proof.
  exact (blocked_flow_is_allowed wit_body_length wit_marshal blocked wit_pod "id2" 2 Traffic.cache_new _
    wit_blocked_entry wit_db wit_out wit_detail wit_blocked_flow wit_lookup
    wit_drop_built (list_elem_of_further _ _ _ (list_elem_of_here _ _)) wit_service wit_found eq_refl eq_refl eq_refl
    eq_refl wit_port_443 (wit_valid "web" eq_refl) (wit_protects wit_blocked_flow eq_refl eq_refl)
    (wit_recognises_event wit_blocked_flow eq_refl eq_refl)).
Defined.

(** ** Cilium *)

Definition wit_cilium : CiliumNetworkPolicy :=
  match cilium_Generate wit_data "web" wit_rows (Some wit_detail) with
  | inr policy => policy
  | inl _ => cilium_deny_all wit_detail
  end.

Lemma wit_cilium_generated : cilium_Generate wit_data "web" wit_rows (Some wit_detail) = inr wit_cilium.
Proof. vm_compute. reflexivity. Qed.

Definition wit_named : list CiliumEndpointSelector * list string :=
  ([MkEndpointSelector {["k8s:app" := "db"]}], []).

Example wit_cilium_is :
  (cs_Ingress (cnp_Spec wit_cilium), cr_ToPorts <$> cs_Egress (cnp_Spec wit_cilium)) =
  ([], [[MkPortRule [MkPortProtocol "53" "UDP"]; MkPortRule [MkPortProtocol "443" "TCP"]]]).
Proof. vm_compute. reflexivity. Qed.

Lemma cilium_policy_exact_witness :
  cilium_allows (cs_Egress (cnp_Spec wit_cilium)) wit_named 53 "UDP" ↔
  ∃ peer, observed wit_detail wit_rows PolicyTypeEgress peer 53 "UDP" ∧
    resolvePeerForCilium wit_data peer = wit_named.
Proof.
  exact (proj2 (cilium_policy_exact wit_data "web" wit_rows wit_detail wit_cilium 53 "UDP" wit_named
    wit_cilium_generated)).
Defined.

(** db, moved to the namespace test. *)
Definition wit_moved_row : PodDetails.PodDetail :=
  PodDetails.MkPodDetail "db" "10.0.0.2" (Some "test") (Some (pod_json "db")) 1 "n1" false None None.

Definition wit_moved_data : BrokerData :=
  apiBrokerData wit_body_length
    (MkTables (tb_pod_traffic wit_db) [pod_row "web" "10.0.0.1" "web" false; wit_moved_row] []).

Lemma wit_same_pods : same_but_namespaces wit_data wit_moved_data.
Proof.
  intros ip. unfold wit_data, wit_moved_data, apiBrokerData. simpl. split; [|done].
  unfold getRealPodSpec, pod_by_ip. simpl.
  destruct (decide_rel eq "10.0.0.1" ip); [vm_compute; reflexivity|].
  destruct (decide_rel eq "10.0.0.2" ip); [vm_compute; reflexivity|done].
Qed.

Lemma cilium_policy_ignores_namespaces_witness :
  cilium_Generate wit_data "web" wit_rows (Some wit_detail) =
    cilium_Generate wit_moved_data "web" wit_rows (Some wit_detail) ∧
  createNetworkPolicyPeer wit_data "10.0.0.2" ≠ createNetworkPolicyPeer wit_moved_data "10.0.0.2".
Proof.
  refine (cilium_policy_ignores_namespaces wit_data wit_moved_data "web" "10.0.0.2" wit_rows (Some wit_detail)
    (MkPodDetail "10.0.0.2" "db" "prod" (app_label "db")) (MkPodDetail "10.0.0.2" "db" "test" (app_label "db"))
    wit_same_pods eq_refl eq_refl _ _ _ _).
  - vm_compute. reflexivity.
  - vm_compute. reflexivity.
  - discriminate.
  - discriminate.
Defined.
