(* ===== verification/AuditWitness.v ===== *)
(** * The theorems about the audit, the policy store and the pruning at concrete inputs

    The cluster of PolicyWitness.v: the evaluator watches the policy that the advisor has generated for
    web, and the broker audits the datagrams that web has sent. *)

From S2P Require Import Prelude RustStd TrafficWitness PodDetails RustText GoStd KubePolicy Matcher.
From S2P Require Import MatcherThms StandardPolicy StandardPolicyFacts StandardPolicyThms BrokerQueries.
From S2P Require Import PolicyService PolicyStore FlowAudit Retention PolicyWitness.
From S2P Require Traffic Broker Delivery.

#[local] Open Scope string_scope.

(** ** The evaluation of a flow *)

(** Objects that convert to what they are. *)
Definition wit_object : Type := AuditNetworkPolicy + AuditClusterNetworkPolicy.

Definition object_namespace (u : wit_object) : string :=
  match u with inl p => anp_namespace p | inr _ => "" end.

Definition object_name (u : wit_object) : string :=
  match u with inl p => anp_name p | inr p => acnp_name p end.

Definition object_policy (u : wit_object) : option AuditNetworkPolicy :=
  match u with inl p => Some p | inr _ => None end.

Definition object_cluster_policy (u : wit_object) : option AuditClusterNetworkPolicy :=
  match u with inl _ => None | inr p => Some p end.

#[local] Abbreviation watch := (watched object_namespace object_name object_policy).
#[local] Abbreviation store := (store_run object_namespace object_name object_policy object_cluster_policy).

Definition wit_watch : list (store_event (Unstructured := wit_object)) :=
  [PolicyAddOrUpdate (Delivered (inl (audited wit_policy)));
   ClusterPolicyAddOrUpdate (Delivered (inr wit_cluster_policy))].

Definition wit_informers : informers :=
  MkInformers {["prod/web" := kube_pod "web" "web"; "prod/db" := kube_pod "db" "db"]}
    {["prod" := Some {[namespace_label := "prod"]}]}.

Lemma wit_informers_ok : informers_ok wit_informers.
Proof.
  intros k p. unfold wit_informers. simpl.
  intros [[<- <-]|[_ [<- <-]%lookup_singleton_Some]]%lookup_insert_Some; vm_compute; split; reflexivity.
Qed.

Definition wit_result : Result :=
  match_direction wit_flow (audited wit_policy) (store_lookup wit_informers) DirectionEgress.

Lemma wit_result_matches : wit_result ∈ Match wit_flow (audited wit_policy) (store_lookup wit_informers).
Proof. apply list_elem_of_In. vm_compute. by left. Qed.

Lemma wit_result_allows : Verdict wit_result = VerdictAllow.
Proof. vm_compute. reflexivity. Qed.

Lemma wit_watched :
  watch wit_watch !! (anp_namespace (audited wit_policy), anp_name (audited wit_policy)) = Some (audited wit_policy).
Proof. apply lookup_insert_eq. Qed.

Lemma evaluation_is_complete_witness :
  Verdict wit_result = VerdictAllow ∧ wit_result ∈ handleEvaluate wit_flow (store wit_watch) wit_informers.
Proof.
  split; [exact wit_result_allows|].
  refine (proj1 (evaluation_is_complete object_namespace object_name object_policy object_cluster_policy
    wit_watch wit_informers wit_flow (audited wit_policy) wit_result wit_informers_ok eq_refl eq_refl)
    wit_watched wit_result_matches _).
  rewrite wit_result_allows. discriminate.
Defined.

(** ** The audit *)

Definition wit_row : Broker.PodTraffic := Delivery.wire (datagram_entry 53 1).

Definition wit_url : option string := Some "http://evaluator".

(** Of three rows one is shed; of the others one is answered, and one is still being evaluated. *)
Definition wit_run : list audit_event :=
  [Ingested [wit_row; wit_row; wit_row]; Acquire; Receive; Finish 0 (Evaluated [wit_result]) 7 true;
   Acquire; Receive].

Definition wit_started : AuditClient := started_client wit_url (Some " 1 ") (Some "2").

Definition wit_audit : AuditClient := default wit_started (audit_run wit_run wit_started).

Definition wit_rest : AuditClient := default wit_audit (audit_run [Finish 0 Undecodable 8 true] wit_audit).

Lemma wit_run_runs : audit_run wit_run wit_started = Some wit_audit.
Proof. reflexivity. Qed.

Lemma wit_rest_runs : audit_run [Finish 0 Undecodable 8 true] wit_audit = Some wit_rest.
Proof. reflexivity. Qed.

Example wit_audit_state :
  (length (queue wit_audit), length (in_flight wit_audit), length (finished wit_audit), dropped_count wit_audit,
   length (audit_verdicts wit_audit)) = (0, 1, 1, 1, 1)%nat.
Proof. vm_compute. reflexivity. Qed.

Lemma audit_conserves_flows_witness :
  [wit_row; wit_row; wit_row] ≡ₚ
    queue wit_audit ++ in_flight wit_audit ++ finished wit_audit ++ dropped wit_audit.
Proof.
  exact (proj1 (audit_conserves_flows wit_url (Some " 1 ") (Some "2") wit_run wit_audit eq_refl wit_run_runs)).
Defined.

Lemma wit_quiet : Forall quiet [Finish 0 Undecodable 8 true].
Proof. constructor; [done|constructor]. Qed.

Lemma audit_comes_to_rest_witness :
  (length [Finish 0 Undecodable 8 true] ≤ work wit_audit)%nat ∧
  ((∀ e, quiet e → audit_step e wit_rest = None) → queue wit_rest = [] ∧ in_flight wit_rest = []).
Proof.
  exact (audit_comes_to_rest wit_url (Some " 1 ") (Some "2") wit_run [Finish 0 Undecodable 8 true]
    wit_audit wit_rest eq_refl wit_run_runs wit_quiet wit_rest_runs).
Defined.

Definition wit_verdict : AuditVerdictInsert :=
  insert_of (MkAuditFlow (Some "prod") (Some "web") None None (Some "10.0.0.1") (Some "10.0.0.2") 53 "UDP")
    7 wit_result.

Lemma wit_verdict_stored : wit_verdict ∈ audit_verdicts wit_audit.
Proof. apply list_elem_of_In. vm_compute. by left. Qed.

Lemma stored_verdicts_are_answers_witness :
  ∃ traffic, traffic ∈ finished wit_audit ∧ row_of traffic wit_verdict.
Proof.
  exact (stored_verdicts_are_answers wit_run wit_started wit_audit wit_verdict eq_refl wit_run_runs
    wit_verdict_stored).
Defined.

(** ** The audit of the generated policy *)

Definition wit_audit_flow : AuditFlow :=
  MkAuditFlow (Some "prod") (Some "web") None None (Some "10.0.0.1") (Some "10.0.0.2") 53 "UDP".

Lemma wit_audit_flow_built : build_flow_for_traffic wit_row = Some wit_audit_flow.
Proof. vm_compute. reflexivity. Qed.

Lemma wit_audit_protects :
  protects wit_detail (decoded wit_audit_flow) DirectionEgress (store_lookup wit_informers).
Proof. exists (kube_pod "web" "web"). split_and!; [vm_compute; reflexivity|reflexivity|done]. Qed.

(** On port 53 the only peer of web is db. *)
Lemma wit_peers_resolve (address : string) :
  observed wit_detail wit_rows DirectionEgress address 53 "UDP" → is_Some (resolve wit_data address).
Proof.
  intros (t&Ht%list_elem_of_In&_&<-&_). vm_compute in Ht.
  destruct Ht as [<-|[<-|[]]]; exists (app_label "db", "prod"); vm_compute; reflexivity.
Qed.

Lemma audit_denies_learnt_flow_witness :
  ∃ r, r ∈ Match (decoded wit_audit_flow) (audited wit_policy) (store_lookup wit_informers) ∧
    Direction r = DirectionEgress ∧ Verdict r = VerdictWouldDeny.
Proof.
  exact (audit_denies_learnt_flow wit_data "web" wit_rows wit_detail wit_policy wit_row wit_audit_flow
    DirectionEgress "10.0.0.2" wit_informers wit_generate (wit_valid "web" eq_refl) wit_audit_flow_built
    ltac:(vm_compute; reflexivity) wit_audit_protects wit_row_in wit_row_observed wit_peers_resolve).
Defined.

(** * The pruning of old rows *)

Import PodDetails.

#[local] Open Scope string_scope.

(** The present, forty days after the epoch. *)
Definition wit_now : Z := days 40.

Definition wit_pod_row (name ip : string) (at_day : Z) (dead : bool) : PodDetail :=
  MkPodDetail name ip (Some "prod") None (days at_day) "n1" dead None None.

Definition wit_live : PodDetail := wit_pod_row "web" "10.0.0.1" 1 false.

Definition wit_pods : list PodDetail :=
  [wit_live; wit_pod_row "db" "10.0.0.2" 2 true; wit_pod_row "job" "10.0.0.3" 39 true].

Definition calm {A} : nat → batch_env A := λ _, MkBatchEnv BatchOk wit_now id.

Lemma calm_undisturbed {A} : undisturbed (A := A) wit_now calm.
Proof. by intros i. Qed.

Lemma calm_unique (l : list PodDetail) (i : nat) :
  unique_keys pod_name l → unique_keys pod_name (be_others (calm i) l).
Proof. done. Qed.

Lemma names_unique (l : list PodDetail) : bool_decide (NoDup (pod_name <$> l)) = true → unique_keys pod_name l.
Proof. apply bool_decide_eq_true_1. Qed.

Definition wit_pass : nat * pass_end * list PodDetail :=
  run_dead_pod_pass 30 (retention_batch_size (Some " 1000")) calm wit_pods.

Example wit_pass_is : wit_pass = (1%nat, WindowEmpty, [wit_live; wit_pod_row "job" "10.0.0.3" 39 true]).
Proof. vm_compute. reflexivity. Qed.

Definition wit_verdict_row (id at_day : Z) : AuditVerdict :=
  MkAuditVerdict id "uid" "prod" "web" "Egress" (Some "prod") (Some "web") None None 53 "UDP" None (days at_day)
    "WouldDeny".

Definition wit_verdicts : list AuditVerdict := [wit_verdict_row 1 2; wit_verdict_row 2 39; wit_verdict_row 3 1].

Definition wit_verdict_pass : nat * pass_end * list AuditVerdict :=
  run_pass 30 (retention_batch_size (Some " 1000")) calm wit_verdicts.

Example wit_verdict_pass_is : wit_verdict_pass = (2%nat, WindowEmpty, [wit_verdict_row 2 39]).
Proof. vm_compute. reflexivity. Qed.

Lemma ids_unique (l : list AuditVerdict) : bool_decide (NoDup (av_id <$> l)) = true → unique_keys av_id l.
Proof. apply bool_decide_eq_true_1. Qed.

Lemma retention_pass_is_bounded_witness :
  (MIN_BATCH_SIZE ≤ retention_batch_size (Some " 1000") ≤ MAX_BATCH_SIZE)%Z ∧
  (Z.of_nat wit_verdict_pass.1.1 ≤ 200 * retention_batch_size (Some " 1000"))%Z ∧
  (Z.of_nat wit_pass.1.1 ≤ 200 * retention_batch_size (Some " 1000"))%Z.
Proof.
  exact (retention_pass_is_bounded (Some " 1000") 30 30 calm calm wit_verdicts wit_pods (λ i l Hl, Hl)
    (λ i l, calm_unique l i) (ids_unique wit_verdicts eq_refl) (names_unique wit_pods eq_refl)).
Defined.

Lemma undisturbed_pass_is_exact_witness :
  let '(deleted, _, rest) := wit_pass in
  let expired := length (expired_rows (pod_expired 30 wit_now) wit_pods) in
  let bound := (200 * Z.to_nat (retention_batch_size (Some " 1000")))%nat in
  deleted = Nat.min expired bound ∧
  length (expired_rows (pod_expired 30 wit_now) rest) = (expired - bound)%nat ∧
  filter (λ r, pod_expired 30 wit_now r = false) rest ≡ₚ filter (λ r, pod_expired 30 wit_now r = false) wit_pods.
Proof.
  exact (undisturbed_pass_is_exact (Some " 1000") 30 wit_now calm wit_pods calm_undisturbed
    (names_unique wit_pods eq_refl)).
Defined.

Lemma live_rows_are_never_pruned_witness :
  wit_live ∈ (retention_turn (Some "0") None calm calm [] wit_pods).2 ∧
  (0 < dead_pod_retention_window (retention_days (Some "0")))%Z.
Proof.
  exact (live_rows_are_never_pruned (Some "0") None calm calm [] wit_pods wit_live (λ i l, calm_unique l i)
    (λ i l H, H) (names_unique wit_pods eq_refl) (list_elem_of_here _ _) eq_refl).
Defined.

Lemma just_dead_row_is_pruned_witness :
  pod_expired 30 wit_now wit_live = false ∧
  set_dead wit_live ∉
    (run_dead_pod_pass 30 (retention_batch_size None) calm [set_dead wit_live]).2.
Proof.
  exact (just_dead_row_is_pruned None 30 wit_now calm wit_live [] calm_undisturbed eq_refl eq_refl
    (names_unique [set_dead wit_live] eq_refl) eq_refl).
Defined.
