(* ===== verification/AggregatorThms.v ===== *)
(** * Theorems about the status of a policy

    Each status tells of the verdicts of its policy, none counted twice, and after a flush of all of
    them; what a restart of the evaluator and the deletion of a policy break.
    At the end, an API server that merges member by member, and a policy of namespace prod. *)

From stdpp Require Import sorting.
From S2P Require Import Prelude RustText GoStd KubePolicy Matcher PolicyStore Aggregator.

Section Status.
Context `{ApiServerLaws} (topN : Z) (topN_pos : 0 < topN).
Implicit Types (a : aggregator) (k : policyKey) (vs : list verdict) (es : list status_event) (sn : counters).

#[local] Abbreviation step := (status_step topN).
#[local] Abbreviation run := (status_run topN).

Lemma run_app es es' a : run (es ++ es') a = a' ← run es a; run es' a'.
Proof. revert a. induction es as [|e es IH]; intros a; simpl; [done|]. destruct (step e a); simpl; [apply IH|done]. Qed.

(** ** A whole flush *)

Lemma sorted_policies_elem sn k : k ∈ sorted_policies sn ↔ is_Some (sn !! k).
Proof.
  unfold sorted_policies. rewrite sort_Slice_perm, list_elem_of_fmap. split.
  - intros ([k' agg]&->&Hk%elem_of_map_to_list). by exists agg.
  - intros [agg Hk]. exists (k, agg). split; [done|]. by apply elem_of_map_to_list.
Qed.

Lemma sorted_policies_nodup sn : NoDup (sorted_policies sn).
Proof. unfold sorted_policies. rewrite sort_Slice_perm. apply NoDup_fst_map_to_list. Qed.

Lemma sorted_policies_length sn : length (sorted_policies sn) = size sn.
Proof. unfold sorted_policies. by rewrite sort_Slice_perm, length_fmap, length_map_to_list. Qed.

Definition patches (n : nat) : list status_event := replicate n (Patched Arrived).

Lemma flush_run sn (keys : list policyKey) (c : counters) (st : gmap policyKey status_json) :
  NoDup keys → (∀ k, k ∈ keys → is_Some (sn !! k)) →
  ∃ a', run (patches (length keys)) (MkAggregator c (pending sn keys) st) = Some a' ∧ flushing a' = None ∧
    (∀ k, k ∉ keys → statuses a' !! k = st !! k) ∧
    ∀ k agg old, k ∈ keys → sn !! k = Some agg → st !! k = Some old →
      statuses a' !! k = Some (merge (status_patch topN agg) old).
Proof.
  revert c st. induction keys as [|k keys IH]; intros c st Hn Hsn; simpl.
  { eexists. split_and!; [done|done|done|]. by intros k agg old ?%not_elem_of_nil. }
  apply NoDup_cons in Hn as [Hk Hn]. destruct (Hsn k (list_elem_of_here _ _)) as [agg Hagg].
  assert (∀ k', k' ∈ keys → is_Some (sn !! k')) as Hsn' by (intros k' Hk'; apply Hsn; by right).
  unfold patch_step. simpl. rewrite Hagg. simpl. destruct (st !! k) as [old|] eqn:Hold.
  - destruct (IH c (<[k := merge (status_patch topN agg) old]> st) Hn Hsn') as (a'&Hr&Hf&Hout&Hin).
    exists a'. split_and!; [done|done| |].
    + intros k' [Hne Hk']%not_elem_of_cons. rewrite Hout by done. by rewrite lookup_insert_ne.
    + intros k' agg' old' [->|Hk']%elem_of_cons Ha Ho.
      * rewrite Hout by done. rewrite lookup_insert_eq. congruence.
      * apply Hin; [done|done|]. rewrite lookup_insert_ne; [done|]. intros ->. done.
  - destruct (IH (delete k c) st Hn Hsn') as (a'&Hr&Hf&Hout&Hin).
    exists a'. split_and!; [done|done| |].
    + intros k' [Hne Hk']%not_elem_of_cons. by apply Hout.
    + intros k' agg' old' [->|Hk']%elem_of_cons Ha Ho; [congruence|by eapply Hin].
Qed.

(** The tick and the patches of a flush that nothing disturbs. *)
Lemma whole_flush a :
  flushing a = None →
  ∃ a', run (Ticked :: patches (size (counts a))) a = Some a' ∧ flushing a' = None ∧
    ∀ k old, statuses a !! k = Some old →
      statuses a' !! k =
        match counts a !! k with Some agg => Some (merge (status_patch topN agg) old) | None => Some old end.
Proof.
  intros Hf. simpl. rewrite Hf. simpl. rewrite <- sorted_policies_length.
  destruct (flush_run (counts a) (sorted_policies (counts a)) (counts a) (statuses a)) as (a'&Hr&Hf'&Hout&Hin).
  - apply sorted_policies_nodup.
  - intros k. apply sorted_policies_elem.
  - exists a'. split_and!; [done|done|]. intros k old Hold. destruct (counts a !! k) as [agg|] eqn:Hk.
    + apply Hin; [apply sorted_policies_elem; by rewrite Hk|done|done].
    + rewrite Hout; [done|]. rewrite sorted_policies_elem, Hk. by intros [? ?].
Qed.

(** ** The verdicts of a policy *)

Definition verdicts_of k es : list verdict :=
  omap (λ e, match e with Recorded v => if decide (v_key v = k) then Some v else None | _ => None end) es.

(** The policy [k] stays, and so does the evaluator. *)
Definition stays k (e : status_event) : Prop := e ≠ Restarted ∧ e ≠ PolicyDeleted k.

Definition counted vs (o : option policyAgg) : Prop :=
  match o with None => vs = [] | Some agg => vs ≠ [] ∧ summarises vs agg end.

Record told k vs a : Prop := {
  tl_counts : counted vs (counts a !! k);
  tl_status : ∃ rs0 rs1 j, rs0 `prefix_of` rs1 ∧ rs1 `prefix_of` vs ∧
    statuses a !! k = Some j ∧ reports topN rs0 j ∧
    match flushing a with Some (sn, _) => counted rs1 (sn !! k) | None => True end
}.

Lemma pending_sn sn (keys : list policyKey) (P : counters → Prop) :
  P sn → match pending sn keys with Some (sn, _) => P sn | None => True end.
Proof. by destruct keys. Qed.

Lemma told_recorded k vs a v :
  Z.of_nat (length (vs ++ verdicts_of k [Recorded v])) < 2 ^ 63 → told k vs a →
  told k (vs ++ verdicts_of k [Recorded v]) (MkAggregator (Record_verdict v (counts a)) (flushing a) (statuses a)).
Proof.
  intros Hl [Hc (rs0&rs1&j&Hp0&Hp1&Hj&Hr&Hs)]. revert Hl. unfold verdicts_of. csimpl. case_decide as Hk; intros Hl.
  - split; [|exists rs0, rs1, j; split_and!; try done; by apply prefix_app_r].
    simpl. unfold Record_verdict. rewrite Hk, lookup_insert_eq. simpl.
    split; [by destruct vs|]. apply record_summarises; [rewrite length_app in Hl; simpl in Hl; lia|]. unfold counted in Hc.
    destruct (counts a !! k) as [agg|]; simpl; [by destruct Hc|]. subst vs. apply new_agg_summarises.
  - rewrite app_nil_r. split; [|by exists rs0, rs1, j]. simpl. unfold Record_verdict.
    by rewrite lookup_insert_ne.
Qed.

Lemma told_patched k vs a a' (answer : patch_answer) :
  told k vs a → patch_step topN answer a = Some a' → told k vs a'.
Proof.
  intros [Hc (rs0&rs1&j&Hp0&Hp1&Hj&Hr&Hs)]. unfold patch_step.
  destruct (flushing a) as [[sn [|k' keys]]|]; [done| |done].
  assert (match pending sn keys with Some (sn, _) => counted rs1 (sn !! k) | None => True end) as Hs'.
  { by apply (pending_sn sn keys (λ sn, counted rs1 (sn !! k))). }
  assert (∀ c, c !! k = counts a !! k → match sn !! k' ≫= λ agg,
    match statuses a !! k' with
    | Some old => Some (MkAggregator (counts a) (pending sn keys)
        (<[k' := merge (status_patch topN agg) old]> (statuses a)))
    | None => Some (MkAggregator c (pending sn keys) (statuses a))
    end with Some a' => told k vs a' | None => True end) as Harr.
  { intros c Hcc. destruct (sn !! k') as [agg|] eqn:Ha; simpl; [|done].
    destruct (statuses a !! k') as [old|] eqn:Ho; simpl.
    - split; [done|]. simpl. destruct (decide (k' = k)) as [->|Hne].
      + rewrite Ha in Hs. destruct Hs as [Hne Hsum]. rewrite Ho in Hj. injection Hj as ->.
        exists rs1, rs1, (merge (status_patch topN agg) j). rewrite lookup_insert_eq. split_and!; try done.
        by eapply merge_reports.
      + exists rs0, rs1, j. by rewrite lookup_insert_ne.
    - split; simpl; [by rewrite Hcc|by exists rs0, rs1, j]. }
  destruct answer.
  - intros He. specialize (Harr (delete k' (counts a))). rewrite He in Harr. destruct (decide (k' = k)) as [->|Hne].
    + revert He. destruct (sn !! k) as [agg|]; simpl; [|done]. rewrite Hj. intros [= <-].
      destruct Hs as [Hne Hsum]. split; [done|]. exists rs1, rs1, (merge (status_patch topN agg) j). simpl.
      rewrite lookup_insert_eq. split_and!; try done. by eapply merge_reports.
    + apply Harr. by rewrite lookup_delete_ne.
  - intros He. specialize (Harr (counts a) eq_refl). by rewrite He in Harr.
  - intros [= <-]. split; [done|]. by exists rs0, rs1, j.
  - intros [= <-]. split; [done|]. by exists rs0, rs1, j.
Qed.

Lemma told_step k vs a a' (e : status_event) :
  stays k e → Z.of_nat (length (vs ++ verdicts_of k [e])) < 2 ^ 63 → told k vs a → step e a = Some a' →
  told k (vs ++ verdicts_of k [e]) a'.
Proof.
  intros [Hnr Hnd] Hl Ht. pose proof Ht as [Hc (rs0&rs1&j&Hp0&Hp1&Hj&Hr&Hs)].
  destruct e as [v| |answer|key|key|]; simpl; rewrite ?app_nil_r.
  - intros [= <-]. by apply told_recorded.
  - destruct (flushing a); [done|]. intros [= <-]. split; [done|]. simpl. exists rs0, vs, j.
    split_and!; [by etrans|done|done|done|]. by apply (pending_sn _ _ (λ sn, counted vs (sn !! k))).
  - by apply told_patched.
  - destruct (statuses a !! key) eqn:Hk; [done|]. intros [= <-]. split; [done|]. exists rs0, rs1, j. simpl.
    rewrite lookup_insert_ne; [done|congruence].
  - intros [= <-]. split; [done|]. exists rs0, rs1, j. simpl. rewrite lookup_delete_ne; [done|congruence].
  - done.
Qed.

Lemma verdicts_of_cons k (e : status_event) es : verdicts_of k (e :: es) = verdicts_of k [e] ++ verdicts_of k es.
Proof. unfold verdicts_of. by rewrite <- omap_app. Qed.

Lemma told_run k vs es a a' :
  Forall (stays k) es → Z.of_nat (length (vs ++ verdicts_of k es)) < 2 ^ 63 →
  told k vs a → run es a = Some a' → told k (vs ++ verdicts_of k es) a'.
Proof.
  revert vs a. induction es as [|e es IH]; intros vs a Hs Hl Ht; cbn [status_run].
  { intros [= <-]. by rewrite app_nil_r. }
  apply Forall_cons in Hs as [He Hs]. destruct (step e a) as [a1|] eqn:Hstep; [cbn [mbind option_bind]|done].
  rewrite verdicts_of_cons, app_assoc in Hl |- *. apply IH; [done|done|].
  eapply told_step; [done| |done|done]. rewrite length_app in Hl. lia.
Qed.

Lemma told_new k (st : gmap policyKey status_json) :
  st !! k = Some empty_status → told k [] (new_aggregator st).
Proof.
  intros Hk. split; [done|]. exists [], [], empty_status. by split_and!; try apply empty_reports.
Qed.

(** C18: a status tells of verdicts that were recorded, and counts none twice.  As long as a policy stays
    and the evaluator is not restarted, its status is at any moment the exact account of a first part of
    the verdicts recorded for it: how many there were, how many would be denied, the time of the last, the
    highest generation, and the flows that would be denied most often, each with its number. *)
Theorem status_is_an_account k (st : gmap policyKey status_json) es a :
  st !! k = Some empty_status → Forall (stays k) es → Z.of_nat (length (verdicts_of k es)) < 2 ^ 63 →
  run es (new_aggregator st) = Some a →
  ∃ rs j, rs `prefix_of` verdicts_of k es ∧ statuses a !! k = Some j ∧ reports topN rs j.
Proof.
  intros Hk Hs Hl Hr. destruct (told_run k [] es _ _ Hs Hl (told_new k st Hk) Hr) as [_ (rs0&rs1&j&Hp0&Hp1&Hj&Hrep&_)].
  exists rs0, j. split_and!; [by etrans|done|done].
Qed.

Lemma told_flushed k vs a :
  told k vs a → flushing a = None →
  ∃ a' j, run (Ticked :: patches (size (counts a))) a = Some a' ∧ flushing a' = None ∧
    statuses a' !! k = Some j ∧ reports topN vs j.
Proof.
  intros [Hc (rs0&rs1&j&Hp0&Hp1&Hj&Hrep&_)] Hf. destruct (whole_flush a Hf) as (a'&Hrun&Hf'&Hst). exists a'.
  specialize (Hst k j Hj). unfold counted in Hc. destruct (counts a !! k) as [agg|].
  - destruct Hc as [Hne Hsum]. exists (merge (status_patch topN agg) j). split_and!; [done..|].
    apply (merge_reports topN topN_pos rs0); [by etrans|done|done|done].
  - exists j. split_and!; [done..|]. assert (rs0 = vs) as <-; [|done].
    rewrite Hc in Hp1 |- *. apply prefix_nil_inv in Hp1. subst rs1. by apply prefix_nil_inv in Hp0.
Qed.

(** a flush catches up.  From any such moment at which no flush is under way, the next flush ends after
    as many patches as there are policies with a verdict, and when they arrive the status of the policy is
    the account of all the verdicts recorded for it. *)
Theorem flush_catches_up k (st : gmap policyKey status_json) es a :
  st !! k = Some empty_status → Forall (stays k) es → Z.of_nat (length (verdicts_of k es)) < 2 ^ 63 →
  run es (new_aggregator st) = Some a → flushing a = None →
  ∃ a' j, run (Ticked :: patches (size (counts a))) a = Some a' ∧ flushing a' = None ∧
    statuses a' !! k = Some j ∧ reports topN (verdicts_of k es) j.
Proof.
  intros Hk Hs Hl Hr. exact (told_flushed k _ a (told_run k [] es _ _ Hs Hl (told_new k st Hk) Hr)).
Qed.

(** C36: denials outlive the evaluator.  The counters start from zero when the evaluator is restarted, and a
    zero is left out of the patch, so that the denials of the status stay beside the new number of
    flows: after a restart and one flow that the policy allows, the status tells of one flow, and of as
    many denials as before, which is the account of no list of verdicts at all. *)
Theorem denials_outlive_restart k a (j : status_json) (d : Z) (l : list OffenderSummary) (v : verdict) :
  statuses a !! k = Some j → js_flowsWouldDeny j = Some d → js_topOffenders j = Some l → 1 < d →
  v_key v = k → v_wouldDeny v = false →
  ∃ a' j', run [Restarted; Recorded v; Ticked; Patched Arrived] a = Some a' ∧ statuses a' !! k = Some j' ∧
    js_flowsEvaluated j' = Some 1 ∧ js_flowsWouldDeny j' = Some d ∧ js_topOffenders j' = Some l ∧
    ∀ rs, ¬ reports topN rs j'.
Proof.
  intros Hj Hd Hl H1 Hk Hv. set (a1 := MkAggregator (Record_verdict v ∅) None (statuses a)).
  destruct (whole_flush a1 eq_refl) as (a'&Hr&_&Hst). specialize (Hst k j Hj). simpl in Hst.
  assert (Record_verdict v ∅ = {[k := record_in v new_agg]}) as Hrec.
  { unfold Record_verdict. by rewrite lookup_empty, Hk. }
  rewrite Hrec, lookup_singleton_eq in Hst.
  assert (size (counts a1) = 1%nat) as Hsz by (simpl; rewrite Hrec; apply map_size_singleton). rewrite Hsz in Hr.
  exists a', (merge (status_patch topN (record_in v new_agg)) j). split; [exact Hr|]. split; [exact Hst|].
  assert (js_flowsEvaluated (merge (status_patch topN (record_in v new_agg)) j) = Some 1) as He.
  { rewrite merge_evaluated. unfold record_in. by rewrite Hv. }
  assert (js_flowsWouldDeny (merge (status_patch topN (record_in v new_agg)) j) = Some d) as Hwd.
  { rewrite merge_denied. unfold record_in. rewrite Hv. simpl. by rewrite Hd. }
  split_and!; [exact He|exact Hwd| |].
  - rewrite merge_offenders. unfold record_in. rewrite Hv. simpl. unfold topOffenders. rewrite map_size_empty, orb_true_r.
    by rewrite Hl.
  - intros rs [_ _ Hre Hrd _]. rewrite He in Hre. rewrite Hwd in Hrd. unfold omitempty in *.
    destruct (Z.eqb_spec (Z.of_nat (length rs)) 0); [done|]. destruct (Z.eqb_spec (denied rs) 0); [done|].
    pose proof (denied_length rs). injection Hre as Hre. injection Hrd as Hrd. lia.
Qed.

(** a policy that is recreated between two flushes inherits the account of the one that was deleted:
    no flow has been evaluated against it, and the next flush gives it the number of flows and the
    generation of the other. *)
Theorem recreated_policy_inherits k a (agg : policyAgg) (j : status_json) :
  flushing a = None → counts a !! k = Some agg → statuses a !! k = Some j →
  ∃ a' j', run ([PolicyDeleted k; PolicyCreated k; Ticked] ++ patches (size (counts a))) a = Some a' ∧
    statuses a' !! k = Some j' ∧
    js_observedGeneration j' = omitempty (observedGeneration agg) ∧
    js_flowsEvaluated j' = omitempty (flowsEvaluated agg) ∧
    js_flowsWouldDeny j' = omitempty (flowsWouldDeny agg).
Proof.
  intros Hf Hc Hj.
  set (a1 := MkAggregator (counts a) (flushing a) (<[k := empty_status]> (delete k (statuses a)))).
  destruct (whole_flush a1 Hf) as (a'&Hr&_&Hst). specialize (Hst k empty_status). simpl in Hst.
  rewrite lookup_insert_eq, Hc in Hst. specialize (Hst eq_refl).
  exists a', (merge (status_patch topN agg) empty_status). split.
  { cbn [app status_run status_step mbind option_bind]. simpl. rewrite lookup_delete_eq. exact Hr. }
  split; [exact Hst|].
  rewrite merge_generation, merge_evaluated, merge_denied. simpl. unfold merged.
  split_and!; by destruct (omitempty _).
Qed.

End Status.

(** * At concrete runs *)

#[local] Open Scope string_scope.

#[export] Instance member_merge : ApiServer := {
  merge p old := MkStatus
    (merged (js_observedGeneration p) (js_observedGeneration old))
    (merged (js_lastEvaluated p) (js_lastEvaluated old))
    (merged (js_flowsEvaluated p) (js_flowsEvaluated old))
    (merged (js_flowsWouldDeny p) (js_flowsWouldDeny old))
    (merged (js_topOffenders p) (js_topOffenders old))
}.

#[export] Instance member_merge_laws : ApiServerLaws.
Proof. by split. Qed.

Definition wit_key : policyKey := MkPolicyKey "prod" "closed".

Definition wit_tuple (port : Z) : tupleKey := MkTupleKey "prod/web" "prod/db" "TCP" "Ingress" port.

Definition denies (port now : Z) : status_event := Recorded (MkVerdict wit_key (wit_tuple port) true 3 now).
Definition allowed (now : Z) : verdict := MkVerdict wit_key (wit_tuple 80) false 3 now.

Definition wit_statuses : gmap policyKey status_json := {[wit_key := empty_status]}.

(** A flow is denied while the flush of the first three is under way; its answer is lost. *)
Definition wit_run : list status_event :=
  [denies 443 10; Recorded (allowed 11); denies 22 12; Ticked; denies 443 13; Patched AnswerLost].

Definition wit_state : aggregator :=
  default (new_aggregator wit_statuses) (status_run 1 wit_run (new_aggregator wit_statuses)).

(** The two flows that are denied are as frequent: the lower port comes first. *)
Definition wit_offender (port n : Z) : OffenderSummary := MkOffender "prod/web" "prod/db" port "TCP" "Ingress" n.

Definition wit_status : status_json :=
  MkStatus (Some 3%Z) (Some 12%Z) (Some 3%Z) (Some 2%Z) (Some [wit_offender 22 1]).

Example wit_status_is : statuses wit_state !! wit_key = Some wit_status.
Proof. vm_compute. reflexivity. Qed.

Lemma wit_runs : status_run 1 wit_run (new_aggregator wit_statuses) = Some wit_state.
Proof. vm_compute. reflexivity. Qed.

Lemma wit_stays : Forall (stays wit_key) wit_run.
Proof. by repeat constructor. Qed.

Lemma wit_few : (Z.of_nat (length (verdicts_of wit_key wit_run)) < 2 ^ 63)%Z.
Proof. vm_compute. reflexivity. Qed.

Lemma wit_positive : (0 < 1)%Z.
Proof. done. Qed.

Lemma wit_exists : wit_statuses !! wit_key = Some empty_status.
Proof. vm_compute. reflexivity. Qed.

Lemma status_is_an_account_witness :
  ∃ rs j, rs `prefix_of` verdicts_of wit_key wit_run ∧ statuses wit_state !! wit_key = Some j ∧ reports 1 rs j.
Proof.
  exact (status_is_an_account 1 wit_positive wit_key wit_statuses wit_run wit_state wit_exists wit_stays wit_few
    wit_runs).
Defined.

Lemma wit_at_rest : flushing wit_state = None.
Proof. vm_compute. reflexivity. Qed.

Lemma flush_catches_up_witness :
  ∃ a' j, status_run 1 (Ticked :: patches (size (counts wit_state))) wit_state = Some a' ∧ flushing a' = None ∧
    statuses a' !! wit_key = Some j ∧ reports 1 (verdicts_of wit_key wit_run) j.
Proof.
  exact (flush_catches_up 1 wit_positive wit_key wit_statuses wit_run wit_state wit_exists wit_stays wit_few
    wit_runs wit_at_rest).
Defined.

Lemma wit_two : (1 < 2)%Z.
Proof. done. Qed.

Lemma denials_outlive_restart_witness :
  ∃ a' j', status_run 1 [Restarted; Recorded (allowed 20); Ticked; Patched Arrived] wit_state = Some a' ∧
    statuses a' !! wit_key = Some j' ∧
    js_flowsEvaluated j' = Some 1%Z ∧ js_flowsWouldDeny j' = Some 2%Z ∧
    js_topOffenders j' = Some [wit_offender 22 1] ∧ ∀ rs, ¬ reports 1 rs j'.
Proof.
  exact (denials_outlive_restart 1 wit_key wit_state wit_status 2 [wit_offender 22 1] (allowed 20)
    wit_status_is eq_refl eq_refl wit_two eq_refl eq_refl).
Defined.

Definition wit_agg : policyAgg := default new_agg (counts wit_state !! wit_key).

Lemma wit_counted : counts wit_state !! wit_key = Some wit_agg.
Proof. vm_compute. reflexivity. Qed.

Lemma recreated_policy_inherits_witness :
  ∃ a' j',
    status_run 1 ([PolicyDeleted wit_key; PolicyCreated wit_key; Ticked] ++ patches (size (counts wit_state))) wit_state
      = Some a' ∧
    statuses a' !! wit_key = Some j' ∧
    js_observedGeneration j' = omitempty (observedGeneration wit_agg) ∧
    js_flowsEvaluated j' = omitempty (flowsEvaluated wit_agg) ∧
    js_flowsWouldDeny j' = omitempty (flowsWouldDeny wit_agg).
Proof.
  exact (recreated_policy_inherits 1 wit_key wit_state wit_agg wit_status wit_at_rest wit_counted wit_status_is).
Defined.

Example wit_agg_is : (observedGeneration wit_agg, flowsEvaluated wit_agg, flowsWouldDeny wit_agg) = (3, 4, 3)%Z.
Proof. vm_compute. reflexivity. Qed.
