(* ===== verification/Pipeline.v ===== *)
(** * From an ingested flow to a stored verdict and a status

    The composition of the broker and the evaluator: [add.rs] stores the rows of a batch and hands the new
    ones to the audit, [audit.rs] sends each to the evaluator, [server.go] evaluates it against the
    policies that the watch has shown and tells the aggregator of each verdict, and the answer comes
    back as rows of [audit_verdicts].  The workers of the broker, the handlers of the evaluator, the watch
    and the flushes of the aggregator are interleaved in any order; a worker may give up while the
    handler of its request goes on or has still to start, and the evaluator may be restarted.
    Then the theorems: each stored verdict is the evaluator's, of a policy that the watch showed; each was
    told to the aggregator, once for each row; and no new flow is left unjudged. *)

From Stdlib Require Import Ascii.
From S2P Require Import Prelude RustStd RustText GoStd KubePolicy Matcher MatcherThms PolicyStore Aggregator.
From S2P Require Import AggregatorThms FlowAudit.
From S2P Require Broker BrokerFacts PolicyWitness AuditWitness.

(** ** The state *)

(** A handler in the loop over its results: those that it has told the aggregator of, and the others. *)
Record eval_request : Type := MkRequest { rq_flow : Flow; rq_told : list Result; rq_todo : list Result }.

(** The store is that of the watch; the requests that died in a restart are [None]. *)
Record evaluator (Unstructured : Type) : Type := MkEvaluator {
  ev_watch : list (store_event (Unstructured := Unstructured));
  ev_informers : informers;
  ev_requests : list (option eval_request);
  ev_status : aggregator
}.
Arguments MkEvaluator {Unstructured}.
Arguments ev_watch {Unstructured}.
Arguments ev_informers {Unstructured}.
Arguments ev_requests {Unstructured}.
Arguments ev_status {Unstructured}.

(** [pl_sent] has the request of each worker, if it has been sent.  [pl_history] is what has happened to the
    aggregator so far. *)
Record pipeline (Unstructured : Type) : Type := MkPipeline {
  pl_traffic : Broker.traffic_table;
  pl_audit : AuditClient;
  pl_sent : list (option nat);
  pl_evaluator : evaluator Unstructured;
  pl_history : list status_event
}.
Arguments MkPipeline {Unstructured}.
Arguments pl_traffic {Unstructured}.
Arguments pl_audit {Unstructured}.
Arguments pl_sent {Unstructured}.
Arguments pl_evaluator {Unstructured}.
Arguments pl_history {Unstructured}.

(** What becomes of the request of a worker. *)
Inductive fate : Type :=
| Lost (answer : evaluator_answer)
| Answered (inserted : bool).

(** [Late]: a request that its worker has given up arrives nevertheless. *)
Inductive pipeline_event (Unstructured : Type) : Type :=
| Posted (batch : list Broker.PodTraffic)
| Acquired
| Received
| Skipped (i : nat)
| Reached (i : nat)
| Late (j : nat)
| Told (n : nat) (now : Z)
| Ended (i : nat) (f : fate) (now : Z)
| Watched (e : store_event (Unstructured := Unstructured))
| Informed (i : informers)
| StatusEvent (e : status_event)
| EvaluatorRestarted.
Arguments Posted {Unstructured}.
Arguments Acquired {Unstructured}.
Arguments Received {Unstructured}.
Arguments Skipped {Unstructured}.
Arguments Reached {Unstructured}.
Arguments Late {Unstructured}.
Arguments Told {Unstructured}.
Arguments Ended {Unstructured}.
Arguments Watched {Unstructured}.
Arguments Informed {Unstructured}.
Arguments StatusEvent {Unstructured}.
Arguments EvaluatorRestarted {Unstructured}.

Section Pipeline.
Context `{Selectors} `{ApiServer} (topN : Z).
Context {Unstructured : Type} (GetNamespace GetName : Unstructured → string).
Context (unstructuredToPolicy : Unstructured → option AuditNetworkPolicy).
Context (unstructuredToClusterPolicy : Unstructured → option AuditClusterNetworkPolicy).
Implicit Types (p : pipeline Unstructured) (ev : evaluator Unstructured) (c : AuditClient).

#[local] Abbreviation store := (store_run GetNamespace GetName unstructuredToPolicy unstructuredToClusterPolicy).
#[local] Abbreviation status_step := (status_step topN).
#[local] Abbreviation status_run := (status_run topN).

(** ** The evaluator *)

(** The handler up to its loop. *)
Definition receive_request (flow : Flow) ev : evaluator Unstructured :=
  MkEvaluator (ev_watch ev) (ev_informers ev)
    (ev_requests ev ++ [Some (MkRequest flow [] (handleEvaluate flow (store (ev_watch ev)) (ev_informers ev)))])
    (ev_status ev).

(** What one turn of the loop tells the aggregator. *)
Definition told_of (flow : Flow) (now : Z) (r : Result) : list status_event :=
  if String.eqb (Verdict r) VerdictNotApplicable then [] else [Recorded (verdict_of_result flow now r)].

Definition set_status (a : aggregator) ev : evaluator Unstructured :=
  MkEvaluator (ev_watch ev) (ev_informers ev) (ev_requests ev) a.

Definition set_request (n : nat) (rq : eval_request) ev : evaluator Unstructured :=
  MkEvaluator (ev_watch ev) (ev_informers ev) (<[n := Some rq]> (ev_requests ev)) (ev_status ev).

(** What happens to the aggregator, and what it was. *)
Definition aggregate (es : list status_event) p : option (pipeline Unstructured) :=
  a ← status_run es (ev_status (pl_evaluator p));
  Some (MkPipeline (pl_traffic p) (pl_audit p) (pl_sent p) (set_status a (pl_evaluator p)) (pl_history p ++ es)).

Definition set_audit (c : AuditClient) (sent : list (option nat)) p : pipeline Unstructured :=
  MkPipeline (pl_traffic p) c sent (pl_evaluator p) (pl_history p).

Definition set_evaluator ev p : pipeline Unstructured :=
  MkPipeline (pl_traffic p) (pl_audit p) (pl_sent p) ev (pl_history p).

(** ** The steps *)

(** The flow of a worker. *)
Definition worker_flow (i : nat) p : option AuditFlow :=
  traffic ← in_flight (pl_audit p) !! i; build_flow_for_traffic traffic.

(** The answer to the request of a worker, when its handler is done. *)
Definition response (i : nat) p : option (list Result) :=
  n ← mjoin (pl_sent p !! i);
  rq ← mjoin (ev_requests (pl_evaluator p) !! n);
  match rq_todo rq with [] => Some (rq_told rq) | _ :: _ => None end.

Definition end_worker (i : nat) (answer : evaluator_answer) (now : Z) (inserted : bool) p :
    option (pipeline Unstructured) :=
  c ← audit_step (Finish i answer now inserted) (pl_audit p); Some (set_audit c (delete i (pl_sent p)) p).

Definition pipeline_step (e : pipeline_event Unstructured) p : option (pipeline Unstructured) :=
  match e with
  | Posted batch =>
      match Broker.create_pod_traffic_batch batch (pl_traffic p) with
      | None => Some p
      | Some (inserted, pod_traffic) =>
          c ← audit_step (Ingested inserted) (pl_audit p);
          Some (MkPipeline pod_traffic c (pl_sent p) (pl_evaluator p) (pl_history p))
      end
  | Acquired => c ← audit_step Acquire (pl_audit p); Some (set_audit c (pl_sent p) p)
  | Received => c ← audit_step Receive (pl_audit p); Some (set_audit c (pl_sent p ++ [None]) p)
  | Skipped i =>
      match worker_flow i p with
      | Some _ => None
      | None => end_worker i EvaluatorUnreachable 0 false p
      end
  | Reached i =>
      flow ← worker_flow i p;
      match pl_sent p !! i with
      | Some None =>
          Some (set_evaluator (receive_request (decoded flow) (pl_evaluator p))
            (set_audit (pl_audit p) (<[i := Some (length (ev_requests (pl_evaluator p)))]> (pl_sent p)) p))
      | _ => None
      end
  | Late j =>
      traffic ← finished (pl_audit p) !! j;
      flow ← build_flow_for_traffic traffic;
      Some (set_evaluator (receive_request (decoded flow) (pl_evaluator p)) p)
  | Told n now =>
      rq ← mjoin (ev_requests (pl_evaluator p) !! n);
      match rq_todo rq with
      | [] => None
      | r :: todo =>
          aggregate (told_of (rq_flow rq) now r)
            (set_evaluator (set_request n (MkRequest (rq_flow rq) (rq_told rq ++ [r]) todo) (pl_evaluator p)) p)
      end
  | Ended i f now =>
      _ ← worker_flow i p;
      match f with
      | Lost (Evaluated _) => None
      | Lost answer => end_worker i answer now false p
      | Answered inserted => results ← response i p; end_worker i (Evaluated results) now inserted p
      end
  | Watched e =>
      let ev := pl_evaluator p in
      Some (set_evaluator (MkEvaluator (ev_watch ev ++ [e]) (ev_informers ev) (ev_requests ev) (ev_status ev)) p)
  | Informed i =>
      let ev := pl_evaluator p in
      Some (set_evaluator (MkEvaluator (ev_watch ev) i (ev_requests ev) (ev_status ev)) p)
  | StatusEvent (Recorded _) | StatusEvent Restarted => None
  | StatusEvent e => aggregate [e] p
  | EvaluatorRestarted =>
      let ev := pl_evaluator p in
      aggregate [Restarted]
        (set_evaluator (MkEvaluator [] (MkInformers ∅ ∅) ((λ _, None) <$> ev_requests ev) (ev_status ev)) p)
  end.

Fixpoint pipeline_run (es : list (pipeline_event Unstructured)) p : option (pipeline Unstructured) :=
  match es with
  | [] => Some p
  | e :: es => p ← pipeline_step e p; pipeline_run es p
  end.

(** A broker that has just been started, with what the table had, and an evaluator. *)
Definition pipeline_started (pod_traffic : Broker.traffic_table) (url inflight queue_capacity : option string)
    (statuses : gmap policyKey status_json) (watch : list (store_event (Unstructured := Unstructured)))
    (i : informers) : pipeline Unstructured :=
  MkPipeline pod_traffic (started_client url inflight queue_capacity) []
    (MkEvaluator watch i [] (new_aggregator statuses)) [].

(** ** Rows and verdicts *)

(** What a row and a call of [Record] have in common: the policy, the ends, the protocol, the direction and
    the port of the flow, and whether it would be denied. *)
Definition mark : Type := policyKey * tupleKey * bool.

Definition verdict_mark (v : verdict) : mark := (v_key v, v_tuple v, v_wouldDeny v).

Definition row_mark (row : AuditVerdictInsert) : mark :=
  let text := default EmptyString in
  (MkPolicyKey (ai_policy_namespace row) (ai_policy_name row),
   MkTupleKey (text (ai_src_namespace row) +:+ "/" +:+ text (ai_src_pod row))
     (text (ai_dst_namespace row) +:+ "/" +:+ text (ai_dst_pod row)) (ai_protocol row) (ai_direction row)
     (ai_dst_port row),
   String.eqb (ai_verdict row) VerdictWouldDeny).

Definition result_mark (flow : Flow) (r : Result) : mark := verdict_mark (verdict_of_result flow 0 r).

Lemma insert_mark (f : AuditFlow) (now : Z) (r : Result) : row_mark (insert_of f now r) = result_mark (decoded f) r.
Proof. done. Qed.

(** The verdicts that the aggregator was told of. *)
Definition recorded (es : list status_event) : list verdict :=
  omap (λ e, match e with Recorded v => Some v | _ => None end) es.

Definition told_marks (rq : eval_request) : list mark := result_mark (rq_flow rq) <$> recorded_results (rq_told rq).

(** The request of a worker. *)
Definition request_of (requests : list (option eval_request)) (s : option nat) : option eval_request :=
  s ≫= λ n, mjoin (requests !! n).

(** What the aggregator was told for a worker. *)
Definition credit (requests : list (option eval_request)) (s : option nat) : list mark :=
  from_option told_marks [] (request_of requests s).

(** The request of a worker is about its flow. *)
Definition asked (requests : list (option eval_request)) (traffic : Broker.PodTraffic) (s : option nat) : Prop :=
  ∀ n, s = Some n → (n < length requests)%nat ∧
    ∀ rq, mjoin (requests !! n) = Some rq →
      ∃ f, build_flow_for_traffic traffic = Some f ∧ rq_flow rq = decoded f.

Lemma stored_marks (f : AuditFlow) (now : Z) (told : list Result) (rq : eval_request) :
  rq_flow rq = decoded f → rq_told rq = told →
  row_mark <$> (insert_of f now <$> filter (λ r, is_persistable_verdict (Verdict r) = true) told)
    ⊆+ told_marks rq.
Proof.
  intros Hf <-. unfold told_marks. rewrite Hf, <- list_fmap_compose. apply fmap_submseteq, sublist_submseteq.
  unfold recorded_results. induction (rq_told rq) as [|r l IH]; [done|]. rewrite !filter_cons.
  destruct (decide (is_persistable_verdict (Verdict r) = true)) as [Hp|Hp].
  - rewrite decide_True; [by apply sublist_skip|]. intros Hn. by rewrite Hn in Hp.
  - case_decide; [by apply sublist_cons|done].
Qed.

Lemma told_of_marks (rq : eval_request) (now : Z) (r : Result) (todo : list Result) :
  told_marks (MkRequest (rq_flow rq) (rq_told rq ++ [r]) todo) =
  told_marks rq ++ (verdict_mark <$> recorded (told_of (rq_flow rq) now r)).
Proof.
  unfold told_marks, recorded_results, told_of. simpl. rewrite filter_app, fmap_app. f_equal.
  rewrite filter_cons, filter_nil. destruct (String.eqb_spec (Verdict r) VerdictNotApplicable) as [E|E];
    by case_decide.
Qed.

(** ** The bookkeeping *)

(** [pod_traffic] and [statuses] are those of the start. *)
Record accounted (pod_traffic : Broker.traffic_table) (statuses : gmap policyKey status_json) p : Prop := {
  ac_rows : ∃ handed, pl_traffic p = pod_traffic ++ handed ∧ audit_ok (pl_audit p) handed;
  ac_started : started (pl_audit p);
  ac_asked : Forall2 (asked (ev_requests (pl_evaluator p))) (in_flight (pl_audit p)) (pl_sent p);
  ac_once : NoDup (omap id (pl_sent p));
  ac_marks :
    (row_mark <$> audit_verdicts (pl_audit p)) ++ (pl_sent p ≫= credit (ev_requests (pl_evaluator p)))
      ⊆+ (verdict_mark <$> recorded (pl_history p));
  ac_status : status_run (pl_history p) (new_aggregator statuses) = Some (ev_status (pl_evaluator p))
}.

Lemma status_run_app es es' (a : aggregator) : status_run (es ++ es') a = a' ← status_run es a; status_run es' a'.
Proof. apply run_app. Qed.

Lemma recorded_app (es es' : list status_event) : recorded (es ++ es') = recorded es ++ recorded es'.
Proof. apply omap_app. Qed.

Lemma audit_step_rows (pod_traffic tbl : Broker.traffic_table) (e : audit_event) c c' :
  started c → (∃ handed, tbl = pod_traffic ++ handed ∧ audit_ok c handed) → audit_step e c = Some c' →
  started c' ∧ ∃ handed, tbl ++ ingested [e] = pod_traffic ++ handed ∧ audit_ok c' handed.
Proof.
  intros Hs (handed&->&Hok) He. destruct (audit_step_ok _ _ _ _ Hs Hok He) as [Hok' (H1&H2&H3)]. split.
  - unfold started. by rewrite H1, H3.
  - exists (handed ++ ingested [e]). by rewrite <- app_assoc.
Qed.

(** Handing rows over does not touch the workers. *)
Lemma ingested_kept (inserted : list Broker.PodTraffic) c :
  let c' := enqueue_inserted inserted c in
  in_flight c' = in_flight c ∧ finished c' = finished c ∧ audit_verdicts c' = audit_verdicts c.
Proof.
  unfold enqueue_inserted. destruct (enabled c); [|done]. revert c.
  induction inserted as [|t l IH]; intros c; [done|]. cbn [foldl]. destruct (IH (try_enqueue t c)) as (->&->&->).
  unfold try_enqueue. destruct (capacity c); [|done]. by destruct (_ <? _)%nat.
Qed.

Lemma audit_accounted (pod_traffic tbl : Broker.traffic_table) statuses (e : audit_event) p (c' : AuditClient) :
  accounted pod_traffic statuses p → audit_step e (pl_audit p) = Some c' → tbl = pl_traffic p ++ ingested [e] →
  in_flight c' = in_flight (pl_audit p) → audit_verdicts c' = audit_verdicts (pl_audit p) →
  accounted pod_traffic statuses (MkPipeline tbl c' (pl_sent p) (pl_evaluator p) (pl_history p)).
Proof.
  intros [Hr Hs Ha Ho Hm Hst] He -> Hi Hv. destruct (audit_step_rows _ _ _ _ _ Hs Hr He) as [Hs' Hr'].
  split; simpl; rewrite ?Hi, ?Hv; done.
Qed.

Lemma received_accounted (pod_traffic : Broker.traffic_table) statuses p (c' : AuditClient) :
  accounted pod_traffic statuses p → audit_step Receive (pl_audit p) = Some c' →
  accounted pod_traffic statuses (set_audit c' (pl_sent p ++ [None]) p).
Proof.
  intros [Hr Hs Ha Ho Hm Hst] He. destruct (audit_step_rows _ _ _ _ _ Hs Hr He) as [Hs' Hr'].
  rewrite app_nil_r in Hr'.
  assert (∃ t, in_flight c' = in_flight (pl_audit p) ++ [t] ∧ audit_verdicts c' = audit_verdicts (pl_audit p)) as (t&Hi&Hv).
  { simpl in He. destruct (holding _); [|done]. destruct (queue _) as [|t q]; [done|]. injection He as <-. by exists t. }
  split; simpl; rewrite ?omap_app, ?app_nil_r; try done.
  - rewrite Hi. apply Forall2_app; [done|]. by constructor.
  - by rewrite Hv, bind_app, app_nil_r.
Qed.

Lemma end_worker_accounted (pod_traffic : Broker.traffic_table) statuses p p' (i : nat) (answer : evaluator_answer)
    (now : Z) (inserted : bool) :
  accounted pod_traffic statuses p → end_worker i answer now inserted p = Some p' →
  (∀ t s, in_flight (pl_audit p) !! i = Some t → pl_sent p !! i = Some s →
    asked (ev_requests (pl_evaluator p)) t s →
    row_mark <$> evaluate_and_persist t answer now inserted ⊆+ credit (ev_requests (pl_evaluator p)) s) →
  accounted pod_traffic statuses p'.
Proof.
  intros [Hr Hs Ha Ho Hm Hst] He Hc. unfold end_worker in He.
  destruct (audit_step (Finish i answer now inserted) (pl_audit p)) as [c'|] eqn:Hf; [|done]. injection He as <-.
  destruct (audit_step_rows _ _ _ _ _ Hs Hr Hf) as [Hs' Hr']. rewrite app_nil_r in Hr'.
  simpl in Hf. destruct (in_flight (pl_audit p) !! i) as [t|] eqn:Ht; [|done]. injection Hf as <-.
  destruct (Forall2_lookup_l _ _ _ _ _ Ha Ht) as (s&Hsi&Hask). specialize (Hc t s eq_refl Hsi Hask).
  pose proof (omap_delete id _ _ _ Hsi) as Hids.
  split; simpl; try done.
  - by apply Forall2_delete.
  - rewrite Hids in Ho. by apply NoDup_app in Ho as (_&_&?).
  - rewrite fmap_app, <- app_assoc. etrans; [|exact Hm]. apply submseteq_app; [done|].
    rewrite (bind_delete _ _ _ _ Hsi). by apply submseteq_app.
Qed.

(** ** Requests *)

Lemma credits_ext (f g : option nat → list mark) (l : list (option nat)) :
  (∀ s, s ∈ l → f s = g s) → l ≫= f = l ≫= g.
Proof.
  induction l as [|s l IH]; intros Hfg; [done|]. simpl. rewrite Hfg by (by left). f_equal. apply IH.
  intros s' Hs'. apply Hfg. by right.
Qed.

Lemma credits_none (f : option nat → list mark) (l : list (option nat)) : (∀ s, f s = []) → l ≫= f = [].
Proof. intros Hf. induction l as [|s l IH]; [done|]. simpl. by rewrite Hf. Qed.

Lemma asked_bound (requests : list (option eval_request)) (l : list Broker.PodTraffic) (sent : list (option nat)) n :
  Forall2 (asked requests) l sent → Some n ∈ sent → (n < length requests)%nat.
Proof.
  intros Ha Hn. apply list_elem_of_lookup in Hn as [i Hi]. destruct (Forall2_lookup_r _ _ _ _ _ Ha Hi) as (t&_&Hk).
  by destruct (Hk n eq_refl).
Qed.

(** A new request changes nothing for the workers. *)
Lemma asked_snoc (requests : list (option eval_request)) (o : option eval_request) (traffic : Broker.PodTraffic) s :
  asked requests traffic s → asked (requests ++ [o]) traffic s.
Proof.
  intros Ha n Hn. destruct (Ha n Hn) as [Hl Hr]. rewrite length_app. split; [lia|]. by rewrite lookup_app_l.
Qed.

Lemma credits_snoc (requests : list (option eval_request)) (o : option eval_request) (l : list Broker.PodTraffic)
    (sent : list (option nat)) :
  Forall2 (asked requests) l sent → sent ≫= credit (requests ++ [o]) = sent ≫= credit requests.
Proof.
  intros Ha. apply credits_ext. intros [n|] Hn; [|done]. unfold credit, request_of. simpl.
  rewrite lookup_app_l; [done|]. by eapply asked_bound.
Qed.

Lemma receive_accounted (pod_traffic : Broker.traffic_table) statuses (flow : Flow) p :
  accounted pod_traffic statuses p →
  accounted pod_traffic statuses (set_evaluator (receive_request flow (pl_evaluator p)) p).
Proof.
  intros [Hr Hs Ha Ho Hm Hst]. split; simpl; try done.
  - eapply Forall2_impl; [exact Ha|]. intros ??. apply asked_snoc.
  - by erewrite credits_snoc.
Qed.

(** A worker sends its request. *)
Lemma send_accounted (pod_traffic : Broker.traffic_table) statuses (i n : nat) (rq : eval_request) (traffic : Broker.PodTraffic)
    (f : AuditFlow) p :
  accounted pod_traffic statuses p → ev_requests (pl_evaluator p) !! n = Some (Some rq) → Some n ∉ pl_sent p →
  in_flight (pl_audit p) !! i = Some traffic → build_flow_for_traffic traffic = Some f → rq_flow rq = decoded f →
  rq_told rq = [] → pl_sent p !! i = Some None →
  accounted pod_traffic statuses (set_audit (pl_audit p) (<[i := Some n]> (pl_sent p)) p).
Proof.
  intros [Hr Hs Ha Ho Hm Hst] Hn Hnew Ht Hf Hfl Htold Hi.
  pose proof (insert_take_drop (pl_sent p) i (Some n) (lookup_lt_Some _ _ _ Hi)) as Hins.
  pose proof (take_drop_middle _ _ _ Hi) as Hold.
  set (before := take i (pl_sent p)) in *. set (after := drop (S i) (pl_sent p)) in *.
  split; simpl; try done.
  - rewrite <- (list_insert_id _ _ _ Ht). apply Forall2_insert; [done|]. intros m [= <-]. rewrite Hn.
    split; [by apply lookup_lt_Some in Hn|]. intros rq' [= <-]. by exists f.
  - rewrite Hins. rewrite <- Hold in Ho, Hnew. rewrite omap_app in *. simpl in *.
    rewrite <- Permutation_middle. constructor; [|done]. rewrite <- omap_app.
    intros ([m|]&Hm'&Heq)%list_elem_of_omap; [|done]. injection Heq as ->. apply Hnew. set_solver.
  - rewrite Hins. rewrite <- Hold in Hm. rewrite bind_app in *. simpl in *. unfold credit at 2. simpl.
    rewrite Hn. simpl. unfold told_marks. by rewrite Htold.
Qed.

(** ** The aggregator *)

Lemma aggregate_accounted (pod_traffic : Broker.traffic_table) statuses es p p' :
  accounted pod_traffic statuses p → aggregate es p = Some p' → accounted pod_traffic statuses p'.
Proof.
  intros [Hr Hs Ha Ho Hm Hst]. unfold aggregate. destruct (status_run es _) as [a|] eqn:Hrun; [|done].
  intros [= <-]. split; simpl; try done.
  - rewrite recorded_app, fmap_app. by apply submseteq_inserts_r.
  - rewrite status_run_app, Hst. exact Hrun.
Qed.

(** A handler tells the aggregator of one more result. *)
Lemma credits_told (requests : list (option eval_request)) (n : nat) (rq rq' : eval_request) (sent : list (option nat))
    (new : list mark) :
  requests !! n = Some (Some rq) → told_marks rq' = told_marks rq ++ new → NoDup (omap id sent) →
  sent ≫= credit (<[n := Some rq']> requests) ⊆+ (sent ≫= credit requests) ++ new.
Proof.
  intros Hn Hnew. assert (∀ s, s ≠ Some n → credit (<[n := Some rq']> requests) s = credit requests s) as Hother.
  { intros [m|] Hne; [|done]. unfold credit, request_of. simpl. by rewrite list_lookup_insert_ne by congruence. }
  induction sent as [|s sent IH]; intros Hd; [by apply submseteq_nil_l|]. simpl.
  destruct (decide (s = Some n)) as [->|Hne].
  - simpl in Hd. apply NoDup_cons in Hd as [Hnot _].
    rewrite (credits_ext (credit (<[n := Some rq']> requests)) (credit requests) sent).
    + unfold credit at 1 3, request_of. simpl. rewrite Hn, list_lookup_insert_eq by (by apply lookup_lt_Some in Hn).
      simpl. rewrite Hnew, <- !app_assoc. by rewrite (Permutation_app_comm new).
    + intros s Hs. apply Hother. intros ->. apply Hnot, list_elem_of_omap. by exists (Some n).
  - rewrite Hother, <- app_assoc by done. apply submseteq_app; [done|]. apply IH.
    destruct s; [by apply NoDup_cons in Hd as [_ ?]|done].
Qed.

Lemma told_accounted (pod_traffic : Broker.traffic_table) statuses (n : nat) (now : Z) (rq : eval_request) (r : Result)
    (todo : list Result) p p' :
  accounted pod_traffic statuses p → ev_requests (pl_evaluator p) !! n = Some (Some rq) →
  aggregate (told_of (rq_flow rq) now r)
    (set_evaluator (set_request n (MkRequest (rq_flow rq) (rq_told rq ++ [r]) todo) (pl_evaluator p)) p) = Some p' →
  accounted pod_traffic statuses p'.
Proof.
  intros [Hr Hs Ha Ho Hm Hst] Hn. unfold aggregate. simpl.
  destruct (status_run (told_of _ _ _) _) as [a|] eqn:Hrun; [|done]. intros [= <-]. split; simpl; try done.
  - eapply Forall2_impl; [exact Ha|]. intros t s Hk m Hm'. destruct (Hk m Hm') as [Hl Hrq].
    rewrite length_insert. split; [done|]. intros rq'. destruct (decide (m = n)) as [->|Hne].
    + rewrite list_lookup_insert_eq by done. intros [= <-]. simpl. apply Hrq. by rewrite Hn.
    + rewrite list_lookup_insert_ne by done. apply Hrq.
  - rewrite recorded_app, fmap_app. etrans; [|apply submseteq_app; [exact Hm|reflexivity]].
    rewrite <- app_assoc. apply submseteq_app; [done|]. by eapply credits_told; [|apply told_of_marks|].
  - rewrite status_run_app, Hst. exact Hrun.
Qed.

Lemma restarted_accounted (pod_traffic : Broker.traffic_table) statuses p p' :
  accounted pod_traffic statuses p →
  aggregate [Restarted] (set_evaluator (MkEvaluator [] (MkInformers ∅ ∅)
    ((λ _, None) <$> ev_requests (pl_evaluator p)) (ev_status (pl_evaluator p))) p) = Some p' →
  accounted pod_traffic statuses p'.
Proof.
  intros [Hr Hs Ha Ho Hm Hst]. unfold aggregate. cbn -[fmap]. intros [= <-].
  assert (∀ s : option nat, request_of ((λ _, None) <$> ev_requests (pl_evaluator p)) s = None) as Hnone.
  { intros [n|]; [|done]. unfold request_of. simpl. rewrite list_lookup_fmap. by destruct (_ !! n). }
  split; simpl; try done.
  - eapply Forall2_impl; [exact Ha|]. intros t s Hk n Hn. destruct (Hk n Hn) as [Hl _].
    rewrite length_fmap. split; [done|]. intros rq. specialize (Hnone (Some n)). unfold request_of in Hnone. simpl in Hnone.
    by rewrite Hnone.
  - rewrite recorded_app, fmap_app. simpl. rewrite app_nil_r.
    rewrite credits_none by (intros s; unfold credit; by rewrite Hnone).
    rewrite app_nil_r. etrans; [|exact Hm]. by apply submseteq_inserts_r.
  - rewrite status_run_app, Hst. done.
Qed.

(** ** Every step *)

Lemma unanswered_rows (traffic : Broker.PodTraffic) (answer : evaluator_answer) (now : Z) (inserted : bool) :
  (∀ results, answer ≠ Evaluated results) → evaluate_and_persist traffic answer now inserted = [].
Proof.
  intros Ha. unfold evaluate_and_persist. destruct (build_flow_for_traffic traffic); [|done].
  destruct answer as [| | |results]; try done. by destruct (Ha results).
Qed.

Lemma answered_rows (i : nat) (now : Z) (inserted : bool) (results : list Result) p (traffic : Broker.PodTraffic)
    (s : option nat) :
  response i p = Some results → pl_sent p !! i = Some s → asked (ev_requests (pl_evaluator p)) traffic s →
  row_mark <$> evaluate_and_persist traffic (Evaluated results) now inserted
    ⊆+ credit (ev_requests (pl_evaluator p)) s.
Proof.
  intros Hr Hs Ha. unfold response in Hr. rewrite Hs in Hr. simpl in Hr. destruct s as [n|]; [|done]. simpl in Hr.
  destruct (Ha n eq_refl) as [_ Hrq]. unfold credit, request_of. simpl.
  destruct (mjoin (_ !! n)) as [rq|]; simpl in *; [|done]. destruct (rq_todo rq); [|done]. injection Hr as Hr.
  destruct (Hrq rq eq_refl) as (f&Hf&Hfl). unfold evaluate_and_persist. rewrite Hf.
  destruct inserted; [|apply submseteq_nil_l]. by apply stored_marks.
Qed.

Lemma step_accounted (pod_traffic : Broker.traffic_table) statuses (e : pipeline_event Unstructured) p p' :
  accounted pod_traffic statuses p →
  pipeline_step e p = Some p' →
  accounted pod_traffic statuses p'.
Proof.
  intros Hacc. destruct e as [batch| | |i|i|j|n now|i f now|e|i|e|]; simpl; try intros Hs.
  - destruct (Broker.create_pod_traffic_batch batch (pl_traffic p)) as [[new tbl]|] eqn:Hb; [|by injection Hs as <-].
    injection Hs as <-. apply BrokerFacts.create_some in Hb as [_ ->]. destruct (ingested_kept new (pl_audit p)) as (?&_&?).
    apply (audit_accounted _ _ _ (Ingested new)); [done|done| |done|done]. unfold ingested. simpl. by rewrite app_nil_r.
  - destruct (_ && _ && _) eqn:Hg; [|done]. injection Hs as <-.
    apply (audit_accounted _ _ _ Acquire _ _ Hacc); [simpl; by rewrite Hg|simpl; by rewrite app_nil_r|done|done].
  - destruct (if holding _ then _ else _) as [c'|] eqn:Hc; [|done]. injection Hs as <-.
    by apply received_accounted.
  - destruct (worker_flow i p); [done|]. eapply end_worker_accounted; [done..|].
    intros t s _ _ _. rewrite unanswered_rows by done. apply submseteq_nil_l.
  - unfold worker_flow in Hs. destruct (in_flight (pl_audit p) !! i) as [t|] eqn:Ht; [|done]. simpl in Hs.
    destruct (build_flow_for_traffic t) as [f|] eqn:Hf; [|done]. simpl in Hs.
    destruct (pl_sent p !! i) as [[|]|] eqn:Hi; try done. injection Hs as <-.
    pose proof (receive_accounted _ _ (decoded f) p Hacc) as Hacc'.
    eapply (send_accounted _ _ i _ _ t f) in Hacc'; [exact Hacc'|simpl; by apply list_lookup_middle| |done..].
    simpl. intros Hin. apply (asked_bound _ _ _ _ (ac_asked _ _ _ Hacc)) in Hin. lia.
  - destruct (finished (pl_audit p) !! j) as [t|]; [|done]. simpl in Hs.
    destruct (build_flow_for_traffic t) as [f|]; [|done]. injection Hs as <-. by apply receive_accounted.
  - destruct (mjoin _) as [rq|] eqn:Hn; [|done]. simpl in Hs. destruct (rq_todo rq) as [|r todo]; [done|].
    eapply told_accounted; [done| |done]. by destruct (_ !! n) as [[|]|]; [injection Hn as ->|..].
  - destruct (worker_flow i p); [|done]. simpl in Hs. destruct f as [answer|inserted].
    + assert (∀ results, answer ≠ Evaluated results) as Ha by (by destruct answer).
      assert (end_worker i answer now false p = Some p') as He by (by destruct answer).
      eapply end_worker_accounted; [done..|]. intros t s _ _ _. rewrite unanswered_rows by done. apply submseteq_nil_l.
    + destruct (response i p) as [results|] eqn:Hr; [|done]. simpl in Hs.
      eapply end_worker_accounted; [done..|]. intros t s _ Hi Ha. by eapply answered_rows.
  - injection Hs as <-. by destruct Hacc.
  - injection Hs as <-. by destruct Hacc.
  - destruct e; try done; by eapply aggregate_accounted.
  - by eapply restarted_accounted.
Qed.

Lemma run_accounted (pod_traffic : Broker.traffic_table) statuses (es : list (pipeline_event Unstructured)) p p' :
  accounted pod_traffic statuses p →
  pipeline_run es p = Some p' →
  accounted pod_traffic statuses p'.
Proof.
  revert p. induction es as [|e es IH]; intros p Hacc; simpl; [by intros [= <-]|].
  destruct (pipeline_step e p) as [p1|] eqn:He; [|done]. apply IH. by eapply step_accounted.
Qed.

Lemma started_accounted (pod_traffic : Broker.traffic_table) (url inflight queue_capacity : option string) statuses watch
    (i : informers) :
  enabled (started_client url inflight queue_capacity) = true →
  accounted pod_traffic statuses (pipeline_started pod_traffic url inflight queue_capacity statuses watch i).
Proof.
  intros He. destruct (started_client_ok _ _ _ He) as (Hs&Hok&_). split; simpl; try done.
  - exists []. by rewrite app_nil_r.
  - unfold started_client, start. destruct (negb _); constructor.
  - constructor.
  - unfold started_client, start. by destruct (negb _).
Qed.

(** ** Where requests and rows come from *)

Definition rq_results (rq : eval_request) : list Result := rq_told rq ++ rq_todo rq.

Lemma aggregate_requests es p p' :
  aggregate es p = Some p' →
  ev_requests (pl_evaluator p') = ev_requests (pl_evaluator p) ∧ pl_audit p' = pl_audit p ∧
  ev_watch (pl_evaluator p') = ev_watch (pl_evaluator p) ∧
  ev_informers (pl_evaluator p') = ev_informers (pl_evaluator p).
Proof. unfold aggregate. destruct (status_run es _); [|done]. by intros [= <-]. Qed.

Lemma end_worker_kept (i : nat) (answer : evaluator_answer) (now : Z) (inserted : bool) p p' :
  end_worker i answer now inserted p = Some p' →
  pl_evaluator p' = pl_evaluator p ∧
  ∃ traffic, in_flight (pl_audit p) !! i = Some traffic ∧
    finished (pl_audit p') = finished (pl_audit p) ++ [traffic] ∧
    audit_verdicts (pl_audit p') =
      audit_verdicts (pl_audit p) ++ evaluate_and_persist traffic answer now inserted.
Proof.
  unfold end_worker. simpl. destruct (in_flight _ !! i) as [t|]; [|done]. intros [= <-]. split; [done|]. by exists t.
Qed.

(** A request is answered with what the store said when it came in. *)
Lemma request_origin (e : pipeline_event Unstructured) p p' (n : nat) (rq' : eval_request) :
  pipeline_step e p = Some p' → ev_requests (pl_evaluator p') !! n = Some (Some rq') →
  (∃ rq, ev_requests (pl_evaluator p) !! n = Some (Some rq) ∧ rq_flow rq' = rq_flow rq ∧
    rq_results rq' = rq_results rq) ∨
  rq_results rq' = handleEvaluate (rq_flow rq') (store (ev_watch (pl_evaluator p))) (ev_informers (pl_evaluator p)).
Proof.
  assert (∀ flow, ev_requests (receive_request flow (pl_evaluator p)) !! n = Some (Some rq') →
    (∃ rq, ev_requests (pl_evaluator p) !! n = Some (Some rq) ∧ rq_flow rq' = rq_flow rq ∧
      rq_results rq' = rq_results rq) ∨
    rq_results rq' = handleEvaluate (rq_flow rq') (store (ev_watch (pl_evaluator p))) (ev_informers (pl_evaluator p))) as Hnew.
  { intros flow. simpl. intros [Hl|[_ Hl]]%lookup_app_Some; [left; by exists rq'|right].
    apply list_lookup_singleton_Some in Hl as [_ [= <-]]. done. }
  assert (∀ p1, ev_requests (pl_evaluator p1) = ev_requests (pl_evaluator p) →
    ev_requests (pl_evaluator p1) !! n = Some (Some rq') →
    ∃ rq, ev_requests (pl_evaluator p) !! n = Some (Some rq) ∧ rq_flow rq' = rq_flow rq ∧
      rq_results rq' = rq_results rq) as Hsame by (intros p1 ->; by exists rq').
  destruct e as [batch| | |i|i|j|m now|i f now|e|i|e|]; cbn [pipeline_step]; intros Hs Hrq.
  - left. apply (Hsame p'); [|done]. destruct (Broker.create_pod_traffic_batch _ _) as [[new tbl]|]; by injection Hs as <-.
  - left. apply (Hsame p'); [|done]. destruct (audit_step _ _); [|done]. by injection Hs as <-.
  - left. apply (Hsame p'); [|done]. destruct (audit_step _ _); [|done]. by injection Hs as <-.
  - left. apply (Hsame p'); [|done]. destruct (worker_flow i p); [done|]. by apply end_worker_kept in Hs as [-> _].
  - destruct (worker_flow i p) as [flow|]; [|done]. simpl in Hs. destruct (pl_sent p !! i) as [[|]|]; try done.
    injection Hs as <-. exact (Hnew _ Hrq).
  - destruct (finished (pl_audit p) !! j) as [t|]; [|done]. simpl in Hs.
    destruct (build_flow_for_traffic t) as [flow|]; [|done]. injection Hs as <-. exact (Hnew _ Hrq).
  - left. destruct (ev_requests (pl_evaluator p) !! m) as [[rq|]|] eqn:Hm; [|done..]. simpl in Hs.
    destruct (rq_todo rq) as [|r todo] eqn:Ht; [done|]. apply aggregate_requests in Hs as (Hs&_). rewrite Hs in Hrq.
    simpl in Hrq. destruct (decide (m = n)) as [->|Hne].
    + rewrite list_lookup_insert_eq in Hrq by (by apply lookup_lt_Some in Hm). injection Hrq as <-. exists rq.
      split_and!; [done..|]. unfold rq_results. simpl. by rewrite Ht, <- app_assoc.
    + rewrite list_lookup_insert_ne in Hrq by done. by exists rq'.
  - left. apply (Hsame p'); [|done]. destruct (worker_flow i p); [|done]. simpl in Hs. destruct f as [answer|inserted].
    + destruct answer; try done; by apply end_worker_kept in Hs as [-> _].
    + destruct (response i p); [|done]. by apply end_worker_kept in Hs as [-> _].
  - left. apply (Hsame p'); [|done]. by injection Hs as <-.
  - left. apply (Hsame p'); [|done]. by injection Hs as <-.
  - left. apply (Hsame p'); [|done]. destruct e; try done; by apply aggregate_requests in Hs as (->&_).
  - apply aggregate_requests in Hs as (Hs&_). rewrite Hs in Hrq. simpl in Hrq. rewrite list_lookup_fmap in Hrq.
    by destruct (_ !! n).
Qed.

(** A response is that of a finished handler for the flow of its worker. *)
Lemma response_origin (pod_traffic : Broker.traffic_table) statuses (i : nat) (results : list Result) p
    (traffic : Broker.PodTraffic) :
  accounted pod_traffic statuses p → response i p = Some results → in_flight (pl_audit p) !! i = Some traffic →
  ∃ f n rq, build_flow_for_traffic traffic = Some f ∧ ev_requests (pl_evaluator p) !! n = Some (Some rq) ∧
    rq_flow rq = decoded f ∧ rq_results rq = results.
Proof.
  intros Hacc Hr Ht. destruct (Forall2_lookup_l _ _ _ _ _ (ac_asked _ _ _ Hacc) Ht) as (s&Hs&Ha).
  unfold response in Hr. rewrite Hs in Hr. simpl in Hr. destruct s as [n|]; [|done]. simpl in Hr.
  destruct (Ha n eq_refl) as [_ Hrq]. destruct (ev_requests (pl_evaluator p) !! n) as [[rq|]|] eqn:Hn; [|done..].
  simpl in Hr. destruct (rq_todo rq) eqn:Htodo; [|done]. injection Hr as <-. destruct (Hrq rq eq_refl) as (f&Hf&Hfl).
  exists f, n, rq. split_and!; [done..|]. unfold rq_results. by rewrite Htodo, app_nil_r.
Qed.

Lemma step_verdicts (e : pipeline_event Unstructured) p p' :
  pipeline_step e p = Some p' →
  audit_verdicts (pl_audit p') = audit_verdicts (pl_audit p) ∧
    (finished (pl_audit p') = finished (pl_audit p) ∨
     ∃ i traffic, in_flight (pl_audit p) !! i = Some traffic ∧
       finished (pl_audit p') = finished (pl_audit p) ++ [traffic] ∧
       (build_flow_for_traffic traffic = None ∨ ∃ answer now, e = Ended i (Lost answer) now)) ∨
  ∃ i traffic results now inserted, e = Ended i (Answered inserted) now ∧
    in_flight (pl_audit p) !! i = Some traffic ∧ response i p = Some results ∧
    finished (pl_audit p') = finished (pl_audit p) ++ [traffic] ∧
    audit_verdicts (pl_audit p') =
      audit_verdicts (pl_audit p) ++ evaluate_and_persist traffic (Evaluated results) now inserted.
Proof.
  destruct e as [batch| | |i|i|j|m now|i f now|e|i|e|]; cbn [pipeline_step]; intros Hs.
  - left. destruct (Broker.create_pod_traffic_batch _ _) as [[new tbl]|]; injection Hs as <-; [|by split; [|left]].
    destruct (ingested_kept new (pl_audit p)) as (_&?&?). split; [done|by left].
  - left. simpl in Hs. destruct (_ && _); [|done]. injection Hs as <-. split; [done|by left].
  - left. simpl in Hs. destruct (holding _); [|done]. destruct (queue _); [done|]. injection Hs as <-. split; [done|by left].
  - left. destruct (worker_flow i p) eqn:Hw; [done|]. apply end_worker_kept in Hs as (_&t&Ht&->&->).
    rewrite unanswered_rows, app_nil_r by done. split; [done|right]. exists i, t. split_and!; [done..|left].
    unfold worker_flow in Hw. by rewrite Ht in Hw.
  - left. destruct (worker_flow i p); [|done]. simpl in Hs. destruct (pl_sent p !! i) as [[|]|]; try done.
    injection Hs as <-. split; [done|by left].
  - left. destruct (finished (pl_audit p) !! j) as [t|]; [|done]. simpl in Hs.
    destruct (build_flow_for_traffic t); [|done]. injection Hs as <-. split; [done|by left].
  - left. destruct (mjoin _) as [rq|]; [|done]. simpl in Hs. destruct (rq_todo rq); [done|].
    apply aggregate_requests in Hs as (_&->&_). split; [done|by left].
  - destruct (worker_flow i p); [|done]. simpl in Hs. destruct f as [answer|inserted].
    + left. assert (∀ results, answer ≠ Evaluated results) as Ha by (by destruct answer).
      assert (end_worker i answer now false p = Some p') as He by (by destruct answer).
      apply end_worker_kept in He as (_&t&Ht&->&->). rewrite unanswered_rows, app_nil_r by done. split; [done|right].
      exists i, t. split_and!; [done..|right]. by exists answer, now.
    + right. destruct (response i p) as [results|] eqn:Hr; [|done]. apply end_worker_kept in Hs as (_&t&Ht&->&->).
      by exists i, t, results, now, inserted.
  - left. injection Hs as <-. split; [done|by left].
  - left. injection Hs as <-. split; [done|by left].
  - left. destruct e; try done; apply aggregate_requests in Hs as (_&->&_); (split; [done|by left]).
  - left. apply aggregate_requests in Hs as (_&->&_). split; [done|by left].
Qed.

(** ** Rows are justified *)

Lemma pipeline_run_snoc (es : list (pipeline_event Unstructured)) (e : pipeline_event Unstructured) p :
  pipeline_run (es ++ [e]) p = p1 ← pipeline_run es p; pipeline_step e p1.
Proof.
  revert p. induction es as [|e' es IH]; intros p; simpl; [by destruct (pipeline_step e p)|].
  destruct (pipeline_step e' p); [apply IH|done].
Qed.

(** At some moment of the run, the evaluator's answer to the flow had this result. *)
Definition answered_then (es : list (pipeline_event Unstructured)) p0 (flow : Flow) (r : Result) : Prop :=
  ∃ es1 es2 p, es = es1 ++ es2 ∧ pipeline_run es1 p0 = Some p ∧
    r ∈ handleEvaluate flow (store (ev_watch (pl_evaluator p))) (ev_informers (pl_evaluator p)).

Lemma answered_later (es es' : list (pipeline_event Unstructured)) p0 (flow : Flow) (r : Result) :
  answered_then es p0 flow r → answered_then (es ++ es') p0 flow r.
Proof. intros (es1&es2&p&->&?&?). exists es1, (es2 ++ es'), p. by rewrite <- app_assoc. Qed.

(** A row of the table is the answer to a row of traffic. *)
Definition row_answers (es : list (pipeline_event Unstructured)) p0 p (row : AuditVerdictInsert) : Prop :=
  ∃ traffic f now r, traffic ∈ finished (pl_audit p) ∧ build_flow_for_traffic traffic = Some f ∧
    row = insert_of f now r ∧ (Verdict r = VerdictAllow ∨ Verdict r = VerdictWouldDeny) ∧
    answered_then es p0 (decoded f) r.

Record justified (es : list (pipeline_event Unstructured)) p0 p : Prop := {
  ju_requests n rq r : ev_requests (pl_evaluator p) !! n = Some (Some rq) → r ∈ rq_results rq →
    answered_then es p0 (rq_flow rq) r;
  ju_rows row : row ∈ audit_verdicts (pl_audit p) → row_answers es p0 p row
}.

Lemma step_justified (pod_traffic : Broker.traffic_table) statuses (es : list (pipeline_event Unstructured))
    (e : pipeline_event Unstructured) p0 p p' :
  accounted pod_traffic statuses p → pipeline_run es p0 = Some p → pipeline_step e p = Some p' →
  justified es p0 p → justified (es ++ [e]) p0 p'.
Proof.
  intros Hacc Hrun Hs [Hrq Hrow].
  assert (∀ row, row ∈ audit_verdicts (pl_audit p) →
    (∀ t, t ∈ finished (pl_audit p) → t ∈ finished (pl_audit p')) → row_answers (es ++ [e]) p0 p' row) as Hold.
  { intros row (t&f&now&r&Ht&Hf&Hi&Hv&Ha)%Hrow Hfin. exists t, f, now, r. split_and!; eauto using answered_later. }
  split.
  - intros n rq r Hn Hr. destruct (request_origin _ _ _ _ _ Hs Hn) as [(rq0&Hn0&Hfl&Hres)|Hres].
    + rewrite Hfl. rewrite Hres in Hr. by eapply answered_later, Hrq.
    + exists es, [e], p. split_and!; [done|done|by rewrite <- Hres].
  - intros row Hin. destruct (step_verdicts _ _ _ Hs) as [[Hv Hfin]|(i&t&results&now&ins&->&Ht&Hresp&Hfin&Hv)].
    + rewrite Hv in Hin. apply Hold; [done|]. intros t Ht. destruct Hfin as [->|(i&t'&_&->&_)]; [done|set_solver].
    + rewrite Hv in Hin. apply elem_of_app in Hin as [Hin|Hin]; [apply Hold; [done|]; rewrite Hfin; set_solver|].
      destruct (response_origin _ _ _ _ _ _ Hacc Hresp Ht) as (f&n&rq&Hf&Hn&Hfl&Hres).
      unfold evaluate_and_persist in Hin. rewrite Hf in Hin. destruct ins; [|by apply not_elem_of_nil in Hin].
      apply list_elem_of_fmap in Hin as (r&->&[Hp Hr]%list_elem_of_filter). exists t, f, now, r.
      split_and!; [rewrite Hfin; set_solver|done|done| |].
      * unfold is_persistable_verdict in Hp. apply orb_true_iff in Hp as [?%String.eqb_eq|?%String.eqb_eq]; auto.
      * rewrite <- Hfl. apply answered_later. eapply Hrq; [done|by rewrite Hres].
Qed.

Lemma run_justified (pod_traffic : Broker.traffic_table) statuses (es : list (pipeline_event Unstructured)) p0 p :
  accounted pod_traffic statuses p0 → ev_requests (pl_evaluator p0) = [] → audit_verdicts (pl_audit p0) = [] →
  pipeline_run es p0 = Some p → justified es p0 p.
Proof.
  intros Hacc Hr Hv. revert p. induction es as [|e es IH] using rev_ind; intros p Hrun.
  - injection Hrun as <-. split; [intros n rq r; by rewrite Hr|]. intros row. rewrite Hv. by intros ?%not_elem_of_nil.
  - rewrite pipeline_run_snoc in Hrun. destruct (pipeline_run es p0) as [p1|] eqn:Hes; [|done].
    eapply step_justified; [by eapply run_accounted|done|done|by apply IH].
Qed.

(** ** Flows are judged *)

(** Nothing is lost, and the cluster does not change. *)
Definition reliable (e : pipeline_event Unstructured) : Prop :=
  match e with
  | Ended _ (Lost _) _ | Ended _ (Answered false) _ | Watched _ | Informed _ | EvaluatorRestarted => False
  | _ => True
  end.

(** The evaluator's answer to each flow that is finished has been stored. *)
Record judged (watch : list (store_event (Unstructured := Unstructured))) (inf : informers) p : Prop := {
  jd_watch : ev_watch (pl_evaluator p) = watch;
  jd_informers : ev_informers (pl_evaluator p) = inf;
  jd_requests n rq : ev_requests (pl_evaluator p) !! n = Some (Some rq) →
    rq_results rq = handleEvaluate (rq_flow rq) (store watch) inf;
  jd_finished traffic f r : traffic ∈ finished (pl_audit p) → build_flow_for_traffic traffic = Some f →
    r ∈ handleEvaluate (decoded f) (store watch) inf → is_persistable_verdict (Verdict r) = true →
    ∃ now, insert_of f now r ∈ audit_verdicts (pl_audit p)
}.

Lemma reliable_cluster (e : pipeline_event Unstructured) p p' :
  reliable e → pipeline_step e p = Some p' →
  ev_watch (pl_evaluator p') = ev_watch (pl_evaluator p) ∧
  ev_informers (pl_evaluator p') = ev_informers (pl_evaluator p).
Proof.
  intros Hrel. destruct e as [batch| | |i|i|j|m now|i f now|e|i|e|]; cbn [pipeline_step]; intros Hs; try done.
  - destruct (Broker.create_pod_traffic_batch _ _) as [[new tbl]|]; by injection Hs as <-.
  - destruct (audit_step _ _); [|done]. by injection Hs as <-.
  - destruct (audit_step _ _); [|done]. by injection Hs as <-.
  - destruct (worker_flow i p); [done|]. by apply end_worker_kept in Hs as [-> _].
  - destruct (worker_flow i p); [|done]. simpl in Hs. destruct (pl_sent p !! i) as [[|]|]; try done. by injection Hs as <-.
  - destruct (finished (pl_audit p) !! j) as [t|]; [|done]. simpl in Hs.
    destruct (build_flow_for_traffic t); [|done]. by injection Hs as <-.
  - destruct (mjoin _) as [rq|]; [|done]. simpl in Hs. destruct (rq_todo rq); [done|].
    by apply aggregate_requests in Hs as (_&_&->&->).
  - destruct (worker_flow i p); [|done]. simpl in Hs. destruct f as [answer|inserted]; [done|].
    destruct (response i p); [|done]. by apply end_worker_kept in Hs as [-> _].
  - destruct e; try done; by apply aggregate_requests in Hs as (_&_&->&->).
Qed.

Lemma step_judged (pod_traffic : Broker.traffic_table) statuses watch inf (e : pipeline_event Unstructured) p p' :
  reliable e → accounted pod_traffic statuses p → pipeline_step e p = Some p' →
  judged watch inf p → judged watch inf p'.
Proof.
  intros Hrel Hacc Hs [Hw Hi Hrq Hfin]. destruct (reliable_cluster _ _ _ Hrel Hs) as [Hw' Hi']. split.
  - by rewrite Hw'.
  - by rewrite Hi'.
  - intros n rq Hn. destruct (request_origin _ _ _ _ _ Hs Hn) as [(rq0&Hn0&->&->)| ->]; [by eapply Hrq|].
    by rewrite Hw, Hi.
  - intros t f r Ht Hf Hr Hp.
    destruct (step_verdicts _ _ _ Hs) as [[Hv Hf']|(i&t'&results&now&ins&->&Ht'&Hresp&Hf'&Hv)]; rewrite Hv.
    + destruct Hf' as [Hf'|(i&t'&_&Hf'&Hlost)]; rewrite Hf' in Ht; [by eapply Hfin|].
      apply elem_of_app in Ht as [Ht| ->%list_elem_of_singleton]; [by eapply Hfin|].
      destruct Hlost as [Hnone|(answer&now&->)]; [congruence|done].
    + rewrite Hf' in Ht. apply elem_of_app in Ht as [Ht| ->%list_elem_of_singleton].
      { destruct (Hfin _ _ _ Ht Hf Hr Hp) as [now' Hin]. exists now'. set_solver. }
      destruct (response_origin _ _ _ _ _ _ Hacc Hresp Ht') as (f'&n&rq&Hf1&Hn&Hfl&Hres).
      assert (f' = f) as -> by congruence. destruct ins; [|done]. exists now. apply elem_of_app. right.
      unfold evaluate_and_persist. rewrite Hf. apply list_elem_of_fmap. exists r. split; [done|].
      apply list_elem_of_filter. split; [done|]. rewrite <- Hres, (Hrq _ _ Hn), Hfl. done.
Qed.

Lemma run_judged (pod_traffic : Broker.traffic_table) statuses watch inf (es : list (pipeline_event Unstructured)) p p' :
  Forall reliable es → accounted pod_traffic statuses p → pipeline_run es p = Some p' →
  judged watch inf p → judged watch inf p'.
Proof.
  intros Hrel. revert p. induction Hrel as [|e es He Hes IH]; intros p Hacc; simpl; [by intros [= <-]|].
  destruct (pipeline_step e p) as [p1|] eqn:Hs; [|done]. intros Hr Hj.
  eapply IH; [by eapply step_accounted|done|by eapply step_judged].
Qed.

(** ** Counting rows *)

(** The marks of a policy are those of its verdicts. *)
Lemma marks_of (k : policyKey) (es : list status_event) (P : mark → Prop) `{!∀ x, Decision (P x)} :
  length (filter (λ m, m.1.1 = k ∧ P m) (verdict_mark <$> recorded es)) =
  length (filter (λ v, P (verdict_mark v)) (verdicts_of k es)).
Proof.
  rewrite count_fmap. unfold recorded, verdicts_of. induction es as [|e es IH]; [done|].
  destruct e as [v| | | | |]; try exact IH. simpl. case_decide as Hk; rewrite !filter_cons.
  - repeat case_decide; simpl; naive_solver.
  - rewrite decide_False by naive_solver. exact IH.
Qed.

(** The rows of a policy, those that would be denied, and those of them that are about one tuple. *)
Definition policy_rows (k : policyKey) (rows : list AuditVerdictInsert) : Z :=
  Z.of_nat (length (filter (λ row, (row_mark row).1.1 = k ∧ True) rows)).

Definition policy_denials (k : policyKey) (rows : list AuditVerdictInsert) : Z :=
  Z.of_nat (length (filter (λ row, (row_mark row).1.1 = k ∧ (row_mark row).2 = true) rows)).

Definition tuple_denials (k : policyKey) (tk : tupleKey) (rows : list AuditVerdictInsert) : Z :=
  Z.of_nat (length (filter (λ row, (row_mark row).1.1 = k ∧ ((row_mark row).2 = true ∧ (row_mark row).1.2 = tk)) rows)).

Lemma rows_counted (k : policyKey) (rows : list AuditVerdictInsert) (es : list status_event)
    (P : mark → Prop) `{!∀ x, Decision (P x)} :
  row_mark <$> rows ⊆+ (verdict_mark <$> recorded es) →
  (length (filter (λ row, (row_mark row).1.1 = k ∧ P (row_mark row)) rows) ≤
   length (filter (λ v, P (verdict_mark v)) (verdicts_of k es)))%nat.
Proof.
  intros Hm. pose proof (submseteq_count (λ m : mark, m.1.1 = k ∧ P m) _ _ Hm) as Hc.
  rewrite marks_of, count_fmap in Hc. exact Hc.
Qed.

Lemma accounted_marks (pod_traffic : Broker.traffic_table) statuses p :
  accounted pod_traffic statuses p →
  row_mark <$> audit_verdicts (pl_audit p) ⊆+ (verdict_mark <$> recorded (pl_history p)).
Proof. intros Hacc. etrans; [|exact (ac_marks _ _ _ Hacc)]. by apply submseteq_inserts_r. Qed.

(** ** Theorems *)

Section Theorems.
Context (pod_traffic : Broker.traffic_table) (url inflight queue_capacity : option string).
Context (statuses0 : gmap policyKey status_json) (watch : list (store_event (Unstructured := Unstructured))).
Context (inf : informers) (audit_enabled : enabled (started_client url inflight queue_capacity) = true).

#[local] Abbreviation p0 := (pipeline_started pod_traffic url inflight queue_capacity statuses0 watch inf).

Lemma started_run (es : list (pipeline_event Unstructured)) p :
  pipeline_run es p0 = Some p → accounted pod_traffic statuses0 p.
Proof. intros Hr. eapply run_accounted; [|done]. by apply started_accounted. Qed.

Lemma started_verdicts : audit_verdicts (pl_audit p0) = [].
Proof. simpl. unfold started_client, start. by destruct (negb _). Qed.

Lemma started_finished : finished (pl_audit p0) = [].
Proof. simpl. unfold started_client, start. by destruct (negb _). Qed.

(** C14: every stored verdict is justified.  However the workers, the handlers, the watch and the restarts of
    the evaluator are interleaved, a row of [audit_verdicts] is about the flow of a row of [pod_traffic]
    that the broker has inserted, and is a result, allowed or denied, of a policy that the watch showed,
    for the pods that the informers showed, at a moment of the run. *)
Theorem stored_rows_are_justified (es : list (pipeline_event Unstructured)) p (row : AuditVerdictInsert) :
  pipeline_run es p0 = Some p → row ∈ audit_verdicts (pl_audit p) →
  ∃ traffic f now r es1 es2 p1,
    traffic ∈ pl_traffic p ∧ build_flow_for_traffic traffic = Some f ∧ row = insert_of f now r ∧
    (Verdict r = VerdictAllow ∨ Verdict r = VerdictWouldDeny) ∧
    es = es1 ++ es2 ∧ pipeline_run es1 p0 = Some p1 ∧
    let shown := ev_watch (pl_evaluator p1) in
    let lookup := store_lookup (ev_informers (pl_evaluator p1)) in
    (∃ q, watched GetNamespace GetName unstructuredToPolicy shown !! (anp_namespace q, anp_name q) = Some q ∧
       r ∈ Match (decoded f) q lookup) ∨
    (∃ cp, watched_cluster GetName unstructuredToClusterPolicy shown !! acnp_name cp = Some cp ∧
       r ∈ MatchCluster (decoded f) cp lookup).
Proof.
  intros Hr Hrow. pose proof (started_run es p Hr) as Hacc.
  destruct (run_justified pod_traffic statuses0 es p0 p) as [_ Hju]; [by apply started_accounted|done|apply started_verdicts|done|].
  destruct (Hju row Hrow) as (t&f&now&r&Ht&Hf&Hi&Hv&es1&es2&p1&He&Hr1&Hin).
  exists t, f, now, r, es1, es2, p1. split_and!; try done; [|by eapply evaluation_of_watched].
  destruct (ac_rows _ _ _ Hacc) as (handed&->&Hok). rewrite (ao_conserved _ _ Hok). set_solver.
Qed.

(** C23: the pipeline keeps account.  In any run, the rows of [pod_traffic] are those of the start and those
    that wait for their audit, are being evaluated, have been, or were shed; and the aggregator, whose
    state is that of its history, was told of each stored row, once for each. *)
Theorem pipeline_keeps_account (es : list (pipeline_event Unstructured)) p :
  pipeline_run es p0 = Some p →
  pl_traffic p ≡ₚ pod_traffic ++ queue (pl_audit p) ++ in_flight (pl_audit p) ++ finished (pl_audit p) ++
    dropped (pl_audit p) ∧
  status_run (pl_history p) (new_aggregator statuses0) = Some (ev_status (pl_evaluator p)) ∧
  row_mark <$> audit_verdicts (pl_audit p) ⊆+ (verdict_mark <$> recorded (pl_history p)).
Proof.
  intros Hr. pose proof (started_run es p Hr) as Hacc. split_and!.
  - destruct (ac_rows _ _ _ Hacc) as (handed&->&Hok). by rewrite (ao_conserved _ _ Hok).
  - apply Hacc.
  - by eapply accounted_marks.
Qed.

(** C13: no new flow is left unjudged.  If no answer is lost and the cluster does not change, then when the
    audit is at rest each inserted row of traffic that was not shed has, for each policy that is watched,
    is about a direction and applies to the flow, a row of [audit_verdicts], which tells whether the
    policy permits the flow. *)
Theorem new_flow_is_judged (es : list (pipeline_event Unstructured)) p (handed : list Broker.PodTraffic)
    (traffic : Broker.PodTraffic) (f : AuditFlow) (q : AuditNetworkPolicy) (dir : string) :
  pipeline_run es p0 = Some p → Forall reliable es →
  queue (pl_audit p) = [] → in_flight (pl_audit p) = [] →
  pl_traffic p = pod_traffic ++ handed → traffic ∈ handed → traffic ∉ dropped (pl_audit p) →
  build_flow_for_traffic traffic = Some f →
  informers_ok inf → without "/"%char (SrcPodNamespace (decoded f)) = true → without "/"%char (DstPodNamespace (decoded f)) = true →
  watched GetNamespace GetName unstructuredToPolicy watch !! (anp_namespace q, anp_name q) = Some q →
  about (PolicyTypes (anp_Spec q)) (Egress (anp_Spec q)) dir → direction dir →
  applies (decoded f) q dir (store_lookup inf) →
  ∃ now r, insert_of f now r ∈ audit_verdicts (pl_audit p) ∧
    PolicyNamespace r = anp_namespace q ∧ PolicyName r = anp_name q ∧ Direction r = dir ∧
    verdict_of (decoded f) q (store_lookup inf) dir (Verdict r).
Proof.
  intros Hr Hrel Hq Hi Htr Hin Hnd Hf Hinf Hsrc Hdst Hw Hab Hdir Happ.
  pose proof (started_run es p Hr) as Hacc.
  assert (judged watch inf p) as [_ _ _ Hfin].
  { eapply run_judged; [done|by apply started_accounted|done|]. split; [done|done|by intros ?? ?|].
    intros ??? Ht. rewrite started_finished in Ht. by apply not_elem_of_nil in Ht. }
  set (r := match_direction (decoded f) q (store_lookup inf) dir).
  pose proof (match_direction_verdict (decoded f) q (store_lookup inf) dir Hdir) as Hv. fold r in Hv.
  assert (traffic ∈ finished (pl_audit p)) as Hdone.
  { destruct (ac_rows _ _ _ Hacc) as (handed'&Hh&Hok). rewrite Htr in Hh. apply app_inv_head in Hh. subst handed'.
    rewrite (ao_conserved _ _ Hok), Hq, Hi in Hin. set_solver. }
  assert (r ∈ Match (decoded f) q (store_lookup inf)) as Hmatch.
  { apply match_elem. unfold r. by rewrite match_direction_dir. }
  assert (is_persistable_verdict (Verdict r) = true ∧ Verdict r ≠ VerdictNotApplicable) as [Hper Hna]
    by (by destruct Hv).
  destruct (Hfin traffic f r Hdone Hf) as [now Hrow]; [by eapply evaluation_covers|done|].
  exists now, r. pose proof (match_direction_policy (decoded f) q (store_lookup inf) dir) as [Hns Hn].
  split_and!; [done|exact Hns|exact Hn|apply match_direction_dir|done].
Qed.

End Theorems.

End Pipeline.

Section Statuses.
Context `{Selectors} `{ApiServerLaws} (topN : Z) (topN_pos : 0 < topN).
Context {Unstructured : Type} (GetNamespace GetName : Unstructured → string).
Context (unstructuredToPolicy : Unstructured → option AuditNetworkPolicy).
Context (unstructuredToClusterPolicy : Unstructured → option AuditClusterNetworkPolicy).

Lemma omitempty_default (n : Z) : default 0 (omitempty n) = n.
Proof. unfold omitempty. by destruct (Z.eqb_spec n 0). Qed.

(** C17: the status of a policy covers the stored rows.  As long as the policy stays and the evaluator is not
    restarted, at any moment at which no flush is under way, the next flush ends after as many patches as
    there are policies with a verdict, and when they arrive the status is the account of all the verdicts
    that the aggregator was told of for the policy.  It tells of at least as many flows as there are rows
    of the policy in [audit_verdicts], of at least as many denials as there are rows that would be denied,
    and of each offender that it shows, at least as often as there are such rows about it. *)
Theorem status_covers_stored_rows (pod_traffic : Broker.traffic_table) (url inflight queue_capacity : option string)
    (statuses0 : gmap policyKey status_json) (watch : list (store_event (Unstructured := Unstructured)))
    (inf : informers) (es : list (pipeline_event Unstructured)) (p : pipeline Unstructured) (k : policyKey) :
  enabled (started_client url inflight queue_capacity) = true →
  pipeline_run topN GetNamespace GetName unstructuredToPolicy unstructuredToClusterPolicy es
    (pipeline_started pod_traffic url inflight queue_capacity statuses0 watch inf) = Some p →
  statuses0 !! k = Some empty_status → Forall (stays k) (pl_history p) →
  Z.of_nat (length (verdicts_of k (pl_history p))) < 2 ^ 63 →
  let a := ev_status (pl_evaluator p) in
  let rows := audit_verdicts (pl_audit p) in
  flushing a = None →
  ∃ a' j, status_run topN (Ticked :: patches (size (counts a))) a = Some a' ∧ flushing a' = None ∧
    statuses a' !! k = Some j ∧ reports topN (verdicts_of k (pl_history p)) j ∧
    policy_rows k rows ≤ default 0 (js_flowsEvaluated j) ∧
    policy_denials k rows ≤ default 0 (js_flowsWouldDeny j) ∧
    ∀ l o, js_topOffenders j = Some l → o ∈ l → tuple_denials k (key_of o) rows ≤ of_Count o.
Proof.
  intros He Hr Hk Hs Hl a rows Hf.
  pose proof (started_run _ _ _ _ _ _ _ _ _ _ _ _ He es p Hr) as Hacc.
  pose proof (accounted_marks _ _ _ _ Hacc) as Hm. fold rows in Hm.
  pose proof (told_run topN topN_pos k [] (pl_history p) _ a Hs Hl (told_new topN k statuses0 Hk) (ac_status _ _ _ _ Hacc)) as Ht.
  destruct (told_flushed topN topN_pos k _ a Ht Hf) as (a'&j&Hrun&Hf'&Hj&Hrep).
  pose proof Hrep as [_ _ Hev Hde Hof]. simpl in *. exists a', j. split_and!; [done..| | |].
  - pose proof (rows_counted k rows (pl_history p) (λ _, True) Hm) as Hc.
    rewrite Hev, omitempty_default. apply inj_le. etrans; [exact Hc|]. by rewrite filter_keep.
  - pose proof (rows_counted k rows (pl_history p) (λ m, m.2 = true) Hm) as Hc.
    rewrite Hde, omitempty_default. apply inj_le. exact Hc.
  - intros l o Hlo Ho. rewrite Hlo in Hof. destruct Hof as [_ Htop]. destruct (to_counts _ _ _ Htop o Ho) as [-> _].
    pose proof (rows_counted k rows (pl_history p) (λ m, m.2 = true ∧ m.1.2 = key_of o) Hm) as Hc.
    apply inj_le. exact Hc.
Qed.

End Statuses.

(** * At a concrete run *)

(** The cluster of AuditWitness.v: the datagram that web has sent to db is posted twice in one batch, is
    stored once, and would be denied; the other result is that the cluster-scoped policy does not apply. *)

Import PolicyWitness AuditWitness.

#[local] Abbreviation pipe_run :=
  (pipeline_run 1 object_namespace object_name object_policy object_cluster_policy).

Definition pipe_policy_key : policyKey := MkPolicyKey "prod"%string "web-standard-policy"%string.

Definition pipe_start : pipeline wit_object :=
  pipeline_started [] wit_url (Some " 1 "%string) (Some "2"%string) {[pipe_policy_key := empty_status]} wit_watch wit_informers.

Definition pipe_events : list (pipeline_event wit_object) :=
  [Posted [wit_row; wit_row]; Acquired; Received; Reached 0; Told 0 10; Told 0 11; Ended 0 (Answered true) 12].

Definition pipe_end : pipeline wit_object := default pipe_start (pipe_run pipe_events pipe_start).

Lemma pipe_events_run : pipe_run pipe_events pipe_start = Some pipe_end.
Proof. vm_compute. reflexivity. Qed.

Definition pipe_denied : AuditVerdictInsert :=
  insert_of wit_audit_flow 12 (match_direction (decoded wit_audit_flow) (StandardPolicyThms.audited wit_policy)
    (store_lookup wit_informers) DirectionEgress).

Lemma pipe_denied_stored : audit_verdicts (pl_audit pipe_end) = [pipe_denied].
Proof. vm_compute. reflexivity. Qed.

Example pipe_denied_is : ai_verdict pipe_denied = VerdictWouldDeny.
Proof. vm_compute. reflexivity. Qed.

Lemma pipe_audit_enabled : enabled (started_client wit_url (Some " 1 "%string) (Some "2"%string)) = true.
Proof. done. Qed.

Lemma stored_rows_are_justified_witness :
  ∃ traffic f now r es1 es2 p1,
    traffic ∈ pl_traffic pipe_end ∧ build_flow_for_traffic traffic = Some f ∧ pipe_denied = insert_of f now r ∧
    (Verdict r = VerdictAllow ∨ Verdict r = VerdictWouldDeny) ∧
    pipe_events = es1 ++ es2 ∧ pipe_run es1 pipe_start = Some p1 ∧
    let shown := ev_watch (pl_evaluator p1) in
    let lookup := store_lookup (ev_informers (pl_evaluator p1)) in
    (∃ q, watched object_namespace object_name object_policy shown !! (anp_namespace q, anp_name q) = Some q ∧
       r ∈ Match (decoded f) q lookup) ∨
    (∃ cp, watched_cluster object_name object_cluster_policy shown !! acnp_name cp = Some cp ∧
       r ∈ MatchCluster (decoded f) cp lookup).
Proof.
  apply (stored_rows_are_justified 1 object_namespace object_name object_policy object_cluster_policy []
    wit_url (Some " 1 "%string) (Some "2"%string) {[pipe_policy_key := empty_status]} wit_watch wit_informers pipe_audit_enabled
    pipe_events pipe_end pipe_denied pipe_events_run).
  rewrite pipe_denied_stored. by left.
Defined.

Lemma pipeline_keeps_account_witness :
  pl_traffic pipe_end ≡ₚ finished (pl_audit pipe_end) ∧
  row_mark <$> [pipe_denied] ⊆+ (verdict_mark <$> recorded (pl_history pipe_end)).
Proof.
  destruct (pipeline_keeps_account 1 object_namespace object_name object_policy object_cluster_policy []
    wit_url (Some " 1 "%string) (Some "2"%string) {[pipe_policy_key := empty_status]} wit_watch wit_informers pipe_audit_enabled
    pipe_events pipe_end pipe_events_run) as (Ht&_&Hm).
  rewrite pipe_denied_stored in Hm. split; [|exact Hm].
  replace (finished (pl_audit pipe_end)) with
    (queue (pl_audit pipe_end) ++ in_flight (pl_audit pipe_end) ++ finished (pl_audit pipe_end) ++ dropped (pl_audit pipe_end))
    by (vm_compute; reflexivity).
  exact Ht.
Defined.

Lemma pipe_reliable : Forall reliable pipe_events.
Proof. repeat constructor. Qed.

Lemma pipe_at_rest : queue (pl_audit pipe_end) = [] ∧ in_flight (pl_audit pipe_end) = [].
Proof. split; vm_compute; reflexivity. Qed.

Lemma pipe_traffic : pl_traffic pipe_end = [] ++ [wit_row].
Proof. vm_compute. reflexivity. Qed.

Lemma pipe_none_dropped : wit_row ∉ dropped (pl_audit pipe_end).
Proof. replace (dropped (pl_audit pipe_end)) with (@nil Broker.PodTraffic) by (vm_compute; reflexivity). by intros ?%not_elem_of_nil. Qed.

Lemma pipe_web_applies :
  applies (decoded wit_audit_flow) (StandardPolicyThms.audited wit_policy) DirectionEgress (store_lookup wit_informers).
Proof. exists (kube_pod "web" "web"). split_and!; vm_compute; reflexivity. Qed.

Lemma pipe_about_egress :
  about (PolicyTypes (anp_Spec (StandardPolicyThms.audited wit_policy)))
    (Egress (anp_Spec (StandardPolicyThms.audited wit_policy))) DirectionEgress.
Proof. apply list_elem_of_In. vm_compute. by left. Qed.

Lemma new_flow_is_judged_witness :
  ∃ now r, insert_of wit_audit_flow now r ∈ audit_verdicts (pl_audit pipe_end) ∧
    PolicyNamespace r = "prod"%string ∧ PolicyName r = "web-standard-policy"%string ∧ Direction r = DirectionEgress ∧
    verdict_of (decoded wit_audit_flow) (StandardPolicyThms.audited wit_policy) (store_lookup wit_informers)
      DirectionEgress (Verdict r).
Proof.
  exact (new_flow_is_judged 1 object_namespace object_name object_policy object_cluster_policy []
    wit_url (Some " 1 "%string) (Some "2"%string) {[pipe_policy_key := empty_status]} wit_watch wit_informers pipe_audit_enabled
    pipe_events pipe_end [wit_row] wit_row wit_audit_flow (StandardPolicyThms.audited wit_policy) DirectionEgress
    pipe_events_run pipe_reliable (proj1 pipe_at_rest) (proj2 pipe_at_rest) pipe_traffic (list_elem_of_here _ _)
    pipe_none_dropped wit_audit_flow_built wit_informers_ok eq_refl eq_refl wit_watched pipe_about_egress
    (or_intror eq_refl) pipe_web_applies).
Defined.

Lemma pipe_stays : Forall (stays pipe_policy_key) (pl_history pipe_end).
Proof. replace (pl_history pipe_end) with [Recorded (verdict_of_result (decoded wit_audit_flow) 10
    (match_direction (decoded wit_audit_flow) (StandardPolicyThms.audited wit_policy) (store_lookup wit_informers)
      DirectionEgress))] by (vm_compute; reflexivity). by repeat constructor. Qed.

Lemma pipe_few : (Z.of_nat (length (verdicts_of pipe_policy_key (pl_history pipe_end))) < 2 ^ 63).
Proof. vm_compute. reflexivity. Qed.

Lemma pipe_not_flushing : flushing (ev_status (pl_evaluator pipe_end)) = None.
Proof. vm_compute. reflexivity. Qed.

Lemma status_covers_stored_rows_witness :
  policy_denials pipe_policy_key [pipe_denied] = 1 ∧
  ∃ a' j, status_run 1 (Ticked :: patches (size (counts (ev_status (pl_evaluator pipe_end)))))
      (ev_status (pl_evaluator pipe_end)) = Some a' ∧ flushing a' = None ∧
    statuses a' !! pipe_policy_key = Some j ∧ reports 1 (verdicts_of pipe_policy_key (pl_history pipe_end)) j ∧
    (policy_rows pipe_policy_key (audit_verdicts (pl_audit pipe_end)) ≤ default 0 (js_flowsEvaluated j)) ∧
    (policy_denials pipe_policy_key (audit_verdicts (pl_audit pipe_end)) ≤ default 0 (js_flowsWouldDeny j)) ∧
    ∀ l o, js_topOffenders j = Some l → o ∈ l →
      (tuple_denials pipe_policy_key (key_of o) (audit_verdicts (pl_audit pipe_end)) ≤ of_Count o).
Proof.
  split; [vm_compute; reflexivity|].
  exact (status_covers_stored_rows 1 eq_refl object_namespace object_name object_policy object_cluster_policy []
    wit_url (Some " 1 "%string) (Some "2"%string) {[pipe_policy_key := empty_status]} wit_watch wit_informers
    pipe_events pipe_end pipe_policy_key pipe_audit_enabled pipe_events_run (lookup_singleton_eq _ _) pipe_stays pipe_few
    pipe_not_flushing).
Defined.
