(* ===== verification/Seccomp.v ===== *)
(** * advisor: from the recorded system calls to a seccomp profile

    seccomp.go and pod_syscall.go.  The pods are those that the options select; their profiles are files
    of one directory, by name.  Whether a file can be written is part of the environment.
    Then the theorems, from the system calls that the broker has acknowledged to the profile that allows
    them, and their use on the run of [SyscallDeliveryThms.v]. *)

From Stdlib Require Import Ascii.
From S2P Require Import Prelude RustStd Traffic SyscallRecorder SyscallRecorderFacts SyscallRecorderThms.
From S2P Require Import Broker Delivery SyscallDelivery SyscallDeliveryThms RustText.
From S2P Require Import GoStd BrokerQueries PolicyService.

#[local] Open Scope string_scope.

(** ** pod_syscall.go *)

Record PodSysCall : Type := MkPodSysCall {
  psc_Syscalls : list string;
  psc_Arch : string
}.

(** ** seccomp.go *)

Record Rule : Type := MkRule { ru_Names : list string; ru_Action : string }.

(** Architectures that are nil are [null] in the JSON. *)
Record SeccompProfile : Type := MkProfile {
  sp_DefaultAction : string;
  sp_Architectures : list string;
  sp_Syscalls : list Rule
}.

Record ProfileOptions : Type := MkProfileOptions { po_OutputDir : string; po_DefaultAction : string }.

Definition ValidSeccompActions : list string := ["SCMP_ACT_ERRNO"; "SCMP_ACT_KILL"; "SCMP_ACT_LOG"].

Definition SeccompArchitectures : gmap string (list string) :=
  {["x86_64" := ["SCMP_ARCH_X86_64"]; "aarch64" := ["SCMP_ARCH_ARM64"]]}.

Definition BuildSeccompProfile (syscalls : list string) (arch defaultAction : string) : SeccompProfile :=
  let defaultAction := if String.eqb defaultAction EmptyString then "SCMP_ACT_ERRNO" else defaultAction in
  MkProfile defaultAction (default [] (SeccompArchitectures !! arch)) [MkRule syscalls "SCMP_ACT_ALLOW"].

(** [None] where the action is refused; [output_dir] is that of the configuration, where there is one. *)
Definition NewProfileOptions (output_dir : option string) (defaultAction : string) : option ProfileOptions :=
  if negb (existsb (λ v, String.eqb v defaultAction) ValidSeccompActions) then None else
  let outputDir :=
    match output_dir with
    | Some dir => if String.eqb dir EmptyString then "seccomp-profiles" else dir
    | None => "seccomp-profiles"
    end in
  Some (MkProfileOptions outputDir defaultAction).

(** [None] is no error. *)
Definition ValidateProfile (profile : SeccompProfile) : option string :=
  if String.eqb (sp_DefaultAction profile) EmptyString then Some "default action is required"
  else if (length (sp_Architectures profile) =? 0)%nat then Some "at least one architecture must be specified"
  else if (length (sp_Syscalls profile) =? 0)%nat then Some "at least one syscall rule must be specified"
  else None.

(** The names of the lists, each once; [read] is the order in which the map is read. *)
Definition MergeSyscalls (read : gset string → list string) (syscallLists : list (list string)) : list string :=
  read (list_to_set (concat syscallLists)).

Section Generate.
(** The length of the JSON text of an answer. *)
Variable body_length : list Broker.PodSyscalls → Z.

Definition GetPodSysCall (pod_syscalls : list Broker.PodSyscalls) (podName : string) : string + PodSysCall :=
  let podSysCallsResponse := pod_syscalls_by_name podName pod_syscalls in
  if (maxBrokerResponseBytes <? body_length podSysCallsResponse)%Z then inl "unexpected end of JSON input" else
  match podSysCallsResponse with
  | [] => inl "GetPodSysCall: No pod syscall found in database"
  | row :: _ => inr (MkPodSysCall (split ","%char (Broker.ps_syscalls row)) (Broker.ps_arch row))
  end.

(** The name of the file, without the directory. *)
Definition profile_file (podName : string) : string := podName +:+ "-seccomp.json".

Abbreviation directory := (gmap string SeccompProfile).

(** A turn of the loop; [writes] tells whether the file of a pod can be written. *)
Definition generate_profile (pod_syscalls : list Broker.PodSyscalls) (writes : string → bool) (defaultAction : string)
    (podName : string) (files : directory) : directory :=
  match GetPodSysCall pod_syscalls podName with
  | inl _ => files
  | inr podSysCalls =>
      let profile := BuildSeccompProfile (psc_Syscalls podSysCalls) (psc_Arch podSysCalls) defaultAction in
      if writes podName then <[profile_file podName := profile]> files else files
  end.

(** [None] where the directory cannot be made: the program ends. *)
Definition GenerateSeccompProfile (pod_syscalls : list Broker.PodSyscalls) (makes_directory : bool)
    (writes : string → bool) (pods : list string) (profileOpts : ProfileOptions) (files : directory) :
    option directory :=
  let defaultAction :=
    if String.eqb (po_DefaultAction profileOpts) EmptyString then "SCMP_ACT_ERRNO" else po_DefaultAction profileOpts in
  if makes_directory
  then Some (foldl (λ files podName, generate_profile pod_syscalls writes defaultAction podName files) files pods)
  else None.

End Generate.

(** What a profile allows, and whether it rejects or ends what it does not allow. *)
Definition allows (profile : SeccompProfile) (name : string) : Prop :=
  ∃ rule, rule ∈ sp_Syscalls profile ∧ ru_Action rule = "SCMP_ACT_ALLOW" ∧ name ∈ ru_Names rule.

(** * Theorems about the seccomp profiles *)

#[local] Open Scope string_scope.
#[local] Arguments String.append : simpl nomatch.

(** ** The reads of the broker *)

Lemma concat_join (ws : list string) : String.concat "," ws = join "," ws.
Proof. induction ws as [|w [|w' ws] IH]; [done|done|]. by cbn in *; rewrite IH. Qed.

(** The rows of the table, as a query reads them. *)
Definition syscall_rows (tbl : syscalls_table) : list PodSyscalls := (map_to_list tbl).*2.

Lemma rows_by_name (tbl : syscalls_table) (p : string) (row : PodSyscalls) :
  keyed tbl → tbl !! p = Some row → pod_syscalls_by_name p (syscall_rows tbl) = [row].
Proof.
  intros Hk Hp. unfold pod_syscalls_by_name, syscall_rows.
  assert (Hpm : map_to_list tbl ≡ₚ (p, row) :: map_to_list (delete p tbl)).
  { rewrite <- (insert_delete_id tbl p row) at 1 by done. apply map_to_list_insert, lookup_delete_eq. }
  apply Permutation_singleton_r. rewrite Hpm. cbn [fmap list_fmap snd].
  rewrite filter_cons_True by (by apply Hk). f_equiv.
  rewrite filter_none; [done|]. intros r ([p' r']&->&Hr)%list_elem_of_fmap. simpl.
  apply elem_of_map_to_list, lookup_delete_Some in Hr as [Hne Hr]. by rewrite (Hk _ _ Hr).
Qed.

(** ** The profiles *)

Section Generate.
Variable body_length : list PodSyscalls → Z.
Implicit Types (rows : list PodSyscalls) (writes : string → bool) (files : gmap string SeccompProfile).

Lemma length_app_str (a b : string) : String.length (a +:+ b) = (String.length a + String.length b)%nat.
Proof. induction a as [|x a IH]; simpl; [done|]. by rewrite IH. Qed.

Lemma profile_file_inj (p p' : string) : profile_file p = profile_file p' → p = p'.
Proof.
  unfold profile_file. revert p'. induction p as [|a p IH]; intros [|a' p']; simpl; try done.
  - intros Hl%(f_equal String.length). simpl in Hl. rewrite length_app_str in Hl. simpl in Hl. lia.
  - intros Hl%(f_equal String.length). simpl in Hl. rewrite length_app_str in Hl. simpl in Hl. lia.
  - intros [= -> Hp]. f_equal. by apply IH.
Qed.

(** The file of a pod does not depend on the other pods. *)
Lemma generate_other rows writes (action p : string) (pods : list string) files :
  p ∉ pods →
  foldl (λ files podName, generate_profile body_length rows writes action podName files) files pods !! profile_file p =
  files !! profile_file p.
Proof.
  revert files. induction pods as [|p' pods IH]; intros files; simpl; [done|].
  intros [Hne Hp]%not_elem_of_cons. rewrite IH by done. unfold generate_profile.
  destruct (GetPodSysCall _ _ _); [done|]. destruct (writes p'); [|done].
  apply lookup_insert_ne. intros Heq. by apply profile_file_inj in Heq.
Qed.

Lemma generate_self rows writes (action p : string) (pods : list string) files (psc : PodSysCall) :
  GetPodSysCall body_length rows p = inr psc → writes p = true → p ∈ pods →
  foldl (λ files podName, generate_profile body_length rows writes action podName files) files pods !! profile_file p =
  Some (BuildSeccompProfile (psc_Syscalls psc) (psc_Arch psc) action).
Proof.
  intros Hg Hw. revert files. induction pods as [|p' pods IH]; intros files Hp; simpl; [by apply not_elem_of_nil in Hp|].
  destruct (decide (p ∈ pods)) as [Hin|Hin]; [by apply IH|].
  apply elem_of_cons in Hp as [->|]; [|done]. rewrite generate_other by done.
  unfold generate_profile. by rewrite Hg, Hw, lookup_insert_eq.
Qed.

End Generate.

Section Allowed.
Context `{SyscallCacheLaws}.
Variable get_name_by_arch : Z → option string.
Variable ARCH : string.
Variable body_length : list PodSyscalls → Z.
Implicit Types (tbl : syscalls_table) (writes : string → bool) (files : gmap string SeccompProfile).

Lemma built_allows (names : list string) (arch action x : string) :
  allows (BuildSeccompProfile names arch action) x ↔ x ∈ names.
Proof.
  unfold allows, BuildSeccompProfile. simpl. setoid_rewrite list_elem_of_singleton. split.
  - by intros (rule&->&_&Hx).
  - intros Hx. by exists (MkRule names "SCMP_ACT_ALLOW").
Qed.

Lemma accepted_action (dir : option string) (action : string) (opts : ProfileOptions) :
  NewProfileOptions dir action = Some opts → po_DefaultAction opts = action ∧ String.eqb action EmptyString = false.
Proof.
  unfold NewProfileOptions. destruct (existsb _ _) eqn:He; [|done]. intros [= <-]. split; [done|].
  apply existsb_exists in He as (v&Hv&<-%String.eqb_eq). by destruct Hv as [<-|[<-|[<-|[]]]].
Qed.

(** The profile of a pod whose row holds the names [names]. *)
Lemma generated_profile tbl (p : string) (row : PodSyscalls) (names : list string) (dir : option string)
    (action : string) (opts : ProfileOptions) writes (pods : list string) files :
  keyed tbl → tbl !! p = Some row → ps_syscalls row = String.concat "," names →
  names ≠ [] → Forall (λ x, without ","%char x = true) names →
  NewProfileOptions dir action = Some opts → (body_length [row] ≤ maxBrokerResponseBytes)%Z →
  writes p = true → p ∈ pods →
  ∃ files', GenerateSeccompProfile body_length (syscall_rows tbl) true writes pods opts files = Some files' ∧
    files' !! profile_file p = Some (BuildSeccompProfile names (ps_arch row) action).
Proof.
  intros Hk Hp Hs Hne Hc Ho Hl Hw Hin. eexists. split; [reflexivity|].
  destruct (accepted_action _ _ _ Ho) as [-> ->].
  rewrite (generate_self body_length _ _ _ p pods files (MkPodSysCall names (ps_arch row))); [done| |done|done].
  unfold GetPodSysCall. rewrite (rows_by_name tbl p row) by done.
  rewrite (proj2 (Z.ltb_ge _ _)) by done. by rewrite Hs, concat_join, split_join.
Qed.


(** the profile of a machine that the advisor does not know is written although it is not valid: the
    check of profiles is not made where they are generated. *)
Theorem invalid_profile_is_written tbl (p : string) (row : PodSyscalls) (names : list string)
    (dir : option string) (action : string) (opts : ProfileOptions) writes (pods : list string) files :
  keyed tbl → tbl !! p = Some row → ps_syscalls row = String.concat "," names →
  names ≠ [] → Forall (λ x, without ","%char x = true) names → SeccompArchitectures !! ps_arch row = None →
  NewProfileOptions dir action = Some opts → (body_length [row] ≤ maxBrokerResponseBytes)%Z →
  writes p = true → p ∈ pods →
  ∃ files' profile,
    GenerateSeccompProfile body_length (syscall_rows tbl) true writes pods opts files = Some files' ∧
    files' !! profile_file p = Some profile ∧
    ValidateProfile profile = Some "at least one architecture must be specified".
Proof.
  intros Hk Hp Hs Hne Hc Harch Ho Hl Hw Hin.
  destruct (generated_profile tbl p row names dir action opts writes pods files) as (files'&Hg&Hf); try done.
  exists files', (BuildSeccompProfile names (ps_arch row) action). split_and!; [done|done|].
  destruct (accepted_action _ _ _ Ho) as [_ He].
  unfold ValidateProfile, BuildSeccompProfile. cbn [sp_DefaultAction sp_Architectures sp_Syscalls].
  by rewrite !He, Harch.
Qed.

End Allowed.

(** * At a concrete input *)

#[local] Open Scope string_scope.

Definition wit_length (rows : list PodSyscalls) : Z := (100 * Z.of_nat (length rows))%Z.

Definition wit_options : ProfileOptions := MkProfileOptions "seccomp-profiles" "SCMP_ACT_KILL".

Definition wit_entry : SyscallData := MkSyscallData "web" EmptyString ["execve"; "read"] "x86_64" 20.

Definition wit_before : syscall_delivery :=
  deliver_syscall_events wit_name "x86_64" wit_passes (new_syscall_delivery wit_pods wit_rows).

Definition wit_after : syscall_delivery :=
  deliver_syscall_event wit_name "x86_64" (PassPosted (Reached true)) wit_before.

Lemma wit_accepts : accepts_batch "x86_64" wit_before wit_batch.
Proof.
  apply Forall_cons. split; [|by apply Forall_nil]. split; [by intros ?|]. intros row.
  change (sd_pod_name _) with "web". unfold wit_before. by rewrite wit_web_absent.
Qed.

Lemma wit_commas : Forall (λ x, without ","%char x = true) (sd_syscalls wit_entry).
Proof. by repeat constructor. Qed.

Lemma wit_short (row : PodSyscalls) : (wit_length [row] ≤ maxBrokerResponseBytes)%Z.
Proof. done. Qed.


Definition wit_foreign : PodSyscalls := MkPodSyscalls "web" EmptyString "read,write" "riscv64" 5.

Lemma invalid_profile_is_written_witness :
  ∃ files' profile,
    GenerateSeccompProfile wit_length (syscall_rows {["web" := wit_foreign]}) true (λ _, true) ["web"]
      wit_options ∅ = Some files' ∧
    files' !! profile_file "web" = Some profile ∧
    ValidateProfile profile = Some "at least one architecture must be specified".
Proof.
  refine (invalid_profile_is_written wit_length {["web" := wit_foreign]} "web" wit_foreign ["read"; "write"] None
    "SCMP_ACT_KILL" wit_options (λ _, true) ["web"] ∅ _ (lookup_singleton_eq _ _) eq_refl _ _ eq_refl eq_refl
    (wit_short _) eq_refl (list_elem_of_here _ _)).
  - by apply (wit_keyed "web" "riscv64").
  - discriminate.
  - by repeat constructor.
Defined.
